(* ===== verification/_CoqProject ===== *)
-Q . S2P
Prelude.v
Calendar.v
Utility.v
Socket.v
BaseMessage.v
Messages.v
Carrier.v
SafeQueue.v
SafeHashmap.v
Timer.v
TimerThreads.v
IOBuffer.v
TcpConnection.v
Poller.v
EventLoop.v
TcpServer.v
Acceptor.v
Network.v
LoopThread.v
Broker.v
Dispatch.v
LoginServer.v
GameServer.v
GatewayServer.v
Servers.v
DBServer.v
CenterServer.v
Mongo.v
AccountOp.v
GameData.v
Cluster.v
DBGateway.v
ClusterGame.v
RThread.v
ThreadEnd.v
Threadpool.v
PoolEnd.v
LoggerBuffer.v
Logger.v
Registry.v
Subscriber.v
Conf.v
