(* ===== verification/Prelude.v ===== *)
(** * A verification library for the Warring game server

    The repository is a game server in C++ made of five programs on common
    libraries.  Clients speak a binary protocol over TCP to the login server
    ([LoginServer/]), the game server ([GameServer/]) and the gateway
    ([GatewayServer/]); those pass requests to the database server ([DBServer/])
    through Redis streams and get the answers back the same way; the service
    registry ([CenterServer/]) watches over the others through Redis too.  Below
    lie the broker ([Broker/]), the network ([Base/net/]), the messages
    ([Base/message/]), threads ([Base/thread/]) and utilities ([Base/utility/]).
    Paths are relative to [src/].

    ** The files

    A file models one component, with the names of its source; each opens with
    what it holds.  The records are the objects, the definitions the methods.

    - [BaseMessage]: the wire format, [Base/message/BaseMessage.{h,cpp}]; the
      variadic templates recurse over the list of member types.
    - [Messages]: the message classes of [Base/message/], one module each, as
      instances of the class [Message] with the laws [MessageLaws]; the codes.
    - [Carrier]: what crosses the broker, [message_carrier] of [Base/message/].
    - [Calendar], [Utility]: the clock, [Base/utility/Time.h], with local time and
      its format; the shell command, the widgets and the random data.
    - [Socket]: sockets, addresses and [Socket.cpp] of [Base/net/], on a class
      [SocketCalls] of system calls; a kernel is an instance.
    - [SafeQueue], [SafeHashmap]: the locked containers of [Base/utility/].
    - [Timer], [TimerThreads]: the time wheel, [Base/utility/Timer.{h,cpp}]; its
      two threads with [stop], [join] and the destructor.
    - [IOBuffer], [TcpConnection]: a socket's buffers and a connection's bytes,
      [Base/net/]; what the kernel answers is an argument.
    - [Poller], [EventLoop], [TcpServer]: the handlers shared by pointer, the two
      pollers, the loops and their pool, the registry of connections and the
      queue of timer tasks, [Base/net/].
    - [Acceptor]: a loop with its poller, one turn of it, and on it the acceptor
      and the constructor of a connection, [Base/net/].
    - [Network]: the server, its loops, their handlers and the descriptors of the
      kernel together, through the life of connections, with the functions the
      server's owner has set and the owner they work on.
    - [LoopThread]: a thread of its own for a loop, [Base/net/EventLoopThread.h].
    - [Broker]: the Redis client as a class [Redis] of commands that may throw,
      [RSBrokerHelper] and [RSBrokerManager] of [Broker/]; the classes of laws
      say what Redis documents, and [store] is an instance of all of them.
    - [Dispatch]: the lines the three servers repeat.
    - [LoginServer], [GameServer], [GatewayServer], [DBServer], [CenterServer]:
      the programs; an event, a turn of a loop or a handler is a definition.
    - [Servers]: the login, gateway and game servers as owners of a network: a
      [Service] is the functions one sets with the laws [Network] asks of them.
    - [Mongo], [AccountOp]: the driver as a class with the laws MongoDB
      documents, with an instance in memory, and [DBServer/db/] on it, with the
      specification of accounts and characters it implements.
    - [GameData]: the codes and tables of [GameDataTable/], and where a new character
      is put.
    - [Cluster], [ClusterGame]: the login server, or the game server, with the
      database server, the broker and the database.
    - [DBGateway]: the database server's gateway, [DBServer/DBServerGateway.h],
      and its reader threads by turns.
    - [RThread], [ThreadEnd], [Threadpool], [PoolEnd]: [Base/thread/]; the worker of
      a thread as a step relation between the moments at which other threads may
      come in, its destructor, the pool, and the pool's destructor.
    - [LoggerBuffer], [Logger]: the log, [Base/utility/Logger*].
    - [Registry], [Subscriber]: the service registry and the servers that answer
      it, through a class of what a server promises; the subscription by which
      they hear it.
    - [Conf]: the settings the programs connect with.

    A faulting operation is an [Err] of [res], with the kind of the fault: what
    C++ leaves undefined (a read out of bounds, a null dereference), a thrown
    exception nothing catches, a failed assertion.  Integers have the width of
    the code: [u64], [u32], [u16] and [sint] wrap, and the load of a thread is
    in single precision.  A string is a list of bytes.

    ** What the theorems show

    - The protocol: every class is read back as written; one handler object
      reads any sequence of packets; any bytes whatsoever are read to an end,
      with members of their types; however a stream is cut, the frames handed
      over are those sent, and the chunked queue answers as one string would.
    - The clock: texts compare as their moments do.  Sockets: each object has its
      descriptor alone and none is lost; addresses are read back as given; an
      acceptor hands each connection to its server or closes it.
    - The network: the registry of connections finds exactly the live ones
      through any run; both pollers keep what they give the kernel in step with
      their handlers; through any run of server, loops and kernel each live
      connection is watched in its own loop, no descriptor is lost, and only the
      owner's message function faults; the messages, heartbeats and consumers of
      the three servers are steps of such a run; output keeps its order; timer
      tasks are delivered.
    - The containers refine a finite map and a first-in first-out queue; the
      wheel fires at exactly the ticks a task asks for; a log keeps each thread's
      messages in order and writes them all in the end.
    - Threads lose no task and run them in order, and hold a bounded number;
      what is told to finish does; a thread that is not stopped can be destroyed,
      and only its own tasks are lost; a pool keeps its tasks while it grows and
      shrinks, and its threads can always be destroyed, though the pool itself
      cannot.  The wheel's [stop] ends its threads within sixty ticks.
    - The broker's manager deletes, moves or keeps each pending message by its
      counters, and ends; the servers' consumers deliver and acknowledge.
    - The database implements its specification; a login sent by a client comes
      back as that specification says, through all the servers; uploaded
      characters are saved, and come back to the server that loads them.  However
      the gateway's threads take turns, they serve requests as a desk does.
    - The registry drops a silent service after three passes and no fewer, and
      never a server that answers; a subscription serves it until its connection
      breaks.
    - Where the code does not do what it means to, a theorem says what it does:
      the clock of a client that logs in, scenes that cannot quit, threads
      started before they are linked, characters without an account or a scene,
      servers listed after they were dropped, partial writes of the log,
      descriptors closed twice, an acceptor whose [bind] failed, a connection
      written to after it has ended, and what is never destroyed: a stopped thread, a running timer, a loop that was not entered.

    ** Fuel and bounds

    Loops over a list are structural.  [popElems], [popStrs] and [fillLoop] take
    one more than the length of the packet, or of the list of lengths, as fuel;
    [deserialize_terminates] shows that this always suffices.  The loops over the
    event loops run once per loop, and their fuel is that number.  The two phases
    of the manager of pending messages have the length of their queue, which is
    proved enough in [handlePending_ends].  [write_loop] of the log runs along the
    answers of the kernel, and runs out only when there are too few of them.  What
    runs for ever is a step relation or one turn of the loop.

    ** What is assumed

    Assertions are enabled, the machine is x86-64 and little endian.  Sizes of
    packets and buffers are below 2^63 where a theorem says so.  Hypotheses on
    Redis, MongoDB, epoll and the sockets of the kernel are the classes of laws
    ([StreamLaws], [SortedLaws], [HashLaws], [LifeLaws], [RegistryLaws],
    [QueueLaws], [ReaderLaws], [ServiceLaws], [KindLaws], [MongoLaws],
    [EpollKernel], [SocketLaws]): one connection that holds, keys that keep the
    kind of their value; every one has an instance.  Operations under a lock are
    single steps, and what a thread of the gateway does with a message it has
    taken is one; so is a turn of a loop in [Network].  Where threads share a plain member
    without a lock, it is read and written whole; the two threads of the wheel
    take turns by ticks, the lines of the log are used one after another, and a
    pool is not resized while it is destroyed.

    ** Not modelled

    Printing, test programs and mains, the zone files behind local time, the
    engines behind random data, [UDPSocket], which is empty, and what only starts
    an asynchronous task.
    The second half of [Acceptor.h] and other code that is compiled out or never called ([getCharacter] of the
    cache, [generateToken]) are left aside.

    ** What may follow

    The interleaving of the two threads of the wheel below a tick; the lines of
    the log under a race; the pending messages of several groups over time. *)

From stdpp Require Export base numbers list gmap sets strings pretty.
From Stdlib Require Export ZArith Lia Ascii.

#[export] Set Default Goal Selector "!".

(** ** Strings

    A C++ [std::string] is a list of bytes: it may hold any byte, the zero
    byte included, so it is [list ascii] and not a null-terminated text. *)

Abbreviation str := (list ascii).

(** A string literal of the source. *)
Definition lit (s : string) : str := String.list_ascii_of_string s.
Arguments lit _%_string_scope.

(** [std::to_string] on an integer. *)
Definition to_string (z : Z) : str := lit (pretty z).

Lemma lit_inj : Inj (=) (=) lit.
Proof.
  intros s1 s2 H. unfold lit in H.
  rewrite <- (String.string_of_list_ascii_of_string s1), H.
  apply String.string_of_list_ascii_of_string.
Qed.
#[export] Existing Instance lit_inj.

#[export] Instance to_string_inj : Inj (=) (=) to_string.
Proof. intros a b H. unfold to_string in H. by apply (inj lit), (inj pretty) in H. Qed.

(** ** Faults

    What stops the C++ program, or leaves it without defined behaviour, is a
    value: an exception that nobody catches, a failed [assert], an access
    outside an allocation, a null dereference, a division by zero.
    [OutOfFuel] is the model's own: a loop that did not end within the fuel
    given; each loop has a theorem that the fuel it gets is enough. *)

Inductive fault :=
  | OutOfRange      (* std::out_of_range of a checked at() *)
  | OutOfBounds     (* a raw read or write outside the object *)
  | Uninit          (* a read of memory never written *)
  | NullDeref
  | AssertFailed
  | DivByZero
  | BadArgument     (* std::invalid_argument, bad_optional_access, ... *)
  | Uncaught        (* an exception of a client library, where nothing catches it *)
  | OutOfFuel.

#[export] Instance fault_eq_dec : EqDecision fault.
Proof. solve_decision. Defined.

Inductive res (A : Type) :=
  | Ok (a : A)
  | Err (e : fault).
Arguments Ok {_} _.
Arguments Err {_} _.

#[export] Instance res_ret : MRet res := fun A a => Ok a.
#[export] Instance res_bind : MBind res := fun A B f m =>
  match m with Ok a => f a | Err e => Err e end.
#[export] Instance res_fmap : FMap res := fun A B f m =>
  match m with Ok a => Ok (f a) | Err e => Err e end.

Definition is_ok {A} (r : res A) : bool := match r with Ok _ => true | Err _ => false end.

(** [guardr e P k]: continue with [k] when [P] holds, fault [e] otherwise. *)
Definition guardr {A} (e : fault) (b : bool) (k : res A) : res A :=
  if b then k else Err e.

Definition of_option {A} (e : fault) (o : option A) : res A :=
  match o with Some a => Ok a | None => Err e end.

Lemma bind_ok {A B} (m : res A) (f : A → res B) b :
  m ≫= f = Ok b ↔ ∃ a, m = Ok a ∧ f a = Ok b.
Proof. destruct m; cbn; naive_solver. Qed.

Lemma of_option_ok {A} e (o : option A) a : of_option e o = Ok a ↔ o = Some a.
Proof. destruct o; cbn; naive_solver. Qed.

Lemma guardr_ok {A} e b (k : res A) a : guardr e b k = Ok a ↔ b = true ∧ k = Ok a.
Proof. destruct b; cbn; naive_solver. Qed.

(** Split every bind and guard of a hypothesis that reached [Ok]. *)
Ltac inv_ok :=
  repeat match goal with
  | H : _ ≫= _ = Ok _ |- _ => apply bind_ok in H as (? & ? & H)
  | H : guardr _ _ _ = Ok _ |- _ => apply guardr_ok in H as [? H]
  | H : of_option _ _ = Ok _ |- _ => apply of_option_ok in H
  | H : Ok _ = Ok _ |- _ => injection H as H; simplify_eq
  | H : Err _ = Ok _ |- _ => discriminate H
  | H : Ok _ = Err _ |- _ => discriminate H
  | H : mret _ = Ok _ |- _ => injection H as H; simplify_eq
  | p : (_ * _)%type |- _ => destruct p
  end; simplify_eq.

(** Case analysis on the boolean test a definition branches on. *)
Ltac case_if :=
  match goal with
  | |- context [if ?b then _ else _] =>
      lazymatch b with context [if _ then _ else _] => fail | _ => destruct b eqn:? end
  end.

Ltac case_if_in H :=
  match type of H with
  | context [if ?b then _ else _] =>
      lazymatch b with context [if _ then _ else _] => fail | _ => destruct b eqn:? end
  end.

Ltac to_prop :=
  repeat match goal with
  | H : (_ && _)%bool = true |- _ => apply andb_true_iff in H as [? ?]
  | H : (_ || _)%bool = false |- _ => apply orb_false_iff in H as [? ?]
  | H : negb _ = true |- _ => apply negb_true_iff in H
  | H : negb _ = false |- _ => apply negb_false_iff in H
  | H : (_ =? _)%Z = true |- _ => apply Z.eqb_eq in H
  | H : (_ =? _)%Z = false |- _ => apply Z.eqb_neq in H
  | H : (_ <? _)%Z = true |- _ => apply Z.ltb_lt in H
  | H : (_ <? _)%Z = false |- _ => apply Z.ltb_ge in H
  | H : (_ <=? _)%Z = true |- _ => apply Z.leb_le in H
  | H : (_ <=? _)%Z = false |- _ => apply Z.leb_gt in H
  | H : (_ =? _)%nat = true |- _ => apply Nat.eqb_eq in H
  | H : (_ =? _)%nat = false |- _ => apply Nat.eqb_neq in H
  | H : (_ <? _)%nat = true |- _ => apply Nat.ltb_lt in H
  | H : (_ <? _)%nat = false |- _ => apply Nat.ltb_ge in H
  | H : (_ <=? _)%nat = true |- _ => apply Nat.leb_le in H
  | H : (_ <=? _)%nat = false |- _ => apply Nat.leb_gt in H
  | H : bool_decide _ = true |- _ => apply bool_decide_eq_true in H
  | H : bool_decide _ = false |- _ => apply bool_decide_eq_false in H
  end.

(** ** Machine integers *)

Definition wrap (w z : Z) : Z := z mod 2 ^ w.
(** [size_t], [unsigned int], [uint16_t] arithmetic. *)
Definition u64 (z : Z) : Z := wrap 64 z.
Definition u32 (z : Z) : Z := wrap 32 z.
Definition u16 (z : Z) : Z := wrap 16 z.
(** Two's complement reading of a [w]-bit pattern. *)
Definition sint (w z : Z) : Z := (z + 2 ^ (w - 1)) mod 2 ^ w - 2 ^ (w - 1).

Definition size_max : Z := 2 ^ 64.

Lemma wrap_bound w z : (0 <= w → 0 <= wrap w z < 2 ^ w)%Z.
Proof. intros. apply Z.mod_pos_bound. lia. Qed.

Lemma wrap_small w z : (0 <= z < 2 ^ w → wrap w z = z)%Z.
Proof. apply Z.mod_small. Qed.

Lemma u64_small z : (0 <= z < size_max → u64 z = z)%Z.
Proof. apply wrap_small. Qed.

Lemma u64_bound z : (0 <= u64 z < size_max)%Z.
Proof. by apply wrap_bound. Qed.

Lemma u64_nonneg z : (0 <= u64 z)%Z.
Proof. apply u64_bound. Qed.

Lemma u64_add_l a b : u64 (u64 a + b) = u64 (a + b).
Proof. unfold u64, wrap. by rewrite Zplus_mod_idemp_l. Qed.

Lemma u64_idem a : u64 (u64 a) = u64 a.
Proof. unfold u64, wrap. apply Zmod_mod. Qed.

Lemma sint_wrap w z : (1 <= w → sint w (wrap w z) = sint w z)%Z.
Proof. intros. unfold sint, wrap. by rewrite Zplus_mod_idemp_l. Qed.

Lemma sint_small w z : (1 <= w → - 2 ^ (w - 1) <= z < 2 ^ (w - 1) → sint w z = z)%Z.
Proof.
  intros Hw Hz. unfold sint.
  assert (2 ^ w = 2 * 2 ^ (w - 1))%Z as E.
  { replace w with (1 + (w - 1))%Z at 1 by lia. rewrite Z.pow_add_r by lia. lia. }
  rewrite Z.mod_small by lia. lia.
Qed.

(** ** Lists *)

Lemma mjoin_cons {A} (l : list A) ls : mjoin (l :: ls) = l ++ mjoin ls.
Proof. done. Qed.

Lemma mjoin_snoc {A} (ls : list (list A)) l : mjoin (ls ++ [l]) = mjoin ls ++ l.
Proof.
  induction ls as [|x ls IH]; [apply app_nil_r|].
  change ((x :: ls) ++ [l]) with (x :: (ls ++ [l])).
  by rewrite !mjoin_cons, IH, app_assoc.
Qed.

(** ** Bytes and little-endian words *)

Definition byte_of (z : Z) : ascii := ascii_of_N (Z.to_N (z mod 256)).
Definition byte_val (a : ascii) : Z := Z.of_N (N_of_ascii a).

Lemma byte_val_of z : byte_val (byte_of z) = (z mod 256)%Z.
Proof.
  pose proof (Z.mod_pos_bound z 256 ltac:(lia)).
  unfold byte_val, byte_of. rewrite N_ascii_embedding by lia. lia.
Qed.

Lemma byte_val_bound a : (0 <= byte_val a < 256)%Z.
Proof. unfold byte_val. pose proof (N_ascii_bounded a). lia. Qed.

Lemma byte_of_val a : byte_of (byte_val a) = a.
Proof.
  unfold byte_of. rewrite Z.mod_small by apply byte_val_bound.
  unfold byte_val. rewrite N2Z.id. apply ascii_N_embedding.
Qed.

(** The [n] low bytes of [z] in memory order (the servers run on x86-64). *)
Fixpoint to_le (n : nat) (z : Z) : str :=
  match n with
  | O => []
  | S n => byte_of z :: to_le n (z / 256)
  end.

Fixpoint of_le (bs : str) : Z :=
  match bs with
  | [] => 0
  | b :: bs => byte_val b + 256 * of_le bs
  end%Z.

Lemma length_to_le n z : length (to_le n z) = n.
Proof. revert z; induction n; intros; cbn; auto. Qed.

Lemma of_le_to_le n z : of_le (to_le n z) = (z mod 256 ^ Z.of_nat n)%Z.
Proof.
  revert z; induction n as [|n IH]; intros z; cbn [to_le of_le].
  - by rewrite Z.mod_1_r.
  - rewrite IH, byte_val_of, Nat2Z.inj_succ, Z.pow_succ_r by lia.
    rewrite Z.rem_mul_r by lia. lia.
Qed.

Lemma of_le_bound bs : (0 <= of_le bs < 256 ^ Z.of_nat (length bs))%Z.
Proof.
  induction bs as [|b bs IH]; cbn [of_le length]; [lia|].
  pose proof (byte_val_bound b). rewrite Nat2Z.inj_succ, Z.pow_succ_r by lia. lia.
Qed.

Lemma to_le_of_le bs : to_le (length bs) (of_le bs) = bs.
Proof.
  induction bs as [|b bs IH]; cbn [of_le length to_le]; [done|].
  pose proof (byte_val_bound b). f_equal.
  - rewrite <- (byte_of_val b) at 2. unfold byte_of. do 2 f_equal.
    by rewrite (Z.mul_comm 256), Z_mod_plus_full.
  - rewrite (Z.mul_comm 256), Z.div_add, Z.div_small by lia. done.
Qed.

Lemma pow256 n : (256 ^ Z.of_nat n = 2 ^ (8 * Z.of_nat n))%Z.
Proof. rewrite Z.pow_mul_r by lia. done. Qed.

(** ** Numbers in strings *)

Definition is_digit (a : ascii) : bool := (48 <=? byte_val a)%Z && (byte_val a <=? 57)%Z.
Definition is_space (a : ascii) : bool :=
  ((9 <=? byte_val a)%Z && (byte_val a <=? 13)%Z) || (byte_val a =? 32)%Z.

(** The digits at the front of [s], after those that made [acc]. *)
Fixpoint digits_value (acc : Z) (s : str) : Z :=
  match s with
  | a :: s => if is_digit a then digits_value (acc * 10 + (byte_val a - 48)) s else acc
  | [] => acc
  end.

Fixpoint skip_spaces (s : str) : str :=
  match s with
  | a :: s' => if is_space a then skip_spaces s' else s
  | [] => []
  end.

(** White space, a sign, digits; what follows is ignored.  [None]: no digit. *)
Definition strtol (s : str) : option Z :=
  let '(neg, s) := match skip_spaces s with
    | a :: s' => if (byte_val a =? 45)%Z then (true, s') else if (byte_val a =? 43)%Z then (false, s') else (false, a :: s')
    | [] => (false, [])
    end in
  match s with
  | a :: _ => if is_digit a then Some (if neg then - digits_value 0 s else digits_value 0 s)%Z else None
  | [] => None
  end.

(** [std::stoi]: [std::invalid_argument], or [std::out_of_range] of an [int]. *)
Definition stoi (s : str) : res Z :=
  match strtol s with
  | None => Err BadArgument
  | Some z => if (- 2 ^ 31 <=? z)%Z && (z <? 2 ^ 31)%Z then Ok z else Err OutOfRange
  end.

(** [std::stoul]: a minus sign negates modulo [2^64]. *)
Definition stoul (s : str) : res Z :=
  match strtol s with
  | None => Err BadArgument
  | Some z => if (- size_max <? z)%Z && (z <? size_max)%Z then Ok (u64 z) else Err OutOfRange
  end.

Lemma pretty_char_val x : (x < 10)%N →
  is_digit (pretty_N_char x) = true ∧ byte_val (pretty_N_char x) = (48 + Z.of_N x)%Z.
Proof.
  intros Hx. destruct x as [|p]; [done|]. repeat (destruct p as [p|p|]; try done; try lia).
Qed.

Lemma digits_value_go x s : digits_value 0 (lit (pretty_N_go x s)) = digits_value (Z.of_N x) (lit s).
Proof.
  revert s. induction (N.lt_wf_0 x) as [x _ IH]. intros s.
  destruct (decide (x = 0%N)) as [->|Hx]; [by rewrite pretty_N_go_0|].
  rewrite pretty_N_go_step by lia. rewrite IH by (apply N.div_lt; lia).
  destruct (pretty_char_val (x `mod` 10)%N) as [Hd Hv]; [by apply N.mod_lt|].
  unfold lit. cbn [String.list_ascii_of_string digits_value]. rewrite Hd, Hv. f_equal.
  rewrite N2Z.inj_div, N2Z.inj_mod. pose proof (Z.div_mod (Z.of_N x) 10). lia.
Qed.

Lemma to_string_nonneg z : (0 <= z)%Z → to_string z = lit (pretty (Z.to_N z)).
Proof. intros Hz. unfold to_string. f_equal. by destruct z; [| |lia]. Qed.

Lemma to_string_head z : (0 <= z)%Z → ∃ a s, to_string z = a :: s ∧ is_digit a = true.
Proof.
  intros Hz. rewrite to_string_nonneg by done. unfold pretty, pretty_N.
  case_decide; [by exists "0"%char, []|]. generalize ""%string. 
  generalize dependent (Z.to_N z). clear. intros x. induction (N.lt_wf_0 x) as [x _ IH]. intros Hx s.
  rewrite pretty_N_go_step by lia. destruct (decide (x `div` 10 = 0)%N) as [E|E].
  - rewrite E, pretty_N_go_0. eexists _, _. split; [done|]. apply pretty_char_val. by apply N.mod_lt.
  - apply IH; [apply N.div_lt; lia|done].
Qed.

Lemma digits_value_to_string z : (0 <= z)%Z → digits_value 0 (to_string z) = z.
Proof.
  intros Hz. rewrite to_string_nonneg by done. unfold pretty, pretty_N. case_decide as Hn.
  - change (0 = z)%Z. lia.
  - rewrite digits_value_go. change (Z.of_N (Z.to_N z) = z)%Z. lia.
Qed.

Lemma strtol_to_string z : (0 <= z)%Z → strtol (to_string z) = Some z.
Proof.
  intros Hz. destruct (to_string_head z Hz) as (a & s & Hs & Hd).
  assert (skip_spaces (to_string z) = to_string z) as Hk.
  { rewrite Hs. cbn. unfold is_space, is_digit in *. by repeat (case_if; to_prop; try lia). }
  unfold strtol. rewrite Hk, Hs.
  assert (byte_val a =? 45 = false)%Z as -> by (unfold is_digit in Hd; to_prop; lia).
  assert (byte_val a =? 43 = false)%Z as -> by (unfold is_digit in Hd; to_prop; lia).
  rewrite Hd, <- Hs. by rewrite digits_value_to_string.
Qed.

Lemma stoi_to_string z : (0 <= z < 2 ^ 31)%Z → stoi (to_string z) = Ok z.
Proof.
  intros Hz. unfold stoi. rewrite strtol_to_string by lia.
  rewrite (proj2 (Z.leb_le _ _)), (proj2 (Z.ltb_lt _ _)) by lia. done.
Qed.

Lemma stoul_to_string z : (0 <= z < size_max)%Z → stoul (to_string z) = Ok z.
Proof.
  intros Hz. unfold stoul. rewrite strtol_to_string by lia.
  rewrite (proj2 (Z.ltb_lt _ _)), (proj2 (Z.ltb_lt _ _)) by (unfold size_max in *; lia).
  by rewrite u64_small.
Qed.

(** [warring] is for [auto]; [warring_rw] normalises lengths. *)
Create HintDb warring.
Create Rewrite HintDb warring_rw.
#[export] Hint Rewrite length_to_le @length_app @length_drop
  @length_take @length_replicate @length_fmap : warring_rw.
#[export] Hint Resolve u64_bound u64_nonneg byte_val_bound : warring.
