(* ===== verification/Calendar.v ===== *)
(** * The clock and the calendar: [Base/utility/Time.h]

    A reading of [system_clock] is a number of nanoseconds since the epoch, and
    each call of [now] has its own: an operation that reads the clock twice has
    two arguments.  The zone of the machine is a function from seconds of the
    epoch to the offset of local time.  [localtime] and [strftime] are those of
    the C library; years are written with four digits. *)

From S2P Require Import Prelude.

Local Open Scope Z_scope.

(** ** The Gregorian calendar *)

Definition leap (y : Z) : bool :=
  (y mod 4 =? 0) && (negb (y mod 100 =? 0) || (y mod 400 =? 0)).

Definition year_days (y : Z) : Z := if leap y then 366 else 365.

Definition months (y : Z) : list Z :=
  [31; if leap y then 29 else 28; 31; 30; 31; 30; 31; 31; 30; 31; 30; 31].

(** The days from the epoch to the first of January of [y]. *)
Definition days_before (y : Z) : Z :=
  let p := y - 1 in 365 * p + p / 4 - p / 100 + p / 400 - 719162.

Lemma days_before_succ y : days_before (y + 1) = days_before y + year_days y.
Proof.
  unfold days_before, year_days, leap. replace (y + 1 - 1) with y by lia.
  destruct (Z.eqb_spec (y mod 4) 0), (Z.eqb_spec (y mod 100) 0), (Z.eqb_spec (y mod 400) 0);
    cbn [andb orb negb]; Z.div_mod_to_equations; lia.
Qed.

Lemma days_before_cycle y : days_before (y + 400) = days_before y + 146097.
Proof. unfold days_before. Z.div_mod_to_equations; lia. Qed.

Lemma leap_cycle y k : leap (y + 400 * k) = leap y.
Proof.
  unfold leap. replace (y + 400 * k) with (y + (100 * k) * 4) at 1 by lia.
  replace (y + 400 * k) with (y + (4 * k) * 100) at 1 by lia.
  replace (y + 400 * k) with (y + k * 400) by lia. by rewrite !Z_mod_plus_full.
Qed.

Lemma year_days_pos y : 365 <= year_days y <= 366.
Proof. unfold year_days. case_if; lia. Qed.

Lemma days_before_mono a b : a <= b → days_before a <= days_before b.
Proof.
  intros H. replace b with (a + Z.of_nat (Z.to_nat (b - a))) by lia. clear H.
  induction (Z.to_nat (b - a)) as [|n IH]; [by rewrite Z.add_0_r|].
  rewrite Nat2Z.inj_succ. replace (a + Z.succ (Z.of_nat n)) with (a + Z.of_nat n + 1) by lia.
  rewrite days_before_succ. pose proof (year_days_pos (a + Z.of_nat n)). lia.
Qed.

(** ** [localtime] *)

Record tm := mkTm {
  tm_sec : Z; tm_min : Z; tm_hour : Z;
  tm_mday : Z;       (* 1-31 *)
  tm_mon : Z;        (* 0-11 *)
  tm_year : Z }.     (* since 1900 *)

(** The year and the day in it, [d] days after the first of January of [y]. *)
Fixpoint year_loop (fuel : nat) (y d : Z) : Z * Z :=
  match fuel with
  | O => (y, d)
  | S fuel => if d <? year_days y then (y, d) else year_loop fuel (y + 1) (d - year_days y)
  end.

Fixpoint month_loop (ms : list Z) (m d : Z) : Z * Z :=
  match ms with
  | [] => (m, d)
  | n :: ms => if d <? n then (m, d) else month_loop ms (m + 1) (d - n)
  end.

(** The calendar repeats after 400 years, of 146097 days. *)
Definition civil (days : Z) : Z * Z * Z :=
  let '(y, d) := year_loop 400 1970 (days mod 146097) in
  let '(m, d) := month_loop (months y) 0 d in
  (y + 400 * (days / 146097), m, d + 1).

Definition broken_down (secs : Z) : tm :=
  let '(y, m, d) := civil (secs / 86400) in
  let r := secs mod 86400 in
  mkTm (r mod 60) (r / 60 mod 60) (r / 3600) d m (y - 1900).

(** ** [strftime] with [%F-%T] *)

(** [setw(n)] with [setfill('0')], and the fields of [strftime]. *)
Definition pad (n : nat) (s : str) : str := replicate (n - length s) "0"%char ++ s.

Definition strftime_FT (t : tm) : str :=
  pad 4 (to_string (tm_year t + 1900)) ++ lit "-" ++ pad 2 (to_string (tm_mon t + 1)) ++ lit "-" ++
  pad 2 (to_string (tm_mday t)) ++ lit "-" ++ pad 2 (to_string (tm_hour t)) ++ lit ":" ++
  pad 2 (to_string (tm_min t)) ++ lit ":" ++ pad 2 (to_string (tm_sec t)).

(** ** The clock *)

Definition secondsSinceEpoch (now : Z) : Z := Z.quot now 1000000000.
Definition millisecondsSinceEpoch (now : Z) : Z := Z.quot now 1000000.
Definition microsecondsSinceEpoch (now : Z) : Z := Z.quot now 1000.

Section Time.
Context (zone : Z → Z).

Record Time := mkTime {
  mRoughDate : str;
  mSecondsSinceEpoch : Z }.

Definition localtime (tt : Z) : tm := broken_down (tt + zone tt).

Definition getRough (now : Z) : str := strftime_FT (localtime (Z.quot now 1000000000)).

(** The constructor reads the clock twice. *)
Definition newTime (now0 now1 : Z) : Time := mkTime (getRough now0) (secondsSinceEpoch now1).

Definition with_micros (rough : str) (microseconds : Z) : str :=
  rough ++ lit "." ++ pad 6 (to_string microseconds).

(** [operator()]. *)
Definition call (now0 now1 : Z) : str :=
  with_micros (getRough now1) (Z.rem (microsecondsSinceEpoch now0) 1000000).

(** [now1] is read only when [lazy], [now2] only when the date is not reused. *)
Definition getNow (t : Time) (lazy : bool) (now0 now1 now2 : Z) : str :=
  let microseconds := Z.rem (microsecondsSinceEpoch now0) 1000000 in
  if lazy && (mSecondsSinceEpoch t =? secondsSinceEpoch now1)
  then with_micros (mRoughDate t) microseconds
  else with_micros (getRough now2) microseconds.

End Time.

(** ** [Chronometer] *)

(** [steady_clock]; [unit] is the period of [T] in nanoseconds. *)
Definition newChronometer (now : Z) : Z := now.
Definition getElapsed (unit mTimepoint now : Z) : Z := Z.quot (now - mTimepoint) unit.

(** ** The order of strings *)

(** [operator<] of [std::string]. *)
Fixpoint str_ltb (a b : str) : bool :=
  match a, b with
  | [], [] => false
  | [], _ :: _ => true
  | _ :: _, [] => false
  | x :: a, y :: b =>
      (byte_val x <? byte_val y) || ((byte_val x =? byte_val y) && str_ltb a b)
  end.

Lemma str_ltb_irrefl a : str_ltb a a = false.
Proof. induction a as [|x a IH]; cbn; [done|]. by rewrite Z.ltb_irrefl, Z.eqb_refl. Qed.

Lemma str_ltb_same p a b : str_ltb (p ++ a) (p ++ b) = str_ltb a b.
Proof. induction p as [|x p IH]; cbn; [done|]. by rewrite Z.ltb_irrefl, Z.eqb_refl, IH. Qed.

Lemma str_ltb_app a b c d :
  length a = length b → str_ltb a b = true → str_ltb (a ++ c) (b ++ d) = true.
Proof.
  revert b. induction a as [|x a IH]; intros [|y b] Hl H; try done. cbn in *.
  apply orb_true_iff in H as [->|H]; [done|]. apply andb_true_iff in H as [-> H].
  rewrite (IH b); auto using orb_true_r.
Qed.

Abbreviation digits := (Forall (λ a, is_digit a = true)).

Lemma digits_value_shift acc s : digits s →
  digits_value acc s = acc * 10 ^ Z.of_nat (length s) + digits_value 0 s.
Proof.
  intros Hs. revert acc. induction Hs as [|x s Hx _ IH]; intros acc; [cbn; lia|].
  cbn [digits_value length]. rewrite Hx, IH, (IH (0 * 10 + _)), Nat2Z.inj_succ, Z.pow_succ_r by lia. lia.
Qed.

Lemma digits_value_bound s : digits s → 0 <= digits_value 0 s < 10 ^ Z.of_nat (length s).
Proof.
  induction 1 as [|x s Hx Hs IH]; [cbn; lia|]. cbn [digits_value length].
  rewrite Hx, digits_value_shift, Nat2Z.inj_succ, Z.pow_succ_r by (done || lia).
  unfold is_digit in Hx. to_prop. nia.
Qed.

(** Numbers of one width compare as their values. *)
Lemma digits_ltb a b : digits a → digits b → length a = length b →
  str_ltb a b = (digits_value 0 a <? digits_value 0 b).
Proof.
  intros Ha. revert b. induction Ha as [|x a Hx Ha IH]; intros [|y b] Hb Hl; try done.
  apply Forall_cons in Hb as [Hy Hb]. injection Hl as Hl. cbn [str_ltb digits_value]. rewrite Hx, Hy, IH by done.
  pose proof (digits_value_bound a Ha). pose proof (digits_value_bound b Hb).
  rewrite (digits_value_shift (_ + _) a), (digits_value_shift (_ + _) b), Hl in * by done.
  assert (0 < 10 ^ Z.of_nat (length b)) by lia.
  destruct (Z.ltb_spec (byte_val x) (byte_val y)), (Z.eqb_spec (byte_val x) (byte_val y)); cbn [orb andb]; try lia.
  - symmetry. apply Z.ltb_lt. nia.
  - symmetry. apply Z.ltb_ge. nia.
Qed.

Lemma pretty_go_width k x s : Z.of_N x < 10 ^ Z.of_nat k → digits (lit s) →
  digits (lit (pretty_N_go x s)) ∧ (length (lit (pretty_N_go x s)) <= k + length (lit s))%nat.
Proof.
  revert x s. induction k as [|k IH]; intros x s Hx Hs.
  { assert (x = 0%N) as -> by lia. rewrite pretty_N_go_0. auto. }
  destruct (decide (x = 0%N)) as [->|Hn]; [rewrite pretty_N_go_0; split; [done|lia]|].
  rewrite pretty_N_go_step by lia. rewrite Nat2Z.inj_succ, Z.pow_succ_r in Hx by lia.
  destruct (pretty_char_val (x `mod` 10)%N) as [Hd _]; [by apply N.mod_lt|].
  destruct (IH (x `div` 10)%N (String (pretty_N_char (x `mod` 10)) s)) as [H1 H2].
  - rewrite N2Z.inj_div. apply Z.div_lt_upper_bound; lia.
  - unfold lit. cbn [String.list_ascii_of_string]. by constructor.
  - split; [done|]. unfold lit in H2 at 2. cbn [String.list_ascii_of_string length] in H2. unfold lit at 2. lia.
Qed.

Lemma to_string_width k z : (0 < k)%nat → 0 <= z < 10 ^ Z.of_nat k →
  digits (to_string z) ∧ (length (to_string z) <= k)%nat.
Proof.
  intros Hk Hz. rewrite to_string_nonneg by lia. unfold pretty, pretty_N. case_decide.
  - split; [by repeat constructor|cbn; lia].
  - rewrite <- (Nat.add_0_r k). apply (pretty_go_width k _ ""); [lia|constructor].
Qed.

Lemma digits_value_zeros n s : digits_value 0 (replicate n "0"%char ++ s) = digits_value 0 s.
Proof. by induction n as [|n IH]; [|cbn in *]. Qed.

(** What [pad] makes of a number that fits. *)
Lemma pad_spec n z : (0 < n)%nat → 0 <= z < 10 ^ Z.of_nat n →
  digits (pad n (to_string z)) ∧ length (pad n (to_string z)) = n ∧ digits_value 0 (pad n (to_string z)) = z.
Proof.
  intros Hn Hz. destruct (to_string_width n z Hn Hz) as [Hd Hl]. unfold pad. repeat split.
  - apply Forall_app. split; [|done]. by apply Forall_replicate.
  - autorewrite with warring_rw. lia.
  - rewrite digits_value_zeros. apply digits_value_to_string. lia.
Qed.

Lemma pad_ltb n a b : (0 < n)%nat → 0 <= a < 10 ^ Z.of_nat n → 0 <= b < 10 ^ Z.of_nat n →
  str_ltb (pad n (to_string a)) (pad n (to_string b)) = (a <? b).
Proof.
  intros Hn Ha Hb. destruct (pad_spec n a Hn Ha) as (? & ? & Hva), (pad_spec n b Hn Hb) as (? & ? & Hvb).
  rewrite digits_ltb by congruence. by rewrite Hva, Hvb.
Qed.

Lemma length_pad n z : (0 < n)%nat → 0 <= z < 10 ^ Z.of_nat n → length (pad n (to_string z)) = n.
Proof. intros. by apply pad_spec. Qed.

Example epoch_str : getRough (λ _, 0) 0 = lit "1970-01-01-00:00:00".
Proof. by vm_compute. Qed.
Example some_day : getRough (λ _, 28800) 1709210096000000000 = lit "2024-02-29-20:34:56".
Proof. by vm_compute. Qed.

(** ** Days and dates *)

Definition sum_days (ms : list Z) : Z := foldr Z.add 0 ms.

(** The number of days from the epoch to a date, month from 0 and day from 1. *)
Definition days_of (date : Z * Z * Z) : Z :=
  let '(y, m, d) := date in days_before y + sum_days (take (Z.to_nat m) (months y)) + (d - 1).

Definition valid_date (date : Z * Z * Z) : Prop :=
  let '(y, m, d) := date in
  ∃ n, 0 <= m ∧ months y !! Z.to_nat m = Some n ∧ 1 <= d <= n.

Lemma year_loop_spec fuel y d y' d' :
  0 <= d < days_before (y + Z.of_nat fuel) - days_before y →
  year_loop fuel y d = (y', d') →
  days_before y' + d' = days_before y + d ∧ 0 <= d' < year_days y' ∧ y <= y' < y + Z.of_nat fuel.
Proof.
  revert y d. induction fuel as [|fuel IH]; intros y d Hd H; cbn [year_loop] in H.
  - rewrite Z.add_0_r in Hd. lia.
  - case_if_in H; to_prop; [simplify_eq; lia|]. apply IH in H.
    + pose proof (days_before_succ y). lia.
    + replace (y + 1 + Z.of_nat fuel) with (y + Z.of_nat (S fuel)) by lia. rewrite days_before_succ. lia.
Qed.

Lemma month_loop_spec ms m d m' d' :
  0 <= d < sum_days ms → month_loop ms m d = (m', d') →
  ∃ k n, m' = m + Z.of_nat k ∧ ms !! k = Some n ∧ 0 <= d' < n ∧ d = sum_days (take k ms) + d'.
Proof.
  revert m d. induction ms as [|n ms IH]; intros m d Hd H; cbn in *; [lia|].
  case_if_in H; to_prop.
  - simplify_eq. exists 0%nat, n. cbn. repeat split; lia.
  - apply IH in H as (k & n' & -> & Hk & Hd' & Hs); [|unfold sum_days; lia].
    exists (S k), n'. cbn [take sum_days foldr lookup list_lookup]. repeat split; try done; try lia.
    fold (sum_days (take k ms)). lia.
Qed.

Lemma months_sum y : sum_days (months y) = year_days y.
Proof. unfold months, year_days. by case_if. Qed.

Lemma months_cycle y k : months (y + 400 * k) = months y.
Proof. unfold months. by rewrite leap_cycle. Qed.

Lemma days_before_cycles y k : days_before (y + 400 * k) = days_before y + 146097 * k.
Proof. unfold days_before. Z.div_mod_to_equations; lia. Qed.

(** The date of a day is a date, and the only one of that day. *)
Lemma civil_days n : valid_date (civil n) ∧ days_of (civil n) = n.
Proof.
  unfold civil. destruct (year_loop _ _ _) as [y r] eqn:Hy.
  pose proof (Z.mod_pos_bound n 146097 ltac:(lia)) as Hn.
  apply year_loop_spec in Hy as (Hy & Hr & _); [|change (0 <= n mod 146097 < 146097); lia].
  change (days_before 1970) with 0 in Hy.
  destruct (month_loop _ _ _) as [m d] eqn:Hm. rewrite <- months_sum in Hr.
  apply month_loop_spec in Hm as (k & l & -> & Hk & Hd & Hs); [|done].
  unfold valid_date, days_of. rewrite months_cycle, days_before_cycles, Z.add_0_l, Nat2Z.id. split.
  - exists l. repeat split; try done; lia.
  - pose proof (Z.div_mod n 146097). lia.
Qed.

Lemma months_pos y : Forall (λ n, 0 < n) (months y).
Proof. unfold months. repeat constructor; try case_if; lia. Qed.

Lemma sum_days_take ms k n : Forall (λ n, 0 < n) ms → ms !! k = Some n →
  sum_days (take (S k) ms) = sum_days (take k ms) + n.
Proof.
  revert k. induction ms as [|x ms IH]; intros [|k] Hp Hk; simplify_eq/=; [destruct ms; cbn; lia|].
  apply Forall_cons in Hp as [_ Hp]. rewrite <- Z.add_assoc, <- (IH k) by done. done.
Qed.

Lemma sum_days_mono ms i j : Forall (λ n, 0 < n) ms → (i <= j)%nat →
  sum_days (take i ms) <= sum_days (take j ms).
Proof.
  intros Hp. revert i j. induction Hp as [|x ms Hx Hp IH]; intros i j H; [by rewrite !take_nil|].
  destruct i as [|i], j as [|j]; cbn [take sum_days foldr]; try lia.
  - specialize (IH 0%nat j ltac:(lia)). rewrite take_0 in IH. unfold sum_days in *. cbn [foldr] in IH. lia.
  - specialize (IH i j ltac:(lia)). unfold sum_days in *. lia.
Qed.

(** Dates in the order of year, month and day. *)
Definition date_ltb (a b : Z * Z * Z) : bool :=
  let '(y, m, d) := a in
  let '(y', m', d') := b in
  (y <? y') || ((y =? y') && ((m <? m') || ((m =? m') && (d <? d')))).

Lemma valid_date_year y m d : valid_date (y, m, d) → 0 <= m < 12 ∧ 1 <= d <= 31 ∧
  days_before y <= days_of (y, m, d) < days_before (y + 1).
Proof.
  intros (n & Hm & Hn & Hd). pose proof (lookup_lt_Some _ _ _ Hn) as Hl. cbn in Hl.
  assert (n <= 31) as Hn'.
  { refine (Forall_lookup_1 (λ n, n <= 31) (months y) _ _ _ Hn). unfold months. repeat constructor; try case_if; lia. }
  repeat split; try lia; unfold days_of.
  - pose proof (sum_days_mono (months y) 0 (Z.to_nat m) (months_pos y) ltac:(lia)) as H. cbn in H. lia.
  - rewrite days_before_succ, <- months_sum.
    pose proof (sum_days_take _ _ _ (months_pos y) Hn).
    pose proof (sum_days_mono (months y) (S (Z.to_nat m)) 12 (months_pos y) ltac:(lia)) as H'.
    change (take 12 (months y)) with (months y) in H'. lia.
Qed.

Lemma date_order a b : valid_date a → valid_date b → days_of a < days_of b → date_ltb a b = true.
Proof.
  destruct a as [[y m] d], b as [[y' m'] d']. intros Ha Hb H.
  pose proof (valid_date_year _ _ _ Ha) as (? & ? & Hya). pose proof (valid_date_year _ _ _ Hb) as (? & ? & Hyb).
  destruct Ha as (n & ? & Hn & ?), Hb as (n' & ? & Hn' & ?). cbn [date_ltb].
  destruct (Z.ltb_spec y y'); [done|]. destruct (Z.eqb_spec y y') as [->|]; cbn [orb andb].
  2:{ pose proof (days_before_mono (y' + 1) y ltac:(lia)). lia. }
  unfold days_of in H. destruct (Z.ltb_spec m m'); [done|].
  destruct (Z.eqb_spec m m') as [->|]; cbn [orb andb]; [apply Z.ltb_lt; lia|].
  pose proof (sum_days_take _ _ _ (months_pos y') Hn').
  pose proof (sum_days_mono (months y') (S (Z.to_nat m')) (Z.to_nat m) (months_pos y') ltac:(lia)). lia.
Qed.

(** ** Moments and their text *)

(** From the year 0 to the year 9999. *)
Definition four_digits (secs : Z) : Prop :=
  days_before 0 * 86400 <= secs < days_before 10000 * 86400.

Lemma str_ltb_asym a b : str_ltb a b = true → str_ltb b a = false.
Proof.
  revert b. induction a as [|x a IH]; intros [|y b] H; try done. cbn in *.
  destruct (Z.ltb_spec (byte_val x) (byte_val y)), (Z.ltb_spec (byte_val y) (byte_val x)),
    (Z.eqb_spec (byte_val x) (byte_val y)), (Z.eqb_spec (byte_val y) (byte_val x)); cbn in *; try lia; auto.
Qed.

Lemma field_ltb n a b u v : (0 < n)%nat → 0 <= a < 10 ^ Z.of_nat n → 0 <= b < 10 ^ Z.of_nat n →
  str_ltb (pad n (to_string a) ++ u) (pad n (to_string b) ++ v) = (a <? b) || ((a =? b) && str_ltb u v).
Proof.
  intros Hn Ha Hb. pose proof (pad_ltb n a b Hn Ha Hb) as H. pose proof (pad_ltb n b a Hn Hb Ha) as H'.
  assert (length (pad n (to_string a)) = length (pad n (to_string b))) as Hl by (by rewrite !length_pad).
  destruct (Z.ltb_spec a b).
  - by rewrite str_ltb_app.
  - destruct (Z.eqb_spec a b) as [->|]; [apply str_ltb_same|].
    apply str_ltb_asym, str_ltb_app; [done|]. rewrite H'. apply Z.ltb_lt. lia.
Qed.

Lemma civil_fields s : four_digits s →
  let '(y, m, d) := civil (s / 86400) in 0 <= y < 10000 ∧ 0 <= m < 12 ∧ 1 <= d <= 31.
Proof.
  intros Hs. destruct (civil_days (s / 86400)) as [Hv Hd]. destruct (civil _) as [[y m] d].
  apply valid_date_year in Hv as (? & ? & Hy). rewrite Hd in Hy. repeat split; try lia.
  - destruct (Z.le_gt_cases 0 y); [done|]. pose proof (days_before_mono (y + 1) 0 ltac:(lia)).
    unfold four_digits in Hs. Z.div_mod_to_equations; lia.
  - destruct (Z.lt_ge_cases y 10000); [done|]. pose proof (days_before_mono 10000 y ltac:(lia)).
    unfold four_digits in Hs. Z.div_mod_to_equations; lia.
Qed.

Lemma rough_ltb_mono s s' : four_digits s → four_digits s' → s < s' →
  str_ltb (strftime_FT (broken_down s)) (strftime_FT (broken_down s')) = true.
Proof.
  intros Hs Hs' Hlt. pose proof (civil_fields s Hs) as Hf. pose proof (civil_fields s' Hs') as Hf'.
  destruct (civil_days (s / 86400)) as [Hv Hd], (civil_days (s' / 86400)) as [Hv' Hd'].
  assert (s / 86400 <= s' / 86400) as Hle by (apply Z.div_le_mono; lia).
  assert (s / 86400 < s' / 86400 → date_ltb (civil (s / 86400)) (civil (s' / 86400)) = true) as Ho
    by (intros; apply date_order; [done..|lia]).
  assert (s / 86400 = s' / 86400 → civil (s / 86400) = civil (s' / 86400)) as He by congruence.
  unfold broken_down, strftime_FT. destruct (civil (s / 86400)) as [[y m] d], (civil (s' / 86400)) as [[y' m'] d'].
  cbn [tm_year tm_mon tm_mday tm_hour tm_min tm_sec]. replace (y - 1900 + 1900) with y by lia.
  replace (y' - 1900 + 1900) with y' by lia. clear Hd Hd' Hv Hv' Hs Hs'. cbn [date_ltb] in Ho.
  rewrite <- (app_nil_r (pad 2 (to_string (s mod 86400 mod 60)))), <- (app_nil_r (pad 2 (to_string (s' mod 86400 mod 60)))).
  rewrite !(field_ltb 4) by (cbn; lia). rewrite !str_ltb_same.
  repeat (rewrite (field_ltb 2) by (cbn; Z.div_mod_to_equations; lia); rewrite ?str_ltb_same).
  destruct (Z.lt_ge_cases (s / 86400) (s' / 86400)) as [H|H].
  - specialize (Ho H). lia.
  - assert (s / 86400 = s' / 86400) as E by lia. specialize (He E). simplify_eq.
    Z.div_mod_to_equations; lia.
Qed.

Lemma rough_ltb s s' : four_digits s → four_digits s' →
  str_ltb (strftime_FT (broken_down s)) (strftime_FT (broken_down s')) = (s <? s').
Proof.
  intros Hs Hs'. destruct (Z.ltb_spec s s'); [by apply rough_ltb_mono|].
  destruct (Z.eq_dec s s') as [->|]; [apply str_ltb_irrefl|].
  apply str_ltb_asym, rough_ltb_mono; [done..|lia].
Qed.

Lemma length_strftime s : four_digits s → length (strftime_FT (broken_down s)) = 19%nat.
Proof.
  intros Hs. pose proof (civil_fields s Hs) as Hf. unfold broken_down, strftime_FT.
  destruct (civil (s / 86400)) as [[y m] d]. cbn [tm_year tm_mon tm_mday tm_hour tm_min tm_sec].
  rewrite !length_app. rewrite (length_pad 4), !(length_pad 2) by (cbn; Z.div_mod_to_equations; lia). done.
Qed.

(** A date of seconds followed by six digits. *)
Lemma stamped_ltb s s' m m' : four_digits s → four_digits s' → 0 <= m < 1000000 → 0 <= m' < 1000000 →
  str_ltb (with_micros (strftime_FT (broken_down s)) m) (with_micros (strftime_FT (broken_down s')) m') =
  (s * 1000000 + m <? s' * 1000000 + m').
Proof.
  intros Hs Hs' Hm Hm'. pose proof (rough_ltb s s' Hs Hs') as H. pose proof (rough_ltb s' s Hs' Hs) as H'.
  assert (length (strftime_FT (broken_down s)) = length (strftime_FT (broken_down s'))) as Hl
    by (by rewrite !length_strftime).
  unfold with_micros. destruct (Z.lt_trichotomy s s') as [Hlt|[->|Hgt]].
  - rewrite str_ltb_app; [lia|done|]. rewrite H. lia.
  - rewrite !str_ltb_same, (pad_ltb 6) by (cbn; lia). lia.
  - rewrite str_ltb_asym; [lia|]. apply str_ltb_app; [done|]. rewrite H'. lia.
Qed.

(** ** What the clock shows *)

Section Clock.
Context (zone : Z → Z).

(** The text of one moment. *)
Definition stamp (now : Z) : str := call zone now now.

Lemma seconds_shift t k : 0 <= t → 0 <= t + 1000000000 * k →
  secondsSinceEpoch (t + 1000000000 * k) = secondsSinceEpoch t + k.
Proof. intros. unfold secondsSinceEpoch. rewrite !Z.quot_div_nonneg by lia. Z.div_mod_to_equations; lia. Qed.

Lemma micros_shift t k : 0 <= t → 0 <= t + 1000000000 * k →
  Z.rem (microsecondsSinceEpoch (t + 1000000000 * k)) 1000000 = Z.rem (microsecondsSinceEpoch t) 1000000.
Proof.
  intros. unfold microsecondsSinceEpoch. rewrite !Z.quot_div_nonneg by lia.
  rewrite !Z.rem_mod_nonneg by (try apply Z.div_pos; lia). Z.div_mod_to_equations; lia.
Qed.

(** The fraction of one reading with the second of another. *)
Lemma mixed_stamp t s : 0 <= t → 0 <= s →
  with_micros (getRough zone s) (Z.rem (microsecondsSinceEpoch t) 1000000) =
  stamp (t + 1000000000 * (secondsSinceEpoch s - secondsSinceEpoch t)).
Proof.
  intros Ht Hs. set (k := secondsSinceEpoch s - secondsSinceEpoch t).
  assert (0 <= t + 1000000000 * k) as Hk.
  { subst k. unfold secondsSinceEpoch. rewrite !Z.quot_div_nonneg by lia. Z.div_mod_to_equations; lia. }
  unfold stamp, call. rewrite micros_shift by done. f_equal. unfold getRough.
  pose proof (seconds_shift t k Ht Hk) as Hsec. unfold secondsSinceEpoch in Hsec. rewrite Hsec.
  subst k. unfold secondsSinceEpoch. do 2 f_equal. lia.
Qed.

(** Every clock of 64 bits is in the range of four digits, in every zone. *)
Lemma clock_four_digits t c : 0 <= t < 2 ^ 63 → -86400 <= c <= 86400 →
  four_digits (Z.quot t 1000000000 + c).
Proof.
  intros Ht Hc. unfold four_digits. rewrite Z.quot_div_nonneg by lia.
  change (days_before 0) with (-719528). change (days_before 10000) with 2932897.
  Z.div_mod_to_equations; lia.
Qed.

Lemma stamp_ltb t t' c : 0 <= t < 2 ^ 63 → 0 <= t' < 2 ^ 63 → -86400 <= c <= 86400 →
  zone (secondsSinceEpoch t) = c → zone (secondsSinceEpoch t') = c →
  str_ltb (stamp t) (stamp t') = (microsecondsSinceEpoch t <? microsecondsSinceEpoch t').
Proof.
  intros Ht Ht' Hc Hz Hz'. pose proof (clock_four_digits t c Ht Hc) as Hf.
  pose proof (clock_four_digits t' c Ht' Hc) as Hf'.
  unfold stamp, call, getRough, localtime. unfold secondsSinceEpoch in Hz, Hz'. rewrite Hz, Hz'.
  unfold microsecondsSinceEpoch. rewrite !(Z.quot_div_nonneg _ 1000), !Z.rem_mod_nonneg by (try apply Z.div_pos; lia).
  rewrite stamped_ltb by (done || apply Z.mod_pos_bound; lia). rewrite !Z.quot_div_nonneg by lia.
  destruct (Z.ltb_spec (t / 1000) (t' / 1000)); [apply Z.ltb_lt|apply Z.ltb_ge]; Z.div_mod_to_equations; lia.
Qed.

(** The fraction is of the first reading, the rest of the second. *)
Lemma call_stamp t0 t1 : 0 <= t0 → 0 <= t1 →
  call zone t0 t1 = stamp (t0 + 1000000000 * (secondsSinceEpoch t1 - secondsSinceEpoch t0)).
Proof. apply mixed_stamp. Qed.

(** Two calls, each of whose readings fall in one second, show texts that
    compare as strings just as their moments do, to the microsecond, while the
    offset of local time stays the same. *)
Theorem clock_order t0 t1 u0 u1 c :
  0 <= t0 <= t1 → 0 <= u0 <= u1 → t1 < 2 ^ 63 → u1 < 2 ^ 63 → -86400 <= c <= 86400 →
  secondsSinceEpoch t0 = secondsSinceEpoch t1 → secondsSinceEpoch u0 = secondsSinceEpoch u1 →
  zone (secondsSinceEpoch t0) = c → zone (secondsSinceEpoch u0) = c →
  str_ltb (call zone t0 t1) (call zone u0 u1) = (microsecondsSinceEpoch t0 <? microsecondsSinceEpoch u0).
Proof.
  intros ????? Ht Hu ??. rewrite !call_stamp, <- Ht, <- Hu, !Z.sub_diag, !Z.mul_0_r, !Z.add_0_r by lia.
  apply (stamp_ltb _ _ c); (done || lia).
Qed.

(** A call whose second reading falls in the next second shows its moment
    one second late, and a call after it may show an earlier one. *)
Theorem clock_goes_back t0 t1 u0 u1 c :
  0 <= t0 → t1 < 2 ^ 63 → t1 <= u0 <= u1 → u1 < 2 ^ 63 - 1000000000 → -86400 <= c <= 86400 →
  secondsSinceEpoch t1 = secondsSinceEpoch t0 + 1 →
  secondsSinceEpoch u0 = secondsSinceEpoch t1 → secondsSinceEpoch u1 = secondsSinceEpoch t1 →
  microsecondsSinceEpoch u0 < microsecondsSinceEpoch t0 + 1000000 →
  zone (secondsSinceEpoch t1) = c →
  call zone t0 t1 = stamp (t0 + 1000000000) ∧ str_ltb (call zone u0 u1) (call zone t0 t1) = true.
Proof.
  intros ? ? ? ? Hc H1 Hu0 Hu1 Hm Hz.
  assert (t0 <= t1) as Ht by (unfold secondsSinceEpoch in H1; Z.quot_rem_to_equations; lia).
  rewrite !call_stamp, Hu1, Hu0, H1 by lia.
  rewrite Z.sub_diag, Z.mul_0_r, Z.add_0_r, Z.add_simpl_l, Z.mul_1_r. split; [done|].
  pose proof (seconds_shift t0 1 ltac:(lia) ltac:(lia)) as Hs. rewrite Z.mul_1_r in Hs.
  rewrite (stamp_ltb _ _ c) by (lia || congruence). apply Z.ltb_lt.
  unfold microsecondsSinceEpoch in *. Z.quot_rem_to_equations; lia.
Qed.

(** A call of [getNow] within one second shows that second; the one second
    in which the date of the constructor is reused shows that date, which is of
    the second before when the constructor's readings fell in two seconds. *)
Theorem lazy_clock r0 r1 n0 n1 n2 :
  0 <= r0 <= r1 → 0 <= n0 → 0 <= n1 → 0 <= n2 →
  secondsSinceEpoch n1 = secondsSinceEpoch n0 → secondsSinceEpoch n2 = secondsSinceEpoch n0 →
  getNow zone (newTime zone r0 r1) false n0 n1 n2 = stamp n0 ∧
  getNow zone (newTime zone r0 r1) true n0 n1 n2 =
    (if secondsSinceEpoch n0 =? secondsSinceEpoch r1
     then stamp (n0 - 1000000000 * (secondsSinceEpoch r1 - secondsSinceEpoch r0)) else stamp n0).
Proof.
  intros ? ? ? ? H1 H2. unfold getNow. cbn [mSecondsSinceEpoch mRoughDate newTime andb].
  rewrite !mixed_stamp, H1, H2, Z.sub_diag, Z.mul_0_r, Z.add_0_r by lia. split; [done|].
  rewrite Z.eqb_sym. case_if; to_prop; [|done]. f_equal. lia.
Qed.

End Clock.

Lemma clock_order_witness :
  str_ltb (call (λ _, 3600) 1999999000 1999999999) (call (λ _, 3600) 2000000000 2000001000) = true.
Proof. rewrite (clock_order (λ _, 3600) _ _ _ _ 3600); [reflexivity|lia|lia|lia|lia|lia|reflexivity..]. Defined.

Lemma clock_goes_back_witness :
  str_ltb (call (λ _, 0) 2000001000 2000002000) (call (λ _, 0) 1999999000 2000000000) = true.
Proof. apply (clock_goes_back (λ _, 0) _ _ _ _ 0); try lia; reflexivity. Defined.

Lemma lazy_clock_witness :
  getNow (λ _, 0) (newTime (λ _, 0) 1999999999 2000000000) true 2500000000 2500000001 2500000002 =
  lit "1970-01-01-00:00:01.500000".
Proof.
  rewrite (proj2 (lazy_clock (λ _, 0) 1999999999 2000000000 2500000000 2500000001 2500000002
    ltac:(lia) ltac:(lia) ltac:(lia) ltac:(lia) eq_refl eq_refl)). vm_compute. reflexivity.
Defined.
