(* ===== verification/Utility.v ===== *)
(** * Small utilities: [Base/utility/{Cmd,Widgets,randomData}.h]

    What a command prints, what the random device and the distributions of the
    library draw, and the names the compiler gives to types are parameters. *)

From S2P Require Import Prelude Calendar.

Local Open Scope Z_scope.

(** ** [Cmd] *)

(** [opened] counts the pipes that are open; a destructor closes one. *)
Record Cmd := mkCmd {
  mFP : bool;            (* not null *)
  mBuff : str;           (* 1024 bytes *)
  opened : Z }.

Definition zero_byte : ascii := byte_of 0.

Definition newCmd : Cmd := mkCmd false (replicate 1024 zero_byte) 0.

(** The bytes before the first zero; none is a read behind the buffer. *)
Fixpoint c_string (s : str) : res str :=
  match s with
  | [] => Err OutOfBounds
  | a :: s => if byte_val a =? 0 then Ok [] else t ← c_string s; Ok (a :: t)
  end.

(** [operator()]; [out] is what the command prints, [None] when [popen] fails.
    [pop_back] of an empty string is not defined. *)
Definition cmd_call (out : option str) (c : Cmd) : res (Cmd * str) :=
  match out with
  | None => Err NullDeref
  | Some out =>
      let mBuff := take 1024 (out ++ replicate 1024 zero_byte) in
      let c := mkCmd true mBuff (opened c + 1) in
      result ← c_string mBuff;
      if bool_decide (result = []) then Err OutOfBounds
      else Ok (c, take (length result - 1) result)
  end.

(** The destructor: [pclose] of a null pointer is not defined. *)
Definition destroyCmd (c : Cmd) : res Z :=
  if mFP c then Ok (opened c - 1) else Err NullDeref.

(** ** [Widgets] *)

Definition getTypeName {T} (type_name : T → str) (t : T) : str := type_name t.
(** The thread's identifier, read as a [size_t]. *)
Definition getTID (tid : Z) : str := to_string (u64 tid).
Definition getTimestamp (now : Z) : str := to_string (microsecondsSinceEpoch now).

(** ** [RandomData] *)

Section Random.
(** The engine and the distributions of the library, and doubles. *)
Context {Eng D : Type} (mt19937 : Z → Eng).
Context (uniform_int : Z → Z → Eng → Z) (uniform_real : D → D → Eng → D) (bernoulli : D → Eng → Z)
  (binomial : Z → D → Eng → Z) (poisson : D → Eng → Z) (exponential : D → Eng → D) (normal : D → D → Eng → D).

(** What one draw reads: whether the device has entropy, its number, the clock. *)
Record source := mkSource { has_entropy : bool; device : Z; steady : Z }.

Definition engine (s : source) : Eng := mt19937 (u64 (if has_entropy s then device s else steady s)).

Definition getUniformInt (min max : Z) (s : source) : Z := uniform_int min max (engine s).
Definition getUniformReal (min max : D) (s : source) : D := uniform_real min max (engine s).
Definition getBernoulli (p : D) (s : source) : Z := bernoulli p (engine s).
Definition getBinomial (num : Z) (p : D) (s : source) : Z := binomial num p (engine s).
Definition getPoisson (mean : D) (s : source) : Z := poisson mean (engine s).
Definition getExponential (lambda : D) (s : source) : D := exponential lambda (engine s).
Definition getNormal (mean stddev : D) (s : source) : D := normal mean stddev (engine s).

(** The array [CHAR] with the zero byte at its end. *)
Definition CHAR : str :=
  lit "0123456789abcdefghijklmnopqrstuvwxyzABCDEFGHIJKLMNOPQRSTUVWXYZ" ++ [zero_byte].

Definition randC (s : source) : res ascii :=
  let index := getUniformInt 0 (Z.of_nat (length CHAR) - 1) s in
  of_option OutOfBounds (CHAR !! Z.to_nat index).

(** One reading of the sources for each character. *)
Fixpoint getRandomStr (len : nat) (ss : list source) : res str :=
  match len, ss with
  | O, _ => Ok []
  | S len, [] => Err OutOfFuel
  | S len, s :: ss => c ← randC s; r ← getRandomStr len ss; Ok (c :: r)
  end.

End Random.

(** ** A command's line *)

Lemma c_string_stops s t : Forall (λ a, byte_val a ≠ 0) s → c_string (s ++ zero_byte :: t) = Ok s.
Proof.
  induction 1 as [|a s Ha _ IH]; [done|]. cbn [app c_string].
  by rewrite (proj2 (Z.eqb_neq _ _) Ha), IH.
Qed.

Lemma c_string_runs s : Forall (λ a, byte_val a ≠ 0) s → c_string s = Err OutOfBounds.
Proof.
  induction 1 as [|a s Ha _ IH]; [done|]. cbn [c_string]. by rewrite (proj2 (Z.eqb_neq _ _) Ha), IH.
Qed.

(** A command that prints from one to 1023 bytes, none of them zero, gives
    what it prints without its last byte; a command that prints nothing, one
    that prints 1024 bytes or more without a zero, and one that cannot be
    started leave what the program does undefined. *)
Theorem cmd_line out c :
  Forall (λ a, byte_val a ≠ 0) out →
  cmd_call (Some out) c =
    (if bool_decide (out = []) then Err OutOfBounds
     else if (length out <? 1024)%nat then
       Ok (mkCmd true (out ++ replicate (1024 - length out) zero_byte) (opened c + 1), take (length out - 1) out)
     else Err OutOfBounds) ∧
  cmd_call None c = Err NullDeref.
Proof.
  intros Hout. split; [|done]. unfold cmd_call. destruct (Nat.ltb_spec (length out) 1024) as [Hl|Hl].
  - rewrite take_app_ge by lia. rewrite take_replicate, Nat.min_l by lia.
    replace (1024 - length out)%nat with (S (1023 - length out)) by lia. cbn [replicate].
    rewrite c_string_stops by done. cbn [mbind res_bind]. by case_bool_decide.
  - rewrite take_app_le by lia. rewrite c_string_runs by (by apply Forall_take).
    rewrite bool_decide_false; [done|]. intros ->. cbn in Hl. lia.
Qed.

Lemma cmd_line_witness :
  cmd_call (Some (lit "10.0.0.1" ++ [byte_of 10])) newCmd =
    Ok (mkCmd true (lit "10.0.0.1" ++ [byte_of 10] ++ replicate 1015 zero_byte) 1, lit "10.0.0.1").
Proof. rewrite (proj1 (cmd_line (lit "10.0.0.1" ++ [byte_of 10]) newCmd ltac:(repeat constructor; discriminate))). reflexivity. Defined.

(** ** Random strings *)

Lemma CHAR_NoDup : NoDup CHAR.
Proof. by apply (bool_decide_unpack _); vm_compute. Qed.

(** When the distribution draws between its bounds, a random string has the
    length asked for; its bytes are digits, letters and also the zero byte, which
    the last index of the array draws. *)
Theorem random_string {Eng} (mt19937 : Z → Eng) uniform_int len ss :
  (∀ lo hi e, lo <= hi → lo <= uniform_int lo hi e <= hi) → (len <= length ss)%nat →
  ∃ s, getRandomStr mt19937 uniform_int len ss = Ok s ∧ length s = len ∧ Forall (λ a, a ∈ CHAR) s ∧
    ∀ i src, ss !! i = Some src → (i < len)%nat →
      (s !! i = Some zero_byte ↔ getUniformInt mt19937 uniform_int 0 62 src = 62).
Proof.
  intros Hu. revert ss. induction len as [|len IH]; intros ss Hl.
  { exists []. split; [by destruct ss|]. repeat split; [constructor|lia..]. }
  destruct ss as [|src ss]; cbn in Hl; [lia|]. destruct (IH ss ltac:(lia)) as (s & Hs & Hlen & Hall & Hz).
  set (index := getUniformInt mt19937 uniform_int 0 62 src).
  assert (0 <= index <= 62) as Hi by (apply Hu; lia).
  destruct (lookup_lt_is_Some_2 CHAR (Z.to_nat index)) as [c Hc]; [cbn; lia|].
  assert (c = zero_byte ↔ index = 62) as Hzero.
  { split; [intros ->|intros E].
    - pose proof (NoDup_lookup CHAR (Z.to_nat index) 62 zero_byte CHAR_NoDup Hc eq_refl). lia.
    - rewrite E in Hc. by injection Hc as <-. }
  exists (c :: s). cbn [getRandomStr]. unfold randC. change (Z.of_nat (length CHAR) - 1) with 62.
  fold index. rewrite Hc. cbn [of_option mbind res_bind]. rewrite Hs. cbn [length].
  split; [done|]. split; [by rewrite Hlen|]. split; [constructor; [by apply list_elem_of_lookup_2 in Hc|done]|].
  intros [|i] src' Hi' Hl'; cbn in Hi', Hl' |- *.
  - injection Hi' as <-. fold index. rewrite <- Hzero. split; [by intros [= ->]|by intros ->].
  - apply Hz; [done|lia].
Qed.

(** Draws of the greatest number each time. *)
Lemma random_string_witness :
  ∃ s, getRandomStr (λ z, z) (λ _ hi _, hi) 1 [mkSource true 7 0] = Ok s ∧ length s = 1%nat ∧ s !! 0%nat = Some zero_byte.
Proof.
  destruct (random_string (λ z, z) (λ _ hi _, hi) 1 [mkSource true 7 0]) as (s & Hs & Hl & _ & Hz); [lia|done|].
  exists s. split; [exact Hs|]. split; [exact Hl|]. apply (Hz 0%nat (mkSource true 7 0)); [reflexivity|lia|reflexivity].
Defined.
