(* ===== verification/Socket.v ===== *)
(** * Sockets and their addresses: [Base/net/{Socket.h,Socket.cpp,TCPSocket.h,SocketAddr.h}]

    The system calls are a class, [SocketCalls]; what the code relies on of them
    is [SocketLaws], on the table of open descriptors.  [kernel] is an instance
    of both.  An object of [Socket] is its descriptor; the objects of a program
    with the kernel are a [World], whose steps are what the program does with
    them. *)

From S2P Require Import Prelude Calendar.

Local Open Scope Z_scope.

(** ** Addresses *)

(** [sockaddr_in]: the port and the address as they lie in memory, that is in
    the order of the network, read as numbers of the machine. *)
Record sockaddr_in := mkSockaddr { sin_port : Z; s_addr : Z }.

#[export] Instance sockaddr_eq_dec : EqDecision sockaddr_in.
Proof. solve_decision. Defined.

(** The machine is little endian: both swap the bytes. *)
Definition htons (p : Z) : Z := Z.lor (Z.shiftl (Z.land p 255) 8) (Z.land (Z.shiftr p 8) 255).
Definition ntohs (p : Z) : Z := htons p.

Definition INADDR_ANY : Z := 0.
Definition htonl (a : Z) : Z := of_le (rev (to_le 4 a)).

Definition is_dot (a : ascii) : bool := byte_val a =? 46.

(** The parts of [s] between its dots; [acc] is the part begun, reversed. *)
Fixpoint split_dots (acc s : str) : list str :=
  match s with
  | [] => [rev acc]
  | a :: s => if is_dot a then rev acc :: split_dots [] s else split_dots (a :: acc) s
  end.

(** A number from 0 to 255, of decimal digits, without a zero in front. *)
Definition octet (s : str) : option Z :=
  match s with
  | [] => None
  | a :: s' =>
      if forallb is_digit s && negb ((byte_val a =? 48) && negb (bool_decide (s' = []))) && (digits_value 0 s <=? 255)
      then Some (digits_value 0 s) else None
  end.

(** A C string ends at its first zero byte. *)
Fixpoint c_str (s : str) : str :=
  match s with
  | [] => []
  | a :: s => if byte_val a =? 0 then [] else a :: c_str s
  end.

(** [inet_pton(AF_INET, ...)]: the four bytes, or nothing when the text is no
    address. *)
Definition inet_pton (s : str) : option Z :=
  match mapM octet (split_dots [] (c_str s)) with
  | Some [a; b; c; d] => Some (a + 256 * (b + 256 * (c + 256 * d)))
  | _ => None
  end.

Definition inet_ntop (a : Z) : str :=
  to_string (a mod 256) ++ lit "." ++ to_string (a / 256 mod 256) ++ lit "." ++
  to_string (a / 65536 mod 256) ++ lit "." ++ to_string (a / 16777216 mod 256).

Module SocketAddr.

(** The object of a port alone. *)
Definition of_port (port : Z) : sockaddr_in := mkSockaddr (htons port) (htonl INADDR_ANY).

(** The object of an address and a port: [memset] has set the address to zero,
    and [inet_pton] leaves it when it fails. *)
Definition of_ip_port (ip : str) (port : Z) : sockaddr_in :=
  mkSockaddr (htons port) (default 0 (inet_pton ip)).

Definition getPort (a : sockaddr_in) : Z := ntohs (sin_port a).
Definition getIP (a : sockaddr_in) : str := inet_ntop (s_addr a).

(** [getnameinfo] with the names of hosts and services; it may fail. *)
Definition getHostAndService (getnameinfo : sockaddr_in → option (str * str)) (a : sockaddr_in) : str :=
  match getnameinfo a with
  | Some (host, service) => host ++ lit ":" ++ service
  | None => lit "UNKNOWN"
  end.

(** With both numeric flags it looks nothing up. *)
Definition numeric (a : sockaddr_in) : option (str * str) := Some (getIP a, to_string (getPort a)).
Definition getHostAndServiceNUM (a : sockaddr_in) : str := getHostAndService numeric a.

Definition getAddrin (a : sockaddr_in) : sockaddr_in := a.
Definition setAddrin (addrin _ : sockaddr_in) : sockaddr_in := addrin.

End SocketAddr.

(** ** The system calls *)

Definition O_NONBLOCK : Z := 2048.
Definition FD_CLOEXEC : Z := 1.

Inductive SockOpt := SO_KEEPALIVE | SO_REUSEADDR | SO_REUSEPORT | TCP_NODELAY | SO_LINGER.

#[export] Instance SockOpt_eq_dec : EqDecision SockOpt.
Proof. solve_decision. Defined.

Inductive role :=
  | Fresh
  | Bound (a : sockaddr_in)
  | Listening (a : sockaddr_in)
  | Peer (a : sockaddr_in) (write_shut : bool).

(** An open socket: its status flags, the flags of its descriptor, its options
    and its part in a connection. *)
Record descr := mkDescr {
  fl : Z;
  fd_flags : Z;
  opts : SockOpt → list Z;
  part : role }.

Definition new_descr (stream nonblock cloexec : bool) : descr :=
  mkDescr (if nonblock then O_NONBLOCK else 0) (if cloexec then FD_CLOEXEC else 0) (λ _, [0]) Fresh.

Definition set_fl (v : Z) (d : descr) : descr := mkDescr v (fd_flags d) (opts d) (part d).
Definition set_fd_flags (v : Z) (d : descr) : descr := mkDescr (fl d) v (opts d) (part d).
Definition set_opt (o : SockOpt) (v : list Z) (d : descr) : descr :=
  mkDescr (fl d) (fd_flags d) (λ o', if decide (o = o') then v else opts d o') (part d).
Definition set_part (p : role) (d : descr) : descr := mkDescr (fl d) (fd_flags d) (opts d) p.

(** A call answers -1 when it fails. *)
Class SocketCalls (K : Type) := {
  table : K → gmap Z descr;
  sys_socket : bool → bool → bool → K → Z * K;      (* stream, SOCK_NONBLOCK, SOCK_CLOEXEC *)
  sys_close : Z → K → Z * K;
  sys_setsockopt : Z → SockOpt → list Z → K → Z * K;
  sys_getsockerror : Z → K → option Z * K;          (* getsockopt with SO_ERROR *)
  sys_errno : K → Z;
  sys_getfl : Z → K → Z;
  sys_setfl : Z → Z → K → Z * K;
  sys_getfd : Z → K → Z;
  sys_setfd : Z → Z → K → Z * K;
  sys_connect : Z → sockaddr_in → K → Z * K;
  sys_bind : Z → sockaddr_in → K → Z * K;
  sys_listen : Z → Z → K → Z * K;
  sys_accept : Z → K → Z * option sockaddr_in * K;
  sys_shutdown_wr : Z → K → Z * K }.

(** ** [Socket], [TCPSocket] and the functions of [Socket.cpp] *)

Section Sockets.
Context {K : Type} `{SocketCalls K} (SOMAXCONN : Z).

Record Socket := mkSocket { mFD : Z }.

(** The destructor closes the descriptor, whether or not [close] has. *)
Definition destroySocket (s : Socket) (k : K) : K := (sys_close (mFD s) k).2.
Definition close (s : Socket) (k : K) : K := (sys_close (mFD s) k).2.
Definition getFD (s : Socket) : Z := mFD s.

Definition flag (on : bool) : list Z := [if on then 1 else 0].

Definition setKeepAlive (on : bool) (s : Socket) (k : K) : K :=
  (sys_setsockopt (mFD s) SO_KEEPALIVE (flag on) k).2.
Definition setResueAddr (on : bool) (s : Socket) (k : K) : K :=
  (sys_setsockopt (mFD s) SO_REUSEADDR (flag on) k).2.
Definition setReusePort (on : bool) (s : Socket) (k : K) : K :=
  (sys_setsockopt (mFD s) SO_REUSEPORT (flag on) k).2.

Definition getSocketError (s : Socket) (k : K) : Z * K :=
  match sys_getsockerror (mFD s) k with
  | (None, k) => (sys_errno k, k)
  | (Some opt, k) => (opt, k)
  end.

Definition createTCPSocket (k : K) : Z * K := sys_socket true false false k.
Definition createUDPSocket (k : K) : Z * K := sys_socket false false false k.
Definition createNonblockingTCPSocket (k : K) : Z * K := sys_socket true true true k.
Definition createNonblockingUDPSocket (k : K) : Z * K := sys_socket false true true k.

Definition setNonBlackAndCloseOnExec (sockfd : Z) (k : K) : K :=
  let flags := sys_getfl sockfd k in
  let flags := Z.lor flags O_NONBLOCK in
  let k := (sys_setfl sockfd flags k).2 in
  let flags := sys_getfd sockfd k in
  let flags := Z.lor flags FD_CLOEXEC in
  (sys_setfd sockfd flags k).2.

Definition isNonBlocking (sockfd : Z) (k : K) : bool :=
  negb (Z.land (sys_getfl sockfd k) O_NONBLOCK =? 0).

Definition newTCPSocket (fd : Z) : Socket := mkSocket fd.
Definition newTCPSocket_nonBlocking (fd : Z) (nonBlocking : bool) (k : K) : Socket * K :=
  (mkSocket fd, if nonBlocking then setNonBlackAndCloseOnExec fd k else k).

Definition setTcpNoDelay (on : bool) (s : Socket) (k : K) : K :=
  (sys_setsockopt (mFD s) TCP_NODELAY (flag on) k).2.
Definition setLinger (on lingerTime : Z) (s : Socket) (k : K) : K :=
  (sys_setsockopt (mFD s) SO_LINGER [on; lingerTime] k).2.
Definition shutdownW (s : Socket) (k : K) : K := (sys_shutdown_wr (mFD s) k).2.

Definition connect (addr : sockaddr_in) (s : Socket) (k : K) : Z * K :=
  sys_connect (mFD s) (SocketAddr.getAddrin addr) k.
Definition bind (addr : sockaddr_in) (s : Socket) (k : K) : Z * K :=
  sys_bind (mFD s) (SocketAddr.getAddrin addr) k.
Definition listen (s : Socket) (k : K) : Z * K := sys_listen (mFD s) SOMAXCONN k.

(** The address is indeterminate ([None]) when the kernel writes none. *)
Definition accept (s : Socket) (k : K) : Z * option sockaddr_in * K := sys_accept (mFD s) k.

(** ** A program's sockets *)

(** The objects that are alive, with the number of the next one. *)
Record World := mkWorld {
  kernel_of : K;
  live : gmap nat Socket;
  next : nat }.

Inductive event :=
  | Create                     (* TCPSocket(createTCPSocket()) *)
  | Accept (listener : nat)    (* TCPSocket(connfd, true), of a connfd above zero *)
  | Close (l : nat)
  | Destroy (l : nat).

Definition add_socket (s : Socket) (k : K) (w : World) : World :=
  mkWorld k (<[next w := s]> (live w)) (S (next w)).

Definition step (e : event) (w : World) : World :=
  let k := kernel_of w in
  match e with
  | Create => let '(fd, k) := createTCPSocket k in add_socket (newTCPSocket fd) k w
  | Accept listener =>
      match live w !! listener with
      | None => w
      | Some s =>
          let '(connfd, _, k) := accept s k in
          if 0 <? connfd then
            let '(c, k) := newTCPSocket_nonBlocking connfd true k in add_socket c k w
          else mkWorld k (live w) (next w)
      end
  | Close l =>
      match live w !! l with Some s => mkWorld (close s k) (live w) (next w) | None => w end
  | Destroy l =>
      match live w !! l with
      | Some s => mkWorld (destroySocket s k) (delete l (live w)) (next w)
      | None => w
      end
  end.

Definition run (es : list event) (w : World) : World := foldl (flip step) w es.

End Sockets.
Arguments World : clear implicits.

(** ** What the code relies on of the system calls *)

Definition lowest_free (t : gmap Z descr) (fd : Z) : Prop :=
  0 <= fd ∧ t !! fd = None ∧ ∀ i, 0 <= i < fd → is_Some (t !! i).

(** A call on one descriptor does [f] to it, or fails and changes nothing. *)
Definition acts_on {K} `{SocketCalls K} (fd : Z) (f : descr → descr) (r : Z * K) (k : K) : Prop :=
  (r.1 = 0 ∧ is_Some (table k !! fd) ∧ table r.2 = alter f fd (table k)) ∨
  (r.1 = -1 ∧ table r.2 = table k).

Class SocketLaws (K : Type) {C : SocketCalls K} := {
  law_socket : ∀ stream nb ce (k : K), let r := sys_socket stream nb ce k in
    (r.1 = -1 ∧ table r.2 = table k) ∨
    (lowest_free (table k) r.1 ∧ table r.2 = <[r.1 := new_descr stream nb ce]> (table k));
  law_close : ∀ fd (k : K), table (sys_close fd k).2 = delete fd (table k);
  law_setsockopt : ∀ fd o v (k : K), acts_on fd (set_opt o v) (sys_setsockopt fd o v k) k;
  law_getsockerror : ∀ fd (k : K), table (sys_getsockerror fd k).2 = table k;
  law_getfl : ∀ fd (k : K), sys_getfl fd k = match table k !! fd with Some d => fl d | None => -1 end;
  law_getfd : ∀ fd (k : K), sys_getfd fd k = match table k !! fd with Some d => fd_flags d | None => -1 end;
  law_setfl : ∀ fd (k : K) d, table k !! fd = Some d →
    table (sys_setfl fd (Z.lor (fl d) O_NONBLOCK) k).2 = <[fd := set_fl (Z.lor (fl d) O_NONBLOCK) d]> (table k);
  law_setfl_bad : ∀ fd v (k : K), table k !! fd = None → table (sys_setfl fd v k).2 = table k;
  law_setfd : ∀ fd (k : K) d, table k !! fd = Some d →
    table (sys_setfd fd (Z.lor (fd_flags d) FD_CLOEXEC) k).2 =
      <[fd := set_fd_flags (Z.lor (fd_flags d) FD_CLOEXEC) d]> (table k);
  law_setfd_bad : ∀ fd v (k : K), table k !! fd = None → table (sys_setfd fd v k).2 = table k;
  law_connect : ∀ fd a (k : K), acts_on fd (set_part (Peer a false)) (sys_connect fd a k) k;
  law_bind : ∀ fd a (k : K), acts_on fd (set_part (Bound a)) (sys_bind fd a k) k;
  (* a socket that is bound to no address gets one of the kernel's choice *)
  law_listen : ∀ fd n (k : K), ∃ a,
    acts_on fd (set_part (Listening a)) (sys_listen fd n k) k ∧
    (∀ d b, table k !! fd = Some d → part d = Bound b → a = b);
  law_accept : ∀ fd (k : K), let '(connfd, peer, k') := sys_accept fd k in
    (connfd = -1 ∧ peer = None ∧ table k' = table k) ∨
    (∃ a, peer = Some a ∧ lowest_free (table k) connfd ∧
      table k' = <[connfd := set_part (Peer a false) (new_descr true false false)]> (table k));
  law_shutdown : ∀ fd (k : K), ∃ p, acts_on fd (set_part p) (sys_shutdown_wr fd k) k }.

(** ** A kernel *)

(** At most [limit] descriptors; no two sockets are bound to one address, unless
    both may reuse its port; a peer waits at every listening socket. *)
Record kernel := mkKernel { tab : gmap Z descr; limit : nat }.

Definition set_tab (t : gmap Z descr) (k : kernel) : kernel := mkKernel t (limit k).

Fixpoint lowest (n : nat) (i : Z) (t : gmap Z descr) : Z :=
  match n with
  | O => -1
  | S n => match t !! i with None => i | Some _ => lowest n (i + 1) t end
  end.

Definition new_fd (d : descr) (k : kernel) : Z * kernel :=
  let fd := lowest (limit k) 0 (tab k) in
  if 0 <=? fd then (fd, set_tab (<[fd := d]> (tab k)) k) else (-1, k).

Definition on_fd (fd : Z) (f : descr → descr) (k : kernel) : Z * kernel :=
  match tab k !! fd with Some _ => (0, set_tab (alter f fd (tab k)) k) | None => (-1, k) end.

Definition reuses (d : descr) : bool := bool_decide (opts d SO_REUSEPORT = [1]).
Definition addr_of (d : descr) : option sockaddr_in :=
  match part d with Bound a | Listening a => Some a | _ => None end.

Definition in_use (a : sockaddr_in) (fd : Z) (t : gmap Z descr) : bool :=
  existsb (λ '(i, d), negb (i =? fd) && bool_decide (addr_of d = Some a) &&
    negb (reuses d && match t !! fd with Some d' => reuses d' | None => false end)) (map_to_list t).

#[export] Instance kernel_calls : SocketCalls kernel := {
  table := tab;
  sys_socket stream nb ce k := new_fd (new_descr stream nb ce) k;
  sys_close fd k :=
    match tab k !! fd with Some _ => (0, set_tab (delete fd (tab k)) k) | None => (-1, k) end;
  sys_setsockopt fd o v k := on_fd fd (set_opt o v) k;
  sys_getsockerror fd k := (match tab k !! fd with Some _ => Some 0 | None => None end, k);
  sys_errno _ := 9;
  sys_getfl fd k := match tab k !! fd with Some d => fl d | None => -1 end;
  sys_setfl fd v k := on_fd fd (set_fl v) k;
  sys_getfd fd k := match tab k !! fd with Some d => fd_flags d | None => -1 end;
  sys_setfd fd v k := on_fd fd (set_fd_flags v) k;
  sys_connect fd a k := on_fd fd (set_part (Peer a false)) k;
  sys_bind fd a k := if in_use a fd (tab k) then (-1, k) else on_fd fd (set_part (Bound a)) k;
  sys_listen fd _ k :=
    on_fd fd (λ d, set_part (Listening (match part d with Bound a => a | _ => mkSockaddr 32768 0 end)) d) k;
  sys_accept fd k :=
    let peer := mkSockaddr 1 16777343 in
    match tab k !! fd with
    | Some _ =>
        let '(c, k') := new_fd (set_part (Peer peer false) (new_descr true false false)) k in
        if 0 <=? c then (c, Some peer, k') else (-1, None, k)
    | None => (-1, None, k)
    end;
  sys_shutdown_wr fd k :=
    on_fd fd (λ d, match part d with Peer a _ => set_part (Peer a true) d | _ => d end) k }.

Lemma lowest_spec n i t : 0 <= i →
  lowest n i t = -1 ∨
  (i <= lowest n i t ∧ t !! lowest n i t = None ∧ ∀ j, i <= j < lowest n i t → is_Some (t !! j)).
Proof.
  revert i. induction n as [|n IH]; intros i Hi; cbn [lowest]; [by left|].
  destruct (t !! i) eqn:Ht; [|right; split; [lia|]; split; [done|intros; lia]].
  destruct (IH (i + 1) ltac:(lia)) as [->|(H1 & H2 & H3)]; [by left|right].
  repeat split; [lia|done|]. intros j Hj. destruct (decide (i = j)) as [<-|]; [by eexists|]. apply H3. lia.
Qed.

Lemma new_fd_spec d k : let r := new_fd d k in
  (r.1 = -1 ∧ tab r.2 = tab k) ∨ (lowest_free (tab k) r.1 ∧ tab r.2 = <[r.1 := d]> (tab k)).
Proof.
  cbn. unfold new_fd. destruct (lowest_spec (limit k) 0 (tab k) ltac:(lia)) as [->|(H1 & H2 & H3)]; [by left|].
  rewrite (proj2 (Z.leb_le _ _) H1). by right.
Qed.

Lemma on_fd_spec fd f g (k : kernel) :
  (∀ d, tab k !! fd = Some d → f d = g d) → acts_on fd f (on_fd fd g k) k.
Proof.
  intros Hfg. unfold acts_on, on_fd. destruct (tab k !! fd) as [d|] eqn:Hd; [left|by right].
  cbn. rewrite Hd. repeat split; [by eexists|]. apply map_eq. intros i.
  destruct (decide (i = fd)) as [->|]; simplify_map_eq; [|done]. by rewrite Hfg.
Qed.

Lemma on_fd_insert fd f d (k : kernel) : tab k !! fd = Some d →
  tab (on_fd fd f k).2 = <[fd := f d]> (tab k).
Proof.
  intros Hd. unfold on_fd. rewrite Hd. cbn. apply map_eq. intros i.
  destruct (decide (i = fd)) as [->|]; by simplify_map_eq.
Qed.

Lemma on_fd_none fd f (k : kernel) : tab k !! fd = None → tab (on_fd fd f k).2 = tab k.
Proof. intros Hd. unfold on_fd. by rewrite Hd. Qed.

Lemma kernel_listen fd n (k : kernel) : ∃ a,
  acts_on fd (set_part (Listening a)) (sys_listen fd n k) k ∧
  (∀ d b, table k !! fd = Some d → part d = Bound b → a = b).
Proof.
  cbn. destruct (tab k !! fd) as [d|] eqn:Hd.
  - eexists. split; [apply on_fd_spec; intros d' Hd'|intros d' b ? Hb].
    + rewrite Hd in Hd'. injection Hd' as ->. reflexivity.
    + simplify_eq. by rewrite Hb.
  - exists (mkSockaddr 0 0). split; [|done]. apply on_fd_spec. congruence.
Qed.

Lemma kernel_accept fd (k : kernel) : let '(connfd, peer, k') := sys_accept fd k in
  (connfd = -1 ∧ peer = None ∧ table k' = table k) ∨
  (∃ a, peer = Some a ∧ lowest_free (table k) connfd ∧
    table k' = <[connfd := set_part (Peer a false) (new_descr true false false)]> (table k)).
Proof.
  cbn. destruct (tab k !! fd) as [d|]; [|by left].
  pose proof (new_fd_spec (set_part (Peer (mkSockaddr 1 16777343) false) (new_descr true false false)) k) as H.
  destruct (new_fd _ k) as [c k'] eqn:Hn. cbn in H. destruct H as [[-> _]|[Hl Ht]]; [by left|].
  assert (0 <= c) as Hc by apply Hl. rewrite (proj2 (Z.leb_le _ _) Hc). right. by eexists.
Qed.

Lemma kernel_shutdown fd (k : kernel) : ∃ p, acts_on fd (set_part p) (sys_shutdown_wr fd k) k.
Proof.
  cbn. destruct (tab k !! fd) as [d|] eqn:Hd.
  - exists (match part d with Peer a _ => Peer a true | p => p end). apply on_fd_spec. intros d' Hd'.
    rewrite Hd in Hd'. injection Hd' as <-. destruct d as [? ? ? []]; done.
  - exists Fresh. apply on_fd_spec. congruence.
Qed.

#[export] Instance kernel_laws : SocketLaws kernel.
Proof.
  split.
  - intros. apply new_fd_spec.
  - intros fd k. cbn. destruct (tab k !! fd) eqn:Hd; [done|]. by rewrite delete_id.
  - intros. by apply on_fd_spec.
  - done.
  - done.
  - done.
  - intros fd k d Hd. by apply on_fd_insert.
  - intros. by apply on_fd_none.
  - intros fd k d Hd. by apply on_fd_insert.
  - intros. by apply on_fd_none.
  - intros. by apply on_fd_spec.
  - intros fd a k. cbn. destruct (in_use a fd (tab k)); [by right|by apply on_fd_spec].
  - apply kernel_listen.
  - apply kernel_accept.
  - apply kernel_shutdown.
Qed.

(** ** Addresses are read as they are written *)

Lemma lor_add x y n : 0 <= n → 0 <= y < 2 ^ n → Z.lor (Z.shiftl x n) y = x * 2 ^ n + y.
Proof.
  intros Hn Hy. destruct (Z.eq_dec y 0) as [->|Hy0].
  { rewrite Z.lor_0_r, Z.shiftl_mul_pow2 by done. lia. }
  rewrite <- Z.add_nocarry_lor, Z.shiftl_mul_pow2; [done..|].
  apply Z.bits_inj'. intros i Hi. rewrite Z.land_spec, Z.bits_0, Z.shiftl_spec by lia.
  destruct (Z.lt_ge_cases i n); [by rewrite Z.testbit_neg_r by lia|].
  rewrite (Z.bits_above_log2 y), andb_false_r; [done|lia|].
  assert (Z.log2 y < n) by (apply Z.log2_lt_pow2; lia). lia.
Qed.

Lemma htons_arith p : htons p = p mod 256 * 256 + p / 256 mod 256.
Proof.
  unfold htons. change 255 with (Z.ones 8). rewrite !Z.land_ones, Z.shiftr_div_pow2 by lia.
  change (2 ^ 8) with 256. rewrite lor_add; [done|lia|]. apply Z.mod_pos_bound. lia.
Qed.

Lemma ntohs_htons p : 0 <= p < 65536 → ntohs (htons p) = p.
Proof. intros Hp. unfold ntohs. rewrite !htons_arith. Z.div_mod_to_equations; lia. Qed.

Lemma split_dots_digits acc s t : digits s → split_dots acc (s ++ t) = split_dots (rev s ++ acc) t.
Proof.
  intros Hs. revert acc. induction Hs as [|x s Hx _ IH]; intros acc; [done|]. cbn [app split_dots].
  assert (is_dot x = false) as -> by (unfold is_dot, is_digit in *; to_prop; apply Z.eqb_neq; lia).
  rewrite IH. cbn [rev]. by rewrite <- app_assoc.
Qed.

Lemma split_part s t : digits s → split_dots [] (s ++ lit "." ++ t) = s :: split_dots [] t.
Proof. intros Hs. rewrite split_dots_digits by done. cbn. by rewrite app_nil_r, rev_involutive. Qed.

Lemma split_last s : digits s → split_dots [] s = [s].
Proof.
  intros Hs. rewrite <- (app_nil_r s) at 1. rewrite split_dots_digits by done.
  cbn. by rewrite app_nil_r, rev_involutive.
Qed.

Lemma c_str_id s : Forall (λ a, byte_val a ≠ 0) s → c_str s = s.
Proof. induction 1 as [|a s Ha _ IH]; [done|]. cbn. by rewrite (proj2 (Z.eqb_neq _ _) Ha), IH. Qed.

Lemma digits_nonzero s : digits s → Forall (λ a, byte_val a ≠ 0) s.
Proof. intros Hs. eapply Forall_impl; [exact Hs|]. intros a Ha. unfold is_digit in Ha. to_prop. lia. Qed.

(** The numbers of the printed form are read again. *)
Lemma octet_to_string z : 0 <= z < 256 → octet (to_string z) = Some z.
Proof.
  intros Hz.
  assert (Forall (λ z, octet (to_string z) = Some z) (seqZ 0 256)) as H by (by apply (bool_decide_unpack _); vm_compute).
  rewrite Forall_forall in H. apply H, elem_of_seqZ. lia.
Qed.

Lemma inet_ntop_no_zero a : Forall (λ a, byte_val a ≠ 0) (inet_ntop a).
Proof.
  assert (∀ z, Forall (λ a, byte_val a ≠ 0) (to_string (z mod 256))) as Hd.
  { intros z. apply digits_nonzero, (to_string_width 3); [lia|]. pose proof (Z.mod_pos_bound z 256). cbn. lia. }
  unfold inet_ntop. repeat (apply Forall_app; split; [apply Hd|]; apply Forall_cons; split; [done|]). apply Hd.
Qed.

Lemma inet_pton_ntop a : 0 <= a < 2 ^ 32 → inet_pton (inet_ntop a) = Some a.
Proof.
  intros Ha. unfold inet_pton. rewrite c_str_id by apply inet_ntop_no_zero. unfold inet_ntop.
  assert (∀ z, 0 <= z mod 256 < 256) as Hm by (intros; apply Z.mod_pos_bound; lia).
  assert (∀ z, digits (to_string (z mod 256))) as Hd.
  { intros z. specialize (Hm z). apply (to_string_width 3); [lia|cbn; lia]. }
  rewrite !split_part, split_last by apply Hd. cbn [mapM mbind option_bind].
  rewrite !octet_to_string by apply Hm. cbn. f_equal. Z.div_mod_to_equations; lia.
Qed.

(** A port is read back from an address as it was given, and so is the text
    of every address of four bytes; a text that is no address gives, without a
    word, the address of every interface. *)
Theorem address_roundtrip ip port a :
  0 <= port < 65536 → 0 <= a < 2 ^ 32 →
  SocketAddr.getPort (SocketAddr.of_ip_port ip port) = port ∧
  SocketAddr.getPort (SocketAddr.of_port port) = port ∧
  SocketAddr.getIP (SocketAddr.of_ip_port (inet_ntop a) port) = inet_ntop a ∧
  SocketAddr.getHostAndServiceNUM (SocketAddr.of_ip_port (inet_ntop a) port) =
    inet_ntop a ++ lit ":" ++ to_string port ∧
  (inet_pton ip = None → SocketAddr.of_ip_port ip port = SocketAddr.of_port port).
Proof.
  intros Hp Ha. unfold SocketAddr.getHostAndServiceNUM, SocketAddr.getHostAndService, SocketAddr.numeric,
    SocketAddr.getPort, SocketAddr.getIP, SocketAddr.of_ip_port, SocketAddr.of_port. cbn [sin_port s_addr].
  rewrite ntohs_htons, inet_pton_ntop by done. repeat split. by intros ->.
Qed.

Lemma address_roundtrip_witness :
  SocketAddr.getHostAndServiceNUM (SocketAddr.of_ip_port (inet_ntop 16777343) 8080) = lit "127.0.0.1:8080".
Proof.
  rewrite (proj1 (proj2 (proj2 (proj2 (address_roundtrip [] 8080 16777343 ltac:(lia) ltac:(lia)))))).
  vm_compute. reflexivity.
Defined.

(** ** Who owns a descriptor *)

Section Ownership.
Context {K : Type} `{SocketLaws K}.

Abbreviation fds w := (table (kernel_of w)).

(** Every object with a descriptor has it open, and has it alone. *)
Definition owned (w : World K) : Prop :=
  (∀ l s, live w !! l = Some s → 0 <= mFD s → is_Some (fds w !! mFD s)) ∧
  (∀ l l' s s', live w !! l = Some s → live w !! l' = Some s' → 0 <= mFD s → mFD s = mFD s' → l = l') ∧
  (∀ l s, live w !! l = Some s → (l < next w)%nat).

(** What [setNonBlackAndCloseOnExec] does to an open descriptor; [both] are its
    flags with the two bits added. *)
Definition both (d : descr) : descr :=
  mkDescr (Z.lor (fl d) O_NONBLOCK) (Z.lor (fd_flags d) FD_CLOEXEC) (opts d) (part d).

Lemma nonblock_open fd (k : K) d : table k !! fd = Some d →
  table (setNonBlackAndCloseOnExec fd k) = <[fd := both d]> (table k).
Proof.
  intros Hd. unfold setNonBlackAndCloseOnExec. rewrite law_getfl, Hd.
  set (k1 := (sys_setfl _ _ k).2). assert (table k1 = <[fd := set_fl (Z.lor (fl d) O_NONBLOCK) d]> (table k)) as H1
    by (by apply law_setfl).
  assert (table k1 !! fd = Some (set_fl (Z.lor (fl d) O_NONBLOCK) d)) as Hk1 by (rewrite H1; by simplify_map_eq).
  rewrite law_getfd, Hk1. rewrite (law_setfd _ _ _ Hk1), H1. by rewrite insert_insert_eq.
Qed.

Lemma nonblock_bad fd (k : K) : table k !! fd = None → table (setNonBlackAndCloseOnExec fd k) = table k.
Proof.
  intros Hd. unfold setNonBlackAndCloseOnExec. rewrite law_setfd_bad; rewrite law_setfl_bad by done; done.
Qed.

(** A new object for a descriptor that was free, when the table has only that
    descriptor more. *)
Lemma owned_add fd d k w :
  owned w → (0 <= fd → fds w !! fd = None ∧ table k = <[fd := d]> (fds w)) →
  (fd < 0 → table k = fds w) → owned (add_socket (mkSocket fd) k w).
Proof.
  intros (Ho & Hi & Hn) Hfd Hbad. split_and!; cbn [add_socket live next kernel_of].
  - intros l s Hl Hs. apply lookup_insert_Some in Hl as [[<- <-]|[_ Hl]].
    + destruct (Hfd Hs) as [_ ->]. by simplify_map_eq.
    + specialize (Ho l s Hl Hs). destruct (Z.le_gt_cases 0 fd) as [Hf|Hf]; [|by rewrite Hbad].
      destruct (Hfd Hf) as [_ ->]. apply lookup_insert_is_Some'. by right.
  - intros l l' s s' Hl Hl' Hs Heq.
    apply lookup_insert_Some in Hl as [[<- <-]|[? Hl]], Hl' as [[<- <-]|[? Hl']]; cbn in *; try done.
    + destruct (Hfd Hs) as [Hfree _]. destruct (Ho l' s' Hl' ltac:(lia)) as [? Hx]. congruence.
    + destruct (Hfd ltac:(lia)) as [Hfree _]. destruct (Ho l s Hl Hs) as [? Hx]. congruence.
    + by eapply Hi.
  - intros l s Hl. apply lookup_insert_Some in Hl as [[<- _]|[_ Hl]]; [lia|]. specialize (Hn l s Hl). lia.
Qed.

Lemma owned_same k w : owned w → (∀ fd, is_Some (fds w !! fd) → is_Some (table k !! fd)) →
  owned (mkWorld k (live w) (next w)).
Proof. intros (Ho & Hi & Hn) Ht. split_and!; cbn; [|done..]. intros l s Hl Hs. by eapply Ht, Ho. Qed.

Lemma owned_destroy l w : owned w → owned (step (Destroy l) w).
Proof.
  intros (Ho & Hi & Hn). unfold step. destruct (live w !! l) as [s|] eqn:Hl; [|done]. split_and!; cbn.
  - intros l' s' Hl' Hs'. apply lookup_delete_Some in Hl' as [Hne Hl'].
    unfold destroySocket. rewrite law_close.
    destruct (decide (mFD s = mFD s')) as [E|]; [|rewrite lookup_delete_ne by done; by eapply Ho].
    destruct Hne. eapply Hi; [done..|rewrite E; lia|done].
  - intros l1 l2 s1 s2 H1 H2. apply lookup_delete_Some in H1 as [_ H1], H2 as [_ H2]. by apply Hi.
  - intros l' s' Hl'. apply lookup_delete_Some in Hl' as [_ Hl']. by eapply Hn.
Qed.

Lemma owned_create w : owned w → owned (step Create w).
Proof.
  intros Hw. unfold step, createTCPSocket. pose proof (law_socket true false false (kernel_of w)) as H1.
  cbn zeta in H1. destruct (sys_socket _ _ _ _) as [fd k]. cbn [fst snd] in H1.
  apply (owned_add fd (new_descr true false false)); [done|..].
  - intros Hfd. destruct H1 as [[-> _]|[(_ & Hfree & _) Ht]]; [lia|done].
  - intros Hfd. destruct H1 as [[_ Ht]|[(? & _) _]]; [done|lia].
Qed.

Lemma owned_accept l w : owned w → owned (step (Accept l) w).
Proof.
  intros Hw. unfold step. destruct (live w !! l) as [s|]; [|done]. unfold accept.
  pose proof (law_accept (mFD s) (kernel_of w)) as H1. destruct (sys_accept _ _) as [[c p] k].
  destruct H1 as [(-> & _ & Ht)|(a & _ & (Hc & Hfree & _) & Ht)].
  - apply owned_same; [done|]. intros fd. by rewrite Ht.
  - destruct (0 <? c).
    + cbn [newTCPSocket_nonBlocking].
      eapply (owned_add c (both (set_part (Peer a false) (new_descr true false false)))); [done| |lia].
      intros _. split; [done|]. rewrite (nonblock_open c k (set_part (Peer a false) (new_descr true false false)))
        by (rewrite Ht; by simplify_map_eq). by rewrite Ht, insert_insert_eq.
    + apply owned_same; [done|]. intros fd Hfd. rewrite Ht. apply lookup_insert_is_Some'. by right.
Qed.

(** What a program does without calling [close] itself. *)
Definition raii (e : event) : bool := match e with Close _ => false | _ => true end.

Lemma owned_run es w : forallb raii es = true → owned w → owned (run es w).
Proof.
  revert w. induction es as [|e es IH]; intros w Hr Hw; [done|]. cbn in Hr. apply andb_true_iff in Hr as [He Hr].
  change (run (e :: es) w) with (run es (step e w)). apply IH; [done|].
  destruct e; [by apply owned_create|by apply owned_accept|done|by apply owned_destroy].
Qed.

Lemma owned_nothing (k : K) : owned (mkWorld k ∅ 0).
Proof. split_and!; intros *; cbn; rewrite lookup_empty; intros H1; discriminate H1. Qed.

(** Every descriptor above 0 that [k0] does not have is of an object. *)
Definition accounted (k0 : K) (w : World K) : Prop :=
  ∀ fd, 0 < fd → is_Some (fds w !! fd) → is_Some (table k0 !! fd) ∨ ∃ l s, live w !! l = Some s ∧ mFD s = fd.

Lemma accounted_add k0 fd d k w :
  owned w → accounted k0 w → (table k = <[fd := d]> (fds w) ∨ table k = fds w) →
  accounted k0 (add_socket (mkSocket fd) k w).
Proof.
  intros (_ & _ & Hn) Ha Ht x Hx Hs. cbn [add_socket live kernel_of next] in *.
  assert (x = fd ∨ is_Some (fds w !! x)) as [->|Hw].
  - destruct Ht as [Ht|Ht]; rewrite Ht in Hs; [|by right]. apply lookup_insert_is_Some in Hs as [?|[_ ?]]; [by left|by right].
  - right. exists (next w), (mkSocket fd). by simplify_map_eq.
  - destruct (Ha x Hx Hw) as [?|(l & s & Hl & ?)]; [by left|right]. exists l, s. split; [|done].
    rewrite lookup_insert_ne; [done|]. specialize (Hn l s Hl). lia.
Qed.

Lemma accounted_step k0 e w : raii e = true → owned w → accounted k0 w → accounted k0 (step e w).
Proof.
  intros He Hw Ha. destruct e as [|l|l|l]; [..|done|]; unfold step.
  - unfold createTCPSocket. pose proof (law_socket true false false (kernel_of w)) as H1. cbn zeta in H1.
    destruct (sys_socket _ _ _ _) as [fd k]. cbn [fst snd] in H1.
    eapply accounted_add; [done..|]. destruct H1 as [[_ ?]|[_ ?]]; [by right|by left].
  - destruct (live w !! l) as [s|]; [|done]. unfold accept.
    pose proof (law_accept (mFD s) (kernel_of w)) as H1. destruct (sys_accept _ _) as [[c p] k].
    destruct (Z.ltb_spec 0 c) as [Hc|Hc].
    + destruct H1 as [(-> & _)|(a & _ & _ & Ht)]; [lia|]. cbn [newTCPSocket_nonBlocking].
      eapply (accounted_add _ c); [done..|]. left. rewrite (nonblock_open c k (set_part (Peer a false) (new_descr true false false)))
        by (rewrite Ht; by simplify_map_eq). by rewrite Ht, insert_insert_eq.
    + intros x Hx Hs. cbn [kernel_of live] in *. apply Ha; [done|].
      destruct H1 as [(_ & _ & Ht)|(a & _ & _ & Ht)]; rewrite Ht in Hs; [done|].
      apply lookup_insert_is_Some in Hs as [?|[_ ?]]; [lia|done].
  - destruct (live w !! l) as [s|] eqn:Hl; [|done]. intros x Hx. cbn [kernel_of live]. unfold destroySocket.
    rewrite law_close. intros [d Hs]. apply lookup_delete_Some in Hs as [Hne Hs].
    destruct (Ha x Hx (mk_is_Some _ _ Hs)) as [?|(l' & s' & Hl' & ?)]; [by left|right]. exists l', s'.
    split; [|done]. rewrite lookup_delete_ne; [done|]. intros ->. congruence.
Qed.

Lemma accounted_run k0 es w : forallb raii es = true → owned w → accounted k0 w → accounted k0 (run es w).
Proof.
  revert w. induction es as [|e es IH]; intros w Hr Hw Ha; [done|]. cbn in Hr. apply andb_true_iff in Hr as [He Hr].
  change (run (e :: es) w) with (run es (step e w)).
  apply IH; [done|exact (owned_run [e] w (proj2 (andb_true_iff _ _) (conj He eq_refl)) Hw)|by apply accounted_step].
Qed.

(** C23: in any run in which sockets are created, accepted and destroyed, each
    object that has a descriptor has it open and has it alone; destroying one
    closes its descriptor and leaves that of every other as it was; and no
    descriptor above 0 is open that was not before and that no object has. *)
Theorem descriptors_owned es (k : K) l l' s s' :
  let w := run es (mkWorld k ∅ 0) in
  forallb raii es = true → live w !! l = Some s → live w !! l' = Some s' → l ≠ l' → 0 <= mFD s' →
  is_Some (fds w !! mFD s') ∧ mFD s ≠ mFD s' ∧
  live (step (Destroy l) w) !! l' = Some s' ∧ fds (step (Destroy l) w) !! mFD s = None ∧
  fds (step (Destroy l) w) !! mFD s' = fds w !! mFD s' ∧ accounted k w.
Proof.
  intros w Hes Hl Hl' Hne Hs'. pose proof (owned_nothing k) as H0.
  destruct (owned_run es _ Hes H0) as (Ho & Hi & _).
  fold w in Ho, Hi. assert (mFD s ≠ mFD s') as Hd by (intros E; destruct Hne; eapply Hi; [done..|rewrite E; lia|done]).
  split; [by eapply Ho|]. split; [done|]. unfold step. rewrite Hl. cbn. split; [by rewrite lookup_delete_ne|].
  unfold destroySocket. rewrite law_close. split; [by apply lookup_delete_eq|]. split; [by rewrite lookup_delete_ne|].
  apply accounted_run; [done..|]. intros x _ Hx. by left.
Qed.

(** An object closed by [close] closes its descriptor again when it is
    destroyed: a socket made in between has got that descriptor, the lowest that
    is free, and is left with a closed one. *)
Theorem closed_twice w l s :
  let w' := step Create (step (Close l) w) in
  live w !! l = Some s → (l < next w)%nat → 0 <= mFD s → (∀ i, 0 <= i < mFD s → is_Some (fds w !! i)) →
  (live w' !! next w = Some (mkSocket (-1))) ∨
  (live w' !! next w = Some s ∧ is_Some (fds w' !! mFD s) ∧
   live (step (Destroy l) w') !! next w = Some s ∧ fds (step (Destroy l) w') !! mFD s = None).
Proof.
  intros w' Hl Hn Hs Hlow. subst w'.
  assert (step (Close l) w = mkWorld (close s (kernel_of w)) (live w) (next w)) as -> by (cbn; by rewrite Hl).
  set (k := close s (kernel_of w)). pose proof (law_socket true false false k) as H1.
  assert (step Create (mkWorld k (live w) (next w)) = let r := createTCPSocket k in
    add_socket (mkSocket r.1) r.2 (mkWorld k (live w) (next w))) as ->.
  { cbn. by destruct (createTCPSocket k). }
  unfold createTCPSocket. destruct (sys_socket true false false k) as [fd k']. cbn in H1 |- *.
  destruct H1 as [[-> _]|[(Hfd & Hfree & Hlo) Ht]]; [left; by simplify_map_eq|right].
  assert (table k = delete (mFD s) (fds w)) as Hk by apply law_close. rewrite Hk in *.
  assert (fd = mFD s) as ->.
  { destruct (Z.lt_trichotomy fd (mFD s)) as [Hlt|[?|Hgt]]; [|done|].
    - destruct (Hlow fd ltac:(lia)) as [d Hd]. rewrite lookup_delete_ne in Hfree by lia. congruence.
    - destruct (Hlo (mFD s) ltac:(lia)) as [d Hd]. by rewrite lookup_delete_eq in Hd. }
  destruct s as [fd]. cbn in *. rewrite (lookup_insert_ne _ (next w) l) by lia. rewrite Hl. cbn.
  unfold destroySocket. rewrite law_close, Ht. cbn. split_and!; simplify_map_eq; try done.
  by rewrite lookup_delete_ne, lookup_insert_eq by lia.
Qed.

(** After [setNonBlackAndCloseOnExec] a socket that is open does not block,
    is closed on [exec], and keeps every other flag, its options and its part;
    [isNonBlocking] says of a descriptor that is not open that it does not. *)
Theorem nonblocking_set fd (k : K) :
  (∀ d, table k !! fd = Some d →
    isNonBlocking fd (setNonBlackAndCloseOnExec fd k) = true ∧
    table (setNonBlackAndCloseOnExec fd k) = <[fd := both d]> (table k) ∧
    (∀ i, 0 <= i → i ≠ 11 → Z.testbit (fl (both d)) i = Z.testbit (fl d) i) ∧
    (∀ i, 0 <= i → i ≠ 0 → Z.testbit (fd_flags (both d)) i = Z.testbit (fd_flags d) i)) ∧
  (table k !! fd = None →
    isNonBlocking fd k = true ∧ table (setNonBlackAndCloseOnExec fd k) = table k).
Proof.
  split; [intros d Hd; split_and!|intros Hd; split].
  - unfold isNonBlocking. rewrite law_getfl, (nonblock_open _ _ _ Hd), lookup_insert_eq. cbn [fl both].
    apply negb_true_iff, Z.eqb_neq. intros E. apply (f_equal (λ z, Z.testbit z 11)) in E.
    by rewrite Z.land_spec, Z.lor_spec, orb_true_r in E.
  - by apply nonblock_open.
  - intros i Hi Hn. cbn [fl both]. rewrite Z.lor_spec. change O_NONBLOCK with (2 ^ 11).
    rewrite Z.pow2_bits_false by done. apply orb_false_r.
  - intros i Hi Hn. cbn [fd_flags both]. rewrite Z.lor_spec. change FD_CLOEXEC with (2 ^ 0).
    rewrite Z.pow2_bits_false by done. apply orb_false_r.
  - unfold isNonBlocking. by rewrite law_getfl, Hd.
  - by apply nonblock_bad.
Qed.
End Ownership.

(** ** Witnesses *)

(** The three standard descriptors are open. *)
Definition demo_kernel : kernel :=
  mkKernel (<[0 := new_descr true false false]> (<[1 := new_descr true false false]>
    (<[2 := new_descr true false false]> ∅))) 16.

Definition demo_events : list event := [Create; Accept 0; Accept 0; Destroy 1; Accept 0].

Lemma descriptors_owned_witness :
  let w := run demo_events (mkWorld demo_kernel ∅ 0) in
  is_Some (table (kernel_of w) !! 5) ∧ 4 ≠ 5 ∧
  live (step (Destroy 3) w) !! 2%nat = Some (mkSocket 5) ∧
  table (kernel_of (step (Destroy 3) w)) !! 4 = None ∧
  table (kernel_of (step (Destroy 3) w)) !! 5 = table (kernel_of w) !! 5 ∧
  accounted demo_kernel w.
Proof.
  exact (descriptors_owned demo_events demo_kernel 3 2 (mkSocket 4) (mkSocket 5)
    eq_refl eq_refl eq_refl ltac:(lia) ltac:(cbn; lia)).
Defined.

Lemma closed_twice_witness :
  let w := run [Create] (mkWorld demo_kernel ∅ 0) in
  let w' := step Create (step (Close 0) w) in
  (live w' !! next w = Some (mkSocket (-1))) ∨
  (live w' !! next w = Some (mkSocket 3) ∧ is_Some (table (kernel_of w') !! 3) ∧
   live (step (Destroy 0) w') !! next w = Some (mkSocket 3) ∧
   table (kernel_of (step (Destroy 0) w')) !! 3 = None).
Proof.
  apply (closed_twice (run [Create] (mkWorld demo_kernel ∅ 0)) 0 (mkSocket 3));
    [reflexivity|vm_compute; lia|cbn; lia|].
  intros i Hi. cbn in Hi. assert (i = 0 ∨ i = 1 ∨ i = 2) as [E|[E|E]] by lia; rewrite E; vm_compute; by eexists.
Defined.

Lemma nonblocking_set_witness :
  isNonBlocking 1 (setNonBlackAndCloseOnExec 1 demo_kernel) = true ∧ isNonBlocking 7 demo_kernel = true.
Proof.
  split.
  - exact (proj1 (proj1 (nonblocking_set 1 demo_kernel) (new_descr true false false) eq_refl)).
  - exact (proj1 (proj2 (nonblocking_set 7 demo_kernel) eq_refl)).
Defined.
