(* ===== verification/BaseMessage.v ===== *)
(** * The wire format: [Base/message/BaseMessage.{h,cpp}]

    A message object carries the bookkeeping of one encoding
    ([MSG_LEN], the list of array lengths, two cursors).  The variadic
    templates [countCapacity], [pushMembers] and [popMembers] recurse over the
    declared types of the members: here a list of types [ts] and a tuple of
    values [tuple ts].  The first half of the file transcribes the methods, the
    second gives the format they implement ([wire]) and proves that they do. *)

From S2P Require Import Prelude.

Local Open Scope Z_scope.

(** ** Member types *)

(** Arithmetic member types in use, at their x86-64 sizes.  A [double] is its
    64-bit pattern. *)
Inductive scalar := TBool | TInt | TSize | TTime | TDouble.

Definition sizeof (t : scalar) : nat :=
  match t with TBool => 1 | TInt => 4 | TSize | TTime | TDouble => 8 end.

(** Values of a type, as integers. *)
Definition in_range (t : scalar) (v : Z) : Prop :=
  match t with
  | TBool => 0 <= v < 2
  | TInt => - 2 ^ 31 <= v < 2 ^ 31
  | TTime => - 2 ^ 63 <= v < 2 ^ 63
  | TSize | TDouble => 0 <= v < 2 ^ 64
  end.

Definition encode (t : scalar) (v : Z) : str := to_le (sizeof t) v.

Definition decode (t : scalar) (bs : str) : Z :=
  match t with
  | TInt => sint 32 (of_le bs)
  | TTime => sint 64 (of_le bs)
  | TBool | TSize | TDouble => of_le bs
  end.

Inductive ty := TScalar (t : scalar) | TString | TVector (t : scalar) | TStrings.

Definition denote (t : ty) : Type :=
  match t with
  | TScalar _ => Z
  | TString => str
  | TVector _ => list Z
  | TStrings => list str
  end.

Fixpoint tuple (ts : list ty) : Type :=
  match ts with
  | [] => unit
  | t :: ts => denote t * tuple ts
  end.

(** ** The object *)

Record BaseMessage := mkBaseMessage {
  MSG_NAME : str;
  MSG_LEN : Z;                     (* size_t *)
  mData : list (option ascii);     (* new char[]: None is a byte never written; [] for nullptr *)
  ARRAY_LIKE_LENGHTS : list Z;
  ARRAY_LIKE_S_SIZE : Z;
  mArrayLikeIndex : Z;
  mCursor : Z }.

Definition MSG_NAME_NONE : str := lit "MSG_NAME_NONE".

Definition newBaseMessage : BaseMessage := mkBaseMessage MSG_NAME_NONE 0 [] [] 0 0 0.

Definition set_name (n : str) (b : BaseMessage) : BaseMessage :=
  mkBaseMessage n (MSG_LEN b) (mData b) (ARRAY_LIKE_LENGHTS b) (ARRAY_LIKE_S_SIZE b)
    (mArrayLikeIndex b) (mCursor b).
Definition set_len (l : Z) (b : BaseMessage) : BaseMessage :=
  mkBaseMessage (MSG_NAME b) l (mData b) (ARRAY_LIKE_LENGHTS b) (ARRAY_LIKE_S_SIZE b)
    (mArrayLikeIndex b) (mCursor b).
Definition set_data (d : list (option ascii)) (b : BaseMessage) : BaseMessage :=
  mkBaseMessage (MSG_NAME b) (MSG_LEN b) d (ARRAY_LIKE_LENGHTS b) (ARRAY_LIKE_S_SIZE b)
    (mArrayLikeIndex b) (mCursor b).
Definition set_lens (ls : list Z) (b : BaseMessage) : BaseMessage :=
  mkBaseMessage (MSG_NAME b) (MSG_LEN b) (mData b) ls (ARRAY_LIKE_S_SIZE b)
    (mArrayLikeIndex b) (mCursor b).
Definition set_ssize (n : Z) (b : BaseMessage) : BaseMessage :=
  mkBaseMessage (MSG_NAME b) (MSG_LEN b) (mData b) (ARRAY_LIKE_LENGHTS b) n
    (mArrayLikeIndex b) (mCursor b).
Definition set_index (i : Z) (b : BaseMessage) : BaseMessage :=
  mkBaseMessage (MSG_NAME b) (MSG_LEN b) (mData b) (ARRAY_LIKE_LENGHTS b) (ARRAY_LIKE_S_SIZE b)
    i (mCursor b).
Definition set_cursor (c : Z) (b : BaseMessage) : BaseMessage :=
  mkBaseMessage (MSG_NAME b) (MSG_LEN b) (mData b) (ARRAY_LIKE_LENGHTS b) (ARRAY_LIKE_S_SIZE b)
    (mArrayLikeIndex b) c.

Definition GET_ARRAY_LIKE_LENGTH_BY_INDEX (index : Z) (b : BaseMessage) : res Z :=
  if ARRAY_LIKE_S_SIZE b <=? index then Ok (u64 (-1))
  else if (index <? Z.of_nat (length (ARRAY_LIKE_LENGHTS b)))%Z
       then of_option OutOfRange (ARRAY_LIKE_LENGHTS b !! Z.to_nat index)
       else Err OutOfRange.

(** ** Counting *)

(** [MSG_LEN += len; ARRAY_LIKE_LENGHTS.push_back(n); ++ARRAY_LIKE_S_SIZE] *)
Definition countArray (bytes n : Z) (b : BaseMessage) : BaseMessage :=
  mkBaseMessage (MSG_NAME b) (u64 (MSG_LEN b + bytes)) (mData b)
    (ARRAY_LIKE_LENGHTS b ++ [n]) (u64 (ARRAY_LIKE_S_SIZE b + 1))
    (mArrayLikeIndex b) (mCursor b).

Definition strlen (s : str) : Z := Z.of_nat (length s).

Definition countLength (t : ty) : denote t → BaseMessage → BaseMessage :=
  match t with
  | TScalar t => λ _ b, set_len (u64 (MSG_LEN b + Z.of_nat (sizeof t))) b
  | TString => λ val b, countArray (strlen val) (strlen val) b
  | TVector t => λ val b,
      countArray (Z.of_nat (sizeof t) * Z.of_nat (length val)) (Z.of_nat (length val)) b
  | TStrings => λ strs b,
      fold_left (λ b s, countArray (strlen s) (strlen s) b) strs b
  end.

Fixpoint countCapacity (ts : list ty) : tuple ts → BaseMessage → BaseMessage :=
  match ts with
  | [] => λ _ b, b
  | t :: ts => λ args b, countCapacity ts args.2 (countLength t args.1 b)
  end.

Definition countHelper (b : BaseMessage) : BaseMessage :=
  countCapacity [TString; TScalar TSize; TScalar TSize]
    (MSG_NAME b, (MSG_LEN b, (ARRAY_LIKE_S_SIZE b, tt))) b.

(** The last statement of every [count()]. *)
Definition countLengths (b : BaseMessage) : BaseMessage :=
  set_len (u64 (MSG_LEN b + 8 * Z.of_nat (length (ARRAY_LIKE_LENGHTS b)))) b.

Definition BaseMessage_count (b : BaseMessage) : BaseMessage :=
  countLengths (countHelper b).

(** ** Writing *)

Definition blit (d : list (option ascii)) (at_ : Z) (bs : str) : res (list (option ascii)) :=
  if ((0 <=? at_) && (at_ + strlen bs <=? Z.of_nat (length d)))%Z
  then Ok (take (Z.to_nat at_) d ++ (Some <$> bs) ++ drop (Z.to_nat at_ + length bs) d)
  else Err OutOfBounds.

(** [memcpy(mData + mCursor, bs, n); mCursor += n] *)
Definition pushBytes (bs : str) (b : BaseMessage) : res BaseMessage :=
  d ← blit (mData b) (mCursor b) bs;
  Ok (set_cursor (u64 (mCursor b + strlen bs)) (set_data d b)).

Fixpoint foldM {A} (f : A → BaseMessage → res BaseMessage) (l : list A) (b : BaseMessage)
    : res BaseMessage :=
  match l with
  | [] => Ok b
  | a :: l => b ← f a b; foldM f l b
  end.

Definition pushMember (t : ty) : denote t → BaseMessage → res BaseMessage :=
  match t with
  | TScalar t => λ val b, pushBytes (encode t val) b
  | TString => λ val b, pushBytes val b
  | TVector t => λ val b, foldM (λ m b, pushBytes (encode t m) b) val b
  | TStrings => λ strs b, foldM pushBytes strs b
  end.

Fixpoint pushMembers (ts : list ty) : tuple ts → BaseMessage → res BaseMessage :=
  match ts with
  | [] => λ _ b, Ok b
  | t :: ts => λ args b, b ← pushMember t args.1 b; pushMembers ts args.2 b
  end.

Definition serializeHelper (b : BaseMessage) : res BaseMessage :=
  let b := set_cursor 0 b in
  let b := set_data (replicate (Z.to_nat (MSG_LEN b)) None) b in
  pushMembers [TScalar TSize; TScalar TSize; TVector TSize; TString]
    (MSG_LEN b, (ARRAY_LIKE_S_SIZE b, (ARRAY_LIKE_LENGHTS b, (MSG_NAME b, tt)))) b.

(** [std::string(mData, MSG_LEN)] *)
Definition dataString (b : BaseMessage) : res str :=
  if (Z.of_nat (length (mData b)) <? MSG_LEN b)%Z then Err OutOfBounds
  else of_option Uninit (mapM id (take (Z.to_nat (MSG_LEN b)) (mData b))).

Definition BaseMessage_serialize (b : BaseMessage) : res (BaseMessage * str) :=
  b ← serializeHelper b;
  s ← dataString b;
  Ok (b, s).

(** ** Reading

    [data] is the memory the [const char *] argument gives access to. *)

Definition readBytes (data : str) (at_ n : Z) : res str :=
  if ((0 <=? at_) && (0 <=? n) && (at_ + n <=? strlen data))%Z
  then Ok (take (Z.to_nat n) (drop (Z.to_nat at_) data))
  else Err OutOfBounds.

(** [memcpy(.., data + mCursor, n); mCursor += n] *)
Definition popBytes (data : str) (n : Z) (b : BaseMessage) : res (BaseMessage * str) :=
  bs ← readBytes data (mCursor b) n;
  Ok (set_cursor (u64 (mCursor b + n)) b, bs).

Definition popScalar (t : scalar) (data : str) (b : BaseMessage) : res (BaseMessage * Z) :=
  '(b, bs) ← popBytes data (Z.of_nat (sizeof t)) b;
  Ok (b, decode t bs).

(** [ARRAY_LIKE_LENGHTS.at(i)] *)
Definition lengthAt (i : Z) (b : BaseMessage) : res Z :=
  if ((0 <=? i) && (i <? Z.of_nat (length (ARRAY_LIKE_LENGHTS b))))%Z
  then of_option OutOfRange (ARRAY_LIKE_LENGHTS b !! Z.to_nat i)
  else Err OutOfRange.

(** [ARRAY_LIKE_LENGHTS.at(mArrayLikeIndex++)] *)
Definition nextLength (b : BaseMessage) : res (BaseMessage * Z) :=
  len ← lengthAt (mArrayLikeIndex b) b;
  Ok (set_index (u64 (mArrayLikeIndex b + 1)) b, len).

(** The loop that reads [len] elements of a vector and appends them to [val]. *)
Fixpoint popElems (fuel : nat) (t : scalar) (data : str) (len : Z) (b : BaseMessage)
    (val : list Z) : res (BaseMessage * list Z) :=
  if (len <=? 0)%Z then Ok (b, val) else
  match fuel with
  | O => Err OutOfFuel
  | S fuel =>
      '(b, v) ← popScalar t data b;
      popElems fuel t data (len - 1) b (val ++ [v])
  end.

(** The loop over [ARRAY_LIKE_LENGHTS] from [i] on that appends one string each. *)
Fixpoint popStrs (fuel : nat) (data : str) (i : Z) (b : BaseMessage) (strs : list str)
    : res (BaseMessage * list str) :=
  if (ARRAY_LIKE_S_SIZE b <=? i)%Z then Ok (b, strs) else
  match fuel with
  | O => Err OutOfFuel
  | S fuel =>
      len ← lengthAt i b;
      '(b, s) ← popBytes data len b;
      popStrs fuel data (u64 (i + 1)) b (strs ++ [s])
  end.

Definition popMember (data : str) (t : ty) : denote t → BaseMessage → res (BaseMessage * denote t) :=
  match t with
  | TScalar t => λ _ b, popScalar t data b
  | TString => λ _ b,
      '(b, len) ← nextLength b;
      popBytes data len b
  | TVector t => λ val b,
      '(b, len) ← nextLength b;
      popElems (S (length data)) t data len b val
  | TStrings => λ strs b,
      popStrs (S (length (ARRAY_LIKE_LENGHTS b))) data (mArrayLikeIndex b) b strs
  end.

Fixpoint popMembers (data : str) (ts : list ty) : tuple ts → BaseMessage → res (BaseMessage * tuple ts) :=
  match ts with
  | [] => λ _ b, Ok (b, tt)
  | t :: ts => λ args b,
      '(b, v) ← popMember data t args.1 b;
      '(b, vs) ← popMembers data ts args.2 b;
      Ok (b, (v, vs))
  end.

(** [for (i = 0; i < ARRAY_LIKE_S_SIZE; ++i)] read one length each. *)
Fixpoint fillLoop (fuel : nat) (data : str) (i : Z) (b : BaseMessage) : res BaseMessage :=
  if (ARRAY_LIKE_S_SIZE b <=? i)%Z then Ok b else
  match fuel with
  | O => Err OutOfFuel
  | S fuel =>
      '(b, len) ← popScalar TSize data b;
      fillLoop fuel data (u64 (i + 1)) (set_lens (ARRAY_LIKE_LENGHTS b ++ [len]) b)
  end.

Definition fillArrayLike (data : str) (b : BaseMessage) : res BaseMessage :=
  if (ARRAY_LIKE_S_SIZE b <=? 0)%Z then Ok b
  else fillLoop (S (length data)) data 0 b.

Definition deserializeHelper (data : str) (b : BaseMessage) : res BaseMessage :=
  let b := set_cursor 0 b in
  '(b, (len, (ssize, _))) ← popMembers data [TScalar TSize; TScalar TSize]
      (MSG_LEN b, (ARRAY_LIKE_S_SIZE b, tt)) b;
  let b := set_ssize ssize (set_len len b) in
  b ← fillArrayLike data b;
  '(b, (name, _)) ← popMembers data [TString] (MSG_NAME b, tt) b;
  Ok (set_name name b).

Definition BaseMessage_deserialize (data : str) (b : BaseMessage) : res BaseMessage :=
  deserializeHelper data b.

(** ** A derived message: its members after the base ones

    Every derived class overrides the three methods by the same three lines
    around its own list of members; [Messages.v] transcribes each of them. *)

Definition count_with (ts : list ty) (vs : tuple ts) (b : BaseMessage) : BaseMessage :=
  countLengths (countCapacity ts vs (countHelper b)).

Definition serialize_with (ts : list ty) (vs : tuple ts) (b : BaseMessage)
    : res (BaseMessage * str) :=
  b ← serializeHelper b;
  b ← pushMembers ts vs b;
  s ← dataString b;
  Ok (b, s).

Definition deserialize_with (ts : list ty) (data : str) (vs : tuple ts) (b : BaseMessage)
    : res (BaseMessage * tuple ts) :=
  b ← deserializeHelper data b;
  popMembers data ts vs b.

Example roundtrip_example :
  let ts := [TScalar TBool; TVector TSize; TStrings] in
  let vs : tuple ts := (0, ([123; 321], ([lit "abc"; lit ""; lit "xy"], tt))) in
  let b := count_with ts vs (set_name (lit "STRINGS") newBaseMessage) in
  match serialize_with ts vs b with
  | Ok (_, s) =>
      match deserialize_with ts s (1, ([], ([], tt))) newBaseMessage with
      | Ok (b', vs') => vs' = vs ∧ MSG_NAME b' = lit "STRINGS" ∧ MSG_LEN b' = 85
      | Err _ => False
      end
  | Err _ => False
  end.
Proof. vm_compute. repeat split; reflexivity. Qed.

(** ** The format, as a specification *)

(** The bytes of a member and the lengths it adds to the header. *)
Definition enc (t : ty) : denote t → str :=
  match t with
  | TScalar t => λ v, encode t v
  | TString => λ s, s
  | TVector t => λ vs, mjoin (encode t <$> vs)
  | TStrings => λ ss, mjoin ss
  end.

Definition lens (t : ty) : denote t → list Z :=
  match t with
  | TScalar _ => λ _, []
  | TString => λ s, [strlen s]
  | TVector _ => λ vs, [Z.of_nat (length vs)]
  | TStrings => λ ss, strlen <$> ss
  end.

Fixpoint encs (ts : list ty) : tuple ts → str :=
  match ts with
  | [] => λ _, []
  | t :: ts => λ vs, enc t vs.1 ++ encs ts vs.2
  end.

Fixpoint lenss (ts : list ty) : tuple ts → list Z :=
  match ts with
  | [] => λ _, []
  | t :: ts => λ vs, lens t vs.1 ++ lenss ts vs.2
  end.

Definition header_lens (name : str) (ts : list ty) (vs : tuple ts) : list Z :=
  strlen name :: lenss ts vs.

Definition total (name : str) (ts : list ty) (vs : tuple ts) : Z :=
  16 + 8 * Z.of_nat (length (header_lens name ts vs)) + strlen name + strlen (encs ts vs).

Definition body (name : str) (ts : list ty) (vs : tuple ts) : str :=
  mjoin (to_le 8 <$> header_lens name ts vs) ++ name ++ encs ts vs.

Definition wire (name : str) (ts : list ty) (vs : tuple ts) : str :=
  to_le 8 (total name ts vs) ++
  to_le 8 (Z.of_nat (length (header_lens name ts vs))) ++ body name ts vs.

(** Values the C++ types can hold. *)
Definition valid (t : ty) : denote t → Prop :=
  match t with
  | TScalar t => λ v, in_range t v
  | TVector t => λ vs, Forall (in_range t) vs
  | TString | TStrings => λ _, True
  end.

Fixpoint valids (ts : list ty) : tuple ts → Prop :=
  match ts with
  | [] => λ _, True
  | t :: ts => λ vs, valid t vs.1 ∧ valids ts vs.2
  end.

Definition is_strings (t : ty) : bool := match t with TStrings => true | _ => false end.

(** "at most one vector<string>, and it must be serialized at the end" *)
Fixpoint strings_last (ts : list ty) : bool :=
  match ts with
  | [] => true
  | [_] => true
  | t :: ts => negb (is_strings t) && strings_last ts
  end.

Definition no_strings (ts : list ty) : bool := forallb (λ t, negb (is_strings t)) ts.

(** What reading leaves in the members: scalars and strings are replaced, the
    elements of vectors are appended to those already there. *)
Definition append (t : ty) : denote t → denote t → denote t :=
  match t with
  | TScalar _ | TString => λ _ new, new
  | TVector _ => λ old new, old ++ new
  | TStrings => λ old new, old ++ new
  end.

Fixpoint appends (ts : list ty) : tuple ts → tuple ts → tuple ts :=
  match ts with
  | [] => λ _ _, tt
  | t :: ts => λ old new, (append t old.1 new.1, appends ts old.2 new.2)
  end.

Fixpoint empties (ts : list ty) : tuple ts → Prop :=
  match ts with
  | [] => λ _, True
  | t :: ts => λ vs, match t as t return denote t → Prop with
                     | TScalar _ | TString => λ _, True
                     | TVector _ => λ v, v = []
                     | TStrings => λ v, v = []
                     end vs.1 ∧ empties ts vs.2
  end.

(** Members whose length is taken through [mArrayLikeIndex]. *)
Fixpoint consumed (ts : list ty) : tuple ts → Z :=
  match ts with
  | [] => λ _, 0
  | t :: ts => λ vs,
      (if is_strings t then 0 else Z.of_nat (length (lens t vs.1))) + consumed ts vs.2
  end.

(** ** Basic facts *)

Lemma strlen_app a b : strlen (a ++ b) = strlen a + strlen b.
Proof. unfold strlen. rewrite length_app. lia. Qed.

Lemma strlen_nonneg s : 0 <= strlen s.
Proof. unfold strlen. lia. Qed.

Lemma strlen_encode t v : strlen (encode t v) = Z.of_nat (sizeof t).
Proof. unfold strlen, encode. by rewrite length_to_le. Qed.

#[export] Hint Rewrite strlen_app strlen_encode : warring_rw.
#[export] Hint Resolve strlen_nonneg : warring.

Lemma sizeof_pos t : (0 < sizeof t)%nat.
Proof. destruct t; cbn; lia. Qed.

Lemma decode_encode t v : in_range t v → decode t (encode t v) = v.
Proof.
  unfold encode, decode. destruct t; cbn [in_range sizeof]; intros Hv;
    rewrite of_le_to_le.
  - apply Z.mod_small. cbn. lia.
  - change (256 ^ Z.of_nat 4) with (2 ^ 32).
    change (v mod 2 ^ 32) with (wrap 32 v). rewrite sint_wrap by lia. by apply sint_small.
  - by apply Z.mod_small.
  - change (256 ^ Z.of_nat 8) with (2 ^ 64).
    change (v mod 2 ^ 64) with (wrap 64 v). rewrite sint_wrap by lia. by apply sint_small.
  - by apply Z.mod_small.
Qed.

Lemma strlen_mjoin_encode t vs :
  strlen (mjoin (encode t <$> vs)) = Z.of_nat (sizeof t) * Z.of_nat (length vs).
Proof.
  induction vs as [|v vs IH]; [unfold strlen; simpl length; lia|].
  rewrite fmap_cons, mjoin_cons. autorewrite with warring_rw. rewrite IH. cbn [length]. lia.
Qed.

Lemma mCursor_set b c : mCursor (set_cursor c b) = c. Proof. done. Qed.

(** ** Counting computes the size of the format *)

Lemma countArray_spec k n b :
  MSG_NAME (countArray k n b) = MSG_NAME b ∧
  mData (countArray k n b) = mData b ∧
  mArrayLikeIndex (countArray k n b) = mArrayLikeIndex b ∧
  mCursor (countArray k n b) = mCursor b.
Proof. done. Qed.

(** [counted k ls b b']: [b'] is [b] after [k] more bytes and the lengths [ls]. *)
Definition counted (k : Z) (ls : list Z) (b b' : BaseMessage) : Prop :=
  b' = mkBaseMessage (MSG_NAME b) (u64 (MSG_LEN b + k)) (mData b)
         (ARRAY_LIKE_LENGHTS b ++ ls)
         (u64 (ARRAY_LIKE_S_SIZE b + Z.of_nat (length ls)))
         (mArrayLikeIndex b) (mCursor b).

Definition size_ok (b : BaseMessage) : Prop :=
  0 <= MSG_LEN b < size_max ∧ 0 <= ARRAY_LIKE_S_SIZE b < size_max.

Lemma counted_refl b : size_ok b → counted 0 [] b b.
Proof.
  intros [H1 H2]. unfold counted. cbn [length].
  rewrite !Z.add_0_r, !u64_small, app_nil_r by done. by destruct b.
Qed.

Lemma counted_trans k1 k2 l1 l2 b1 b2 b3 :
  counted k1 l1 b1 b2 → counted k2 l2 b2 b3 → counted (k1 + k2) (l1 ++ l2) b1 b3.
Proof.
  unfold counted. intros -> ->. cbn. rewrite !u64_add_l, length_app.
  f_equal; [f_equal; lia|by rewrite app_assoc|f_equal; lia].
Qed.

Lemma counted_size k ls b b' : counted k ls b b' → size_ok b'.
Proof. intros ->. split; cbn; auto with warring. Qed.

Lemma countLength_counted t v b :
  size_ok b → counted (strlen (enc t v)) (lens t v) b (countLength t v b).
Proof.
  intros Hb. destruct t as [t| |t|]; cbn [countLength enc lens denote] in *.
  - rewrite strlen_encode. unfold counted, set_len. cbn.
    rewrite Z.add_0_r, (u64_small (ARRAY_LIKE_S_SIZE b)), app_nil_r by apply Hb. done.
  - done.
  - rewrite strlen_mjoin_encode. done.
  - revert b Hb. induction v as [|s v IH]; intros b Hb; cbn [fold_left].
    { by apply counted_refl. }
    rewrite mjoin_cons, strlen_app, fmap_cons.
    change (strlen s :: ?l) with ([strlen s] ++ l).
    assert (counted (strlen s) [strlen s] b (countArray (strlen s) (strlen s) b)) as Hc by done.
    eapply counted_trans; [exact Hc|]. apply IH. by eapply counted_size.
Qed.

Lemma countCapacity_counted ts vs b :
  size_ok b → counted (strlen (encs ts vs)) (lenss ts vs) b (countCapacity ts vs b).
Proof.
  revert vs b. induction ts as [|t ts IH]; intros vs b Hb; cbn [countCapacity encs lenss].
  { by apply counted_refl. }
  rewrite strlen_app. pose proof (countLength_counted t vs.1 b Hb) as Hc.
  eapply counted_trans; [exact Hc|]. apply IH. by eapply counted_size.
Qed.

(** An object on which [count()] was never called. *)
Definition uncounted (b : BaseMessage) : Prop :=
  MSG_LEN b = 0 ∧ ARRAY_LIKE_LENGHTS b = [] ∧ ARRAY_LIKE_S_SIZE b = 0.

Lemma uncounted_size b : uncounted b → size_ok b.
Proof. intros (H1 & H2 & H3). unfold size_ok, size_max. lia. Qed.

Lemma strlen_to_le n z : strlen (to_le n z) = Z.of_nat n.
Proof. unfold strlen. by rewrite length_to_le. Qed.
#[export] Hint Rewrite strlen_to_le : warring_rw.

Lemma countHelper_counted b :
  size_ok b → counted (strlen (MSG_NAME b) + 16) [strlen (MSG_NAME b)] b (countHelper b).
Proof.
  intros Hb. unfold countHelper.
  pose proof (countCapacity_counted [TString; TScalar TSize; TScalar TSize]
    (MSG_NAME b, (MSG_LEN b, (ARRAY_LIKE_S_SIZE b, tt))) b Hb) as H.
  cbn [encs enc lenss lens fst snd app] in H.
  by autorewrite with warring_rw in H.
Qed.

Lemma count_with_spec ts vs b :
  uncounted b → total (MSG_NAME b) ts vs < size_max →
  count_with ts vs b =
  mkBaseMessage (MSG_NAME b) (total (MSG_NAME b) ts vs) (mData b)
    (header_lens (MSG_NAME b) ts vs) (Z.of_nat (length (header_lens (MSG_NAME b) ts vs)))
    (mArrayLikeIndex b) (mCursor b).
Proof.
  intros Hb Ht. pose proof (uncounted_size b Hb) as Hs.
  pose proof (countHelper_counted b Hs) as H1.
  pose proof (countCapacity_counted ts vs _ (counted_size _ _ _ _ H1)) as H2.
  pose proof (counted_trans _ _ _ _ _ _ _ H1 H2) as H. clear H1 H2.
  unfold count_with. rewrite H. unfold countLengths, set_len.
  cbn [MSG_NAME MSG_LEN mData ARRAY_LIKE_LENGHTS ARRAY_LIKE_S_SIZE mArrayLikeIndex mCursor].
  destruct Hb as (-> & -> & ->). rewrite u64_add_l. cbn [app].
  fold (header_lens (MSG_NAME b) ts vs).
  pose proof (strlen_nonneg (MSG_NAME b)). pose proof (strlen_nonneg (encs ts vs)).
  unfold total in *. f_equal; rewrite u64_small; lia.
Qed.

(** ** Serialising writes exactly the format *)

(** [b] with [w] written at the front of its buffer and [k] bytes to go. *)
Definition pushed (b : BaseMessage) (w : str) (k : nat) : BaseMessage :=
  set_cursor (strlen w) (set_data ((Some <$> w) ++ replicate k None) b).

Lemma pushed_pushed b w k w' k' : pushed (pushed b w k) w' k' = pushed b w' k'.
Proof. done. Qed.

Lemma pushBytes_pushed b w k bs :
  strlen w + strlen bs < size_max →
  pushBytes bs (pushed b w (length bs + k)) = Ok (pushed b (w ++ bs) k).
Proof.
  intros Hlt. unfold pushBytes, pushed, blit.
  cbn [mData mCursor set_cursor set_data].
  pose proof (strlen_nonneg w). pose proof (strlen_nonneg bs).
  assert (length ((Some <$> w) ++ replicate (length bs + k) None)
    = (length w + length bs + k)%nat) as Hl.
  { autorewrite with warring_rw. lia. }
  rewrite Hl. unfold strlen in *.
  rewrite (proj2 (Z.leb_le 0 _)), (proj2 (Z.leb_le _ (Z.of_nat _))) by lia.
  cbn [andb mbind res_bind]. rewrite Nat2Z.id.
  rewrite take_app_length', drop_app_ge by (rewrite length_fmap; lia).
  rewrite length_fmap, replicate_add, drop_app_length' by (rewrite length_replicate; lia).
  rewrite u64_small by lia. unfold set_cursor, set_data. cbn. rewrite fmap_app.
  do 2 f_equal; [by rewrite <- app_assoc|]. rewrite length_app. lia.
Qed.

Lemma foldM_pushed {A} (f : A → BaseMessage → res BaseMessage) (g : A → str) l b w k :
  (∀ a b, f a b = pushBytes (g a) b) →
  strlen w + strlen (mjoin (g <$> l)) < size_max →
  foldM f l (pushed b w (length (mjoin (g <$> l)) + k)) = Ok (pushed b (w ++ mjoin (g <$> l)) k).
Proof.
  intros Hf. revert w. induction l as [|a l IH]; intros w Hlt.
  { cbn [foldM]. by rewrite app_nil_r. }
  rewrite fmap_cons, mjoin_cons, strlen_app in *. cbn [foldM].
  pose proof (strlen_nonneg (mjoin (g <$> l))).
  rewrite length_app, <- Nat.add_assoc, Hf, pushBytes_pushed by lia.
  cbn [mbind res_bind]. rewrite IH by (rewrite strlen_app; lia). by rewrite app_assoc.
Qed.

Lemma pushMember_pushed t v b w k :
  strlen w + strlen (enc t v) < size_max →
  pushMember t v (pushed b w (length (enc t v) + k)) = Ok (pushed b (w ++ enc t v) k).
Proof.
  destruct t as [t| |t|]; cbn [pushMember enc denote] in *; intros Hlt.
  - by apply pushBytes_pushed.
  - by apply pushBytes_pushed.
  - by apply foldM_pushed.
  - rewrite <- (list_fmap_id v) in Hlt |- *. rewrite list_fmap_id at 1.
    by apply foldM_pushed.
Qed.

Lemma pushMembers_pushed ts vs b w k :
  strlen w + strlen (encs ts vs) < size_max →
  pushMembers ts vs (pushed b w (length (encs ts vs) + k)) = Ok (pushed b (w ++ encs ts vs) k).
Proof.
  revert vs w. induction ts as [|t ts IH]; intros vs w Hlt.
  { cbn [pushMembers encs]. by rewrite app_nil_r. }
  cbn [pushMembers encs] in *. rewrite strlen_app in Hlt.
  pose proof (strlen_nonneg (encs ts vs.2)).
  rewrite length_app, <- Nat.add_assoc, pushMember_pushed by lia.
  cbn [mbind res_bind]. rewrite IH by (rewrite strlen_app; lia). by rewrite app_assoc.
Qed.

Lemma strlen_lens_bytes ls : strlen (mjoin (to_le 8 <$> ls)) = 8 * Z.of_nat (length ls).
Proof. apply (strlen_mjoin_encode TSize). Qed.

Lemma strlen_wire name ts vs : strlen (wire name ts vs) = total name ts vs.
Proof.
  unfold wire, body, total. autorewrite with warring_rw. rewrite strlen_lens_bytes. lia.
Qed.

Lemma dataString_pushed b w : MSG_LEN b = strlen w → dataString (pushed b w 0) = Ok w.
Proof.
  intros Hl. unfold dataString, pushed. cbn [mData MSG_LEN set_cursor set_data replicate].
  rewrite app_nil_r, length_fmap, Hl. unfold strlen. rewrite Z.ltb_irrefl, Nat2Z.id.
  rewrite take_ge by (rewrite length_fmap; lia). unfold of_option.
  assert (mapM id (Some <$> w) = Some w) as ->; [|done].
  clear Hl. induction w as [|x w IH]; [reflexivity|].
  rewrite fmap_cons. cbn [mapM mbind option_bind id]. by rewrite IH.
Qed.

(** An object as [count()] leaves it. *)
Definition counted_for (ts : list ty) (vs : tuple ts) (b : BaseMessage) : Prop :=
  MSG_LEN b = total (MSG_NAME b) ts vs ∧
  ARRAY_LIKE_LENGHTS b = header_lens (MSG_NAME b) ts vs ∧
  ARRAY_LIKE_S_SIZE b = Z.of_nat (length (header_lens (MSG_NAME b) ts vs)) ∧
  MSG_LEN b < size_max.

Lemma count_with_counted ts vs b :
  uncounted b → total (MSG_NAME b) ts vs < size_max → counted_for ts vs (count_with ts vs b).
Proof. intros Hb Ht. rewrite count_with_spec by done. by repeat split. Qed.

Lemma serialize_with_wire ts vs b :
  counted_for ts vs b →
  serialize_with ts vs b = Ok (pushed b (wire (MSG_NAME b) ts vs) 0, wire (MSG_NAME b) ts vs).
Proof.
  intros (Hl & Hn & Hs & Hlt). set (w := wire (MSG_NAME b) ts vs).
  assert (strlen w = MSG_LEN b) as Hw by (by rewrite Hl; apply strlen_wire).
  set (hts := [TScalar TSize; TScalar TSize; TVector TSize; TString]).
  set (hvs := (MSG_LEN b, (ARRAY_LIKE_S_SIZE b, (ARRAY_LIKE_LENGHTS b, (MSG_NAME b, tt)))) : tuple hts).
  assert (w = encs hts hvs ++ encs ts vs) as Hsplit.
  { unfold w, wire, body, hts, hvs. cbn [encs enc fst snd]. unfold encode. cbn [sizeof].
    rewrite Hl, Hn, Hs, app_nil_r, <- !app_assoc. done. }
  pose proof Hw as Hw'. rewrite Hsplit, strlen_app in Hw'.
  pose proof (strlen_nonneg (encs ts vs)). pose proof (strlen_nonneg (encs hts hvs)).
  unfold serialize_with, serializeHelper. cbn [MSG_LEN set_data set_cursor].
  fold hts. change (set_data _ _) with (pushed b [] (Z.to_nat (MSG_LEN b))).
  replace (Z.to_nat (MSG_LEN b)) with (length (encs hts hvs) + (length (encs ts vs) + 0))%nat
    by (unfold strlen in *; lia).
  change (strlen []) with 0 in *.
  rewrite (pushMembers_pushed hts hvs) by (change (strlen []) with 0; lia).
  cbn [mbind res_bind app]. rewrite pushMembers_pushed, <- Hsplit by lia.
  cbn [mbind res_bind]. by rewrite dataString_pushed.
Qed.

(** ** Reading recovers what the format holds *)

Lemma readBytes_app pre bs rest :
  readBytes (pre ++ bs ++ rest) (strlen pre) (strlen bs) = Ok bs.
Proof.
  unfold readBytes. rewrite !strlen_app.
  pose proof (strlen_nonneg pre). pose proof (strlen_nonneg bs). pose proof (strlen_nonneg rest).
  rewrite !(proj2 (Z.leb_le _ _)) by lia. cbn [andb]. unfold strlen. rewrite !Nat2Z.id.
  by rewrite drop_app_length, take_app_length.
Qed.

Lemma popBytes_spec pre bs rest n b :
  mCursor b = strlen pre → n = strlen bs → strlen (pre ++ bs) < size_max →
  popBytes (pre ++ bs ++ rest) n b = Ok (set_cursor (strlen (pre ++ bs)) b, bs).
Proof.
  intros Hc -> Hlt. unfold popBytes. rewrite Hc, readBytes_app. cbn [mbind res_bind].
  rewrite strlen_app in *. rewrite u64_small; [done|].
  pose proof (strlen_nonneg pre). pose proof (strlen_nonneg bs). lia.
Qed.

Lemma popScalar_spec t v pre rest b :
  mCursor b = strlen pre → in_range t v → strlen (pre ++ encode t v) < size_max →
  popScalar t (pre ++ encode t v ++ rest) b = Ok (set_cursor (strlen (pre ++ encode t v)) b, v).
Proof.
  intros Hc Hv Hlt. unfold popScalar.
  rewrite (popBytes_spec pre) by (done || by rewrite strlen_encode).
  cbn [mbind res_bind]. by rewrite decode_encode.
Qed.

(** The reading state: [b] with the cursor at [c] and the length index at [i]. *)
Definition reader (b : BaseMessage) (c i : Z) : BaseMessage := set_cursor c (set_index i b).

Lemma set_cursor_reader b c c' i : set_cursor c' (reader b c i) = reader b c' i.
Proof. done. Qed.
Lemma set_index_reader b c i i' : set_index i' (reader b c i) = reader b c i'.
Proof. done. Qed.
Lemma reader_self b : reader b (mCursor b) (mArrayLikeIndex b) = b.
Proof. by destruct b. Qed.

Lemma popElems_spec t vs b i pre rest acc fuel :
  Forall (in_range t) vs → (length vs < fuel)%nat →
  strlen (pre ++ mjoin (encode t <$> vs)) < size_max →
  popElems fuel t (pre ++ mjoin (encode t <$> vs) ++ rest) (Z.of_nat (length vs))
    (reader b (strlen pre) i) acc
  = Ok (reader b (strlen (pre ++ mjoin (encode t <$> vs))) i, acc ++ vs).
Proof.
  intros Hvs. revert pre acc fuel. induction Hvs as [|v vs Hv Hvs IH]; intros pre acc fuel Hf Hlt.
  { destruct fuel; cbn; by rewrite !app_nil_r. }
  destruct fuel as [|fuel]; [cbn in Hf; lia|]. cbn [popElems].
  rewrite fmap_cons, mjoin_cons in *. rewrite (proj2 (Z.leb_gt _ _)) by (cbn [length]; lia).
  rewrite app_assoc in Hlt. rewrite <- (app_assoc (encode t v)).
  rewrite popScalar_spec; [|done|done|].
  2: { rewrite strlen_app in Hlt. pose proof (strlen_nonneg (mjoin (encode t <$> vs))). lia. }
  cbn [mbind res_bind]. rewrite set_cursor_reader.
  replace (Z.of_nat (length (v :: vs)) - 1) with (Z.of_nat (length vs)) by (cbn [length]; lia).
  rewrite (app_assoc pre). rewrite IH by (done || cbn [length] in Hf; lia).
  by rewrite <- !app_assoc.
Qed.

Lemma lengthAt_lookup b k n :
  ARRAY_LIKE_LENGHTS b !! k = Some n → lengthAt (Z.of_nat k) b = Ok n.
Proof.
  intros Hk. unfold lengthAt. pose proof (lookup_lt_Some _ _ _ Hk).
  rewrite (proj2 (Z.leb_le _ _)), (proj2 (Z.ltb_lt _ _)) by lia.
  cbn [andb]. rewrite Nat2Z.id. by rewrite Hk.
Qed.

Lemma drop_cons_lookup {A} (l : list A) k x xs :
  drop k l = x :: xs → l !! k = Some x ∧ drop (S k) l = xs.
Proof.
  intros H. split.
  - rewrite <- (Nat.add_0_r k), <- lookup_drop, H. done.
  - rewrite <- Nat.add_1_r, <- drop_drop, H. done.
Qed.

Lemma popStrs_spec ss b i k pre rest acc fuel :
  drop k (ARRAY_LIKE_LENGHTS b) = strlen <$> ss →
  (length ss < fuel)%nat →
  ARRAY_LIKE_S_SIZE b = Z.of_nat (k + length ss) →
  ARRAY_LIKE_S_SIZE b < size_max →
  strlen (pre ++ mjoin ss) < size_max →
  popStrs fuel (pre ++ mjoin ss ++ rest) (Z.of_nat k) (reader b (strlen pre) i) acc
  = Ok (reader b (strlen (pre ++ mjoin ss)) i, acc ++ ss).
Proof.
  revert pre acc fuel k. induction ss as [|s ss IH]; intros pre acc fuel k Hd Hf Hs Hss Hlt.
  { destruct fuel; cbn [popStrs]; cbn [reader ARRAY_LIKE_S_SIZE set_cursor set_index];
      rewrite (proj2 (Z.leb_le _ _)) by (rewrite Hs; cbn [length]; lia);
      by rewrite !app_nil_r. }
  destruct fuel as [|fuel]; [cbn in Hf; lia|]. cbn [popStrs length] in *.
  cbn [ARRAY_LIKE_S_SIZE reader set_cursor set_index].
  rewrite (proj2 (Z.leb_gt _ _)) by lia.
  rewrite fmap_cons in Hd. apply drop_cons_lookup in Hd as [Hk Hd].
  change (lengthAt (Z.of_nat k) _) with (lengthAt (Z.of_nat k) b).
  rewrite (lengthAt_lookup b k _ Hk). cbn [mbind res_bind].
  change (set_cursor (strlen pre) (set_index i b)) with (reader b (strlen pre) i).
  rewrite mjoin_cons in *. rewrite app_assoc in Hlt. rewrite <- (app_assoc s).
  rewrite popBytes_spec; [|done|done|].
  2: { rewrite strlen_app in Hlt. pose proof (strlen_nonneg (mjoin ss)). lia. }
  cbn [mbind res_bind]. rewrite set_cursor_reader, u64_small by lia.
  replace (Z.of_nat k + 1) with (Z.of_nat (S k)) by lia.
  rewrite (app_assoc pre). rewrite IH by (done || lia). by rewrite <- !app_assoc.
Qed.

Lemma nextLength_spec b c k n :
  ARRAY_LIKE_LENGHTS b !! k = Some n → Z.of_nat (length (ARRAY_LIKE_LENGHTS b)) < size_max →
  nextLength (reader b c (Z.of_nat k)) = Ok (reader b c (Z.of_nat k + 1), n).
Proof.
  intros Hk Hlt. unfold nextLength. cbn [mArrayLikeIndex reader set_cursor set_index].
  change (lengthAt (Z.of_nat k) _) with (lengthAt (Z.of_nat k) b).
  rewrite (lengthAt_lookup b k n Hk). cbn [mbind res_bind].
  pose proof (lookup_lt_Some _ _ _ Hk). rewrite u64_small by lia. done.
Qed.

(** The conditions under which [b] can read members [vs] of types [ts]. *)
Record readable (ts : list ty) (vs : tuple ts) (b : BaseMessage) (k : nat) : Prop := {
  rd_valid : valids ts vs;
  rd_last : strings_last ts = true;
  rd_lens : drop k (ARRAY_LIKE_LENGHTS b) = lenss ts vs;
  rd_le : (k <= length (ARRAY_LIKE_LENGHTS b))%nat;
  rd_room : Z.of_nat (length (ARRAY_LIKE_LENGHTS b)) < size_max;
  rd_strings : no_strings ts = true ∨
    ARRAY_LIKE_S_SIZE b = Z.of_nat (length (ARRAY_LIKE_LENGHTS b)) }.

Lemma popMember_spec t v old pre rest b k lsr :
  valid t v → drop k (ARRAY_LIKE_LENGHTS b) = lens t v ++ lsr →
  (k <= length (ARRAY_LIKE_LENGHTS b))%nat →
  Z.of_nat (length (ARRAY_LIKE_LENGHTS b)) < size_max →
  (is_strings t = true → lsr = [] ∧ ARRAY_LIKE_S_SIZE b = Z.of_nat (length (ARRAY_LIKE_LENGHTS b))) →
  strlen (pre ++ enc t v) < size_max →
  popMember (pre ++ enc t v ++ rest) t old (reader b (strlen pre) (Z.of_nat k)) =
  Ok (reader b (strlen (pre ++ enc t v))
        (Z.of_nat k + if is_strings t then 0 else Z.of_nat (length (lens t v))), append t old v).
Proof.
  intros Hv Hd Hk Hr Hs Hlt.
  destruct t as [t| |t|]; cbn [popMember enc lens is_strings append denote valid] in *.
  - rewrite popScalar_spec by done. rewrite set_cursor_reader. cbn [length]. by rewrite Z.add_0_r.
  - apply drop_cons_lookup in Hd as [Hd _]. rewrite (nextLength_spec _ _ _ _ Hd Hr).
    cbn [mbind res_bind]. rewrite popBytes_spec by done. by rewrite set_cursor_reader.
  - apply drop_cons_lookup in Hd as [Hd _]. rewrite (nextLength_spec _ _ _ _ Hd Hr).
    cbn [mbind res_bind]. rewrite popElems_spec; [done|done| |done].
    pose proof (strlen_mjoin_encode t v) as He. pose proof (sizeof_pos t).
    rewrite !length_app. unfold strlen in He. nia.
  - destruct (Hs eq_refl) as [-> Hss]. rewrite app_nil_r in Hd.
    assert (length (ARRAY_LIKE_LENGHTS b) = (k + length v)%nat) as Hll.
    { apply (f_equal length) in Hd. rewrite length_drop, length_fmap in Hd. lia. }
    change (mArrayLikeIndex (reader b (strlen pre) (Z.of_nat k))) with (Z.of_nat k).
    change (ARRAY_LIKE_LENGHTS (reader b (strlen pre) (Z.of_nat k))) with (ARRAY_LIKE_LENGHTS b).
    rewrite popStrs_spec; [by rewrite Z.add_0_r|done|lia| |lia|done].
    by rewrite Hss, Hll.
Qed.

Lemma strings_last_cons t t' ts :
  strings_last (t :: t' :: ts) = true → is_strings t = false ∧ strings_last (t' :: ts) = true.
Proof.
  change (strings_last (t :: t' :: ts)) with (negb (is_strings t) && strings_last (t' :: ts)).
  by intros [?%negb_true_iff ?]%andb_true_iff.
Qed.

Lemma popMembers_spec ts vs old pre rest b k :
  readable ts vs b k → strlen (pre ++ encs ts vs) < size_max →
  popMembers (pre ++ encs ts vs ++ rest) ts old (reader b (strlen pre) (Z.of_nat k)) =
  Ok (reader b (strlen (pre ++ encs ts vs)) (Z.of_nat k + consumed ts vs), appends ts old vs).
Proof.
  revert vs old pre k. induction ts as [|t ts IH]; intros vs old pre k Hrd Hlt.
  { cbn [popMembers encs consumed appends]. by rewrite app_nil_r, Z.add_0_r. }
  destruct Hrd as [Hv Hl Hd Hk Hr Hs]. destruct vs as [v vs].
  cbn [popMembers encs lenss valids consumed appends fst snd] in *. destruct Hv as [Hv Hvs].
  rewrite app_assoc in Hlt. rewrite <- (app_assoc (enc t v)).
  assert (is_strings t = true → ts = []) as Hnil.
  { destruct ts as [|t' ts]; [done|]. apply strings_last_cons in Hl as [-> _]. done. }
  rewrite (popMember_spec t v old.1 pre _ b k (lenss ts vs)); [|done..| |].
  2: { intros Ht. pose proof (Hnil Ht). subst ts. split; [done|].
       destruct Hs as [Hs|Hs]; [|done]. cbn in Hs. by rewrite Ht in Hs. }
  2: { rewrite strlen_app in Hlt. pose proof (strlen_nonneg (encs ts vs)). lia. }
  cbn [mbind res_bind].
  set (j := if is_strings t then 0%nat else length (lens t v)).
  replace (Z.of_nat k + (if is_strings t then 0 else Z.of_nat (length (lens t v))))
    with (Z.of_nat (k + j)) by (unfold j; destruct (is_strings t); lia).
  rewrite (app_assoc pre). destruct (is_strings t) eqn:Ht.
  { pose proof (Hnil eq_refl). subst ts.
    cbn [popMembers encs consumed appends mbind res_bind]. unfold j.
    by rewrite app_nil_r, !Z.add_0_r, Nat.add_0_r. }
  rewrite IH; [|constructor|done].
  - cbn [mbind res_bind]. rewrite <- app_assoc.
    replace (Z.of_nat (k + j)) with (Z.of_nat k + Z.of_nat (length (lens t v))) by (unfold j; lia).
    by rewrite <- Z.add_assoc.
  - done.
  - destruct ts as [|t' ts]; [done|]. by apply strings_last_cons in Hl as [_ ?].
  - rewrite <- drop_drop, Hd. unfold j. by rewrite drop_app_length.
  - apply (f_equal length) in Hd. rewrite length_drop, length_app in Hd. unfold j. lia.
  - done.
  - destruct Hs as [Hs|Hs]; [left|by right]. cbn in Hs. by apply andb_true_iff in Hs as [_ ?].
Qed.

Lemma fillLoop_spec ls pre rest b i fuel :
  Forall (in_range TSize) ls → mCursor b = strlen pre →
  ARRAY_LIKE_S_SIZE b = Z.of_nat (i + length ls) → ARRAY_LIKE_S_SIZE b < size_max →
  (length ls < fuel)%nat → strlen (pre ++ mjoin (to_le 8 <$> ls)) < size_max →
  fillLoop fuel (pre ++ mjoin (to_le 8 <$> ls) ++ rest) (Z.of_nat i) b
  = Ok (set_lens (ARRAY_LIKE_LENGHTS b ++ ls)
          (set_cursor (strlen (pre ++ mjoin (to_le 8 <$> ls))) b)).
Proof.
  intros Hls. revert pre b i fuel.
  induction Hls as [|l ls Hl Hls IH]; intros pre b i fuel Hc Hs Hss Hf Hlt.
  { destruct fuel; cbn [fillLoop length] in *;
      rewrite (proj2 (Z.leb_le _ _)) by lia; rewrite !app_nil_r, <- Hc; by destruct b. }
  destruct fuel as [|fuel]; [lia|]. cbn [fillLoop length] in *.
  rewrite (proj2 (Z.leb_gt _ _)) by lia.
  rewrite fmap_cons, mjoin_cons, app_assoc in Hlt. rewrite fmap_cons, mjoin_cons.
  rewrite <- (app_assoc (to_le 8 l)). change (to_le 8 l) with (encode TSize l) in *.
  rewrite popScalar_spec; [|done|done|].
  2: { rewrite strlen_app in Hlt. pose proof (strlen_nonneg (mjoin (to_le 8 <$> ls))). lia. }
  cbn [mbind res_bind]. rewrite u64_small by lia.
  replace (Z.of_nat i + 1) with (Z.of_nat (S i)) by lia.
  rewrite (app_assoc pre). rewrite IH; try done; [|cbn; lia|lia].
  unfold set_lens, set_cursor. cbn. by rewrite <- !app_assoc.
Qed.

Lemma total_bounds name ts vs :
  16 + 8 * Z.of_nat (length (header_lens name ts vs)) <= total name ts vs ∧
  strlen name <= total name ts vs ∧ strlen (encs ts vs) <= total name ts vs.
Proof.
  unfold total. pose proof (strlen_nonneg name). pose proof (strlen_nonneg (encs ts vs)). lia.
Qed.

Lemma lenss_bound ts vs : Forall (λ n, 0 <= n <= strlen (encs ts vs)) (lenss ts vs).
Proof.
  revert vs. induction ts as [|t ts IH]; intros vs; cbn [lenss encs]; [constructor|].
  rewrite strlen_app. pose proof (strlen_nonneg (encs ts vs.2)).
  assert (Forall (λ n, 0 <= n <= strlen (enc t vs.1)) (lens t vs.1)) as Ht.
  { destruct vs as [v vs]. destruct t as [t| |t|]; cbn [lens enc denote fst] in *.
    - constructor.
    - constructor; [|constructor]. pose proof (strlen_nonneg v). lia.
    - constructor; [|constructor]. rewrite strlen_mjoin_encode. pose proof (sizeof_pos t). nia.
    - clear. induction v as [|s v IH]; [constructor|].
      rewrite fmap_cons, mjoin_cons, strlen_app.
      pose proof (strlen_nonneg s). pose proof (strlen_nonneg (mjoin v)).
      constructor; [lia|]. eapply Forall_impl; [exact IH|]. cbn. lia. }
  pose proof (strlen_nonneg (enc t vs.1)).
  apply Forall_app; split; (eapply Forall_impl; [exact Ht || exact (IH vs.2)|]); cbn; lia.
Qed.

Lemma header_lens_range name ts vs :
  total name ts vs < size_max → Forall (in_range TSize) (header_lens name ts vs).
Proof.
  intros Hlt. pose proof (total_bounds name ts vs) as (_ & Hn & He). constructor.
  - pose proof (strlen_nonneg name). unfold size_max in Hlt. cbn. lia.
  - eapply Forall_impl; [apply lenss_bound|]. cbn. unfold size_max in *. lia.
Qed.

(** The object reads the next message from where the last one stopped: a new
    object, or one whose past messages consumed all their lengths. *)
Definition synced (b : BaseMessage) : Prop :=
  mArrayLikeIndex b = Z.of_nat (length (ARRAY_LIKE_LENGHTS b)).

(** A header as it arrives: any sizes, any lengths, the bytes after them. *)
Definition sizes (tot : Z) (ls : list Z) : str :=
  to_le 8 tot ++ to_le 8 (Z.of_nat (length ls)) ++ mjoin (to_le 8 <$> ls).

Definition after_sizes (name : str) (tot : Z) (ls : list Z) (k : nat) (b : BaseMessage) : BaseMessage :=
  mkBaseMessage name tot (mData b) (ARRAY_LIKE_LENGHTS b ++ ls) (Z.of_nat (length ls))
    (Z.of_nat (S k)) (strlen (sizes tot ls ++ name)).

Lemma strlen_sizes tot ls : strlen (sizes tot ls) = 16 + 8 * Z.of_nat (length ls).
Proof. unfold sizes. autorewrite with warring_rw. rewrite strlen_lens_bytes. lia. Qed.

Lemma fillArrayLike_spec ls pre rest b :
  Forall (in_range TSize) ls → mCursor b = strlen pre →
  ARRAY_LIKE_S_SIZE b = Z.of_nat (length ls) →
  strlen pre + 8 * Z.of_nat (length ls) < size_max →
  fillArrayLike (pre ++ mjoin (to_le 8 <$> ls) ++ rest) b
  = Ok (set_lens (ARRAY_LIKE_LENGHTS b ++ ls)
          (set_cursor (strlen (pre ++ mjoin (to_le 8 <$> ls))) b)).
Proof.
  intros Hls Hc Hs Hlt. unfold fillArrayLike. pose proof (strlen_nonneg pre).
  case_if; to_prop.
  - destruct ls; [|cbn [length] in *; lia]. rewrite !app_nil_r, <- Hc. by destruct b.
  - apply (fillLoop_spec ls pre rest b 0); [done..|lia| |].
    + rewrite !length_app. pose proof (strlen_lens_bytes ls) as Hb. unfold strlen in Hb. lia.
    + by rewrite strlen_app, strlen_lens_bytes.
Qed.

(** The name is read with the length the index points at, whichever that is. *)
Lemma deserializeHelper_spec name tot ls rest b k :
  in_range TSize tot → Forall (in_range TSize) ls →
  mArrayLikeIndex b = Z.of_nat k →
  (ARRAY_LIKE_LENGHTS b ++ ls) !! k = Some (strlen name) →
  strlen (sizes tot ls ++ name) < size_max →
  Z.of_nat (length (ARRAY_LIKE_LENGHTS b) + length ls) < size_max →
  deserializeHelper (sizes tot ls ++ name ++ rest) b = Ok (after_sizes name tot ls k b).
Proof.
  intros Ht Hls Hk Hn Hlt Hroom. rewrite strlen_app, strlen_sizes in Hlt.
  pose proof (strlen_nonneg name).
  unfold deserializeHelper. cbn [popMembers popMember].
  unfold sizes. rewrite <- !app_assoc. change (to_le 8) with (encode TSize).
  change (encode TSize tot ++ ?r) with ([] ++ encode TSize tot ++ r).
  rewrite (popScalar_spec TSize tot []); [|done|done|by autorewrite with warring_rw].
  cbn [mbind res_bind app].
  rewrite (popScalar_spec TSize (Z.of_nat (length ls)) (encode TSize tot));
    [|done|unfold in_range, size_max in *; lia|by autorewrite with warring_rw].
  cbn [mbind res_bind]. set (b1 := set_ssize _ _).
  rewrite (app_assoc (encode TSize tot)). set (pre := encode TSize tot ++ _).
  assert (strlen pre = 16) as Hpre by (by unfold pre; autorewrite with warring_rw).
  change (encode TSize) with (to_le 8).
  rewrite (fillArrayLike_spec ls pre (name ++ rest) b1); [|done|done|done|lia].
  cbn [mbind res_bind]. set (b2 := set_lens _ _).
  rewrite <- (reader_self b2). change (mArrayLikeIndex b2) with (mArrayLikeIndex b).
  rewrite Hk, (nextLength_spec _ _ k (strlen name));
    [|exact Hn|change (ARRAY_LIKE_LENGHTS b2) with (ARRAY_LIKE_LENGHTS b ++ ls);
      rewrite length_app; lia].
  cbn [mbind res_bind]. rewrite (app_assoc pre).
  rewrite popBytes_spec; [|done|done|rewrite !strlen_app, strlen_lens_bytes; lia].
  cbn [mbind res_bind]. unfold after_sizes, sizes, pre. rewrite <- !app_assoc.
  change (encode TSize) with (to_le 8).
  replace (Z.of_nat (S k)) with (Z.of_nat k + 1) by lia. done.
Qed.

Definition after_header (name : str) (ts : list ty) (vs : tuple ts) (b : BaseMessage) : BaseMessage :=
  after_sizes name (total name ts vs) (header_lens name ts vs) (length (ARRAY_LIKE_LENGHTS b)) b.

Lemma wire_sizes name ts vs :
  wire name ts vs = sizes (total name ts vs) (header_lens name ts vs) ++ name ++ encs ts vs.
Proof. unfold wire, sizes, body. by rewrite <- !app_assoc. Qed.

Lemma deserializeHelper_wire name ts vs rest b :
  synced b → total name ts vs < size_max →
  Z.of_nat (length (ARRAY_LIKE_LENGHTS b) + length (header_lens name ts vs)) < size_max →
  deserializeHelper (wire name ts vs ++ rest) b = Ok (after_header name ts vs b).
Proof.
  intros Hsync Hlt Hroom. rewrite wire_sizes, <- !app_assoc.
  pose proof (total_bounds name ts vs) as (? & ? & ?).
  apply deserializeHelper_spec; try done.
  - unfold in_range, size_max in *. lia.
  - by apply header_lens_range.
  - by rewrite lookup_app_r, Nat.sub_diag by lia.
  - pose proof (strlen_wire name ts vs) as Hw. rewrite wire_sizes, app_assoc, strlen_app in Hw.
    pose proof (strlen_nonneg (encs ts vs)). lia.
Qed.

Definition after_message (name : str) (ts : list ty) (vs : tuple ts) (b : BaseMessage) : BaseMessage :=
  reader (after_header name ts vs b) (total name ts vs)
    (Z.of_nat (S (length (ARRAY_LIKE_LENGHTS b))) + consumed ts vs).

Lemma deserialize_with_wire ts vs name rest old b :
  synced b → valids ts vs → strings_last ts = true →
  no_strings ts = true ∨ ARRAY_LIKE_LENGHTS b = [] →
  total name ts vs < size_max →
  Z.of_nat (length (ARRAY_LIKE_LENGHTS b) + length (header_lens name ts vs)) < size_max →
  deserialize_with ts (wire name ts vs ++ rest) old b
  = Ok (after_message name ts vs b, appends ts old vs).
Proof.
  intros Hsync Hv Hl Hs Hlt Hroom. unfold deserialize_with.
  rewrite deserializeHelper_wire by done. cbn [mbind res_bind].
  set (b1 := after_header name ts vs b). set (n := S (length (ARRAY_LIKE_LENGHTS b))).
  rewrite wire_sizes, (app_assoc (sizes _ _)), <- (app_assoc (sizes _ _ ++ name)).
  set (pre := sizes _ _ ++ name).
  change b1 with (reader b1 (strlen pre) (Z.of_nat n)) at 1.
  assert (strlen (pre ++ encs ts vs) = total name ts vs) as Ht.
  { unfold pre. by rewrite <- app_assoc, <- wire_sizes, strlen_wire. }
  rewrite popMembers_spec, Ht; [done| |lia].
  constructor; try done; unfold b1, after_header, after_sizes; cbn [ARRAY_LIKE_LENGHTS ARRAY_LIKE_S_SIZE].
  - unfold n, header_lens. rewrite drop_app_ge by lia.
    by replace (S _ - _)%nat with 1%nat by lia.
  - unfold n, header_lens. rewrite length_app. cbn [length]. lia.
  - by rewrite length_app.
  - destruct Hs as [Hs| ->]; [by left|by right].
Qed.

Lemma appends_empty ts old vs : empties ts old → appends ts old vs = vs.
Proof.
  revert old vs. induction ts as [|t ts IH]; intros old vs; cbn [empties appends].
  { by destruct vs. }
  destruct vs as [v vs], old as [o old]. cbn [fst snd]. intros [Ho He].
  rewrite IH by done. f_equal. by destruct t; cbn in *; subst.
Qed.

Lemma consumed_all ts vs :
  no_strings ts = true → consumed ts vs = Z.of_nat (length (lenss ts vs)).
Proof.
  revert vs. induction ts as [|t ts IH]; intros vs; cbn [consumed lenss no_strings forallb]; [done|].
  intros [Ht Hts]%andb_true_iff. apply negb_true_iff in Ht. rewrite Ht, length_app, IH by done. lia.
Qed.

(** Without a [vector<string>] the object is ready for the next message. *)
Lemma after_message_synced name ts vs b :
  no_strings ts = true → synced (after_message name ts vs b).
Proof.
  intros Hs. unfold synced, after_message, after_header, after_sizes, reader, header_lens. cbn.
  rewrite consumed_all by done. rewrite length_app. cbn [length]. lia.
Qed.

(** ** Any bytes at all *)

(** A run either ends or faults; the loops never need more fuel than the
    bytes they read. *)
Definition stopped {A} (r : res A) : Prop := r ≠ Err OutOfFuel.

Lemma stopped_bind {A B} (m : res A) (f : A → res B) :
  stopped m → (∀ a, m = Ok a → stopped (f a)) → stopped (m ≫= f).
Proof. destruct m; cbn; intros H1 H2; [by apply H2|congruence]. Qed.

Lemma readBytes_ok data c n bs :
  readBytes data c n = Ok bs → 0 <= c ∧ 0 <= n ∧ c + n <= strlen data ∧ strlen bs = n.
Proof.
  unfold readBytes. case_if; [|done]. to_prop. intros [= <-]. unfold strlen in *.
  rewrite length_take, length_drop. lia.
Qed.

Lemma popBytes_stopped data n b : stopped (popBytes data n b).
Proof. unfold popBytes, readBytes. case_if; by cbn. Qed.

Lemma popBytes_ok data n b b' bs :
  popBytes data n b = Ok (b', bs) →
  b' = set_cursor (u64 (mCursor b + n)) b ∧ 0 <= mCursor b ∧ 0 <= n ∧
  mCursor b + n <= strlen data ∧ strlen bs = n.
Proof. unfold popBytes. intros H. inv_ok. apply readBytes_ok in H0. naive_solver. Qed.

Lemma popScalar_ok t data b b' v :
  popScalar t data b = Ok (b', v) →
  b' = set_cursor (u64 (mCursor b + Z.of_nat (sizeof t))) b ∧ 0 <= mCursor b ∧
  mCursor b + Z.of_nat (sizeof t) <= strlen data.
Proof.
  unfold popScalar. intros H. inv_ok. apply popBytes_ok in H0. naive_solver.
Qed.

Lemma popScalar_stopped t data b : stopped (popScalar t data b).
Proof. apply stopped_bind; [apply popBytes_stopped|]. by intros [] _. Qed.

Lemma lengthAt_stopped i b : stopped (lengthAt i b).
Proof.
  unfold lengthAt. case_if; [|done]. by destruct (_ !! _).
Qed.

(** Bytes left to read bound the steps of the loops. *)
Lemma popElems_stopped fuel t data len b val :
  strlen data < size_max → (0 < fuel)%nat →
  strlen data - mCursor b < Z.of_nat fuel → stopped (popElems fuel t data len b val).
Proof.
  intros Hd. revert len b val. induction fuel as [|fuel IH]; intros len b val Hp Hf; [lia|].
  cbn [popElems]. case_if; [done|]. apply stopped_bind; [apply popScalar_stopped|].
  intros [b' v] (-> & Hc & Hle)%popScalar_ok. pose proof (sizeof_pos t).
  apply IH; [lia|]. cbn [mCursor set_cursor]. rewrite u64_small; lia.
Qed.

Lemma popStrs_stopped fuel data i b strs :
  0 <= i → Z.of_nat (length (ARRAY_LIKE_LENGHTS b)) < size_max → (0 < fuel)%nat →
  Z.of_nat (length (ARRAY_LIKE_LENGHTS b)) - i < Z.of_nat fuel →
  stopped (popStrs fuel data i b strs).
Proof.
  revert i b strs. induction fuel as [|fuel IH]; intros i b strs Hi Hlt Hp Hf; [lia|].
  cbn [popStrs]. case_if; [done|]. apply stopped_bind; [apply lengthAt_stopped|].
  intros len Hlen. unfold lengthAt in Hlen. case_if_in Hlen; [|done]. to_prop.
  apply stopped_bind; [apply popBytes_stopped|].
  intros [b' bs] (-> & _)%popBytes_ok. apply IH; cbn [ARRAY_LIKE_LENGHTS set_cursor];
    rewrite ?u64_small; lia.
Qed.

Lemma fillLoop_stopped fuel data i b :
  strlen data < size_max → (0 < fuel)%nat →
  strlen data - mCursor b < Z.of_nat fuel → stopped (fillLoop fuel data i b).
Proof.
  intros Hd. revert i b. induction fuel as [|fuel IH]; intros i b Hp Hf; [lia|].
  cbn [fillLoop]. case_if; [done|]. apply stopped_bind; [apply popScalar_stopped|].
  intros [b' v] (-> & Hc & Hle)%popScalar_ok. cbn [sizeof] in *.
  apply IH; [lia|]. cbn [mCursor set_cursor set_lens]. rewrite u64_small; lia.
Qed.

(** What reading keeps of the object, whatever the bytes. *)
Definition kept (b b' : BaseMessage) : Prop :=
  ARRAY_LIKE_LENGHTS b' = ARRAY_LIKE_LENGHTS b ∧ 0 <= mArrayLikeIndex b' ∧
  MSG_NAME b' = MSG_NAME b ∧ ARRAY_LIKE_S_SIZE b' = ARRAY_LIKE_S_SIZE b ∧
  MSG_LEN b' = MSG_LEN b ∧ 0 <= mCursor b'.

Definition sane (b : BaseMessage) : Prop := 0 <= mArrayLikeIndex b ∧ 0 <= mCursor b.

Lemma kept_refl b : sane b → kept b b.
Proof. by intros []. Qed.
Lemma kept_trans b1 b2 b3 : kept b1 b2 → kept b2 b3 → kept b1 b3.
Proof. unfold kept. intuition congruence. Qed.
Lemma kept_sane b b' : kept b b' → sane b'.
Proof. unfold kept, sane. tauto. Qed.
Lemma kept_cursor b c : sane b → kept b (set_cursor (u64 c) b).
Proof. intros []. pose proof (u64_bound c). unfold kept. cbn. intuition. Qed.
Lemma kept_index b i : sane b → kept b (set_index (u64 i) b).
Proof. intros []. pose proof (u64_bound i). unfold kept. cbn. intuition. Qed.

Lemma popBytes_kept data n b b' bs : sane b → popBytes data n b = Ok (b', bs) → kept b b'.
Proof. intros Hb (-> & _)%popBytes_ok. by apply kept_cursor. Qed.
Lemma popScalar_kept t data b b' v : sane b → popScalar t data b = Ok (b', v) → kept b b'.
Proof. intros Hb (-> & _)%popScalar_ok. by apply kept_cursor. Qed.
Lemma nextLength_kept b b' n : sane b → nextLength b = Ok (b', n) → kept b b'.
Proof. unfold nextLength. intros Hb H. inv_ok. by apply kept_index. Qed.

Lemma popElems_kept fuel t data len b val b' vs :
  sane b → popElems fuel t data len b val = Ok (b', vs) → kept b b'.
Proof.
  revert len b val. induction fuel as [|fuel IH]; intros len b val Hb H; cbn [popElems] in H;
    case_if_in H; inv_ok; try by apply kept_refl.
  pose proof (popScalar_kept _ _ _ _ _ Hb H0).
  eapply kept_trans; [done|]. eapply IH; [|done]. by eapply kept_sane.
Qed.

Lemma popStrs_kept fuel data i b strs b' ss :
  sane b → popStrs fuel data i b strs = Ok (b', ss) → kept b b'.
Proof.
  revert i b strs. induction fuel as [|fuel IH]; intros i b strs Hb H; cbn [popStrs] in H;
    case_if_in H; inv_ok; try by apply kept_refl.
  pose proof (popBytes_kept _ _ _ _ _ Hb H1).
  eapply kept_trans; [done|]. eapply IH; [|done]. by eapply kept_sane.
Qed.

Lemma popMember_kept data t old b b' v :
  sane b → popMember data t old b = Ok (b', v) → kept b b'.
Proof.
  intros Hb H. destruct t; cbn [popMember] in H.
  - by eapply popScalar_kept.
  - inv_ok. pose proof (nextLength_kept _ _ _ Hb H0).
    eapply kept_trans; [done|]. eapply popBytes_kept; [by eapply kept_sane|done].
  - inv_ok. pose proof (nextLength_kept _ _ _ Hb H0).
    eapply kept_trans; [done|]. eapply popElems_kept; [by eapply kept_sane|exact H].
  - by eapply popStrs_kept.
Qed.

Lemma popMember_stopped data t old b :
  sane b → strlen data < size_max →
  Z.of_nat (length (ARRAY_LIKE_LENGHTS b)) < size_max → stopped (popMember data t old b).
Proof.
  intros Hb Hd Hl. destruct t; cbn [popMember].
  - apply popScalar_stopped.
  - unfold nextLength. apply stopped_bind; [|intros [] _; apply popBytes_stopped].
    apply stopped_bind; [apply lengthAt_stopped|done].
  - apply stopped_bind.
    { apply stopped_bind; [apply lengthAt_stopped|done]. }
    intros [b' n] H%nextLength_kept; [|done]. destruct H as (_ & _ & _ & _ & _ & Hc).
    apply popElems_stopped; [done|lia|]. unfold strlen. lia.
  - destruct Hb. apply popStrs_stopped; lia.
Qed.

Lemma popMembers_stopped data ts old b :
  sane b → strlen data < size_max →
  Z.of_nat (length (ARRAY_LIKE_LENGHTS b)) < size_max → stopped (popMembers data ts old b).
Proof.
  intros Hb Hd Hl. revert old b Hb Hl. induction ts as [|t ts IH]; intros old b Hb Hl; [done|].
  cbn [popMembers]. apply stopped_bind; [by apply popMember_stopped|].
  intros [b' v] Hv%popMember_kept; [|done]. apply stopped_bind; [|by intros [] _].
  pose proof (kept_sane _ _ Hv). destruct Hv as (Hv & _). apply IH; [done|by rewrite Hv].
Qed.

Lemma popMembers_kept data ts old b b' vs :
  sane b → popMembers data ts old b = Ok (b', vs) → kept b b'.
Proof.
  revert old b. induction ts as [|t ts IH]; intros old b Hb H; cbn [popMembers] in H.
  { inv_ok. by apply kept_refl. }
  inv_ok. pose proof (popMember_kept _ _ _ _ _ _ Hb H0).
  eapply kept_trans; [done|]. eapply IH; [|done]. by eapply kept_sane.
Qed.

(** The lengths that the header loop appends were read from [data]. *)
Lemma fillLoop_lens fuel data i b b' :
  0 <= mCursor b → strlen data < size_max → fillLoop fuel data i b = Ok b' →
  mArrayLikeIndex b' = mArrayLikeIndex b ∧ 0 <= mCursor b' ∧
  (b' = b ∨ 8 * Z.of_nat (length (ARRAY_LIKE_LENGHTS b')) + mCursor b
    <= 8 * Z.of_nat (length (ARRAY_LIKE_LENGHTS b)) + strlen data).
Proof.
  intros Hc Hd. revert i b Hc. induction fuel as [|fuel IH]; intros i b Hc H; cbn [fillLoop] in H;
    case_if_in H; inv_ok; [by auto..|].
  apply popScalar_ok in H0 as (-> & _ & Hle). cbn [sizeof] in Hle.
  apply IH in H; cbn [mCursor set_cursor set_lens] in *; [|by auto with warring].
  destruct H as (Hi & Hc' & H). split; [done|]. split; [done|]. right.
  cbn [sizeof] in H. rewrite u64_small in H by lia.
  destruct H as [->|H]; cbn [ARRAY_LIKE_LENGHTS set_lens set_cursor] in *;
    rewrite length_app in *; cbn [length] in *; lia.
Qed.

Definition room (data : str) (b : BaseMessage) : Prop :=
  strlen data < size_max ∧
  Z.of_nat (length (ARRAY_LIKE_LENGHTS b)) + strlen data < size_max.

Lemma fillArrayLike_lens data b b' :
  sane b → room data b → fillArrayLike data b = Ok b' →
  sane b' ∧ Z.of_nat (length (ARRAY_LIKE_LENGHTS b')) < size_max.
Proof.
  unfold fillArrayLike, sane, room. intros [Hi Hc] [Hd Hr] H. pose proof (strlen_nonneg data).
  case_if_in H; [injection H as <-; lia|].
  apply fillLoop_lens in H as (-> & ? & H); [|done..]. destruct H as [->|H]; lia.
Qed.

Lemma fillArrayLike_stopped data b : sane b → room data b → stopped (fillArrayLike data b).
Proof.
  unfold fillArrayLike, sane, room. intros [Hi Hc] [Hd Hr]. case_if; [done|].
  apply fillLoop_stopped; [done|lia|]. unfold strlen. lia.
Qed.

Lemma header_sizes_room data b b' len ssize u :
  sane b → room data b →
  popMembers data [TScalar TSize; TScalar TSize] (len, (ssize, u)) (set_cursor 0 b) = Ok b' →
  ∀ l s, sane (set_ssize s (set_len l b'.1)) ∧ room data (set_ssize s (set_len l b'.1)).
Proof.
  intros [Hi Hc] Hr H l s. destruct b' as [b' v]. apply popMembers_kept in H; [|done].
  destruct H as (H1 & H2 & _ & _ & _ & H3). unfold sane, room. cbn in *. by rewrite H1.
Qed.

Lemma deserializeHelper_total data b :
  sane b → room data b →
  stopped (deserializeHelper data b) ∧
  ∀ b', deserializeHelper data b = Ok b' →
    sane b' ∧ Z.of_nat (length (ARRAY_LIKE_LENGHTS b')) < size_max.
Proof.
  intros Hb Hr. unfold deserializeHelper.
  pose proof (header_sizes_room data b) as Hh.
  assert (Z.of_nat (length (ARRAY_LIKE_LENGHTS b)) < size_max) as Hl.
  { destruct Hr. pose proof (strlen_nonneg data). lia. }
  split.
  - apply stopped_bind.
    { apply (popMembers_stopped data [TScalar TSize; TScalar TSize]);
        [by destruct Hb|by destruct Hr|done]. }
    intros [b1 [len [ss u]]] H1. eapply (Hh (_, _)) in H1 as [Hs1 Hr1]; [|done..]. cbn [fst] in *.
    apply stopped_bind; [by apply fillArrayLike_stopped|].
    intros b2 (Hs2 & Hl2)%fillArrayLike_lens; [|done..].
    apply stopped_bind; [|by intros [b3 [nm u']] _].
    by apply (popMembers_stopped data [TString]); [|destruct Hr|].
  - intros b' H. inv_ok. eapply (Hh (_, _)) in H0 as [Hs1 Hr1]; [|done..]. cbn [fst] in *.
    apply fillArrayLike_lens in H1 as [Hs2 Hl2]; [|done..].
    pose proof (popMembers_kept data [TString] _ _ _ _ Hs2 H2) as Hk. unfold sane in *.
    destruct Hk as (Hk & ? & _ & _ & _ & ?). cbn. by rewrite Hk.
Qed.

Lemma deserialize_with_stopped ts data old b :
  sane b → room data b → stopped (deserialize_with ts data old b).
Proof.
  intros Hb Hr. unfold deserialize_with.
  destruct (deserializeHelper_total data b Hb Hr) as [H1 H2].
  apply stopped_bind; [done|]. intros b' [Hs Hl]%H2.
  by apply popMembers_stopped; [|destruct Hr|].
Qed.

(** ** One object for many messages *)

(** Only scalars and strings: the members of every client and service message. *)
Definition flat (ts : list ty) : bool :=
  forallb (λ t, match t with TScalar _ | TString => true | _ => false end) ts.

Lemma flat_no_strings ts : flat ts = true → no_strings ts = true.
Proof.
  unfold flat, no_strings. induction ts as [|t ts IH]; [done|]. cbn [forallb].
  intros [Ht Hts]%andb_true_iff. rewrite (IH Hts). by destruct t.
Qed.

Lemma no_strings_last ts : no_strings ts = true → strings_last ts = true.
Proof.
  unfold no_strings. induction ts as [|t ts IH]; [done|]. cbn [forallb].
  intros [Ht Hts]%andb_true_iff. specialize (IH Hts). destruct ts; [done|].
  change (negb (is_strings t) && strings_last (t0 :: ts) = true). by rewrite Ht, IH.
Qed.

Lemma appends_flat ts old vs : flat ts = true → appends ts old vs = vs.
Proof.
  revert old vs. induction ts as [|t ts IH]; intros old vs; cbn [flat forallb appends].
  { by destruct vs. }
  destruct vs as [v vs], old as [o old]. cbn [fst snd].
  intros [Ht Hts]%andb_true_iff. rewrite IH by done. by destruct t.
Qed.

Lemma after_message_lens name ts vs b :
  ARRAY_LIKE_LENGHTS (after_message name ts vs b) = ARRAY_LIKE_LENGHTS b ++ header_lens name ts vs.
Proof. done. Qed.

(** A message counted and serialised on a fresh object is exactly the
    format, [MSG_LEN] bytes of it, and a fresh reader recovers the name, the
    length and every member from it, whatever bytes follow. *)
Lemma message_roundtrip ts (vs old : tuple ts) (w r : BaseMessage) rest :
  uncounted w → valids ts vs → strings_last ts = true → empties ts old →
  synced r → ARRAY_LIKE_LENGHTS r = [] → total (MSG_NAME w) ts vs < size_max →
  ∃ w' s r', serialize_with ts vs (count_with ts vs w) = Ok (w', s) ∧
    s = wire (MSG_NAME w) ts vs ∧ strlen s = MSG_LEN (count_with ts vs w) ∧
    deserialize_with ts (s ++ rest) old r = Ok (r', vs) ∧
    MSG_NAME r' = MSG_NAME w ∧ MSG_LEN r' = strlen s.
Proof.
  intros Hw Hv Hl He Hr Hrl Hlt.
  pose proof (count_with_counted ts vs w Hw Hlt) as Hc.
  pose proof (serialize_with_wire ts vs _ Hc) as Hs. destruct Hc as (Hc & _).
  rewrite (count_with_spec ts vs w Hw Hlt) in Hs, Hc |- *. cbn [MSG_NAME MSG_LEN] in *.
  eexists _, _, (after_message (MSG_NAME w) ts vs r). split; [exact Hs|].
  split; [done|]. split; [by rewrite strlen_wire|].
  rewrite deserialize_with_wire; try done; [| |].
  - by rewrite appends_empty, strlen_wire.
  - by right.
  - rewrite Hrl. pose proof (total_bounds (MSG_NAME w) ts vs). cbn [length]. lia.
Qed.

(** ** What any bytes leave in the members *)

(** The bytes of a member, when they come from anywhere: a [bool] may be no [bool]. *)
Definition loose (t : scalar) (v : Z) : Prop := match t with TBool => 0 <= v < 256 | t => in_range t v end.

(** A member is of its type, and no string of it is longer than the packet. *)
Definition typed (data : str) (t : ty) : denote t → Prop :=
  match t with
  | TScalar t => loose t
  | TString => λ s, strlen s <= strlen data
  | TVector t => Forall (loose t)
  | TStrings => Forall (λ s, strlen s <= strlen data)
  end.

Fixpoint all_typed (data : str) (ts : list ty) : tuple ts → Prop :=
  match ts with
  | [] => λ _, True
  | t :: ts => λ vs, typed data t vs.1 ∧ all_typed data ts vs.2
  end.

(** What is read is appended to vectors, so those must be right before. *)
Fixpoint vectors_typed (data : str) (ts : list ty) : tuple ts → Prop :=
  match ts with
  | [] => λ _, True
  | t :: ts => λ vs, (match t with TScalar _ | TString => true | _ => false end = false → typed data t vs.1) ∧
                     vectors_typed data ts vs.2
  end.

(** The bookkeeping of an object holds [size_t]s, and its cursor is in the packet. *)
Record well_typed (data : str) (b : BaseMessage) : Prop := {
  wt_len : in_range TSize (MSG_LEN b);
  wt_ssize : in_range TSize (ARRAY_LIKE_S_SIZE b);
  wt_lens : Forall (in_range TSize) (ARRAY_LIKE_LENGHTS b);
  wt_index : in_range TSize (mArrayLikeIndex b);
  wt_cursor : 0 <= mCursor b <= strlen data }.

Lemma decode_loose t bs : length bs = sizeof t → loose t (decode t bs).
Proof.
  intros Hl. pose proof (of_le_bound bs) as Hb. rewrite Hl in Hb.
  assert (256 ^ 8 = 2 ^ 64) as E8 by done. assert (256 ^ 4 = 2 ^ 32) as E4 by done.
  pose proof (Z.mod_pos_bound (of_le bs + 2 ^ 31) (2 ^ 32) ltac:(lia)).
  pose proof (Z.mod_pos_bound (of_le bs + 2 ^ 63) (2 ^ 64) ltac:(lia)).
  destruct t; cbn [sizeof decode loose in_range] in Hb |- *; unfold sint;
    change (32 - 1) with 31; change (64 - 1) with 63; lia.
Qed.

Section Typed.
Context (data : str).
Hypothesis addressable : strlen data < size_max.

Lemma popBytes_typed n b b' bs : popBytes data n b = Ok (b', bs) → well_typed data b →
  well_typed data b' ∧ strlen bs = n ∧ n <= strlen data.
Proof.
  unfold popBytes, readBytes. intros H [H1 H2 H3 H4 H5]. case_match eqn:E; [|done]. to_prop.
  cbn [mbind res_bind] in H. injection H as <- <-. split_and!; [split; try done| |lia].
  - cbn. rewrite u64_small; lia.
  - unfold strlen in *. rewrite length_take, length_drop. lia.
Qed.

Lemma popScalar_typed t b b' v : popScalar t data b = Ok (b', v) → well_typed data b → well_typed data b' ∧ loose t v.
Proof.
  unfold popScalar. intros H Hb. inv_ok. apply popBytes_typed in H0 as (Hb' & Hl & _); [|done]. split; [done|].
  apply decode_loose. unfold strlen in Hl. lia.
Qed.

Lemma nextLength_typed b b' n : nextLength b = Ok (b', n) → well_typed data b → well_typed data b'.
Proof.
  unfold nextLength. intros H [H1 H2 H3 H4 H5]. inv_ok. split; try done. cbn. auto with warring.
Qed.

Lemma popElems_typed fuel t len b val b' vs : popElems fuel t data len b val = Ok (b', vs) → well_typed data b →
  Forall (loose t) val → well_typed data b' ∧ Forall (loose t) vs.
Proof.
  revert len b val. induction fuel as [|fuel IH]; intros len b val H Hb Hv; cbn [popElems] in H; case_match.
  - by simplify_eq.
  - done.
  - by simplify_eq.
  - inv_ok. apply popScalar_typed in H1 as [Hb1 Hl]; [|done]. eapply IH; [exact H|done|].
    apply Forall_app. by repeat constructor.
Qed.

Lemma popStrs_typed fuel i b strs b' vs : popStrs fuel data i b strs = Ok (b', vs) → well_typed data b →
  Forall (λ s, strlen s <= strlen data) strs → well_typed data b' ∧ Forall (λ s, strlen s <= strlen data) vs.
Proof.
  revert i b strs. induction fuel as [|fuel IH]; intros i b strs H Hb Hv; cbn [popStrs] in H; case_match.
  - by simplify_eq.
  - done.
  - by simplify_eq.
  - inv_ok. apply popBytes_typed in H2 as (Hb1 & Hl & Hle); [|done]. eapply IH; [exact H|done|].
    apply Forall_app. repeat constructor; [done|lia].
Qed.

Lemma popMember_typed t old b b' v : popMember data t old b = Ok (b', v) → well_typed data b →
  (match t with TScalar _ | TString => true | _ => false end = false → typed data t old) → well_typed data b' ∧ typed data t v.
Proof.
  destruct t as [t| |t|]; cbn [popMember typed]; intros H Hb Ho.
  - by eapply popScalar_typed.
  - inv_ok. apply nextLength_typed in H0; [|done]. apply popBytes_typed in H as (Hb' & Hl & Hle); [|done]. split; [done|lia].
  - inv_ok. apply nextLength_typed in H0; [|done]. eapply popElems_typed; [exact H|done|by apply Ho].
  - eapply popStrs_typed; [exact H|done|by apply Ho].
Qed.

Lemma popMembers_typed ts old b b' vs : popMembers data ts old b = Ok (b', vs) → well_typed data b → vectors_typed data ts old →
  well_typed data b' ∧ all_typed data ts vs.
Proof.
  revert old b b' vs. induction ts as [|t ts IH]; intros old b b' vs; cbn [popMembers all_typed vectors_typed]; intros H Hb Ho.
  - by simplify_eq.
  - inv_ok. destruct Ho as [Ho1 Ho2]. eapply popMember_typed in H0 as [Hb1 Hv1]; [|done..].
    eapply IH in H1 as [Hb2 Hv2]; [|done..]. by split.
Qed.

Lemma fillLoop_typed fuel i b b' : fillLoop fuel data i b = Ok b' → well_typed data b → well_typed data b'.
Proof.
  revert i b. induction fuel as [|fuel IH]; intros i b H Hb; cbn [fillLoop] in H; case_match.
  - by simplify_eq.
  - done.
  - by simplify_eq.
  - inv_ok. apply popScalar_typed in H1 as [[] Hl]; [|done]. eapply IH; [exact H|]. split; try done.
    apply Forall_app. split; [done|]. by apply Forall_singleton.
Qed.

Lemma deserializeHelper_typed b b' : deserializeHelper data b = Ok b' → well_typed data (set_cursor 0 b) → well_typed data b'.
Proof.
  unfold deserializeHelper. intros H Hb. inv_ok.
  apply (popMembers_typed [TScalar TSize; TScalar TSize] _ _ _ (z, (z0, u))) in H0 as [[] (Hz & Hz0 & _)]; [|done|done]. cbn [fst snd typed loose] in Hz, Hz0.
  assert (well_typed data (set_ssize z0 (set_len z b0))) as Hb1 by by split.
  assert (well_typed data x) as Hx.
  { unfold fillArrayLike in H1. case_match; [by simplify_eq|]. by eapply fillLoop_typed. }
  by apply (popMembers_typed [TString] _ _ _ (l, u0)) in H2 as [[] _].
Qed.
End Typed.

(** ** Properties *)


(** Deserialising any bytes whatsoever stops: the loops over the announced
    sizes end or run off the data, they never spin. *)
Theorem deserialize_terminates ts data (old : tuple ts) b :
  sane b → room data b → deserialize_with ts data old b ≠ Err OutOfFuel.
Proof. apply deserialize_with_stopped. Qed.

(** An object whose length index lags behind its lengths, as after a
    [vector<string>] message or a crafted extra length, cuts the name of the
    next honest message by the stale length. *)
Theorem lagging_object_misreads ts (vs : tuple ts) name n k rest b :
  mArrayLikeIndex b = Z.of_nat k → ARRAY_LIKE_LENGHTS b !! k = Some n →
  0 <= n <= strlen (name ++ encs ts vs) → total name ts vs < size_max →
  Z.of_nat (length (ARRAY_LIKE_LENGHTS b) + length (header_lens name ts vs)) < size_max →
  MSG_NAME <$> deserializeHelper (wire name ts vs ++ rest) b
  = Ok (take (Z.to_nat n) (name ++ encs ts vs)).
Proof.
  intros Hk Hn Hb Hlt Hroom. set (w := name ++ encs ts vs) in *.
  set (n' := Z.to_nat n). pose proof (take_drop n' w) as Hw.
  assert (strlen (take n' w) = n) as Hlen.
  { unfold strlen in *. rewrite length_take. lia. }
  rewrite wire_sizes. fold w. rewrite <- Hw at 1. rewrite <- !app_assoc.
  pose proof (total_bounds name ts vs) as (? & ? & ?).
  rewrite (deserializeHelper_spec (take n' w) _ _ _ b k); [done|..]; try done.
  - unfold in_range, size_max in *. lia.
  - by apply header_lens_range.
  - by rewrite lookup_app_l, Hlen by by eapply lookup_lt_Some.
  - rewrite strlen_app, Hlen, strlen_sizes.
    unfold w in Hb. rewrite strlen_app in Hb. unfold total in Hlt. lia.
Qed.

(** ** Witnesses *)

Definition demo_types : list ty := [TScalar TBool; TVector TSize; TStrings].
Definition demo : tuple demo_types := (1, ([123; 321], ([lit "abc"; lit ""; lit "xy"], tt))).

Lemma deserialize_terminates_witness :
  deserialize_with demo_types (replicate 40 (byte_of 255)) demo newBaseMessage ≠ Err OutOfFuel.
Proof. apply deserialize_terminates; split; by vm_compute. Defined.

Lemma fresh_typed data : well_typed data (set_cursor 0 newBaseMessage).
Proof. pose proof (strlen_nonneg data). split; cbn; [lia..|by constructor|lia|lia]. Qed.


(** The object after one [vector<string>] message: four lengths, one used. *)
Definition lagging : BaseMessage :=
  after_message (lit "STRINGS") [TStrings] ([lit "abc"; lit ""; lit "xy"], tt) newBaseMessage.

Lemma lagging_object_misreads_witness :
  MSG_NAME <$> deserializeHelper (wire (lit "STRINGS") [TStrings] ([lit "z"], tt) ++ []) lagging
  = Ok (take (Z.to_nat 3) (lit "STRINGS" ++ encs [TStrings] ([lit "z"], tt))).
Proof.
  apply (lagging_object_misreads _ _ _ _ 1).
  - by vm_compute.
  - by vm_compute.
  - by vm_compute.
  - by vm_compute.
  - by vm_compute.
Defined.
