(* ===== verification/Messages.v ===== *)
(** * The message classes: [Base/message/{Custom,Login,Gateway,Game}Message.{h,cpp}]

    One module per class: its members, and its overrides of [count],
    [serialize] and [deserialize], each with the list of members the source
    names there.  A class that derives from [TimestampMessage] holds it as
    [parent].  [Message] is the interface every class promises to the servers:
    the three methods are those of [BaseMessage.v] at the member types of the
    class, whence one proof of the round trip for all of them. *)

From S2P Require Import Prelude BaseMessage.

Local Open Scope Z_scope.

(** The members of a class, as the argument pack of the variadic templates. *)
Notation "⟪ x ; .. ; y  ⟫" := (pair x .. (pair y tt) ..) : core_scope.

(** ** The interface *)

Class Message (M : Type) := {
  msg_base : M → BaseMessage;
  msg_types : list ty;
  msg_members : M → tuple msg_types;
  msg_rebuild : BaseMessage → tuple msg_types → M → M;
  msg_count : M → M;
  msg_serialize : M → res (M * str);
  msg_deserialize : str → M → res M }.

Class MessageLaws (M : Type) `{Message M} := {
  base_rebuild b vs m : msg_base (msg_rebuild b vs m) = b;
  members_rebuild b vs m : msg_members (msg_rebuild b vs m) = vs;
  count_law m :
    msg_count m = msg_rebuild (count_with msg_types (msg_members m) (msg_base m)) (msg_members m) m;
  serialize_law m :
    msg_serialize m = '(b, s) ← serialize_with msg_types (msg_members m) (msg_base m);
                      Ok (msg_rebuild b (msg_members m) m, s);
  deserialize_law data m :
    msg_deserialize data m = '(b, vs) ← deserialize_with msg_types data (msg_members m) (msg_base m);
                             Ok (msg_rebuild b vs m);
  types_strings_last : strings_last msg_types = true }.

(** The laws hold by unfolding the methods of the class. *)
Ltac destruct_pack :=
  repeat match goal with
  | vs : tuple _ |- _ => progress cbn in vs
  | vs : (_ * _)%type |- _ => destruct vs
  | u : unit |- _ => destruct u
  end.

Ltac solve_laws :=
  split;
  [ intros b vs m; cbn in vs; destruct_pack; reflexivity
  | intros b vs m; cbn in vs; destruct_pack; reflexivity
  | intros m; reflexivity
  | intros m; lazy -[serializeHelper pushMembers dataString];
    destruct serializeHelper; [|reflexivity];
    destruct pushMembers; [|reflexivity];
    destruct dataString; reflexivity
  | intros data m; lazy -[deserializeHelper popMembers];
    destruct deserializeHelper; [|reflexivity];
    destruct popMembers as [[? vs]|]; [cbn in vs; destruct_pack|]; reflexivity
  | reflexivity ].

(** ** [TimestampMessage], [HeartBeatPacket] *)

Module TimestampMessage.

Record t := mk { parent : BaseMessage; MILLISECONDS_SINCE_EPOCH : Z }.

(** [now] is what [getMillisecondsSinceEpoch()] returns. *)
Definition new (now : Z) : t := mk newBaseMessage now.

Definition GET_MILLISECONDS_SINCE_EPOCH (m : t) : Z := MILLISECONDS_SINCE_EPOCH m.

Definition base (m : t) : BaseMessage := parent m.
Definition set_base (b : BaseMessage) (m : t) : t := mk b (MILLISECONDS_SINCE_EPOCH m).

Definition types : list ty := [TScalar TTime].

Definition count (m : t) : t :=
  let b := countHelper (base m) in
  let b := countCapacity types ⟪ MILLISECONDS_SINCE_EPOCH m ⟫ b in
  set_base (countLengths b) m.

Definition serialize (m : t) : res (t * str) :=
  b ← serializeHelper (base m);
  b ← pushMembers types ⟪ MILLISECONDS_SINCE_EPOCH m ⟫ b;
  s ← dataString b;
  Ok (set_base b m, s).

Definition deserialize (data : str) (m : t) : res t :=
  b ← deserializeHelper data (base m);
  '(b, ⟪ millis ⟫) ← popMembers data types ⟪ MILLISECONDS_SINCE_EPOCH m ⟫ b;
  Ok (mk b millis).

#[global] Instance message : Message t := {|
  msg_base := base; msg_types := types;
  msg_members := λ m, ⟪ MILLISECONDS_SINCE_EPOCH m ⟫;
  msg_rebuild := λ b '(⟪ millis ⟫) m, mk b millis;
  msg_count := count; msg_serialize := serialize; msg_deserialize := deserialize |}.

#[global] Instance laws : MessageLaws t.
Proof. solve_laws. Qed.

End TimestampMessage.

(** Overrides [getRef] only. *)
Definition HeartBeatPacket : Type := TimestampMessage.t.

(** ** [message::test] *)

Module TestVecNormal.

Record t := mk {
  parent : BaseMessage;
  INTS : list Z;
  DOUBLES : list Z }.

Definition base (m : t) : BaseMessage := parent m.
Definition set_base (b : BaseMessage) (m : t) : t :=
  mk b (INTS m) (DOUBLES m).

Definition types : list ty :=
  [TVector TInt; TVector TDouble].

Definition count (m : t) : t :=
  let b := countHelper (base m) in
  let b := countCapacity types
    ⟪ INTS m; DOUBLES m ⟫ b in
  set_base (countLengths b) m.

Definition serialize (m : t) : res (t * str) :=
  b ← serializeHelper (base m);
  b ← pushMembers types
    ⟪ INTS m; DOUBLES m ⟫ b;
  s ← dataString b;
  Ok (set_base b m, s).

Definition deserialize (data : str) (m : t) : res t :=
  b ← deserializeHelper data (base m);
  '(b, ⟪ ints; doubles ⟫) ← popMembers data types
    ⟪ INTS m; DOUBLES m ⟫ b;
  Ok (mk b ints doubles).

#[global] Instance message : Message t := {|
  msg_base := base; msg_types := types;
  msg_members := λ m, ⟪ INTS m; DOUBLES m ⟫;
  msg_rebuild := λ b '(⟪ ints; doubles ⟫) m,
    mk b ints doubles;
  msg_count := count; msg_serialize := serialize; msg_deserialize := deserialize |}.

#[global] Instance laws : MessageLaws t.
Proof. solve_laws. Qed.

End TestVecNormal.

Module TestStringsMessage.

Record t := mk {
  parent : BaseMessage;
  BOOL : Z;
  INTS : list Z;
  STRINGS : list str }.

Definition base (m : t) : BaseMessage := parent m.
Definition set_base (b : BaseMessage) (m : t) : t :=
  mk b (BOOL m) (INTS m) (STRINGS m).

Definition types : list ty :=
  [TScalar TBool; TVector TSize; TStrings].

Definition count (m : t) : t :=
  let b := countHelper (base m) in
  let b := countCapacity types
    ⟪ BOOL m; INTS m; STRINGS m ⟫ b in
  set_base (countLengths b) m.

Definition serialize (m : t) : res (t * str) :=
  b ← serializeHelper (base m);
  b ← pushMembers types
    ⟪ BOOL m; INTS m; STRINGS m ⟫ b;
  s ← dataString b;
  Ok (set_base b m, s).

Definition deserialize (data : str) (m : t) : res t :=
  b ← deserializeHelper data (base m);
  '(b, ⟪ bool; ints; strings ⟫) ← popMembers data types
    ⟪ BOOL m; INTS m; STRINGS m ⟫ b;
  Ok (mk b bool ints strings).

#[global] Instance message : Message t := {|
  msg_base := base; msg_types := types;
  msg_members := λ m, ⟪ BOOL m; INTS m; STRINGS m ⟫;
  msg_rebuild := λ b '(⟪ bool; ints; strings ⟫) m,
    mk b bool ints strings;
  msg_count := count; msg_serialize := serialize; msg_deserialize := deserialize |}.

#[global] Instance laws : MessageLaws t.
Proof. solve_laws. Qed.

End TestStringsMessage.

Module MessagesPacker.

Record t := mk {
  parent : TimestampMessage.t;
  MESSAGES : list str }.

Definition base (m : t) : BaseMessage := TimestampMessage.base (parent m).
Definition set_base (b : BaseMessage) (m : t) : t :=
  mk (TimestampMessage.set_base b (parent m)) (MESSAGES m).

Definition types : list ty :=
  [TStrings].

Definition count (m : t) : t :=
  let b := countHelper (base m) in
  let b := countCapacity types
    ⟪ MESSAGES m ⟫ b in
  set_base (countLengths b) m.

Definition serialize (m : t) : res (t * str) :=
  b ← serializeHelper (base m);
  b ← pushMembers types
    ⟪ MESSAGES m ⟫ b;
  s ← dataString b;
  Ok (set_base b m, s).

Definition deserialize (data : str) (m : t) : res t :=
  b ← deserializeHelper data (base m);
  '(b, ⟪ messages ⟫) ← popMembers data types
    ⟪ MESSAGES m ⟫ b;
  Ok (mk (TimestampMessage.set_base b (parent m)) messages).

#[global] Instance message : Message t := {|
  msg_base := base; msg_types := types;
  msg_members := λ m, ⟪ MESSAGES m ⟫;
  msg_rebuild := λ b '(⟪ messages ⟫) m,
    mk (TimestampMessage.set_base b (parent m)) messages;
  msg_count := count; msg_serialize := serialize; msg_deserialize := deserialize |}.

#[global] Instance laws : MessageLaws t.
Proof. solve_laws. Qed.

End MessagesPacker.

Module CLoginMessage.

Record t := mk {
  parent : TimestampMessage.t;
  requestCode : Z;
  account : str;
  password : str }.

Definition base (m : t) : BaseMessage := TimestampMessage.base (parent m).
Definition set_base (b : BaseMessage) (m : t) : t :=
  mk (TimestampMessage.set_base b (parent m)) (requestCode m) (account m)
    (password m).

Definition types : list ty :=
  [TScalar TSize; TString; TString].

Definition count (m : t) : t :=
  let b := countHelper (base m) in
  let b := countCapacity types
    ⟪ requestCode m; account m; password m ⟫ b in
  set_base (countLengths b) m.

Definition serialize (m : t) : res (t * str) :=
  b ← serializeHelper (base m);
  b ← pushMembers types
    ⟪ requestCode m; account m; password m ⟫ b;
  s ← dataString b;
  Ok (set_base b m, s).

Definition deserialize (data : str) (m : t) : res t :=
  b ← deserializeHelper data (base m);
  '(b, ⟪ requestcode; account; password ⟫) ← popMembers data types
    ⟪ requestCode m; account m; password m ⟫ b;
  Ok (mk (TimestampMessage.set_base b (parent m)) requestcode account password).

#[global] Instance message : Message t := {|
  msg_base := base; msg_types := types;
  msg_members := λ m, ⟪ requestCode m; account m; password m ⟫;
  msg_rebuild := λ b '(⟪ requestcode; account; password ⟫) m,
    mk (TimestampMessage.set_base b (parent m)) requestcode account password;
  msg_count := count; msg_serialize := serialize; msg_deserialize := deserialize |}.

#[global] Instance laws : MessageLaws t.
Proof. solve_laws. Qed.

End CLoginMessage.

Module SLoginMessage.

Record t := mk {
  parent : TimestampMessage.t;
  requestResult : Z;
  token : str }.

Definition base (m : t) : BaseMessage := TimestampMessage.base (parent m).
Definition set_base (b : BaseMessage) (m : t) : t :=
  mk (TimestampMessage.set_base b (parent m)) (requestResult m) (token m).

Definition types : list ty :=
  [TScalar TSize; TString].

Definition count (m : t) : t :=
  let b := countHelper (base m) in
  let b := countCapacity types
    ⟪ requestResult m; token m ⟫ b in
  set_base (countLengths b) m.

Definition serialize (m : t) : res (t * str) :=
  b ← serializeHelper (base m);
  b ← pushMembers types
    ⟪ requestResult m; token m ⟫ b;
  s ← dataString b;
  Ok (set_base b m, s).

Definition deserialize (data : str) (m : t) : res t :=
  b ← deserializeHelper data (base m);
  '(b, ⟪ requestresult; token ⟫) ← popMembers data types
    ⟪ requestResult m; token m ⟫ b;
  Ok (mk (TimestampMessage.set_base b (parent m)) requestresult token).

#[global] Instance message : Message t := {|
  msg_base := base; msg_types := types;
  msg_members := λ m, ⟪ requestResult m; token m ⟫;
  msg_rebuild := λ b '(⟪ requestresult; token ⟫) m,
    mk (TimestampMessage.set_base b (parent m)) requestresult token;
  msg_count := count; msg_serialize := serialize; msg_deserialize := deserialize |}.

#[global] Instance laws : MessageLaws t.
Proof. solve_laws. Qed.

End SLoginMessage.

(** ** Codes *)

Module code.

Definition NONE : Z := 0.

Module login.
Definition LOGIN_REGISTER_REQUEST_CODE : Z := 10.
Definition LOGIN_LOGIN_REQUEST_CODE : Z := 20.
Definition LOGIN_OFFLINE_REQUEST_CODE : Z := 30.
Definition LOGIN_LOGOUT_REQUEST_CODE : Z := 40.
Definition LOGIN_CREATE_CHARACTER_CODE : Z := 50.
Definition LOGIN_DELETE_CHARACTER_CODE : Z := 60.
Definition LOGIN_CHARACTER_ENTER_GAME_CODE : Z := 70.
Definition LOGIN_REGISTER_RESULT_SUCCESS : Z := 10010.
Definition LOGIN_LOGIN_RESULT_SUCCESS : Z := 10020.
Definition LOGIN_CREATE_CHARACTER_RESULT_SUCCESS : Z := 10050.
Definition LOGIN_DELETE_CHARACTER_RESULT_SUCCESS : Z := 10060.
Definition LOGIN_CHARACTER_ENTER_SUCCESS : Z := 10070.
Definition LOGIN_CHARACTER_ENTERING : Z := 10071.
Definition LOGIN_REGISTER_ERROR_ACCOUNT_EXISTED : Z := 30011.
Definition LOGIN_LOGIN_ERROR_ACCOUNT_NO_EXISTED : Z := 30021.
Definition LOGIN_LOGIN_ERROR_ACCOUNT_PASSWORD_MISMATCH : Z := 30022.
Definition LOGIN_LOGIN_ERROR_ACCOUNT_ALREADY_ON : Z := 30023.
Definition LOGIN_CREATE_CHARACTER_ERROR_EXISTED : Z := 30051.
Definition LOGIN_DELETE_CHARACTER_ERROR_NO_EXISTED : Z := 30061.
Definition LOGIN_CHARACTER_ERROR_ACCOUNT_MISMATCH : Z := 30071.
Definition LOGIN_CHARACTER_ERROR_ENTER_GAME : Z := 30072.
Definition LOGIN_ERROR_NO_SUCH_SERVICE : Z := 30098.
Definition LOGIN_ERROR_FROM_DB : Z := 30099.
Definition MESSAGE_TYPE_LOGIN : str := lit "LOGIN_MESSAGE_TYPE".
Definition MESSAGE_TYPE_CHARACTER_BASE_INFO : str := lit "CHARACTER_BASE_INFO_MESSAGE_TYPE".
Definition LOGIN_TOKEN_NONE : str := lit "".

Definition CODE_MESSAGE (code : Z) : str :=
  if code =? LOGIN_REGISTER_REQUEST_CODE then lit "LOGIN_REGISTER_REQUEST_CODE" else [].
End login.

Module gateway.
Definition GATEWAY_ENTER_GAME_REQUEST_CODE : Z := 110.
Definition GATEWAY_EXIT_GAME_REQUEST_CODE : Z := 120.
Definition GATEWAY_ENTER_GAME_RESULT_SUCCESS : Z := 10110.
Definition GATEWAY_EXIT_GAME_RESULT_SUCCESS : Z := 10120.
Definition GATEWAY_ENTER_GAME_ERROR : Z := 30110.
Definition GATEWAY_EXIT_GAME_ERROR : Z := 30120.
End gateway.

Module game.
Definition GAME_DS_REGISTER_CODE : Z := 210.
Definition GAME_DS_QUIT_CODE : Z := 220.
Definition GAME_DS_UPDATE_CODE : Z := 230.
Definition GAME_LOAD_CHARACTER_CODE : Z := 240.
Definition GAME_UPLOAD_CHARACTER_CODE : Z := 250.
Definition GAME_LAST_UPLOAD_CHARACTER_CODE : Z := 251.
Definition GAME_DS_REGISTER_SUCCESS : Z := 10210.
Definition GAME_DS_QUIT_SUCCESS : Z := 10220.
Definition GAME_DS_UPDATE_SUCCESS : Z := 10230.
Definition GAME_LOAD_CHARACTER_SUCCESS : Z := 10240.
Definition GAME_UPLOAD_CHARACTER_SUCCESS : Z := 10250.
Definition GAME_LAST_UPLOAD_CHARACTER_SUCCESS : Z := 10251.
Definition GAME_DS_REGISTER_ERROR : Z := 30210.
Definition GAME_DS_QUIT_ERROR : Z := 30220.
Definition GAME_DS_UPDATE_ERROR : Z := 30230.
Definition GAME_LOAD_CHARACTER_ERROR : Z := 30240.
Definition GAME_DS_UNKNOWN_ERROR : Z := 30999.
End game.

End code.

(** ** Login messages *)

Module CharacterBaseInfo.

Record t := mk {
  parent : BaseMessage;
  CHARACTER_NAME : str;
  CHARACTER_LEVEL : Z;
  CHARACTER_GENDER : Z;
  CHARACTER_OCCUPTION : Z;
  CHARACTER_STATE : Z }.

Definition base (m : t) : BaseMessage := parent m.
Definition set_base (b : BaseMessage) (m : t) : t :=
  mk b (CHARACTER_NAME m) (CHARACTER_LEVEL m) (CHARACTER_GENDER m)
    (CHARACTER_OCCUPTION m) (CHARACTER_STATE m).

Definition types : list ty :=
  [TString; TScalar TInt; TScalar TBool; TScalar TInt; TScalar TInt].

Definition count (m : t) : t :=
  let b := countHelper (base m) in
  let b := countCapacity types
    ⟪ CHARACTER_NAME m; CHARACTER_LEVEL m; CHARACTER_GENDER m; CHARACTER_OCCUPTION m;
     CHARACTER_STATE m ⟫ b in
  set_base (countLengths b) m.

Definition serialize (m : t) : res (t * str) :=
  b ← serializeHelper (base m);
  b ← pushMembers types
    ⟪ CHARACTER_NAME m; CHARACTER_LEVEL m; CHARACTER_GENDER m; CHARACTER_OCCUPTION m;
     CHARACTER_STATE m ⟫ b;
  s ← dataString b;
  Ok (set_base b m, s).

Definition deserialize (data : str) (m : t) : res t :=
  b ← deserializeHelper data (base m);
  '(b, ⟪ character_name; character_level; character_gender; character_occuption;
       character_state ⟫) ← popMembers data types
    ⟪ CHARACTER_NAME m; CHARACTER_LEVEL m; CHARACTER_GENDER m; CHARACTER_OCCUPTION m;
     CHARACTER_STATE m ⟫ b;
  Ok (mk b character_name character_level character_gender character_occuption
      character_state).

#[global] Instance message : Message t := {|
  msg_base := base; msg_types := types;
  msg_members := λ m, ⟪ CHARACTER_NAME m; CHARACTER_LEVEL m; CHARACTER_GENDER m; CHARACTER_OCCUPTION m;
     CHARACTER_STATE m ⟫;
  msg_rebuild := λ b '(⟪ character_name; character_level; character_gender; character_occuption;
       character_state ⟫) m,
    mk b character_name character_level character_gender character_occuption
      character_state;
  msg_count := count; msg_serialize := serialize; msg_deserialize := deserialize |}.

#[global] Instance laws : MessageLaws t.
Proof. solve_laws. Qed.

End CharacterBaseInfo.

Module LoginRequestMessage.

Record t := mk {
  parent : TimestampMessage.t;
  REQUEST_CODE : Z;
  ACCOUNT : str;
  PASSWORD : str }.

Definition base (m : t) : BaseMessage := TimestampMessage.base (parent m).
Definition set_base (b : BaseMessage) (m : t) : t :=
  mk (TimestampMessage.set_base b (parent m)) (REQUEST_CODE m) (ACCOUNT m)
    (PASSWORD m).

Definition types : list ty :=
  [TScalar TSize; TString; TString].

Definition count (m : t) : t :=
  let b := countHelper (base m) in
  let b := countCapacity types
    ⟪ REQUEST_CODE m; ACCOUNT m; PASSWORD m ⟫ b in
  set_base (countLengths b) m.

Definition serialize (m : t) : res (t * str) :=
  b ← serializeHelper (base m);
  b ← pushMembers types
    ⟪ REQUEST_CODE m; ACCOUNT m; PASSWORD m ⟫ b;
  s ← dataString b;
  Ok (set_base b m, s).

Definition deserialize (data : str) (m : t) : res t :=
  b ← deserializeHelper data (base m);
  '(b, ⟪ request_code; account; password ⟫) ← popMembers data types
    ⟪ REQUEST_CODE m; ACCOUNT m; PASSWORD m ⟫ b;
  Ok (mk (TimestampMessage.set_base b (parent m)) request_code account password).

#[global] Instance message : Message t := {|
  msg_base := base; msg_types := types;
  msg_members := λ m, ⟪ REQUEST_CODE m; ACCOUNT m; PASSWORD m ⟫;
  msg_rebuild := λ b '(⟪ request_code; account; password ⟫) m,
    mk (TimestampMessage.set_base b (parent m)) request_code account password;
  msg_count := count; msg_serialize := serialize; msg_deserialize := deserialize |}.

#[global] Instance laws : MessageLaws t.
Proof. solve_laws. Qed.

End LoginRequestMessage.

Module LoginResponseMessage.

Record t := mk {
  parent : TimestampMessage.t;
  RESPONSE_CODE : Z;
  TOKEN : str;
  GAME_GATEWAY_IP : str;
  GAME_GATEWAY_PORT : Z;
  GAME_DS_IP : str;
  GAME_DS_PORT : Z;
  CHARACTER_BASE_INFO_MESSAGES : list str }.

Definition base (m : t) : BaseMessage := TimestampMessage.base (parent m).
Definition set_base (b : BaseMessage) (m : t) : t :=
  mk (TimestampMessage.set_base b (parent m)) (RESPONSE_CODE m) (TOKEN m)
    (GAME_GATEWAY_IP m) (GAME_GATEWAY_PORT m) (GAME_DS_IP m) (GAME_DS_PORT m)
    (CHARACTER_BASE_INFO_MESSAGES m).

Definition types : list ty :=
  [TScalar TSize; TString; TString; TScalar TInt; TString; TScalar TInt; TStrings].

Definition count (m : t) : t :=
  let b := countHelper (base m) in
  let b := countCapacity types
    ⟪ RESPONSE_CODE m; TOKEN m; GAME_GATEWAY_IP m; GAME_GATEWAY_PORT m; GAME_DS_IP m;
     GAME_DS_PORT m; CHARACTER_BASE_INFO_MESSAGES m ⟫ b in
  set_base (countLengths b) m.

Definition serialize (m : t) : res (t * str) :=
  b ← serializeHelper (base m);
  b ← pushMembers types
    ⟪ RESPONSE_CODE m; TOKEN m; GAME_GATEWAY_IP m; GAME_GATEWAY_PORT m; GAME_DS_IP m;
     GAME_DS_PORT m; CHARACTER_BASE_INFO_MESSAGES m ⟫ b;
  s ← dataString b;
  Ok (set_base b m, s).

Definition deserialize (data : str) (m : t) : res t :=
  b ← deserializeHelper data (base m);
  '(b, ⟪ response_code; token; game_gateway_ip; game_gateway_port; game_ds_ip;
       game_ds_port; character_base_info_messages ⟫) ← popMembers data types
    ⟪ RESPONSE_CODE m; TOKEN m; GAME_GATEWAY_IP m; GAME_GATEWAY_PORT m; GAME_DS_IP m;
     GAME_DS_PORT m; CHARACTER_BASE_INFO_MESSAGES m ⟫ b;
  Ok (mk (TimestampMessage.set_base b (parent m)) response_code token game_gateway_ip
      game_gateway_port game_ds_ip game_ds_port character_base_info_messages).

#[global] Instance message : Message t := {|
  msg_base := base; msg_types := types;
  msg_members := λ m, ⟪ RESPONSE_CODE m; TOKEN m; GAME_GATEWAY_IP m; GAME_GATEWAY_PORT m; GAME_DS_IP m;
     GAME_DS_PORT m; CHARACTER_BASE_INFO_MESSAGES m ⟫;
  msg_rebuild := λ b '(⟪ response_code; token; game_gateway_ip; game_gateway_port; game_ds_ip;
       game_ds_port; character_base_info_messages ⟫) m,
    mk (TimestampMessage.set_base b (parent m)) response_code token game_gateway_ip
      game_gateway_port game_ds_ip game_ds_port character_base_info_messages;
  msg_count := count; msg_serialize := serialize; msg_deserialize := deserialize |}.

#[global] Instance laws : MessageLaws t.
Proof. solve_laws. Qed.

End LoginResponseMessage.

Module LoginCharacterRequestMessage.

Record t := mk {
  parent : LoginRequestMessage.t;
  CHARACTER_NAME : str;
  CHARACTER_GENDER : Z;
  CHARACTER_OCCUPTION : Z;
  CHARACTER_STATE : Z }.

Definition base (m : t) : BaseMessage := LoginRequestMessage.base (parent m).
Definition set_base (b : BaseMessage) (m : t) : t :=
  mk (LoginRequestMessage.set_base b (parent m)) (CHARACTER_NAME m)
    (CHARACTER_GENDER m) (CHARACTER_OCCUPTION m) (CHARACTER_STATE m).

Definition types : list ty :=
  [TScalar TSize; TString; TString; TString; TScalar TBool; TScalar TInt; TScalar TInt].

Definition count (m : t) : t :=
  let b := countHelper (base m) in
  let b := countCapacity types
    ⟪ LoginRequestMessage.REQUEST_CODE (parent m);
     LoginRequestMessage.ACCOUNT (parent m); LoginRequestMessage.PASSWORD (parent m);
     CHARACTER_NAME m; CHARACTER_GENDER m; CHARACTER_OCCUPTION m; CHARACTER_STATE m ⟫ b in
  set_base (countLengths b) m.

Definition serialize (m : t) : res (t * str) :=
  b ← serializeHelper (base m);
  b ← pushMembers types
    ⟪ LoginRequestMessage.REQUEST_CODE (parent m);
     LoginRequestMessage.ACCOUNT (parent m); LoginRequestMessage.PASSWORD (parent m);
     CHARACTER_NAME m; CHARACTER_GENDER m; CHARACTER_OCCUPTION m; CHARACTER_STATE m ⟫ b;
  s ← dataString b;
  Ok (set_base b m, s).

Definition deserialize (data : str) (m : t) : res t :=
  b ← deserializeHelper data (base m);
  '(b, ⟪ request_code; account; password; character_name; character_gender;
       character_occuption; character_state ⟫) ← popMembers data types
    ⟪ LoginRequestMessage.REQUEST_CODE (parent m);
     LoginRequestMessage.ACCOUNT (parent m); LoginRequestMessage.PASSWORD (parent m);
     CHARACTER_NAME m; CHARACTER_GENDER m; CHARACTER_OCCUPTION m; CHARACTER_STATE m ⟫ b;
  Ok (
      mk (LoginRequestMessage.mk (TimestampMessage.set_base b (LoginRequestMessage.parent (parent m))) request_code account password)
      character_name character_gender character_occuption character_state).

#[global] Instance message : Message t := {|
  msg_base := base; msg_types := types;
  msg_members := λ m, ⟪ LoginRequestMessage.REQUEST_CODE (parent m);
     LoginRequestMessage.ACCOUNT (parent m); LoginRequestMessage.PASSWORD (parent m);
     CHARACTER_NAME m; CHARACTER_GENDER m; CHARACTER_OCCUPTION m; CHARACTER_STATE m ⟫;
  msg_rebuild := λ b '(⟪ request_code; account; password; character_name; character_gender;
       character_occuption; character_state ⟫) m,
    
      mk (LoginRequestMessage.mk (TimestampMessage.set_base b (LoginRequestMessage.parent (parent m))) request_code account password)
      character_name character_gender character_occuption character_state;
  msg_count := count; msg_serialize := serialize; msg_deserialize := deserialize |}.

#[global] Instance laws : MessageLaws t.
Proof. solve_laws. Qed.

(** The request code of [src] is not copied. *)
Definition initAccount (src : LoginRequestMessage.t) (msgName : str) (m : t) : t :=
  mk (LoginRequestMessage.mk
        (TimestampMessage.set_base (set_name msgName (base m)) (LoginRequestMessage.parent (parent m)))
        (LoginRequestMessage.REQUEST_CODE (parent m))
        (LoginRequestMessage.ACCOUNT src) (LoginRequestMessage.PASSWORD src))
    (CHARACTER_NAME m) (CHARACTER_GENDER m) (CHARACTER_OCCUPTION m) (CHARACTER_STATE m).

End LoginCharacterRequestMessage.

(** ** Gateway messages *)

Module EnterGameRequestMessage.

Record t := mk {
  parent : TimestampMessage.t;
  REQUEST_CODE : Z;
  ACCOUNT : str;
  CHARACTER : str }.

Definition base (m : t) : BaseMessage := TimestampMessage.base (parent m).
Definition set_base (b : BaseMessage) (m : t) : t :=
  mk (TimestampMessage.set_base b (parent m)) (REQUEST_CODE m) (ACCOUNT m)
    (CHARACTER m).

Definition types : list ty :=
  [TScalar TSize; TString; TString].

Definition count (m : t) : t :=
  let b := countHelper (base m) in
  let b := countCapacity types
    ⟪ REQUEST_CODE m; ACCOUNT m; CHARACTER m ⟫ b in
  set_base (countLengths b) m.

Definition serialize (m : t) : res (t * str) :=
  b ← serializeHelper (base m);
  b ← pushMembers types
    ⟪ REQUEST_CODE m; ACCOUNT m; CHARACTER m ⟫ b;
  s ← dataString b;
  Ok (set_base b m, s).

Definition deserialize (data : str) (m : t) : res t :=
  b ← deserializeHelper data (base m);
  '(b, ⟪ request_code; account; character ⟫) ← popMembers data types
    ⟪ REQUEST_CODE m; ACCOUNT m; CHARACTER m ⟫ b;
  Ok (mk (TimestampMessage.set_base b (parent m)) request_code account character).

#[global] Instance message : Message t := {|
  msg_base := base; msg_types := types;
  msg_members := λ m, ⟪ REQUEST_CODE m; ACCOUNT m; CHARACTER m ⟫;
  msg_rebuild := λ b '(⟪ request_code; account; character ⟫) m,
    mk (TimestampMessage.set_base b (parent m)) request_code account character;
  msg_count := count; msg_serialize := serialize; msg_deserialize := deserialize |}.

#[global] Instance laws : MessageLaws t.
Proof. solve_laws. Qed.

End EnterGameRequestMessage.

Module EnterGameResponseMessage.

Record t := mk {
  parent : TimestampMessage.t;
  RESPONSE_CODE : Z }.

Definition base (m : t) : BaseMessage := TimestampMessage.base (parent m).
Definition set_base (b : BaseMessage) (m : t) : t :=
  mk (TimestampMessage.set_base b (parent m)) (RESPONSE_CODE m).

Definition types : list ty :=
  [TScalar TSize].

Definition count (m : t) : t :=
  let b := countHelper (base m) in
  let b := countCapacity types
    ⟪ RESPONSE_CODE m ⟫ b in
  set_base (countLengths b) m.

Definition serialize (m : t) : res (t * str) :=
  b ← serializeHelper (base m);
  b ← pushMembers types
    ⟪ RESPONSE_CODE m ⟫ b;
  s ← dataString b;
  Ok (set_base b m, s).

Definition deserialize (data : str) (m : t) : res t :=
  b ← deserializeHelper data (base m);
  '(b, ⟪ response_code ⟫) ← popMembers data types
    ⟪ RESPONSE_CODE m ⟫ b;
  Ok (mk (TimestampMessage.set_base b (parent m)) response_code).

#[global] Instance message : Message t := {|
  msg_base := base; msg_types := types;
  msg_members := λ m, ⟪ RESPONSE_CODE m ⟫;
  msg_rebuild := λ b '(⟪ response_code ⟫) m,
    mk (TimestampMessage.set_base b (parent m)) response_code;
  msg_count := count; msg_serialize := serialize; msg_deserialize := deserialize |}.

#[global] Instance laws : MessageLaws t.
Proof. solve_laws. Qed.

End EnterGameResponseMessage.

Module ChatRequestMessage.

Record t := mk {
  parent : TimestampMessage.t;
  REQUEST_CODE : Z;
  ACCOUNT : str;
  CHARACTER : str;
  CHANNEL : str;
  NOTE : str }.

Definition base (m : t) : BaseMessage := TimestampMessage.base (parent m).
Definition set_base (b : BaseMessage) (m : t) : t :=
  mk (TimestampMessage.set_base b (parent m)) (REQUEST_CODE m) (ACCOUNT m)
    (CHARACTER m) (CHANNEL m) (NOTE m).

Definition types : list ty :=
  [TScalar TSize; TString; TString; TString; TString].

Definition count (m : t) : t :=
  let b := countHelper (base m) in
  let b := countCapacity types
    ⟪ REQUEST_CODE m; ACCOUNT m; CHARACTER m; CHANNEL m; NOTE m ⟫ b in
  set_base (countLengths b) m.

Definition serialize (m : t) : res (t * str) :=
  b ← serializeHelper (base m);
  b ← pushMembers types
    ⟪ REQUEST_CODE m; ACCOUNT m; CHARACTER m; CHANNEL m; NOTE m ⟫ b;
  s ← dataString b;
  Ok (set_base b m, s).

Definition deserialize (data : str) (m : t) : res t :=
  b ← deserializeHelper data (base m);
  '(b, ⟪ request_code; account; character; channel; note ⟫) ← popMembers data types
    ⟪ REQUEST_CODE m; ACCOUNT m; CHARACTER m; CHANNEL m; NOTE m ⟫ b;
  Ok (mk (TimestampMessage.set_base b (parent m)) request_code account character
      channel note).

#[global] Instance message : Message t := {|
  msg_base := base; msg_types := types;
  msg_members := λ m, ⟪ REQUEST_CODE m; ACCOUNT m; CHARACTER m; CHANNEL m; NOTE m ⟫;
  msg_rebuild := λ b '(⟪ request_code; account; character; channel; note ⟫) m,
    mk (TimestampMessage.set_base b (parent m)) request_code account character
      channel note;
  msg_count := count; msg_serialize := serialize; msg_deserialize := deserialize |}.

#[global] Instance laws : MessageLaws t.
Proof. solve_laws. Qed.

End ChatRequestMessage.

(** ** Game messages *)

Module DSLoadOrUploadCharacterMessage.

Record t := mk {
  parent : TimestampMessage.t;
  CODE : Z;
  SCENE_ID : Z;
  ACCOUNT : str;
  CHARACTER_NAME : str;
  CHARACTER_DATA : str }.

Definition base (m : t) : BaseMessage := TimestampMessage.base (parent m).
Definition set_base (b : BaseMessage) (m : t) : t :=
  mk (TimestampMessage.set_base b (parent m)) (CODE m) (SCENE_ID m) (ACCOUNT m)
    (CHARACTER_NAME m) (CHARACTER_DATA m).

Definition types : list ty :=
  [TScalar TSize; TScalar TInt; TString; TString; TString].

Definition count (m : t) : t :=
  let b := countHelper (base m) in
  let b := countCapacity types
    ⟪ CODE m; SCENE_ID m; ACCOUNT m; CHARACTER_NAME m; CHARACTER_DATA m ⟫ b in
  set_base (countLengths b) m.

Definition serialize (m : t) : res (t * str) :=
  b ← serializeHelper (base m);
  b ← pushMembers types
    ⟪ CODE m; SCENE_ID m; ACCOUNT m; CHARACTER_NAME m; CHARACTER_DATA m ⟫ b;
  s ← dataString b;
  Ok (set_base b m, s).

Definition deserialize (data : str) (m : t) : res t :=
  b ← deserializeHelper data (base m);
  '(b, ⟪ code; scene_id; account; character_name; character_data ⟫) ← popMembers data types
    ⟪ CODE m; SCENE_ID m; ACCOUNT m; CHARACTER_NAME m; CHARACTER_DATA m ⟫ b;
  Ok (mk (TimestampMessage.set_base b (parent m)) code scene_id account character_name
      character_data).

#[global] Instance message : Message t := {|
  msg_base := base; msg_types := types;
  msg_members := λ m, ⟪ CODE m; SCENE_ID m; ACCOUNT m; CHARACTER_NAME m; CHARACTER_DATA m ⟫;
  msg_rebuild := λ b '(⟪ code; scene_id; account; character_name; character_data ⟫) m,
    mk (TimestampMessage.set_base b (parent m)) code scene_id account character_name
      character_data;
  msg_count := count; msg_serialize := serialize; msg_deserialize := deserialize |}.

#[global] Instance laws : MessageLaws t.
Proof. solve_laws. Qed.

End DSLoadOrUploadCharacterMessage.

Module DSMessage.

Record t := mk {
  parent : TimestampMessage.t;
  CODE : Z;
  DS_PORT : Z;
  SCENE_ID : Z;
  LOAD : Z;
  SCENE_DATA : str }.

Definition base (m : t) : BaseMessage := TimestampMessage.base (parent m).
Definition set_base (b : BaseMessage) (m : t) : t :=
  mk (TimestampMessage.set_base b (parent m)) (CODE m) (DS_PORT m) (SCENE_ID m)
    (LOAD m) (SCENE_DATA m).

Definition types : list ty :=
  [TScalar TSize; TScalar TInt; TScalar TInt; TScalar TInt; TString].

Definition count (m : t) : t :=
  let b := countHelper (base m) in
  let b := countCapacity types
    ⟪ CODE m; DS_PORT m; SCENE_ID m; LOAD m; SCENE_DATA m ⟫ b in
  set_base (countLengths b) m.

Definition serialize (m : t) : res (t * str) :=
  b ← serializeHelper (base m);
  b ← pushMembers types
    ⟪ CODE m; DS_PORT m; SCENE_ID m; LOAD m; SCENE_DATA m ⟫ b;
  s ← dataString b;
  Ok (set_base b m, s).

Definition deserialize (data : str) (m : t) : res t :=
  b ← deserializeHelper data (base m);
  '(b, ⟪ code; ds_port; scene_id; load; scene_data ⟫) ← popMembers data types
    ⟪ CODE m; DS_PORT m; SCENE_ID m; LOAD m; SCENE_DATA m ⟫ b;
  Ok (mk (TimestampMessage.set_base b (parent m)) code ds_port scene_id load
      scene_data).

#[global] Instance message : Message t := {|
  msg_base := base; msg_types := types;
  msg_members := λ m, ⟪ CODE m; DS_PORT m; SCENE_ID m; LOAD m; SCENE_DATA m ⟫;
  msg_rebuild := λ b '(⟪ code; ds_port; scene_id; load; scene_data ⟫) m,
    mk (TimestampMessage.set_base b (parent m)) code ds_port scene_id load
      scene_data;
  msg_count := count; msg_serialize := serialize; msg_deserialize := deserialize |}.

#[global] Instance laws : MessageLaws t.
Proof. solve_laws. Qed.

End DSMessage.

Module CharacterInfo.

Record t := mk {
  parent : BaseMessage;
  ACCOUNT : str;
  NAME : str;
  LEVEL : Z;
  GENDER : Z;
  OCCUPTION : Z;
  STATE : Z;
  EXP : Z;
  HEALTH : Z;
  MANA : Z;
  ARMOR : Z;
  STAMINA : Z;
  STRENGTH : Z;
  AGILITY : Z;
  INTELLECT : Z;
  SCENE_ID : Z;
  SCENE_X : Z;
  SCENE_Y : Z;
  SCENE_Z : Z }.

Definition base (m : t) : BaseMessage := parent m.
Definition set_base (b : BaseMessage) (m : t) : t :=
  mk b (ACCOUNT m) (NAME m) (LEVEL m) (GENDER m) (OCCUPTION m) (STATE m) (EXP m)
    (HEALTH m) (MANA m) (ARMOR m) (STAMINA m) (STRENGTH m) (AGILITY m) (INTELLECT m)
    (SCENE_ID m) (SCENE_X m) (SCENE_Y m) (SCENE_Z m).

Definition types : list ty :=
  [TString; TString; TScalar TInt; TScalar TBool; TScalar TInt; TScalar TInt;
   TScalar TInt; TScalar TInt; TScalar TInt; TScalar TInt; TScalar TInt; TScalar TInt;
   TScalar TInt; TScalar TInt; TScalar TInt; TScalar TDouble; TScalar TDouble;
   TScalar TDouble].

Definition count (m : t) : t :=
  let b := countHelper (base m) in
  let b := countCapacity types
    ⟪ ACCOUNT m; NAME m; LEVEL m; GENDER m; OCCUPTION m; STATE m; EXP m; HEALTH m;
     MANA m; ARMOR m; STAMINA m; STRENGTH m; AGILITY m; INTELLECT m; SCENE_ID m;
     SCENE_X m; SCENE_Y m; SCENE_Z m ⟫ b in
  set_base (countLengths b) m.

Definition serialize (m : t) : res (t * str) :=
  b ← serializeHelper (base m);
  b ← pushMembers types
    ⟪ ACCOUNT m; NAME m; LEVEL m; GENDER m; OCCUPTION m; STATE m; EXP m; HEALTH m;
     MANA m; ARMOR m; STAMINA m; STRENGTH m; AGILITY m; INTELLECT m; SCENE_ID m;
     SCENE_X m; SCENE_Y m; SCENE_Z m ⟫ b;
  s ← dataString b;
  Ok (set_base b m, s).

Definition deserialize (data : str) (m : t) : res t :=
  b ← deserializeHelper data (base m);
  '(b, ⟪ account; name; level; gender; occuption; state; exp; health; mana; armor;
       stamina; strength; agility; intellect; scene_id; scene_x; scene_y; scene_z ⟫) ← popMembers data types
    ⟪ ACCOUNT m; NAME m; LEVEL m; GENDER m; OCCUPTION m; STATE m; EXP m; HEALTH m;
     MANA m; ARMOR m; STAMINA m; STRENGTH m; AGILITY m; INTELLECT m; SCENE_ID m;
     SCENE_X m; SCENE_Y m; SCENE_Z m ⟫ b;
  Ok (mk b account name level gender occuption state exp health mana armor stamina
      strength agility intellect scene_id scene_x scene_y scene_z).

#[global] Instance message : Message t := {|
  msg_base := base; msg_types := types;
  msg_members := λ m, ⟪ ACCOUNT m; NAME m; LEVEL m; GENDER m; OCCUPTION m; STATE m; EXP m; HEALTH m;
     MANA m; ARMOR m; STAMINA m; STRENGTH m; AGILITY m; INTELLECT m; SCENE_ID m;
     SCENE_X m; SCENE_Y m; SCENE_Z m ⟫;
  msg_rebuild := λ b '(⟪ account; name; level; gender; occuption; state; exp; health; mana; armor;
       stamina; strength; agility; intellect; scene_id; scene_x; scene_y; scene_z ⟫) m,
    mk b account name level gender occuption state exp health mana armor stamina
      strength agility intellect scene_id scene_x scene_y scene_z;
  msg_count := count; msg_serialize := serialize; msg_deserialize := deserialize |}.

#[global] Instance laws : MessageLaws t.
Proof. solve_laws. Qed.

End CharacterInfo.


(** ** What the interface gives *)

Section Interface.
Context {M : Type} `{MessageLaws M}.

Definition msg_wire (m : M) : str := wire (MSG_NAME (msg_base m)) msg_types (msg_members m).

(** A message as its author makes it: named, members set, not yet counted. *)
Definition fresh_message (m : M) : Prop :=
  uncounted (msg_base m) ∧ valids msg_types (msg_members m) ∧
  total (MSG_NAME (msg_base m)) msg_types (msg_members m) < size_max.

Definition unread (m : M) : Prop :=
  synced (msg_base m) ∧ ARRAY_LIKE_LENGHTS (msg_base m) = [] ∧ empties msg_types (msg_members m).

Lemma msg_serialize_wire (m : M) :
  fresh_message m → ∃ m', msg_serialize (msg_count m) = Ok (m', msg_wire m).
Proof.
  intros (Hu & Hv & Ht). rewrite count_law, serialize_law, members_rebuild, base_rebuild.
  pose proof (count_with_counted _ (msg_members m) _ Hu Ht) as Hc.
  rewrite serialize_with_wire by done. rewrite (count_with_spec _ _ _ Hu Ht).
  cbn [mbind res_bind MSG_NAME]. by eexists.
Qed.

(** The handler object of a server reads packet after packet. *)
Fixpoint msg_read_all (datas : list str) (m : M) : res (list (str * tuple msg_types)) :=
  match datas with
  | [] => Ok []
  | data :: datas =>
      m ← msg_deserialize data m;
      rest ← msg_read_all datas m;
      Ok ((MSG_NAME (msg_base m), msg_members m) :: rest)
  end.

(** Lengths the packets leave in the object. *)
Fixpoint kept_lens (ms : list M) : nat :=
  match ms with
  | [] => 0
  | m :: ms => length (header_lens (MSG_NAME (msg_base m)) msg_types (msg_members m)) + kept_lens ms
  end.

Lemma msg_read_one (m r : M) rest :
  flat msg_types = true → synced (msg_base r) → fresh_message m →
  Z.of_nat (length (ARRAY_LIKE_LENGHTS (msg_base r)) + kept_lens [m]) < size_max →
  msg_deserialize (msg_wire m ++ rest) r =
  Ok (msg_rebuild (after_message (MSG_NAME (msg_base m)) msg_types (msg_members m) (msg_base r)) (msg_members m) r).
Proof.
  intros Hf Hs (_ & Hv & Ht) Hr. pose proof (flat_no_strings _ Hf) as Hns. cbn [kept_lens] in Hr.
  rewrite deserialize_law. unfold msg_wire.
  rewrite deserialize_with_wire; [|done|done|by apply no_strings_last|by left|done|lia].
  cbn [mbind res_bind]. by rewrite appends_flat.
Qed.

Lemma msg_read_all_spec (ms : list M) rest (r : M) :
  flat msg_types = true → synced (msg_base r) → Forall fresh_message ms →
  Z.of_nat (length (ARRAY_LIKE_LENGHTS (msg_base r)) + kept_lens ms) < size_max →
  msg_read_all ((λ m, msg_wire m ++ rest) <$> ms) r
  = Ok ((λ m, (MSG_NAME (msg_base m), msg_members m)) <$> ms).
Proof.
  intros Hf Hs Hm. pose proof (flat_no_strings _ Hf) as Hns. revert r Hs.
  induction Hm as [|m ms Hfm Hm IH]; intros r Hs Hr; [done|].
  rewrite !fmap_cons. cbn [msg_read_all kept_lens] in *.
  rewrite msg_read_one; [|done|done|done|cbn [kept_lens]; lia]. cbn [mbind res_bind].
  rewrite IH; rewrite ?base_rebuild, ?members_rebuild; [done|by apply after_message_synced|].
  rewrite after_message_lens, length_app. lia.
Qed.

End Interface.

(** ** Properties *)

(** C1: for every message class, what [count] and [serialize] make of a fresh
    message is its format, and [deserialize] of those bytes on an unread object,
    whatever bytes follow, recovers the name and every member. *)
Theorem class_roundtrip {M : Type} `{MessageLaws M} (m r : M) rest :
  fresh_message m → unread r →
  ∃ m' r', msg_serialize (msg_count m) = Ok (m', msg_wire m) ∧
    msg_deserialize (msg_wire m ++ rest) r = Ok r' ∧
    MSG_NAME (msg_base r') = MSG_NAME (msg_base m) ∧ msg_members r' = msg_members m.
Proof.
  intros Hm (Hs & Hl & He). destruct (msg_serialize_wire m Hm) as [m' Hm'].
  destruct Hm as (Hu & Hv & Ht).
  destruct (message_roundtrip _ _ _ _ (msg_base r) rest Hu Hv types_strings_last He Hs Hl Ht)
    as (b' & s & r' & _ & -> & _ & Hd & Hn & _).
  exists m', (msg_rebuild r' (msg_members m) r). split; [done|].
  rewrite deserialize_law. unfold msg_wire. rewrite Hd. cbn [mbind res_bind].
  by rewrite base_rebuild, members_rebuild.
Qed.

(** C24: for a class of scalars and strings (every request a client sends), one
    handler object reads any sequence of packets correctly, though it never
    clears the lengths of the past ones. *)
Theorem handler_reads_all {M : Type} `{MessageLaws M} (ms : list M) rest (r : M) :
  flat msg_types = true → synced (msg_base r) → Forall fresh_message ms →
  Z.of_nat (length (ARRAY_LIKE_LENGHTS (msg_base r)) + kept_lens ms) < size_max →
  msg_read_all ((λ m, msg_wire m ++ rest) <$> ms) r
  = Ok ((λ m, (MSG_NAME (msg_base m), msg_members m)) <$> ms).
Proof. apply msg_read_all_spec. Qed.

(** A request carries no time of its own: deserialising leaves the
    milliseconds at what they were, the moment the handler object was made. *)
Theorem request_timestamp_kept (data : str) (m m' : LoginRequestMessage.t) :
  LoginRequestMessage.deserialize data m = Ok m' →
  TimestampMessage.GET_MILLISECONDS_SINCE_EPOCH (LoginRequestMessage.parent m')
  = TimestampMessage.GET_MILLISECONDS_SINCE_EPOCH (LoginRequestMessage.parent m).
Proof.
  unfold LoginRequestMessage.deserialize. intros H.
  apply bind_ok in H as (b & _ & H). apply bind_ok in H as ([b' [code [acc [pwd []]]]] & _ & H).
  by injection H as <-.
Qed.

(** ** Witnesses *)

Definition demo_response : LoginResponseMessage.t :=
  LoginResponseMessage.mk
    (TimestampMessage.mk (set_name (lit "RESPONSE") newBaseMessage) 0)
    code.login.LOGIN_LOGIN_RESULT_SUCCESS (lit "token") (lit "127.0.0.1") 22222 (lit "") (-1)
    [lit "first"; lit ""; lit "second"].

Lemma class_roundtrip_witness :
  let r := LoginResponseMessage.mk (TimestampMessage.new 7) 0 [] [] 0 [] 0 [] in
  ∃ m' r', msg_serialize (msg_count demo_response) = Ok (m', msg_wire demo_response) ∧
    msg_deserialize (msg_wire demo_response ++ lit "000") r = Ok r' ∧
    MSG_NAME (msg_base r') = MSG_NAME (msg_base demo_response) ∧
    msg_members r' = msg_members demo_response.
Proof.
  intros r. apply class_roundtrip.
  - split; [done|]. split; [|by vm_compute]. repeat constructor; by vm_compute.
  - done.
Defined.

Definition demo_requests : list LoginRequestMessage.t :=
  (λ p, LoginRequestMessage.mk (TimestampMessage.mk (set_name (lit "LOGIN") newBaseMessage) 0)
     20 p.1 p.2) <$> [(lit "alice", lit "secret"); (lit "bob", lit "")].

Lemma handler_reads_all_witness :
  let r := LoginRequestMessage.mk (TimestampMessage.new 7) 0 [] [] in
  msg_read_all ((λ m, msg_wire m ++ lit "000") <$> demo_requests) r
  = Ok ((λ m, (MSG_NAME (msg_base m), msg_members m)) <$> demo_requests).
Proof.
  intros r. apply handler_reads_all.
  - done.
  - done.
  - repeat constructor; by vm_compute.
  - by vm_compute.
Defined.

Lemma request_timestamp_kept_witness :
  ∃ m', LoginRequestMessage.deserialize
      (wire (lit "LOGIN") LoginRequestMessage.types (20, (lit "alice", (lit "x", tt))))
      (LoginRequestMessage.mk (TimestampMessage.new 7) 0 [] []) = Ok m' ∧
    TimestampMessage.GET_MILLISECONDS_SINCE_EPOCH (LoginRequestMessage.parent m') = 7.
Proof.
  eexists. split; [vm_compute; reflexivity|].
  eapply (request_timestamp_kept
    (wire (lit "LOGIN") LoginRequestMessage.types (20, (lit "alice", (lit "x", tt))))
    (LoginRequestMessage.mk (TimestampMessage.new 7) 0 [] [])).
  vm_compute. reflexivity.
Defined.
