(* ===== verification/Carrier.v ===== *)
(** * Carriers: [message_carrier] of [Base/message/*Message.{h,cpp}]

    A carrier crosses the broker as the field/value pairs of a Redis stream
    entry.  [FILL_2_VEC] writes the pairs in a fixed order, [FILL_2_THIS] reads
    them by position: the tags are written but never looked at. *)

From S2P Require Import Prelude.

Local Open Scope Z_scope.

Definition tags : Type := list (str * str).

Definition TYPE_TAG : str := lit "CARRIER_TYPE".
Definition SERVICE_TAG : str := lit "CARRIER_SERVICE".
Definition NEXT_SERVICE_TAG : str := lit "CARRIER_NEXT_SERVICE".
Definition MESSAGE_TAG : str := lit "CARRIER_MESSAGE".
Definition CLIENT_ID_TAG : str := lit "CARRIER_CLIENT_ID_TAG".
Definition CLIENT_ADDRESS_TAG : str := lit "CARRIER_CLIENT_ADDRESS_TAG".

(** [sourceVector.at(i).second] *)
Definition at_second (i : nat) (v : tags) : res str := snd <$> of_option OutOfRange (v !! i).

Module BaseCarrier.

Record t := mk { TYPE : str; SERVICE : str; NEXT_SERVICE : str; MESSAGE : str }.

Definition TAG_NUM : nat := 4.

(** The old contents of the destination are cleared. *)
Definition FILL_2_VEC (c : t) (destVector : tags) : tags :=
  [] ++ [(TYPE_TAG, TYPE c)] ++ [(SERVICE_TAG, SERVICE c)] ++
  [(NEXT_SERVICE_TAG, NEXT_SERVICE c)] ++ [(MESSAGE_TAG, MESSAGE c)].

Definition FILL_2_THIS (v : tags) (c : t) : res t :=
  if negb (length v =? TAG_NUM)%nat then Err AssertFailed else
  type ← at_second 0 v;
  service ← at_second 1 v;
  next ← at_second 2 v;
  message ← at_second 3 v;
  Ok (mk type service next message).

End BaseCarrier.

(** ** The carriers of the servers

    [LoginMessage], [GatewayMessage] and [GameMessage] add the client. *)

Record ClientCarrier := mkCarrier {
  TYPE : str; SERVICE : str; NEXT_SERVICE : str; MESSAGE : str;
  CLIENT_ID : str; CLIENT_ADDRESS : str }.

Definition TAG_NUM : nat := 6.

Definition fill_vec (c : ClientCarrier) : tags :=
  [(TYPE_TAG, TYPE c)] ++ [(SERVICE_TAG, SERVICE c)] ++ [(NEXT_SERVICE_TAG, NEXT_SERVICE c)] ++
  [(CLIENT_ID_TAG, CLIENT_ID c)] ++ [(CLIENT_ADDRESS_TAG, CLIENT_ADDRESS c)] ++
  [(MESSAGE_TAG, MESSAGE c)].

(** The reads by position that follow the assertion, if there is one. *)
Definition fill_this (v : tags) : res ClientCarrier :=
  type ← at_second 0 v;
  service ← at_second 1 v;
  next ← at_second 2 v;
  id ← at_second 3 v;
  address ← at_second 4 v;
  message ← at_second 5 v;
  Ok (mkCarrier type service next message id address).

Module LoginMessage.
Definition FILL_2_VEC (c : ClientCarrier) (destVector : tags) : tags := fill_vec c.
Definition FILL_2_THIS (v : tags) (c : ClientCarrier) : res ClientCarrier :=
  if negb (TAG_NUM =? length v)%nat then Err AssertFailed else fill_this v.
End LoginMessage.

Module GatewayMessage.
Definition FILL_2_VEC (c : ClientCarrier) (destVector : tags) : tags := fill_vec c.
Definition FILL_2_THIS (v : tags) (c : ClientCarrier) : res ClientCarrier :=
  if negb (TAG_NUM =? length v)%nat then Err AssertFailed else fill_this v.
End GatewayMessage.

(** Here the assertion is commented out. *)
Module GameMessage.
Definition FILL_2_VEC (c : ClientCarrier) (destVector : tags) : tags := fill_vec c.
Definition FILL_2_THIS (v : tags) (c : ClientCarrier) : res ClientCarrier := fill_this v.
End GameMessage.

(** ** The interface: a carrier survives the trip *)

Class Carrier (C : Type) (to_tags : C → tags → tags) (from_tags : tags → C → res C) := {
  carrier_trip (c c0 : C) (dest : tags) : from_tags (to_tags c dest) c0 = Ok c }.

#[global] Instance base_carrier :
  Carrier BaseCarrier.t BaseCarrier.FILL_2_VEC BaseCarrier.FILL_2_THIS.
Proof. constructor. by intros [] [] dest. Qed.
#[global] Instance login_carrier :
  Carrier ClientCarrier LoginMessage.FILL_2_VEC LoginMessage.FILL_2_THIS.
Proof. constructor. by intros [] [] dest. Qed.
#[global] Instance gateway_carrier :
  Carrier ClientCarrier GatewayMessage.FILL_2_VEC GatewayMessage.FILL_2_THIS.
Proof. constructor. by intros [] [] dest. Qed.
#[global] Instance game_carrier :
  Carrier ClientCarrier GameMessage.FILL_2_VEC GameMessage.FILL_2_THIS.
Proof. constructor. by intros [] [] dest. Qed.

Lemma fill_this_ok (v : tags) : (6 <= length v)%nat → is_ok (fill_this v) = true.
Proof. do 6 (destruct v as [|? v]; [cbn; lia|]). by intros. Qed.

Lemma fill_this_short (v : tags) : (length v < 6)%nat → fill_this v = Err OutOfRange.
Proof. intros Hv. do 6 (destruct v as [|? v]; [done|]). cbn in Hv. lia. Qed.

(** ** Properties *)

(** A carrier written by any server is read back whole by any server; a
    vector of another size stops the login and gateway readers at the assertion,
    while the game reader faults only on a shorter one and silently ignores what
    a longer one holds after the six. *)
Theorem carrier_exchange (c c0 : ClientCarrier) (dest v : tags) :
  LoginMessage.FILL_2_THIS (GameMessage.FILL_2_VEC c dest) c0 = Ok c ∧
  GatewayMessage.FILL_2_THIS (LoginMessage.FILL_2_VEC c dest) c0 = Ok c ∧
  GameMessage.FILL_2_THIS (GatewayMessage.FILL_2_VEC c dest) c0 = Ok c ∧
  (is_ok (LoginMessage.FILL_2_THIS v c0) = true ↔ length v = 6%nat) ∧
  (is_ok (GatewayMessage.FILL_2_THIS v c0) = true ↔ length v = 6%nat) ∧
  (is_ok (GameMessage.FILL_2_THIS v c0) = true ↔ (6 <= length v)%nat) ∧
  (length (fill_vec c) = TAG_NUM).
Proof.
  pose proof (carrier_trip c c0 dest) as Ht.
  assert (∀ v, is_ok (if negb (TAG_NUM =? length v)%nat then Err AssertFailed else fill_this v)
    = true ↔ length v = 6%nat) as Ha.
  { clear. intros v. unfold TAG_NUM. case_if; to_prop.
    - split; [done|]. intros. congruence.
    - split; [congruence|]. intros. apply fill_this_ok. lia. }
  repeat split; try by (destruct c, c0).
  - apply (Ha v).
  - apply (Ha v).
  - apply (Ha v).
  - apply (Ha v).
  - intros H. destruct (decide (length v < 6)%nat) as [Hl|Hl]; [|lia].
    unfold GameMessage.FILL_2_THIS in H. by rewrite fill_this_short in H.
  - apply fill_this_ok.
Qed.
