(* ===== verification/SafeQueue.v ===== *)
(** * The shared queue: [Base/utility/SafeQueue.h]

    Every method runs under the queue's mutex from its first to its last
    access of [mData], so concurrent callers interleave whole methods: a
    schedule is a list of operations, and [step] is one method call.  A call
    that waits on the condition variable is not enabled while the queue is
    empty ([None]); the timed ones may return empty-handed at any time they
    find nothing. *)

From S2P Require Import Prelude.

Section SafeQueue.
Context {T : Type}.

(** [mData]; the front is the head. *)
Definition SafeQueue : Type := list T.

(** The two overloads differ in copying or moving the value. *)
Definition push (val : T) (mData : SafeQueue) : SafeQueue := mData ++ [val].

(** [bool pop(T&)] and [shared_ptr<T> pop()]: [None] for [false] and null. *)
Definition pop (mData : SafeQueue) : SafeQueue * option T :=
  match mData with
  | [] => ([], None)
  | x :: mData => (mData, Some x)
  end.

(** The loop of [popN]: [n] times [q.push(move(front)); mData.pop()]. *)
Fixpoint move_n (n : nat) (mData q : list T) : list T * list T :=
  match n, mData with
  | S n, x :: mData => move_n n mData (q ++ [x])
  | _, _ => (mData, q)
  end.

Definition popN (q : list T) (n : nat) (mData : SafeQueue) : SafeQueue * list T * nat :=
  match mData with
  | [] => ([], q, 0)
  | _ => let min := Nat.min n (length mData) in
         let '(mData, q) := move_n min mData q in (mData, q, min)
  end.

(** [waitAndPop]: enabled once the queue is not empty. *)
Definition waitAndPop (mData : SafeQueue) : option (SafeQueue * T) :=
  match mData with
  | [] => None
  | x :: mData => Some (mData, x)
  end.

(** [waitAndPop(.., millisecs)]: when the wait ends, by notice or by time. *)
Definition waitAndPop_for (mData : SafeQueue) : SafeQueue * option T :=
  match mData with
  | [] => ([], None)
  | x :: mData => (mData, Some x)
  end.

Definition waitAndPopN (q : list T) (n : nat) (mData : SafeQueue) : option (SafeQueue * list T) :=
  match mData with
  | [] => None
  | _ => Some (move_n (Nat.min n (length mData)) mData q)
  end.

Definition empty (mData : SafeQueue) : bool := match mData with [] => true | _ => false end.
Definition size (mData : SafeQueue) : nat := length mData.

Fixpoint pops (n : nat) (mData : list T) : list T :=
  match n with O => mData | S n => pops n (tail mData) end.
Definition clear (mData : SafeQueue) : SafeQueue := pops (length mData) mData.

(** ** Schedules *)

Inductive op :=
  | Push (val : T) | Pop | PopN (n : nat) | WaitAndPop | WaitAndPopFor
  | WaitAndPopN (n : nat) | Empty | Size.

(** The queue after the call and the values the caller received, in order. *)
Definition step (o : op) (mData : SafeQueue) : option (SafeQueue * list T) :=
  match o with
  | Push val => Some (push val mData, [])
  | Pop => let '(d, r) := pop mData in Some (d, option_list r)
  | PopN n => let '(d, q, _) := popN [] n mData in Some (d, q)
  | WaitAndPop => '(d, x) ← waitAndPop mData; Some (d, [x])
  | WaitAndPopFor => let '(d, r) := waitAndPop_for mData in Some (d, option_list r)
  | WaitAndPopN n => waitAndPopN [] n mData
  | Empty | Size => Some (mData, [])
  end.

Definition pushed (o : op) : list T := match o with Push val => [val] | _ => [] end.

(** A schedule that blocks nowhere, and what was received over it. *)
Inductive run : SafeQueue → list op → SafeQueue → list T → Prop :=
  | run_nil d : run d [] d []
  | run_cons d o d1 out os d2 outs :
      step o d = Some (d1, out) → run d1 os d2 outs → run d (o :: os) d2 (out ++ outs).

(** ** Lemmas *)

Lemma move_n_spec n mData q :
  move_n n mData q = (drop n mData, q ++ take n mData).
Proof.
  revert mData q. induction n as [|n IH]; intros [|x mData] q; cbn; rewrite ?app_nil_r; try done.
  by rewrite IH, <- app_assoc.
Qed.

Lemma popN_spec q n mData :
  popN q n mData = (drop n mData, q ++ take n mData, Nat.min n (length mData)).
Proof.
  unfold popN. destruct mData as [|x d].
  - rewrite drop_nil, take_nil, app_nil_r. cbn. by rewrite Nat.min_0_r.
  - rewrite move_n_spec. destruct (Nat.min_spec n (length (x :: d))) as [[? ->]|[? ->]]; [done|].
    by rewrite !drop_ge, !take_ge by lia.
Qed.

Lemma step_conserves o d d' out :
  step o d = Some (d', out) → d ++ pushed o = out ++ d'.
Proof.
  destruct o as [val| |n| | |n| |]; cbn [step pushed]; rewrite ?app_nil_r.
  - by intros [= <- <-].
  - by destruct d; intros [= <- <-].
  - rewrite popN_spec. intros [= <- <-]. cbn. by rewrite take_drop.
  - by destruct d; intros [= <- <-].
  - by destruct d; intros [= <- <-].
  - unfold waitAndPopN. destruct d as [|x d]; [done|]. rewrite move_n_spec. cbn [app].
    intros [= <- <-]. by rewrite take_drop.
  - by intros [= <- <-].
  - by intros [= <- <-].
Qed.

Lemma clear_empty d : clear d = [].
Proof. unfold clear. induction d as [|x d IH]; [done|]. exact IH. Qed.

(** A blocked call becomes enabled by one push. *)
Lemma push_enables val d : is_Some (waitAndPop (push val d)).
Proof. destruct d; cbn; eauto. Qed.

(** ** Properties *)

(** C26: over any interleaving of producers and consumers the values received,
    followed by those still queued, are the initial ones followed by those
    pushed: nothing is lost, duplicated or reordered. *)
Theorem queue_fifo d os d' outs :
  run d os d' outs → outs ++ d' = d ++ mjoin (pushed <$> os).
Proof.
  induction 1 as [d|d o d1 out os d2 outs Hstep Hrun IH]; [by rewrite app_nil_r|].
  apply step_conserves in Hstep. rewrite fmap_cons, mjoin_cons, app_assoc, Hstep.
  by rewrite <- !app_assoc, IH.
Qed.

(** [popN] moves [min(n, size)] values in order behind those of the
    destination and returns that number. *)
Theorem popN_moves q n d :
  popN q n d = (drop n d, q ++ take n d, Nat.min n (size d)) ∧ clear d = [].
Proof. split; [apply popN_spec|apply clear_empty]. Qed.

End SafeQueue.
Arguments SafeQueue : clear implicits.
Arguments op : clear implicits.

(** ** Witnesses *)

Lemma queue_fifo_witness :
  [1; 2; 3] ++ [4] = [] ++ mjoin (pushed <$> [Push 1; Push 2; PopN 1; Push 3; WaitAndPop; Pop; Push 4]).
Proof.
  apply (queue_fifo []). change [1; 2; 3] with ([] ++ [] ++ [1] ++ [] ++ [2] ++ [3] ++ [] ++ []).
  repeat (econstructor; [reflexivity|]). constructor.
Defined.
