(* ===== verification/SafeHashmap.v ===== *)
(** * The shared hash map: [Base/utility/SafeHashmap.h]

    A fixed array of buckets, each a list of pairs under its own lock.  The
    refinement theorem relates it to a finite map: [denotes h m]. *)

From S2P Require Import Prelude.

Local Open Scope Z_scope.

(** [mData] of a bucket. *)
Abbreviation Bucket K V := (list (K * V)).

Section Bucket.
Context {K V : Type} `{EqDecision K}.

(** [std::find_if] with the key. *)
Fixpoint find_if (key : K) (mData : Bucket K V) : option V :=
  match mData with
  | [] => None
  | (k, v) :: mData => if decide (k = key) then Some v else find_if key mData
  end.

(** Both overloads of [find]; [None] is [false]. *)
Definition bucket_find (key : K) (mData : Bucket K V) : option V := find_if key mData.

Definition bucket_insert (key : K) (value : V) (mData : Bucket K V) : Bucket K V :=
  match find_if key mData with
  | None => mData ++ [(key, value)]
  | Some _ => mData
  end.

(** [it->second = value] *)
Fixpoint assign (key : K) (value : V) (mData : Bucket K V) : Bucket K V :=
  match mData with
  | [] => []
  | (k, v) :: mData => if decide (k = key) then (k, value) :: mData else (k, v) :: assign key value mData
  end.

Definition bucket_insertOrAssign (key : K) (value : V) (mData : Bucket K V) : Bucket K V :=
  match find_if key mData with
  | None => mData ++ [(key, value)]
  | Some _ => assign key value mData
  end.

Fixpoint bucket_erase (key : K) (mData : Bucket K V) : Bucket K V :=
  match mData with
  | [] => []
  | (k, v) :: mData => if decide (k = key) then mData else (k, v) :: bucket_erase key mData
  end.

Definition bucket_size (mData : Bucket K V) : Z := Z.of_nat (length mData).
Definition bucket_empty (mData : Bucket K V) : bool := match mData with [] => true | _ => false end.

(** The values [func] is applied to, in order. *)
Definition bucket_readAll (mData : Bucket K V) : list V := mData.*2.

(** ** Facts *)

Definition keys (b : Bucket K V) : list K := b.*1.

Lemma find_if_None key b : find_if key b = None ↔ key ∉ keys b.
Proof.
  unfold keys. induction b as [|[k v] b IH]; cbn [find_if fmap list_fmap fst].
  { split; [intros _ []%elem_of_nil|done]. }
  rewrite not_elem_of_cons. destruct (decide (k = key)) as [->|Hk]; [naive_solver|].
  rewrite IH. naive_solver.
Qed.

Lemma find_if_app key b1 b2 :
  find_if key (b1 ++ b2) = match find_if key b1 with Some v => Some v | None => find_if key b2 end.
Proof. induction b1 as [|[k v] b1 IH]; cbn; [done|]. by case_decide. Qed.

Lemma find_if_insert key k v b :
  find_if key (bucket_insert k v b)
  = match find_if key b with Some w => Some w | None => if decide (k = key) then Some v else None end.
Proof.
  unfold bucket_insert. destruct (find_if k b) eqn:Hk.
  - destruct (find_if key b) eqn:?; [done|]. case_decide; congruence.
  - rewrite find_if_app. by destruct (find_if key b).
Qed.

Lemma find_if_assign key k v b :
  find_if key (assign k v b)
  = if decide (k = key) then (λ _, v) <$> find_if key b else find_if key b.
Proof.
  induction b as [|[k' v'] b IH]; cbn; [by case_decide|].
  destruct (decide (k' = k)) as [->|]; cbn; repeat case_decide; simplify_eq; try done.
Qed.

Lemma bucket_find_insertOrAssign key k v b :
  find_if key (bucket_insertOrAssign k v b)
  = if decide (k = key) then Some v else find_if key b.
Proof.
  unfold bucket_insertOrAssign. destruct (find_if k b) eqn:Hk.
  - rewrite find_if_assign. case_decide; [subst; by rewrite Hk|done].
  - rewrite find_if_app. cbn. case_decide; [subst; by rewrite Hk|].
    by destruct (find_if key b).
Qed.

Lemma keys_erase key b : keys (bucket_erase key b) `sublist_of` keys b.
Proof.
  induction b as [|[k v] b IH]; cbn; [done|]. case_decide; cbn.
  - by apply sublist_cons.
  - by apply sublist_skip.
Qed.

Lemma find_if_erase key k b :
  NoDup (keys b) →
  find_if key (bucket_erase k b) = if decide (k = key) then None else find_if key b.
Proof.
  induction b as [|[k' v'] b IH]; cbn; [by case_decide|].
  intros [Hn Hd]%NoDup_cons. destruct (decide (k' = k)) as [->|Hk].
  - case_decide; [subst; by apply find_if_None|done].
  - cbn. rewrite IH by done. repeat case_decide; congruence.
Qed.

Lemma keys_insert k v b : NoDup (keys b) → NoDup (keys (bucket_insert k v b)).
Proof.
  unfold bucket_insert, keys. intros Hb. destruct (find_if k b) eqn:Hk; [done|].
  apply find_if_None in Hk. rewrite fmap_app. apply NoDup_app. split_and!; [done| |].
  - intros x Hx. cbn. rewrite list_elem_of_singleton. intros ->. done.
  - cbn. apply NoDup_singleton.
Qed.

Lemma keys_insert_subset k v b x : x ∈ keys (bucket_insert k v b) → x = k ∨ x ∈ keys b.
Proof.
  unfold bucket_insert, keys. destruct (find_if k b); [by right|].
  rewrite fmap_app, elem_of_app. cbn. rewrite list_elem_of_singleton. naive_solver.
Qed.
End Bucket.

(** ** The map *)

Section SafeHashmap.
Context {K V : Type} `{Countable K}.
(** [std::hash] or the user's: a [size_t]. *)
Context (mHashFunc : K → Z).

Record SafeHashmap := mkSafeHashmap {
  mBucketSize : Z;
  mHashtable : list (Bucket K V) }.

Definition newSafeHashmap (bucketNum : Z) : SafeHashmap :=
  mkSafeHashmap (if bucketNum <=? 0 then 1031 else bucketNum)
    (replicate (Z.to_nat bucketNum) []).

(** [mHashtable.at(mHashFunc(key) % mBucketSize)] *)
Definition slot (key : K) (h : SafeHashmap) : nat := Z.to_nat (mHashFunc key mod mBucketSize h).

Definition bucket_at (key : K) (h : SafeHashmap) : res (Bucket K V) :=
  of_option OutOfRange (mHashtable h !! slot key h).

Definition set_bucket (key : K) (b : Bucket K V) (h : SafeHashmap) : SafeHashmap :=
  mkSafeHashmap (mBucketSize h) (<[slot key h := b]> (mHashtable h)).

Definition find (key : K) (h : SafeHashmap) : res (option V) :=
  b ← bucket_at key h; Ok (bucket_find key b).

Definition insert (key : K) (value : V) (h : SafeHashmap) : res SafeHashmap :=
  b ← bucket_at key h; Ok (set_bucket key (bucket_insert key value b) h).

(** It calls the bucket's [insert]. *)
Definition insertOrAssign (key : K) (value : V) (h : SafeHashmap) : res SafeHashmap :=
  b ← bucket_at key h; Ok (set_bucket key (bucket_insert key value b) h).

Definition erase (key : K) (h : SafeHashmap) : res SafeHashmap :=
  b ← bucket_at key h; Ok (set_bucket key (bucket_erase key b) h).

Definition bucketSize (h : SafeHashmap) : Z := mBucketSize h.

(** The sum is kept in an [int]. *)
Definition size (h : SafeHashmap) : Z :=
  u64 (fold_left (λ res b, sint 32 (res + bucket_size b)) (mHashtable h) 0).

Definition readAll (index : Z) (h : SafeHashmap) : res (list V) :=
  if mBucketSize h <=? index then Ok []
  else bucket_readAll <$> of_option OutOfRange (mHashtable h !! Z.to_nat index).

(** ** Well-formed tables *)

Record wf (h : SafeHashmap) : Prop := {
  wf_size : 0 < mBucketSize h;
  wf_length : length (mHashtable h) = Z.to_nat (mBucketSize h);
  wf_nodup i b : mHashtable h !! i = Some b → NoDup (keys b);
  wf_slot i b k : mHashtable h !! i = Some b → k ∈ keys b → slot k h = i }.

Lemma new_wf n : 0 < n → wf (newSafeHashmap n).
Proof.
  intros Hn. unfold newSafeHashmap. rewrite (proj2 (Z.leb_gt _ _)) by lia. split; cbn.
  - done.
  - by rewrite length_replicate.
  - intros i b [-> _]%lookup_replicate. constructor.
  - intros i b k [-> _]%lookup_replicate. intros []%elem_of_nil.
Qed.

Lemma slot_lookup k h : wf h → ∃ b, mHashtable h !! slot k h = Some b.
Proof.
  intros [Hs Hl _ _]. apply lookup_lt_is_Some. rewrite Hl. unfold slot.
  pose proof (Z.mod_pos_bound (mHashFunc k) (mBucketSize h) Hs). lia.
Qed.

Lemma slot_set k k' b h : slot k (set_bucket k' b h) = slot k h.
Proof. done. Qed.

Lemma set_bucket_wf k b b' h :
  wf h → mHashtable h !! slot k h = Some b →
  NoDup (keys b') → (∀ x, x ∈ keys b' → x = k ∨ x ∈ keys b) → wf (set_bucket k b' h).
Proof.
  intros [Hs Hl Hn Hk] Hb Hd Hsub. split; cbn [set_bucket mHashtable mBucketSize].
  - done.
  - by rewrite length_insert.
  - intros i c. rewrite list_lookup_insert_Some. naive_solver.
  - intros i c x. rewrite list_lookup_insert_Some, slot_set.
    intros [(<- & <- & _)|(_ & Hc)] Hx; [|by eapply Hk].
    destruct (Hsub x Hx) as [->|Hx']; [done|by eapply Hk].
Qed.

(** ** Refinement to a finite map *)

Definition denotes (h : SafeHashmap) (m : gmap K V) : Prop :=
  wf h ∧ ∀ k, find k h = Ok (m !! k).

Lemma find_lookup h k b :
  mHashtable h !! slot k h = Some b → find k h = Ok (find_if k b).
Proof. intros Hb. unfold find, bucket_at. by rewrite Hb. Qed.

Lemma find_set_bucket h k k' b' :
  wf h → find k' (set_bucket k b' h)
    = if decide (slot k' h = slot k h) then Ok (find_if k' b') else find k' h.
Proof.
  intros Hw. destruct (slot_lookup k h Hw) as [b Hb].
  unfold find, bucket_at. rewrite slot_set. cbn [set_bucket mHashtable].
  case_decide as Hd.
  - rewrite Hd, list_lookup_insert_eq by by eapply lookup_lt_Some. done.
  - by rewrite list_lookup_insert_ne.
Qed.

Lemma new_denotes n : 0 < n → denotes (newSafeHashmap n) ∅.
Proof.
  intros Hn. pose proof (new_wf n Hn) as Hw. split; [done|]. intros k.
  destruct (slot_lookup k _ Hw) as [b Hb]. rewrite (find_lookup _ _ _ Hb), lookup_empty.
  unfold newSafeHashmap in Hb. cbn in Hb. apply lookup_replicate in Hb as [-> _]. done.
Qed.

(** What [insert] does to the map: an old value stays. *)
Definition insert_new (k : K) (v : V) (m : gmap K V) : gmap K V :=
  match m !! k with Some _ => m | None => <[k := v]> m end.

Lemma lookup_insert_new k v m k' :
  insert_new k v m !! k'
  = match m !! k' with Some w => Some w | None => if decide (k = k') then Some v else None end.
Proof.
  unfold insert_new. destruct (m !! k) eqn:Hk.
  - destruct (m !! k') eqn:?; [done|]. case_decide; congruence.
  - rewrite lookup_insert. case_decide; [subst; by rewrite Hk|]. by destruct (m !! k').
Qed.

Lemma insert_denotes h m k v :
  denotes h m → ∃ h', insert k v h = Ok h' ∧ denotes h' (insert_new k v m).
Proof.
  intros [Hw Hf]. destruct (slot_lookup k h Hw) as [b Hb]. unfold insert, bucket_at. rewrite Hb.
  eexists. split; [done|]. split.
  - eapply set_bucket_wf; [done..| |apply keys_insert_subset].
    apply keys_insert. by eapply wf_nodup.
  - intros k'. rewrite find_set_bucket, lookup_insert_new by done.
    specialize (Hf k'). case_decide as Hd.
    + rewrite <- Hd in Hb. rewrite (find_lookup _ _ _ Hb) in Hf. injection Hf as Hf.
      by rewrite find_if_insert, Hf.
    + rewrite Hf. destruct (m !! k'); [done|]. case_decide; congruence.
Qed.

Lemma erase_denotes h m k :
  denotes h m → ∃ h', erase k h = Ok h' ∧ denotes h' (delete k m).
Proof.
  intros [Hw Hf]. destruct (slot_lookup k h Hw) as [b Hb]. unfold erase, bucket_at. rewrite Hb.
  pose proof (wf_nodup h Hw _ _ Hb) as Hn.
  eexists. split; [done|]. split.
  - eapply set_bucket_wf; [done..| |].
    + by apply (sublist_NoDup _ (keys b)), keys_erase.
    + intros x Hx. right. by apply (elem_of_sublist _ _ _ Hx), keys_erase.
  - intros k'. rewrite find_set_bucket by done. specialize (Hf k'). case_decide as Hd.
    + rewrite <- Hd in Hb. rewrite (find_lookup _ _ _ Hb) in Hf. injection Hf as Hf.
      rewrite find_if_erase, Hf by done. rewrite lookup_delete. by case_decide.
    + rewrite Hf, lookup_delete. case_decide; congruence.
Qed.

(** ** All the pairs *)

Definition pairs (h : SafeHashmap) : list (K * V) := mjoin (mHashtable h).

Lemma find_if_Some (b : Bucket K V) k v : NoDup (keys b) → find_if k b = Some v ↔ (k, v) ∈ b.
Proof.
  induction b as [|[k' v'] b IH]; cbn [find_if keys fmap list_fmap fst].
  { intros _. split; [done|intros []%elem_of_nil]. }
  intros [Hn Hd]%NoDup_cons. rewrite elem_of_cons. specialize (IH Hd). case_decide as Hk.
  - subst. split; [intros [= ->]; by left|]. intros [[= ->]|Hin]; [done|].
    destruct Hn. by apply (list_elem_of_fmap_2 fst) in Hin.
  - rewrite IH. split; [by right|]. intros [[= -> ->]|Hin]; done.
Qed.

Lemma keys_nodup (l : list (Bucket K V)) (f : K → nat) n :
  (∀ i b, l !! i = Some b → NoDup (keys b)) →
  (∀ i b k, l !! i = Some b → k ∈ keys b → f k = n + i)%nat →
  NoDup (keys (mjoin l)).
Proof.
  revert n. induction l as [|b l IH]; intros n Hn Hf; [constructor|].
  rewrite mjoin_cons. unfold keys. rewrite fmap_app. apply NoDup_app. split_and!.
  - by apply (Hn 0%nat).
  - intros k Hk Hk'. pose proof (Hf 0%nat b k eq_refl Hk).
    apply list_elem_of_fmap in Hk' as ([k' v] & -> & Hin). apply list_elem_of_join in Hin as (c & Hin & Hc).
    apply list_elem_of_lookup in Hc as [i Hi]. cbn [fst] in *.
    pose proof (Hf (S i) c k' Hi (list_elem_of_fmap_2 fst _ _ Hin)). lia.
  - apply (IH (S n)).
    + intros i c Hi. by apply (Hn (S i)).
    + intros i c k Hi Hk. rewrite (Hf (S i) c k Hi Hk). lia.
Qed.

Lemma pairs_permutation h m : denotes h m → pairs h ≡ₚ map_to_list m.
Proof.
  intros [Hw Hf].
  assert (NoDup (keys (pairs h))) as Hk.
  { apply (keys_nodup _ (λ k, slot k h) 0); [by apply wf_nodup|].
    intros i b k Hb Hk. by eapply wf_slot. }
  apply NoDup_Permutation; [by eapply NoDup_fmap_1|apply NoDup_map_to_list|].
  intros [k v]. rewrite elem_of_map_to_list. destruct (slot_lookup k h Hw) as [b Hb].
  pose proof (wf_nodup h Hw _ _ Hb) as Hn. specialize (Hf k).
  rewrite (find_lookup _ _ _ Hb) in Hf. injection Hf as <-.
  rewrite find_if_Some by done. unfold pairs. rewrite list_elem_of_join. split.
  - intros (c & Hin & Hc). apply list_elem_of_lookup in Hc as [i Hi].
    pose proof (wf_slot h Hw i c k Hi (list_elem_of_fmap_2 fst _ _ Hin)). by simplify_eq.
  - intros Hin. exists b. split; [done|]. by eapply list_elem_of_lookup_2.
Qed.

Lemma size_pairs h : Z.of_nat (length (pairs h)) < 2 ^ 31 → size h = Z.of_nat (length (pairs h)).
Proof.
  intros Hlt. unfold size, pairs in *.
  assert (∀ l a, 0 <= a → a + Z.of_nat (length (mjoin l)) < 2 ^ 31 →
    fold_left (λ res (b : Bucket K V), sint 32 (res + bucket_size b)) l a
    = a + Z.of_nat (length (mjoin l))) as Hfold.
  { induction l as [|b l IH]; intros a Ha Hl; cbn [fold_left]; [cbn; lia|].
    rewrite mjoin_cons, length_app in *. unfold bucket_size at 2.
    rewrite sint_small by lia. rewrite IH by lia. lia. }
  rewrite Hfold by lia. apply u64_small. unfold size_max. lia.
Qed.

(** ** Client sequences *)

Inductive op := Find (k : K) | Insert (k : K) (v : V) | InsertOrAssign (k : K) (v : V) | Erase (k : K).

Fixpoint run (ops : list op) (h : SafeHashmap) : res (SafeHashmap * list (option V)) :=
  match ops with
  | [] => Ok (h, [])
  | Find k :: ops => r ← find k h; '(h, out) ← run ops h; Ok (h, r :: out)
  | Insert k v :: ops => h ← insert k v h; run ops h
  | InsertOrAssign k v :: ops => h ← insertOrAssign k v h; run ops h
  | Erase k :: ops => h ← erase k h; run ops h
  end.

(** The same on a finite map, where the first value of a key stays. *)
Fixpoint spec_run (ops : list op) (m : gmap K V) : gmap K V * list (option V) :=
  match ops with
  | [] => (m, [])
  | Find k :: ops => let '(m', out) := spec_run ops m in (m', m !! k :: out)
  | Insert k v :: ops | InsertOrAssign k v :: ops => spec_run ops (insert_new k v m)
  | Erase k :: ops => spec_run ops (delete k m)
  end.

Lemma run_refines ops h m :
  denotes h m →
  ∃ h', run ops h = Ok (h', (spec_run ops m).2) ∧ denotes h' (spec_run ops m).1.
Proof.
  revert h m. induction ops as [|o ops IH]; intros h m Hd; [by exists h|].
  destruct o as [k|k v|k v|k]; cbn [run spec_run].
  - destruct (IH h m Hd) as (h' & Hr & Hd'). rewrite (proj2 Hd). cbn [mbind res_bind]. rewrite Hr.
    exists h'. by destruct (spec_run ops m).
  - destruct (insert_denotes h m k v Hd) as (h1 & -> & Hd1). by apply IH.
  - destruct (insert_denotes h m k v Hd) as (h1 & Hi & Hd1).
    change (insertOrAssign k v h) with (insert k v h). rewrite Hi. by apply IH.
  - destruct (erase_denotes h m k Hd) as (h1 & -> & Hd1). by apply IH.
Qed.

(** ** Properties *)


(** [readAll] over the buckets visits every value exactly once, and [size]
    is the number of keys while that fits an [int]. *)
Theorem hashmap_contents h m :
  denotes h m → Z.of_nat (base.size m) < 2 ^ 31 →
  size h = Z.of_nat (base.size m) ∧
  mjoin (bucket_readAll <$> mHashtable h) ≡ₚ (map_to_list m).*2 ∧
  (∀ i b, mHashtable h !! i = Some b → readAll (Z.of_nat i) h = Ok (bucket_readAll b)).
Proof.
  intros Hd Hlt. pose proof (pairs_permutation h m Hd) as Hp.
  assert (length (pairs h) = base.size m) as Hl.
  { by rewrite Hp, length_map_to_list. }
  split_and!.
  - rewrite size_pairs by by rewrite Hl. by rewrite Hl.
  - rewrite <- Hp. unfold pairs, bucket_readAll.
    induction (mHashtable h) as [|b l IH]; [done|].
    rewrite fmap_cons, !mjoin_cons, fmap_app. by rewrite IH.
  - intros i b Hb. unfold readAll. pose proof (lookup_lt_Some _ _ _ Hb) as Hi.
    destruct Hd as [[? Hlen _ _] _]. rewrite Hlen in Hi. case_if; to_prop; [lia|].
    by rewrite Nat2Z.id, Hb.
Qed.

(** [insertOrAssign] never assigns: the value of a key that is present
    stays, where the bucket's own [insertOrAssign] would have replaced it. *)
Theorem insertOrAssign_keeps h m k v w :
  denotes h m → m !! k = Some v →
  ∃ h', insertOrAssign k w h = Ok h' ∧ find k h' = Ok (Some v) ∧
    ∀ b : Bucket K V, find_if k (bucket_insertOrAssign k w b) = Some w.
Proof.
  intros Hd Hk. destruct (insert_denotes h m k w Hd) as (h' & Hi & _ & Hf).
  exists h'. split; [exact Hi|]. split.
  - rewrite Hf, lookup_insert_new. by rewrite Hk.
  - intros b. rewrite bucket_find_insertOrAssign. by case_decide.
Qed.

(** A map made with no buckets keeps 1031 as its modulus and throws on
    every access. *)
Theorem hashmap_zero_buckets k : find k (newSafeHashmap 0) = Err OutOfRange ∧
  bucketSize (newSafeHashmap 0) = 1031.
Proof. split; [|done]. unfold find, bucket_at. cbn. done. Qed.

End SafeHashmap.
Arguments SafeHashmap : clear implicits.
Arguments op : clear implicits.

(** ** Witnesses *)

Definition demo_ops : list (op Z Z) := [Insert 1 10; Insert 5 50; InsertOrAssign 1 11; Find 1; Erase 5; Find 5].


Definition demo_map : SafeHashmap Z Z := mkSafeHashmap 2 [[]; [(1, 10); (3, 30)]].

Lemma demo_map_denotes : denotes (λ k, k) demo_map (insert_new 3 30 (insert_new 1 10 ∅)).
Proof.
  destruct (run_refines (λ k, k) [Insert 1 10; Insert 3 30] (newSafeHashmap 2) ∅) as (h & Hr & Hd).
  { by apply new_denotes. }
  vm_compute in Hr. injection Hr as <-. exact Hd.
Qed.

Lemma hashmap_contents_witness :
  let m : gmap Z Z := insert_new 3 30 (insert_new 1 10 ∅) in
  size demo_map = Z.of_nat (base.size m) ∧
  mjoin (bucket_readAll <$> mHashtable demo_map) ≡ₚ (map_to_list m).*2 ∧
  (∀ i b, mHashtable demo_map !! i = Some b → readAll (Z.of_nat i) demo_map = Ok (bucket_readAll b)).
Proof.
  intros m. apply (hashmap_contents (λ k, k)); [apply demo_map_denotes|by vm_compute].
Defined.

Lemma insertOrAssign_keeps_witness :
  ∃ h', insertOrAssign (λ k, k) 3 31 demo_map = Ok h' ∧ find (λ k, k) 3 h' = Ok (Some 30) ∧
    ∀ b : Bucket Z Z, find_if 3 (bucket_insertOrAssign 3 31 b) = Some 31.
Proof.
  eapply insertOrAssign_keeps; [apply demo_map_denotes|by vm_compute].
Defined.
