(* ===== verification/Timer.v ===== *)
(** * The time wheel: [Base/utility/Timer.{h,cpp}]

    [tick] is one pass of the loop body of [TimeWheelTimer::tick], one second;
    [registerOne] is one pass of [registerTask] with a task in the queue.  The
    two threads share the wheel without a lock: the model takes their bodies
    one at a time, at the granularity of a whole tick.  A task function is a
    label, and running it appends the label to [fired]. *)

From S2P Require Import Prelude SafeQueue.

Local Open Scope Z_scope.

Section Timer.
Context {F : Type}.

Record TimerTask := mkTask {
  mHours : Z; mMinutes : Z; mSeconds : Z;   (* size_t *)
  mCycleNumber : Z;                         (* int *)
  mID : str;
  mTask : option F }.                       (* an empty std::function is None *)

Definition newTimerTask (hrs mins secs cycNum : Z) (id : str) (task : option F) : TimerTask :=
  let s := secs mod 60 in
  let minCarry := secs / 60 in
  let m := u64 (mins + minCarry) mod 60 in
  let hrCarry := u64 (mins + minCarry) / 60 in
  mkTask (u64 (hrs + hrCarry)) m s cycNum id task.

Definition offset (hrs mins secs : Z) (t : TimerTask) : TimerTask :=
  let carryMin := u64 (mSeconds t + secs) / 60 in
  let carryHr := u64 (mMinutes t + mins + carryMin) / 60 in
  mkTask (u64 (mHours t + (hrs + carryHr)))
    (u64 (mMinutes t + mins) mod 60)
    (u64 (mSeconds t + secs) mod 60)
    (mCycleNumber t) (mID t) (mTask t).

Record TimerNode := mkNode {
  mTimerTask : TimerTask;
  mHasSeconds : bool; mHasMinutes : bool; mHasHours : bool;
  mRound : Z }.

Definition newTimerNode (t : TimerTask) : TimerNode :=
  mkNode t (0 <? mSeconds t) (0 <? mMinutes t) (0 <? mHours t)
    (if 24 <=? mHours t then mHours t / 24 else 0).

Definition setRound (round : Z) (n : TimerNode) : TimerNode :=
  mkNode (mTimerTask n) (mHasSeconds n) (mHasMinutes n) (mHasHours n) round.

Definition subRound (n : TimerNode) : TimerNode * bool :=
  if mRound n =? 0 then (n, false) else (setRound (mRound n - 1) n, true).

(** ** The timer *)

Definition mSecondSlotsNum : Z := 60.
Definition mMinuteSlotsNum : Z := 60.
Definition mHourSlotsNum : Z := 24.

Record TimeWheelTimer := mkTimer {
  nSeconds : Z; nMinutes : Z; nHours : Z;   (* mSeconds, mMinutes, mHours *)
  mIncrPerSec : Z;
  mTimeWheel : list (list TimerNode);
  mTaskEntry : SafeQueue TimerTask;
  mRegisteredTasks : gmap str TimerTask;
  fired : list F }.                         (* the task functions run so far *)

Definition newTimer : TimeWheelTimer :=
  mkTimer 0 0 0 0 (replicate (Z.to_nat (mSecondSlotsNum + mMinuteSlotsNum + mHourSlotsNum)) [])
    [] ∅ [].

Definition set_clock (s m h : Z) (t : TimeWheelTimer) : TimeWheelTimer :=
  mkTimer s m h (mIncrPerSec t) (mTimeWheel t) (mTaskEntry t) (mRegisteredTasks t) (fired t).
Definition set_incr (i : Z) (t : TimeWheelTimer) : TimeWheelTimer :=
  mkTimer (nSeconds t) (nMinutes t) (nHours t) i (mTimeWheel t) (mTaskEntry t)
    (mRegisteredTasks t) (fired t).
Definition set_wheel (w : list (list TimerNode)) (t : TimeWheelTimer) : TimeWheelTimer :=
  mkTimer (nSeconds t) (nMinutes t) (nHours t) (mIncrPerSec t) w (mTaskEntry t)
    (mRegisteredTasks t) (fired t).
Definition set_entry (q : SafeQueue TimerTask) (t : TimeWheelTimer) : TimeWheelTimer :=
  mkTimer (nSeconds t) (nMinutes t) (nHours t) (mIncrPerSec t) (mTimeWheel t) q
    (mRegisteredTasks t) (fired t).
Definition set_registered (r : gmap str TimerTask) (t : TimeWheelTimer) : TimeWheelTimer :=
  mkTimer (nSeconds t) (nMinutes t) (nHours t) (mIncrPerSec t) (mTimeWheel t) (mTaskEntry t)
    r (fired t).

(** [if (taskf) taskf();] *)
Definition runTask (f : option F) (t : TimeWheelTimer) : TimeWheelTimer :=
  mkTimer (nSeconds t) (nMinutes t) (nHours t) (mIncrPerSec t) (mTimeWheel t) (mTaskEntry t)
    (mRegisteredTasks t) (fired t ++ option_list f).

(** [now] is [mNow.secondsSinceEpoch()]. *)
Definition generateID (now : Z) (t : TimeWheelTimer) : TimeWheelTimer * str :=
  let i := u64 (mIncrPerSec t + 1) in
  (set_incr i t, to_string now ++ lit "-" ++ to_string i).

Definition addTask (timerTask : TimerTask) (t : TimeWheelTimer) : TimeWheelTimer :=
  set_entry (push timerTask (mTaskEntry t)) t.

(** [mTimeWheel.at(slotNo)] *)
Definition slot (slotNo : Z) (t : TimeWheelTimer) : res (list TimerNode) :=
  of_option OutOfRange (mTimeWheel t !! Z.to_nat slotNo).

Definition set_slot (slotNo : Z) (ns : list TimerNode) (t : TimeWheelTimer) : TimeWheelTimer :=
  set_wheel (<[Z.to_nat slotNo := ns]> (mTimeWheel t)) t.

(** [mTimeWheel.at(slotNo)->push_back(node)] *)
Definition push_slot (slotNo : Z) (n : TimerNode) (t : TimeWheelTimer) : res TimeWheelTimer :=
  ns ← slot slotNo t; Ok (set_slot slotNo (ns ++ [n]) t).

Definition addTimerNodeFor (timerTask : TimerTask) (t : TimeWheelTimer) : res TimeWheelTimer :=
  let hours := mHours timerTask in
  let minutes := mMinutes timerTask in
  let seconds := mSeconds timerTask in
  if ((hours =? 0) && (minutes =? 0) && (seconds =? 0))%Z then Ok t else
  let hrSlotNo := u64 (hours + nHours t - 1) mod mHourSlotsNum in
  let minSlotNo := u64 (minutes + nMinutes t - 1) mod mMinuteSlotsNum in
  let secSlotNo := u64 (seconds + nSeconds t) mod mSecondSlotsNum in
  let timerTask := offset (nHours t) (nMinutes t) (nSeconds t) timerTask in
  let timerNode := newTimerNode timerTask in
  if negb (hours =? 0) then push_slot (hrSlotNo + mSecondSlotsNum + mMinuteSlotsNum) timerNode t
  else if negb (minutes =? 0) then push_slot (minSlotNo + mSecondSlotsNum) timerNode t
  else push_slot secSlotNo timerNode t.

Definition repeatTimerTask (key : str) (t : TimeWheelTimer) : res TimeWheelTimer :=
  match mRegisteredTasks t !! key with
  | None => Ok t
  | Some task =>
      let task := if 0 <? mCycleNumber task
                  then mkTask (mHours task) (mMinutes task) (mSeconds task)
                         (mCycleNumber task - 1) (mID task) (mTask task)
                  else task in
      addTimerNodeFor task (set_registered (<[key := task]> (mRegisteredTasks t)) t)
  end.

Definition eraseTimerTask (key : str) (t : TimeWheelTimer) : TimeWheelTimer :=
  set_registered (delete key (mRegisteredTasks t)) t.

(** One pass of the loop of [registerTask] whose wait found a task. *)
Definition registerOne (t : TimeWheelTimer) : res TimeWheelTimer :=
  let '(q, r) := waitAndPop_for (mTaskEntry t) in
  let t := set_entry q t in
  match r with
  | None => Ok t
  | Some timerTask =>
      let cycNum := mCycleNumber timerTask in
      if cycNum =? 0 then Ok (eraseTimerTask (mID timerTask) t) else
      let t :=
        if ((cycNum <? 0) || (1 <? cycNum))%Z
        then match mRegisteredTasks t !! mID timerTask with   (* insert does not overwrite *)
             | Some _ => t
             | None => set_registered (<[mID timerTask := timerTask]> (mRegisteredTasks t)) t
             end
        else t in
      addTimerNodeFor timerTask t
  end.

(** The loop erases each node it visits, the ones pushed meanwhile included. *)
Fixpoint secondLoop (fuel : nat) (slotNo : Z) (t : TimeWheelTimer) : res TimeWheelTimer :=
  ns ← slot slotNo t;
  match ns with
  | [] => Ok t
  | it :: _ =>
      match fuel with
      | O => Err OutOfFuel
      | S fuel =>
          let cycNum := mCycleNumber (mTimerTask it) in
          let id := mID (mTimerTask it) in
          let t := runTask (mTask (mTimerTask it)) t in
          t ← (if cycNum =? 1 then Ok (eraseTimerTask id t)
               else if ((1 <? cycNum) || (cycNum <? 0))%Z then repeatTimerTask id t
               else Ok t);
          ns ← slot slotNo t;
          secondLoop fuel slotNo (set_slot slotNo (tail ns) t)
      end
  end.

Definition checkSecondWheel (slotNo : Z) (t : TimeWheelTimer) : res TimeWheelTimer :=
  ns ← slot slotNo t; secondLoop (length ns) slotNo t.

Fixpoint minuteLoop (fuel : nat) (slotNo : Z) (t : TimeWheelTimer) : res TimeWheelTimer :=
  ns ← slot slotNo t;
  match ns with
  | [] => Ok t
  | it :: rest =>
      match fuel with
      | O => Err OutOfFuel
      | S fuel =>
          t ← (if negb (mHasSeconds it)
               then Ok (runTask (mTask (mTimerTask it)) (set_slot slotNo rest t))
               else if nSeconds t =? 0 then Err DivByZero
               else
                 let secSlotNo := u64 (mSeconds (mTimerTask it) + nSeconds t) mod nSeconds t in
                 push_slot secSlotNo (newTimerNode (mTimerTask it)) (set_slot slotNo rest t));
          minuteLoop fuel slotNo t
      end
  end.

Definition checkMinuteWheel (slotNo : Z) (t : TimeWheelTimer) : res TimeWheelTimer :=
  ns ← slot slotNo t; minuteLoop (length ns) slotNo t.

(** Here a node with rounds left stays: [i] is the iterator's position. *)
Fixpoint hourLoop (fuel : nat) (i : nat) (slotNo : Z) (t : TimeWheelTimer) : res TimeWheelTimer :=
  ns ← slot slotNo t;
  match ns !! i with
  | None => Ok t
  | Some it =>
      match fuel with
      | O => Err OutOfFuel
      | S fuel =>
          let erased := set_slot slotNo (take i ns ++ drop (S i) ns) t in
          let task := mTimerTask it in
          if mRound it =? 0 then
            t ← (if mHasMinutes it
                 then push_slot (u64 (mMinutes task + nMinutes t) mod mMinuteSlotsNum
                                 + mSecondSlotsNum - 1) (newTimerNode task) erased
                 else if mHasSeconds it
                 then push_slot (u64 (mSeconds task + nSeconds t) mod mSecondSlotsNum)
                        (newTimerNode task) erased
                 else Ok (runTask (mTask task) erased));
            hourLoop fuel i slotNo t
          else hourLoop fuel (S i) slotNo (set_slot slotNo (<[i := (subRound it).1]> ns) t)
      end
  end.

Definition checkHourWheel (slotNo : Z) (t : TimeWheelTimer) : res TimeWheelTimer :=
  ns ← slot slotNo t; hourLoop (length ns) 0 slotNo t.

(** The body of the loop of [tick], after its one second of sleep. *)
Definition tick (t : TimeWheelTimer) : res TimeWheelTimer :=
  let t := set_incr 0 t in
  t ← checkSecondWheel (nSeconds t) t;
  let t := set_clock (nSeconds t + 1) (nMinutes t) (nHours t) t in
  if nSeconds t =? mSecondSlotsNum then
    t ← checkMinuteWheel (nMinutes t + mSecondSlotsNum) t;
    let t := set_clock 0 (nMinutes t + 1) (nHours t) t in
    if nMinutes t =? mMinuteSlotsNum then
      t ← checkHourWheel (nHours t mod mHourSlotsNum + mMinuteSlotsNum + mSecondSlotsNum) t;
      Ok (set_clock 0 0 (u64 (nHours t + 1)) t)
    else Ok t
  else Ok t.

Fixpoint ticks (n : nat) (t : TimeWheelTimer) : res TimeWheelTimer :=
  match n with
  | O => Ok t
  | S n => t ← tick t; ticks n t
  end.

(** ** Ticks that find nothing *)

Definition clock_ok (t : TimeWheelTimer) : Prop :=
  0 <= nSeconds t < 60 ∧ 0 <= nMinutes t < 60 ∧ 0 <= nHours t < size_max.

(** The clock one second later. *)
Definition advance (t : TimeWheelTimer) : TimeWheelTimer :=
  if nSeconds t + 1 =? 60
  then if nMinutes t + 1 =? 60 then set_clock 0 0 (u64 (nHours t + 1)) t
       else set_clock 0 (nMinutes t + 1) (nHours t) t
  else set_clock (nSeconds t + 1) (nMinutes t) (nHours t) t.

Lemma advance_frame t :
  mTimeWheel (advance t) = mTimeWheel t ∧ fired (advance t) = fired t ∧
  mRegisteredTasks (advance t) = mRegisteredTasks t ∧ mTaskEntry (advance t) = mTaskEntry t ∧
  nSeconds (advance t) = (nSeconds t + 1) mod 60 ∨ ¬ clock_ok t.
Proof.
  destruct (decide (0 <= nSeconds t < 60)) as [Hs|Hs]; [left|right; unfold clock_ok; tauto].
  unfold advance. repeat case_if; to_prop; cbn; split_and!; try done.
  - by rewrite Heqb.
  - by rewrite Heqb.
  - rewrite Z.mod_small; lia.
Qed.

Lemma advance_clock_ok t : clock_ok t → clock_ok (advance t).
Proof.
  unfold clock_ok, advance. intros (? & ? & ?). repeat case_if; to_prop; cbn.
  - pose proof (u64_bound (nHours t + 1)). lia.
  - lia.
  - lia.
Qed.

(** Nothing in the minute and hour slots that this second reaches. *)
Definition upper_empty (t : TimeWheelTimer) : Prop :=
  (nSeconds t = 59 → slot (nMinutes t + 60) t = Ok []) ∧
  (nSeconds t = 59 → nMinutes t = 59 → slot (nHours t mod 24 + 120) t = Ok []).

Lemma slot_set_clock q a b c t : slot q (set_clock a b c t) = slot q t.
Proof. done. Qed.

Lemma tick_upper_empty t t1 :
  checkSecondWheel (nSeconds t) (set_incr 0 t) = Ok t1 →
  nSeconds t1 = nSeconds t → nMinutes t1 = nMinutes t → nHours t1 = nHours t →
  upper_empty t1 → tick t = Ok (advance t1).
Proof.
  intros Hc Hs Hm Hh [Hu1 Hu2]. unfold tick. cbn [nSeconds set_incr]. rewrite Hc.
  cbn [mbind res_bind]. unfold advance, mSecondSlotsNum, mMinuteSlotsNum, mHourSlotsNum.
  cbn [nSeconds nMinutes nHours set_clock]. case_if; to_prop; [|done].
  unfold checkMinuteWheel. rewrite !slot_set_clock, Hu1 by lia. cbn [mbind res_bind length minuteLoop].
  rewrite !slot_set_clock, Hu1 by lia. cbn [mbind res_bind set_clock nMinutes nHours].
  case_if; to_prop; [|done].
  unfold checkHourWheel. rewrite !slot_set_clock.
  replace (nHours t1 mod 24 + 60 + 60) with (nHours t1 mod 24 + 120) by lia.
  rewrite Hu2 by lia. cbn [mbind res_bind length hourLoop].
  rewrite !slot_set_clock, Hu2 by lia. done.
Qed.

Lemma checkSecondWheel_empty n t : slot n t = Ok [] → checkSecondWheel n t = Ok t.
Proof. intros H. unfold checkSecondWheel. rewrite H. cbn. by rewrite H. Qed.

(** ** A wheel with one node *)

Definition blank : list (list TimerNode) := replicate 144 [].

Lemma blank_lookup q : (q < 144)%nat → blank !! q = Some [].
Proof. apply lookup_replicate_2. Qed.

Lemma length_blank : length blank = 144%nat.
Proof. done. Qed.

Lemma move_node (p p' : nat) (n n' : TimerNode) :
  p ≠ p' → (p < 144)%nat → (p' < 144)%nat →
  <[p := []]> (<[p' := [n']]> (<[p := [n]]> blank)) = <[p' := [n']]> blank.
Proof.
  intros Hne Hp Hp'. rewrite (list_insert_insert_ne _ p p'), list_insert_insert_eq by done.
  rewrite (list_insert_id blank p) by by apply blank_lookup. done.
Qed.

Lemma slot_single p n t q :
  mTimeWheel t = <[p := [n]]> blank → (Z.to_nat q < 144)%nat → Z.to_nat q ≠ p → slot q t = Ok [].
Proof.
  intros Hw Hq Hne. unfold slot. rewrite Hw, list_lookup_insert_ne by done.
  by rewrite blank_lookup.
Qed.

Lemma slot_here p n t q :
  mTimeWheel t = <[p := [n]]> blank → Z.to_nat q = p → (p < 144)%nat → slot q t = Ok [n].
Proof.
  intros Hw <- Hp. unfold slot. by rewrite Hw, list_lookup_insert_eq by by rewrite length_blank.
Qed.

Lemma slot_blank t q : mTimeWheel t = blank → (Z.to_nat q < 144)%nat → slot q t = Ok [].
Proof. intros Hw Hq. unfold slot. by rewrite Hw, blank_lookup. Qed.

Lemma upper_empty_single p n t :
  clock_ok t → mTimeWheel t = <[p := [n]]> blank → (p < 60)%nat → upper_empty t.
Proof.
  intros (Hs & Hm & Hh) Hw Hp. pose proof (Z.mod_pos_bound (nHours t) 24).
  split; intros; eapply slot_single; try done; lia.
Qed.

Lemma upper_empty_blank t : clock_ok t → mTimeWheel t = blank → upper_empty t.
Proof.
  intros (Hs & Hm & Hh) Hw. pose proof (Z.mod_pos_bound (nHours t) 24).
  split; intros; apply slot_blank; try done; lia.
Qed.

(** ** Tasks of some seconds *)

Section Seconds.
Context (s cyc : Z) (id : str) (f : F) (fired0 : list F).
Hypotheses (Hs : 1 <= s <= 59) (Hcyc : cyc ≠ 0).

(** The cycle number after [k] runs. *)
Definition cycle_at (k : nat) : Z := if 0 <? cyc then cyc - Z.of_nat k else cyc.

(** [d] seconds before the check that finds the node, after [k] runs. *)
Definition armed (d : Z) (k : nat) (t : TimeWheelTimer) : Prop :=
  ∃ node, mTimeWheel t = <[Z.to_nat ((nSeconds t + d) mod 60) := [node]]> blank ∧
    mTask (mTimerTask node) = Some f ∧ mID (mTimerTask node) = id ∧
    mCycleNumber (mTimerTask node) = cycle_at k ∧
    (cycle_at k ≠ 1 →
       mRegisteredTasks t !! id = Some (mkTask 0 0 s (cycle_at k) id (Some f))) ∧
    (0 < cyc → Z.of_nat k < cyc).

(** The timer [n] ticks after the registration. *)
Definition seconds_inv (n : nat) (t : TimeWheelTimer) : Prop :=
  clock_ok t ∧ ∃ k, fired t = fired0 ++ replicate k f ∧
    ((∃ d, 0 <= d ∧ d <= s ∧ (0 < Z.of_nat n → d < s) ∧
        Z.of_nat n + d = (Z.of_nat k + 1) * s ∧ armed d k t) ∨
     (mTimeWheel t = blank ∧ Z.of_nat k = cyc ∧ cyc * s < Z.of_nat n)).

Definition runs_by (n : nat) : nat :=
  let k := Z.to_nat ((Z.of_nat n - 1) / s) in
  if 0 <? cyc then Nat.min k (Z.to_nat cyc) else k.

Lemma seconds_inv_runs n t :
  seconds_inv n t → fired t = fired0 ++ replicate (runs_by n) f.
Proof.
  intros (_ & k & Hf & H). rewrite Hf. do 2 f_equal. unfold runs_by.
  destruct H as [(d & Hd & Hds & Hdn & Hn & (node & _ & _ & _ & _ & _ & Hk))|(_ & Hk & Hn)].
  - assert (Z.to_nat ((Z.of_nat n - 1) / s) = k) as ->.
    { destruct (decide (n = 0%nat)) as [->|Hn0].
      - assert (k = 0%nat) as -> by nia. assert ((-1) / s < 0) by (apply Z.div_lt_upper_bound; lia).
        change (Z.of_nat 0 - 1) with (-1). lia.
      - assert ((Z.of_nat n - 1) / s = Z.of_nat k) as ->; [|lia].
        symmetry. apply (Z.div_unique _ _ _ (s - d - 1)); [left; lia|]. lia. }
    case_if; to_prop; [|done]. specialize (Hk Heqb). lia.
  - rewrite (proj2 (Z.ltb_lt 0 cyc)) by lia.
    assert (cyc <= (Z.of_nat n - 1) / s) by (apply Z.div_le_lower_bound; lia). lia.
Qed.

Lemma idle_tick t :
  clock_ok t → slot (nSeconds t) t = Ok [] → upper_empty t → tick t = Ok (advance (set_incr 0 t)).
Proof.
  intros Hc Hsl Hu. eapply tick_upper_empty; try done.
  by apply checkSecondWheel_empty.
Qed.

Lemma advance_seconds t : clock_ok t → nSeconds (advance t) = (nSeconds t + 1) mod 60.
Proof. intros Hc. by destruct (advance_frame t) as [(_ & _ & _ & _ & ->)|]. Qed.

Lemma armed_idle d k t :
  clock_ok t → 0 < d <= s → armed d k t →
  tick t = Ok (advance (set_incr 0 t)) ∧ armed (d - 1) k (advance (set_incr 0 t)).
Proof.
  intros Hc Hd (node & Hw & Hrest). pose proof Hc as (Hsec & _).
  assert ((nSeconds t + d) mod 60 ≠ nSeconds t) as Hne.
  { intros Heq. pose proof (Z.div_mod (nSeconds t + d) 60). nia. }
  pose proof (Z.mod_pos_bound (nSeconds t + d) 60 ltac:(lia)) as Hb.
  split.
  - apply idle_tick; [done| |].
    + eapply slot_single; [done|lia|lia].
    + eapply upper_empty_single; [done..|lia].
  - exists node. assert (clock_ok (set_incr 0 t)) as Hc' by done.
    destruct (advance_frame (set_incr 0 t)) as [(-> & _ & -> & _ & ->)|]; [|done].
    split; [|done]. cbn [mTimeWheel set_incr nSeconds]. rewrite Zplus_mod_idemp_l.
    by replace (nSeconds t + 1 + (d - 1)) with (nSeconds t + d) by lia.
Qed.

Lemma cycle_at_S k : (0 < cyc → Z.of_nat k < cyc) → cycle_at k ≠ 1 →
  (if 0 <? cycle_at k then cycle_at k - 1 else cycle_at k) = cycle_at (S k) ∧
  (0 < cyc → Z.of_nat (S k) < cyc).
Proof.
  unfold cycle_at. intros Hk H1. destruct (0 <? cyc) eqn:Hb; to_prop.
  - rewrite (proj2 (Z.ltb_lt 0 (cyc - _))) by lia. lia.
  - rewrite (proj2 (Z.ltb_ge 0 cyc)) by lia. lia.
Qed.

(** The check that finds the last run's node, and the one of any other. *)
Lemma fire_last k t :
  clock_ok t → armed 0 k t → cycle_at k = 1 →
  ∃ t', tick t = Ok t' ∧ clock_ok t' ∧ fired t' = fired t ++ [f] ∧ mTimeWheel t' = blank ∧
    Z.of_nat (S k) = cyc.
Proof.
  intros Hc (node & Hw & Hf & Hid & Hn & _ & Hk) H1. pose proof Hc as (Hsec & _).
  rewrite Z.add_0_r, Z.mod_small in Hw by lia. set (p := Z.to_nat (nSeconds t)) in *.
  assert (p < 144)%nat by (unfold p; lia).
  set (t1 := set_slot (nSeconds t) []
    (eraseTimerTask id (runTask (Some f) (set_incr 0 t)))).
  assert (mTimeWheel t1 = blank) as Hw1.
  { cbn. fold p. rewrite Hw, list_insert_insert_eq, list_insert_id; [done|].
    by apply blank_lookup. }
  assert (checkSecondWheel (nSeconds t) (set_incr 0 t) = Ok t1) as Hcheck.
  { unfold checkSecondWheel. rewrite (slot_here p node (set_incr 0 t)) by done.
    cbn [mbind res_bind length secondLoop]. rewrite (slot_here p node (set_incr 0 t)) by done.
    cbn [mbind res_bind]. rewrite Hn, H1, Hid, Hf. change (1 =? 1) with true.
    cbn [mbind res_bind]. rewrite (slot_here p node) by done.
    cbn [mbind res_bind tail secondLoop]. by rewrite slot_blank. }
  exists (advance t1). split.
  { apply tick_upper_empty; try done. by apply upper_empty_blank. }
  split; [by apply advance_clock_ok|].
  destruct (advance_frame t1) as [(-> & -> & _)|]; [|done].
  split; [done|]. split; [done|]. unfold cycle_at in H1.
  case_if_in H1; to_prop; lia.
Qed.

(** The task with its cycles used up to now, and the wheel when it has run and is
    put back. *)
Definition task_again (k : nat) : TimerTask := mkTask 0 0 s (cycle_at (S k)) id (Some f).
Definition node_again (k : nat) (t : TimeWheelTimer) : TimerNode :=
  newTimerNode (offset (nHours t) (nMinutes t) (nSeconds t) (task_again k)).
Definition put_again (k : nat) (t : TimeWheelTimer) : TimeWheelTimer :=
  set_slot ((s + nSeconds t) mod 60) [node_again k t]
    (set_registered (<[id := task_again k]> (mRegisteredTasks t)) (runTask (Some f) (set_incr 0 t))).

Lemma next_slot t : 0 <= nSeconds t < 60 → 0 <= (s + nSeconds t) mod 60 < 60 ∧ (s + nSeconds t) mod 60 ≠ nSeconds t.
Proof.
  intros Hsec. pose proof (Z.mod_pos_bound (s + nSeconds t) 60 ltac:(lia)). split; [lia|].
  intros Heq. pose proof (Z.div_mod (s + nSeconds t) 60). nia.
Qed.

Lemma repeat_again k t node :
  0 <= nSeconds t < 60 → mTimeWheel t = <[Z.to_nat (nSeconds t) := [node]]> blank →
  mRegisteredTasks t !! id = Some (mkTask 0 0 s (cycle_at k) id (Some f)) →
  (if 0 <? cycle_at k then cycle_at k - 1 else cycle_at k) = cycle_at (S k) →
  repeatTimerTask id (runTask (Some f) (set_incr 0 t)) = Ok (put_again k t).
Proof.
  intros Hsec Hw Hreg Hcs. pose proof (next_slot t Hsec) as [Hq Hqp].
  unfold repeatTimerTask. cbn [mRegisteredTasks runTask set_incr]. rewrite Hreg.
  cbn [mCycleNumber mHours mMinutes mSeconds mID mTask].
  replace (if 0 <? cycle_at k then _ else _) with (task_again k) by (unfold task_again; rewrite <- Hcs; by case_if).
  unfold addTimerNodeFor. cbn [mHours mMinutes mSeconds task_again Z.eqb andb].
  rewrite (proj2 (Z.eqb_neq s 0)) by lia. cbn [negb].
  unfold push_slot. cbn [nSeconds nHours nMinutes set_registered runTask set_incr].
  unfold mSecondSlotsNum. rewrite (u64_small (s + nSeconds t)) by (unfold size_max; lia).
  erewrite slot_single; [|exact Hw|lia|lia]. done.
Qed.

(** The check runs the node's task, puts it back and clears the slot. *)
Lemma check_again k t node :
  0 <= nSeconds t < 60 → mTimeWheel t = <[Z.to_nat (nSeconds t) := [node]]> blank →
  mTask (mTimerTask node) = Some f → mID (mTimerTask node) = id → mCycleNumber (mTimerTask node) = cycle_at k →
  cycle_at k ≠ 1 → cycle_at k ≠ 0 →
  repeatTimerTask id (runTask (Some f) (set_incr 0 t)) = Ok (put_again k t) →
  checkSecondWheel (nSeconds t) (set_incr 0 t) = Ok (set_slot (nSeconds t) [] (put_again k t)) ∧
  mTimeWheel (set_slot (nSeconds t) [] (put_again k t)) = <[Z.to_nat ((s + nSeconds t) mod 60) := [node_again k t]]> blank.
Proof.
  intros Hsec Hw Hf Hid Hn H1 H0 Hrep. pose proof (next_slot t Hsec) as [Hq Hqp].
  assert (mTimeWheel (set_slot (nSeconds t) [] (put_again k t)) = <[Z.to_nat ((s + nSeconds t) mod 60) := [node_again k t]]> blank) as Hw2.
  { cbn. rewrite Hw. apply move_node; lia. }
  split; [|exact Hw2].
  unfold checkSecondWheel. rewrite (slot_here (Z.to_nat (nSeconds t)) node (set_incr 0 t)) by (done || lia).
  cbn [mbind res_bind length secondLoop]. rewrite (slot_here (Z.to_nat (nSeconds t)) node (set_incr 0 t)) by (done || lia).
  cbn [mbind res_bind]. rewrite Hn, Hid, Hf. rewrite (proj2 (Z.eqb_neq _ 1)) by done.
  replace ((1 <? cycle_at k) || (cycle_at k <? 0)) with true by (symmetry; apply orb_true_iff; rewrite !Z.ltb_lt; lia).
  rewrite Hrep. cbn [mbind res_bind].
  assert (slot (nSeconds t) (put_again k t) = Ok [node]) as ->.
  { unfold slot. cbn [mTimeWheel put_again set_slot set_wheel set_registered runTask set_incr].
    rewrite Hw, list_lookup_insert_ne by lia.
    by rewrite list_lookup_insert_eq by (rewrite length_blank; lia). }
  cbn [mbind res_bind tail secondLoop]. erewrite slot_single; [done|exact Hw2|lia|lia].
Qed.

Lemma fire_again k t :
  clock_ok t → armed 0 k t → cycle_at k ≠ 1 →
  ∃ t', tick t = Ok t' ∧ clock_ok t' ∧ fired t' = fired t ++ [f] ∧ armed (s - 1) (S k) t'.
Proof.
  intros Hc (node & Hw & Hf & Hid & Hn & Hreg & Hk) H1. pose proof Hc as (Hsec & _).
  destruct (cycle_at_S k Hk H1) as [Hcs Hks]. specialize (Hreg H1).
  rewrite Z.add_0_r, Z.mod_small in Hw by lia. pose proof (next_slot t Hsec) as [Hq Hqp].
  assert (cycle_at k ≠ 0) as H0 by (unfold cycle_at in *; case_if_in H1; to_prop; lia).
  destruct (check_again k t node Hsec Hw Hf Hid Hn H1 H0 (repeat_again k t node Hsec Hw Hreg Hcs)) as [Hcheck Hw2].
  set (t2 := set_slot (nSeconds t) [] (put_again k t)) in *.
  assert (clock_ok t2) as Hc2 by done.
  exists (advance t2). split.
  { apply tick_upper_empty; try done. eapply upper_empty_single; [done..|lia]. }
  split; [by apply advance_clock_ok|].
  destruct (advance_frame t2) as [(Hw3 & -> & Hr3 & _ & Hs3)|]; [|done].
  split; [done|]. exists (node_again k t). rewrite Hw3, Hw2, Hr3, Hs3. cbn [nSeconds t2 put_again set_slot
    set_wheel set_registered runTask set_incr mRegisteredTasks].
  rewrite Zplus_mod_idemp_l. split_and!; try done.
  - by replace (nSeconds t + 1 + (s - 1)) with (s + nSeconds t) by lia.
  - intros _. by rewrite lookup_insert_eq.
Qed.

Lemma seconds_inv_tick n t :
  seconds_inv n t → ∃ t', tick t = Ok t' ∧ seconds_inv (S n) t'.
Proof.
  intros (Hc & k & Hf & [(d & Hd & Hds & Hdn & Hn & Harm)|(Hw & Hk & Hn)]).
  - destruct (decide (d = 0)) as [->|Hd0].
    + destruct (decide (cycle_at k = 1)) as [H1|H1].
      * destruct (fire_last k t Hc Harm H1) as (t' & Ht & Hc' & Hf' & Hw' & Hk').
        exists t'. split; [done|]. split; [done|]. exists (S k). split.
        { rewrite Hf', Hf, <- app_assoc. f_equal. by rewrite <- replicate_S_end. }
        right. split_and!; [done|done|nia].
      * destruct (fire_again k t Hc Harm H1) as (t' & Ht & Hc' & Hf' & Harm').
        exists t'. split; [done|]. split; [done|]. exists (S k). split.
        { rewrite Hf', Hf, <- app_assoc. f_equal. by rewrite <- replicate_S_end. }
        left. exists (s - 1). split_and!; try lia. done.
    + destruct (armed_idle d k t Hc ltac:(lia) Harm) as [Ht Harm'].
      eexists. split; [exact Ht|]. split; [by apply advance_clock_ok|]. exists k. split.
      { by destruct (advance_frame (set_incr 0 t)) as [(_ & -> & _)|]. }
      left. exists (d - 1). split_and!; try lia. done.
  - eexists. split.
    { apply idle_tick; [done| |by apply upper_empty_blank].
      apply slot_blank; [done|]. destruct Hc as (? & _). lia. }
    split; [by apply advance_clock_ok|]. exists k.
    destruct (advance_frame (set_incr 0 t)) as [(-> & -> & _)|]; [|done].
    split; [done|]. right. split_and!; [done|done|lia].
Qed.

Lemma seconds_inv_ticks m n t :
  seconds_inv n t → ∃ t', ticks m t = Ok t' ∧ seconds_inv (n + m) t'.
Proof.
  revert n t. induction m as [|m IH]; intros n t Hi.
  { exists t. by rewrite Nat.add_0_r. }
  destruct (seconds_inv_tick n t Hi) as (t1 & Ht & Hi1). cbn [ticks]. rewrite Ht.
  destruct (IH (S n) t1 Hi1) as (t2 & Ht2 & Hi2). exists t2. split; [done|].
  by rewrite Nat.add_succ_comm in Hi2.
Qed.

End Seconds.

(** ** Registration of a task in an empty wheel *)

Definition idle_timer (id : str) (t : TimeWheelTimer) : Prop :=
  clock_ok t ∧ mTimeWheel t = blank ∧ mTaskEntry t = [] ∧ mRegisteredTasks t !! id = None.

Definition registered_in (task : TimerTask) (t : TimeWheelTimer) : TimeWheelTimer :=
  if ((mCycleNumber task <? 0) || (1 <? mCycleNumber task))%Z
  then set_registered (<[mID task := task]> (mRegisteredTasks t)) (set_entry [] t)
  else set_entry [] t.

Lemma registerOne_spec task t :
  idle_timer (mID task) t → mCycleNumber task ≠ 0 →
  registerOne (addTask task t) = addTimerNodeFor task (registered_in task t).
Proof.
  intros (_ & _ & Hq & Hr) Hc. unfold registerOne, addTask, push. cbn [mTaskEntry set_entry].
  rewrite Hq. cbn [app waitAndPop_for]. rewrite (proj2 (Z.eqb_neq _ 0)) by done.
  cbn [mRegisteredTasks set_entry]. rewrite Hr. unfold registered_in. by case_if.
Qed.

Lemma registered_in_frame task t :
  let t' := registered_in task t in
  nSeconds t' = nSeconds t ∧ nMinutes t' = nMinutes t ∧ nHours t' = nHours t ∧
  mTimeWheel t' = mTimeWheel t ∧ fired t' = fired t ∧
  (mCycleNumber task ≠ 0 → mCycleNumber task ≠ 1 → mRegisteredTasks t' !! mID task = Some task).
Proof.
  unfold registered_in. cbv zeta. case_if; cbn; to_prop; split_and!; try done; intros.
  - apply lookup_insert_eq.
  - lia.
Qed.

Lemma newTimerTask_small m s cyc id f :
  0 <= m <= 59 → 0 <= s <= 59 → newTimerTask 0 m s cyc id f = mkTask 0 m s cyc id f.
Proof.
  intros Hm Hs. unfold newTimerTask. rewrite (Z.div_small s 60), (Z.mod_small s 60) by lia.
  rewrite Z.add_0_r, (u64_small m) by (unfold size_max; lia).
  by rewrite (Z.div_small m 60), (Z.mod_small m 60) by lia.
Qed.

Lemma push_blank q n t :
  mTimeWheel t = blank → (Z.to_nat q < 144)%nat →
  push_slot q n t = Ok (set_wheel (<[Z.to_nat q := [n]]> blank) t).
Proof.
  intros Hw Hq. unfold push_slot. rewrite slot_blank by done. unfold set_slot. by rewrite Hw.
Qed.

Lemma seconds_registered s cyc id f t :
  1 <= s <= 59 → cyc ≠ 0 → idle_timer id t →
  ∃ t0, registerOne (addTask (newTimerTask 0 0 s cyc id (Some f)) t) = Ok t0 ∧
    seconds_inv s cyc id f (fired t) 0 t0.
Proof.
  intros Hs Hcyc Hi. rewrite newTimerTask_small by lia. rewrite registerOne_spec by done.
  set (task := mkTask 0 0 s cyc id (Some f)).
  destruct (registered_in_frame task t) as (Es & Em & Eh & Ew & Ef & Er).
  set (t1 := registered_in task t) in *. destruct Hi as (Hc & Hw & _ & _).
  unfold addTimerNodeFor. cbn [mHours mMinutes mSeconds task Z.eqb andb].
  rewrite (proj2 (Z.eqb_neq s 0)) by lia. cbn [negb]. destruct Hc as (Hcs & Hcr).
  rewrite Es, (u64_small (s + _)) by (unfold size_max; lia). unfold mSecondSlotsNum.
  pose proof (Z.mod_pos_bound (s + nSeconds t) 60 ltac:(lia)).
  rewrite push_blank by (done || by rewrite Ew || lia). eexists. split; [done|].
  split; [unfold clock_ok; cbn; by rewrite Es, Em, Eh|]. exists 0%nat. cbn [replicate].
  rewrite app_nil_r. split; [exact Ef|]. left. exists s. split_and!; try lia.
  eexists. cbn [mTimeWheel set_wheel nSeconds mRegisteredTasks]. rewrite Es.
  split; [by rewrite (Z.add_comm (nSeconds t))|]. cbn.
  unfold cycle_at. rewrite Z.sub_0_r. split_and!; try done.
  - by case_if.
  - intros Hne. case_if; by apply Er.
Qed.

(** ** Tasks of some minutes *)

(** [D] seconds before the check of the minute slot that holds the node. *)
Definition parked (D e cyc : Z) (id : str) (f : F) (t : TimeWheelTimer) : Prop :=
  let c := 60 * nMinutes t + nSeconds t + D in
  ∃ node, mTimeWheel t = <[Z.to_nat (60 + c / 60 mod 60) := [node]]> blank ∧ c mod 60 = 59 ∧
    mHasSeconds node = (0 <? e) ∧ mSeconds (mTimerTask node) = e ∧
    mTask (mTimerTask node) = Some f ∧ mID (mTimerTask node) = id ∧
    mCycleNumber (mTimerTask node) = cyc.

Lemma advance_clock t :
  clock_ok t →
  (60 * nMinutes (advance t) + nSeconds (advance t)) = (60 * nMinutes t + nSeconds t + 1) mod 3600.
Proof.
  unfold clock_ok, advance. intros (Hs & Hm & _). repeat case_if; to_prop; cbn.
  - by replace (60 * nMinutes t + nSeconds t + 1) with 3600 by lia.
  - rewrite Z.mod_small; lia.
  - rewrite Z.mod_small; lia.
Qed.

Lemma parked_idle D e cyc id f t :
  clock_ok t → 0 < D < 3600 → parked D e cyc id f t →
  tick t = Ok (advance (set_incr 0 t)) ∧ parked (D - 1) e cyc id f (advance (set_incr 0 t)).
Proof.
  intros Hc HD (node & Hw & H59 & Hrest). pose proof Hc as (Hs & Hm & Hh).
  set (c := 60 * nMinutes t + nSeconds t + D) in *.
  pose proof (Z.mod_pos_bound (c / 60) 60 ltac:(lia)) as Hx.
  split.
  - apply idle_tick; [done|eapply slot_single; [done|lia|lia]|].
    pose proof (Z.mod_pos_bound (nHours t) 24 ltac:(lia)).
    split; intros; (eapply slot_single; [done|lia|]).
    + assert (c / 60 mod 60 ≠ nMinutes t); [|lia].
      pose proof (Z.div_mod c 60 ltac:(lia)). pose proof (Z.div_mod (c / 60) 60 ltac:(lia)).
      intros Heq. unfold c in *. nia.
    + lia.
  - exists node. destruct (advance_frame (set_incr 0 t)) as [(-> & _)|]; [|done].
    pose proof (advance_clock (set_incr 0 t) Hc) as ->.
    cbn [nMinutes nSeconds set_incr mTimeWheel].
    set (b := 60 * nMinutes t + nSeconds t + 1).
    pose proof (Z.div_mod b 3600 ltac:(lia)) as Hb.
    replace (b mod 3600 + (D - 1)) with (c + (- (b / 3600) * 60) * 60) by (unfold c, b in *; lia).
    rewrite Z.div_add, Z_mod_plus_full, Z_mod_plus_full by lia. done.
Qed.

Lemma parked_ticks D e cyc id f t n :
  clock_ok t → 0 <= D < 3600 → parked D e cyc id f t → Z.of_nat n <= D →
  ∃ t', ticks n t = Ok t' ∧ clock_ok t' ∧ fired t' = fired t ∧ parked (D - Z.of_nat n) e cyc id f t'.
Proof.
  revert D t. induction n as [|n IH]; intros D t Hc HD Hp Hn.
  { exists t. by rewrite Z.sub_0_r. }
  destruct (parked_idle D e cyc id f t Hc ltac:(lia) Hp) as [Ht Hp'].
  destruct (advance_frame (set_incr 0 t)) as [(_ & Hf & _)|]; [|done].
  destruct (IH (D - 1) (advance (set_incr 0 t))) as (t' & Ht' & Hc' & Hf' & Hp'');
    [by apply advance_clock_ok|lia|done|lia|].
  exists t'. cbn [ticks]. rewrite Ht. split; [done|]. split; [done|].
  split; [by rewrite Hf', Hf|]. by replace (D - Z.of_nat (S n)) with (D - 1 - Z.of_nat n) by lia.
Qed.

(** The check of the minute slot: the task runs, or moves to its second. *)
Definition next_minute (t : TimeWheelTimer) : TimeWheelTimer :=
  if nMinutes t + 1 =? 60 then set_clock 0 0 (u64 (nHours t + 1)) t
  else set_clock 0 (nMinutes t + 1) (nHours t) t.

Lemma next_minute_frame t :
  clock_ok t → clock_ok (next_minute t) ∧ nSeconds (next_minute t) = 0 ∧
  mTimeWheel (next_minute t) = mTimeWheel t ∧ fired (next_minute t) = fired t.
Proof.
  unfold next_minute, clock_ok. intros (? & ? & ?). case_if; to_prop; cbn.
  - pose proof (u64_bound (nHours t + 1)). split_and!; (done || lia).
  - split_and!; (done || lia).
Qed.

Lemma tick_minute t t2 :
  clock_ok t → nSeconds t = 59 → slot 59 t = Ok [] →
  checkMinuteWheel (nMinutes t + 60) (set_clock 60 (nMinutes t) (nHours t) (set_incr 0 t)) = Ok t2 →
  nMinutes t2 = nMinutes t → nHours t2 = nHours t → slot (nHours t mod 24 + 120) t2 = Ok [] →
  tick t = Ok (next_minute t2).
Proof.
  intros Hc Hs Hsl Hmin Hm Hh Hhr. unfold tick. cbn [nSeconds set_incr]. rewrite Hs.
  rewrite checkSecondWheel_empty by done. cbn [mbind res_bind nSeconds nMinutes nHours set_incr set_clock].
  rewrite Hs. change (59 + 1 =? mSecondSlotsNum) with true.
  change (59 + 1) with 60. unfold mSecondSlotsNum, mMinuteSlotsNum, mHourSlotsNum.
  rewrite Hmin. cbn [mbind res_bind set_clock nMinutes nHours]. unfold next_minute.
  rewrite Hm, Hh. case_if; [|done]. to_prop.
  unfold checkHourWheel. rewrite slot_set_clock.
  replace (nHours t mod 24 + 60 + 60) with (nHours t mod 24 + 120) by lia.
  rewrite Hhr. cbn [mbind res_bind length hourLoop]. rewrite slot_set_clock, Hhr. done.
Qed.

(** The wheel when the minute slot was checked: the node went to second [e], or its
    task has run. *)
Definition minute_done (e : Z) (f : F) (node : TimerNode) (t : TimeWheelTimer) : TimeWheelTimer :=
  let t := set_slot (nMinutes t + 60) [] (set_clock 60 (nMinutes t) (nHours t) (set_incr 0 t)) in
  if 0 <? e then set_wheel (<[Z.to_nat e := [newTimerNode (mTimerTask node)]]> blank) t else runTask (Some f) t.

Lemma check_parked e f node t :
  0 <= nMinutes t < 60 → 0 <= e <= 59 → mTimeWheel t = <[Z.to_nat (60 + nMinutes t) := [node]]> blank →
  mHasSeconds node = (0 <? e) → mSeconds (mTimerTask node) = e → mTask (mTimerTask node) = Some f →
  checkMinuteWheel (nMinutes t + 60) (set_clock 60 (nMinutes t) (nHours t) (set_incr 0 t)) = Ok (minute_done e f node t) ∧
  mTimeWheel (set_slot (nMinutes t + 60) [] (set_clock 60 (nMinutes t) (nHours t) (set_incr 0 t))) = blank.
Proof.
  intros Hm He Hw Hhas Hsec Hf. set (p := Z.to_nat (60 + nMinutes t)) in *.
  set (t0 := set_clock 60 (nMinutes t) (nHours t) (set_incr 0 t)).
  assert (p < 144)%nat as Hp by (unfold p; lia).
  assert (Z.to_nat (nMinutes t + 60) = p) as Hpe by (unfold p; lia).
  assert (mTimeWheel (set_slot (nMinutes t + 60) [] t0) = blank) as Hblank.
  { cbn. rewrite Hpe, Hw, list_insert_insert_eq, list_insert_id; [done|by apply blank_lookup]. }
  split; [|exact Hblank].
  unfold checkMinuteWheel. rewrite (slot_here p node t0) by done.
  cbn [mbind res_bind length minuteLoop]. rewrite (slot_here p node t0) by done.
  cbn [mbind res_bind]. rewrite Hhas, Hf. change (nSeconds t0) with 60.
  change (60 =? 0) with false. cbv iota. unfold minute_done. fold t0.
  destruct (0 <? e) eqn:Hb; cbn [negb]; to_prop.
  - rewrite Hsec, (u64_small (e + 60)) by (unfold size_max; lia).
    rewrite Z.add_mod, Z_mod_same_full, Z.add_0_r, Z.mod_mod, Z.mod_small by lia.
    rewrite push_blank by (done || lia). cbn [mbind res_bind].
    erewrite slot_single; [done|done|lia|unfold p in *; lia].
  - cbn [mbind res_bind]. rewrite slot_blank; [done|exact Hblank|lia].
Qed.

Lemma parked_due e cyc id f t :
  clock_ok t → 0 <= e <= 59 → parked 0 e cyc id f t →
  ∃ t', tick t = Ok t' ∧ clock_ok t' ∧
    (if 0 <? e
     then fired t' = fired t ∧ (cyc = 1 → armed e 1 id f e 0 t')
     else fired t' = fired t ++ [f] ∧ mTimeWheel t' = blank).
Proof.
  intros Hc He (node & Hw & H59 & Hhas & Hsec & Hf & Hid & Hcyc). pose proof Hc as (Hs & Hm & Hh).
  rewrite Z.add_0_r in Hw, H59.
  assert (nSeconds t = 59) as Hs59.
  { rewrite Z.add_comm, Z.mul_comm, Z_mod_plus_full, Z.mod_small in H59 by lia. done. }
  assert ((60 * nMinutes t + nSeconds t) / 60 mod 60 = nMinutes t) as Hx.
  { rewrite Z.add_comm, Z.mul_comm, Z.div_add, (Z.div_small (nSeconds t)) by lia.
    by rewrite Z.mod_small by lia. }
  rewrite Hx in Hw. pose proof (Z.mod_pos_bound (nHours t) 24 ltac:(lia)) as Hh24.
  destruct (check_parked e f node t Hm He Hw Hhas Hsec Hf) as [Hcheck Hblank].
  assert (slot 59 t = Ok []) as H59s by (eapply slot_single; [done|lia|lia]).
  set (t2 := minute_done e f node t) in *.
  assert (nMinutes t2 = nMinutes t ∧ nHours t2 = nHours t) as [Hm2 Hh2] by (unfold t2, minute_done; by case_if).
  exists (next_minute t2). split.
  { eapply tick_minute; try done. unfold t2, minute_done. case_if; to_prop.
    - eapply slot_single; [done|lia|lia].
    - apply slot_blank; [exact Hblank|lia]. }
  assert (clock_ok (set_clock 0 (nMinutes t) (nHours t) t2)) as Hc2 by (unfold clock_ok; cbn; lia).
  destruct (next_minute_frame (set_clock 0 (nMinutes t) (nHours t) t2) Hc2) as (Hc3 & Hs3 & Hw3 & Hf3).
  assert (next_minute (set_clock 0 (nMinutes t) (nHours t) t2) = next_minute t2) as Heq.
  { unfold next_minute. cbn. rewrite Hm2, Hh2. by case_if. }
  rewrite Heq in *. split; [done|]. unfold t2, minute_done in *. case_if; to_prop.
  - split; [done|]. intros ->. exists (newTimerNode (mTimerTask node)). rewrite Hw3, Hs3.
    rewrite Z.add_0_l, Z.mod_small by lia. by split_and!.
  - split; [done|]. by rewrite Hw3.
Qed.

Lemma blank_ticks n t :
  clock_ok t → mTimeWheel t = blank →
  ∃ t', ticks n t = Ok t' ∧ fired t' = fired t ∧ mTimeWheel t' = blank.
Proof.
  revert t. induction n as [|n IH]; intros t Hc Hw; [by exists t|].
  cbn [ticks]. rewrite idle_tick; [|done| |by apply upper_empty_blank].
  2: { apply slot_blank; [done|]. destruct Hc as (? & _). lia. }
  cbn [mbind res_bind]. destruct (advance_frame (set_incr 0 t)) as [(Hw' & Hf' & _)|]; [|done].
  destruct (IH (advance (set_incr 0 t))) as (t' & Ht & Hf & Hb);
    [by apply advance_clock_ok|by rewrite Hw'|]. exists t'. by rewrite Hf, Hf'.
Qed.

Lemma armed_ticks s cyc id f d k t n :
  1 <= s <= 59 → cyc ≠ 0 → clock_ok t → d <= s → Z.of_nat n <= d → armed s cyc id f d k t →
  ∃ t', ticks n t = Ok t' ∧ clock_ok t' ∧ fired t' = fired t ∧ armed s cyc id f (d - Z.of_nat n) k t'.
Proof.
  intros Hs Hcyc. revert d t. induction n as [|n IH]; intros d t Hc Hd Hn Ha.
  { exists t. by rewrite Z.sub_0_r. }
  destruct (armed_idle s cyc id f Hs Hcyc d k t Hc ltac:(lia) Ha) as [Ht Ha'].
  destruct (advance_frame (set_incr 0 t)) as [(_ & Hf & _)|]; [|done].
  destruct (IH (d - 1) (advance (set_incr 0 t))) as (t' & Ht' & Hc' & Hf' & Ha'');
    [by apply advance_clock_ok|lia|lia|done|].
  exists t'. cbn [ticks]. rewrite Ht. split; [done|]. split; [done|].
  split; [by rewrite Hf', Hf|]. by replace (d - Z.of_nat (S n)) with (d - 1 - Z.of_nat n) by lia.
Qed.

Lemma minutes_registered m s cyc id f t :
  1 <= m <= 59 → 0 <= s <= 59 → cyc ≠ 0 → idle_timer id t →
  ∃ t0, registerOne (addTask (newTimerTask 0 m s cyc id (Some f)) t) = Ok t0 ∧
    clock_ok t0 ∧ fired t0 = fired t ∧
    parked (60 * m - 1 - nSeconds t) ((nSeconds t + s) mod 60) cyc id f t0.
Proof.
  intros Hm Hs Hcyc Hi. rewrite newTimerTask_small by lia. rewrite registerOne_spec by done.
  set (task := mkTask 0 m s cyc id (Some f)).
  destruct (registered_in_frame task t) as (Es & Em & Eh & Ew & Ef & _).
  set (t1 := registered_in task t) in *. destruct Hi as (Hc & Hw & _ & _).
  destruct Hc as (Hcs & Hcm & Hch).
  unfold addTimerNodeFor. cbn [mHours mMinutes mSeconds task Z.eqb andb negb].
  rewrite (proj2 (Z.eqb_neq m 0)) by lia. cbn [negb andb].
  rewrite Em, (u64_small (m + _ - 1)) by (unfold size_max; lia).
  unfold mMinuteSlotsNum, mSecondSlotsNum.
  pose proof (Z.mod_pos_bound (m + nMinutes t - 1) 60 ltac:(lia)).
  rewrite push_blank by (done || by rewrite Ew || lia). eexists. split; [done|].
  split; [unfold clock_ok; cbn; by rewrite Es, Em, Eh|]. split; [exact Ef|].
  eexists. cbn [mTimeWheel set_wheel nSeconds nMinutes]. rewrite Es, Em.
  replace (60 * nMinutes t + nSeconds t + (60 * m - 1 - nSeconds t))
    with (59 + (m + nMinutes t - 1) * 60) by lia.
  rewrite Z.div_add, Z_mod_plus_full by lia. change (59 / 60) with 0. rewrite Z.add_0_l.
  split; [by rewrite Z.add_comm|]. split; [done|].
  assert (u64 (s + nSeconds t) mod 60 = (nSeconds t + s) mod 60) as Hse.
  { rewrite u64_small by (unfold size_max; lia). by rewrite Z.add_comm. }
  unfold newTimerNode. cbn. by rewrite Hse.
Qed.

Lemma ticks_add a b t : ticks (a + b) t = t' ← ticks a t; ticks b t'.
Proof.
  revert t. induction a as [|a IH]; intros t; [done|]. cbn [ticks Nat.add].
  destruct (tick t); [apply IH|done].
Qed.

(** ** Properties *)

(** C10: in a timer that holds nothing else, at any clock, a task of [s]
    seconds and [cyc] cycles has run after [n] ticks exactly as often as its
    period demands: first at tick [s + 1], then every [s] ticks, [cyc] times
    in all when [cyc] is positive and for ever when it is negative. *)
Theorem seconds_task_schedule s cyc id f t n :
  1 <= s <= 59 → cyc ≠ 0 → idle_timer id t →
  ∃ t0 t', registerOne (addTask (newTimerTask 0 0 s cyc id (Some f)) t) = Ok t0 ∧
    ticks n t0 = Ok t' ∧ fired t' = fired t ++ replicate (runs_by s cyc n) f.
Proof.
  intros Hs Hcyc Hi. destruct (seconds_registered s cyc id f t Hs Hcyc Hi) as (t0 & Ht0 & Hinv).
  destruct (seconds_inv_ticks s cyc id f (fired t) Hs Hcyc n 0 t0 Hinv) as (t' & Ht' & Hinv').
  exists t0, t'. split; [done|]. split; [done|]. by eapply seconds_inv_runs.
Qed.

(** A one-time task of [m] minutes and [s] seconds runs after
    [60 m + s + 1] ticks when its seconds do not pass the end of the running
    minute, and a whole minute too early when they do: the carry of [offset]
    never reaches the minute slot. *)
Theorem minutes_task_run m s id f t :
  1 <= m <= 59 → 1 <= s <= 59 → idle_timer id t → nSeconds t + s ≠ 60 →
  let late := if nSeconds t + s <? 60 then 0 else 60 in
  let n := Z.to_nat (60 * m + s - late) in
  ∃ t0 t1 t2, registerOne (addTask (newTimerTask 0 m s 1 id (Some f)) t) = Ok t0 ∧
    ticks n t0 = Ok t1 ∧ fired t1 = fired t ∧
    tick t1 = Ok t2 ∧ fired t2 = fired t ++ [f].
Proof.
  intros Hm Hs Hi H60 late n.
  destruct (minutes_registered m s 1 id f t Hm ltac:(lia) ltac:(lia) Hi) as (t0 & Ht0 & Hc0 & Hf0 & Hp).
  destruct Hi as ((Hcs & _) & _). set (D := 60 * m - 1 - nSeconds t) in *.
  set (e := (nSeconds t + s) mod 60) in *.
  assert (e = nSeconds t + s - late ∧ 1 <= e <= 59) as [He Heb].
  { unfold e, late. case_if; to_prop; [rewrite Z.mod_small; lia|].
    replace (nSeconds t + s) with (nSeconds t + s - 60 + 1 * 60) by lia.
    rewrite Z_mod_plus_full, Z.mod_small; lia. }
  destruct (parked_ticks D e 1 id f t0 (Z.to_nat D) Hc0 ltac:(lia) Hp ltac:(lia))
    as (ta & Hta & Hca & Hfa & Hpa).
  replace (D - Z.of_nat (Z.to_nat D)) with 0 in Hpa by lia.
  destruct (parked_due e 1 id f ta Hca ltac:(lia) Hpa) as (tb & Htb & Hcb & Hdue).
  rewrite (proj2 (Z.ltb_lt 0 e)) in Hdue by lia. destruct Hdue as [Hfb Harm].
  destruct (armed_ticks e 1 id f e 0 tb (Z.to_nat e) ltac:(lia) ltac:(lia) Hcb ltac:(lia) ltac:(lia) (Harm eq_refl))
    as (t1 & Ht1 & Hc1 & Hf1 & Ha1).
  replace (e - Z.of_nat (Z.to_nat e)) with 0 in Ha1 by lia.
  destruct (fire_last e 1 id f ltac:(lia) 0 t1 Hc1 Ha1 eq_refl) as (t2 & Ht2 & _ & Hf2 & _).
  exists t0, t1, t2. split; [done|]. split.
  - replace n with (Z.to_nat D + (1 + Z.to_nat e))%nat by (unfold n, D; lia).
    rewrite ticks_add, Hta. cbn [mbind res_bind ticks Nat.add]. by rewrite Htb.
  - split; [congruence|]. split; [done|]. congruence.
Qed.

(** A task of [m] minutes and [s] seconds that falls due on a full
    minute of the clock runs once, at that minute, and never again, whatever
    cycles it was given: the minute wheel runs it without repeating it. *)
Theorem minutes_task_stops m s cyc id f t n :
  1 <= m <= 59 → 0 <= s <= 59 → cyc ≠ 0 → idle_timer id t → (nSeconds t + s) mod 60 = 0 →
  60 * m - nSeconds t <= Z.of_nat n →
  ∃ t0 t', registerOne (addTask (newTimerTask 0 m s cyc id (Some f)) t) = Ok t0 ∧
    ticks n t0 = Ok t' ∧ fired t' = fired t ++ [f].
Proof.
  intros Hm Hs Hcyc Hi He Hn.
  destruct (minutes_registered m s cyc id f t Hm Hs Hcyc Hi) as (t0 & Ht0 & Hc0 & Hf0 & Hp).
  rewrite He in Hp. destruct Hi as ((Hcs & _) & _). set (D := 60 * m - 1 - nSeconds t) in *.
  destruct (parked_ticks D 0 cyc id f t0 (Z.to_nat D) Hc0 ltac:(lia) Hp ltac:(lia))
    as (ta & Hta & Hca & Hfa & Hpa).
  replace (D - Z.of_nat (Z.to_nat D)) with 0 in Hpa by lia.
  destruct (parked_due 0 cyc id f ta Hca ltac:(lia) Hpa) as (tb & Htb & Hcb & Hfb & Hwb).
  destruct (blank_ticks (n - Z.to_nat D - 1) tb Hcb Hwb) as (t' & Ht' & Hf' & _).
  exists t0, t'. split; [done|]. split; [|congruence].
  replace n with (Z.to_nat D + (1 + (n - Z.to_nat D - 1)))%nat by lia.
  rewrite ticks_add, Hta. cbn [mbind res_bind ticks Nat.add]. by rewrite Htb.
Qed.

(** [offset] adds the two times up to the carry of its seconds into the
    minutes, which it loses; it counts that carry for the hours alone. *)
Theorem offset_carry hrs mins secs (t : TimerTask) :
  0 <= mHours t < 2 ^ 63 → 0 <= mMinutes t < 60 → 0 <= mSeconds t < 60 →
  0 <= hrs < 2 ^ 62 → 0 <= mins < 60 → 0 <= secs < 60 →
  let total t := 3600 * mHours t + 60 * mMinutes t + mSeconds t in
  total (offset hrs mins secs t) =
  total t + 3600 * hrs + 60 * mins + secs
    - (if mSeconds t + secs <? 60 then 0 else 60)
    + (if ((60 <=? mSeconds t + secs) && ((mMinutes t + mins + 1) mod 60 =? 0))%Z then 3600 else 0).
Proof.
  intros Hh Hm Hs Hhrs Hmins Hsecs total. unfold total, offset. cbn [mHours mMinutes mSeconds].
  assert (size_max = 18446744073709551616) as Hmax by done.
  rewrite (u64_small (mSeconds t + secs)), (u64_small (mMinutes t + mins)) by lia.
  set (S := mSeconds t + secs) in *. set (M := mMinutes t + mins) in *.
  assert (0 <= S / 60 <= 1) by (split; [apply Z.div_pos|apply Z.lt_succ_r, Z.div_lt_upper_bound]; lia).
  rewrite (u64_small (M + _)) by lia.
  assert (0 <= (M + S / 60) / 60 <= 1)
    by (split; [apply Z.div_pos|apply Z.lt_succ_r, Z.div_lt_upper_bound]; lia).
  rewrite u64_small by lia.
  pose proof (Z.div_mod S 60 ltac:(lia)). pose proof (Z.div_mod M 60 ltac:(lia)).
  pose proof (Z.div_mod (M + S / 60) 60 ltac:(lia)).
  pose proof (Z.mod_pos_bound S 60 ltac:(lia)). pose proof (Z.mod_pos_bound M 60 ltac:(lia)).
  pose proof (Z.mod_pos_bound (M + S / 60) 60 ltac:(lia)).
  destruct (S <? 60) eqn:HS; to_prop.
  - rewrite (proj2 (Z.leb_gt 60 S)) by lia. cbn [andb]. assert (S / 60 = 0) as E by lia.
    rewrite E, Z.add_0_r in *. lia.
  - rewrite (proj2 (Z.leb_le 60 S)) by lia. cbn [andb]. assert (S / 60 = 1) as E by lia.
    rewrite E in *. destruct ((M + 1) mod 60 =? 0) eqn:HM; to_prop; lia.
Qed.

(** The hours since the start never wrap, so a task of [h] hours enters
    the wheel with a round more for every day the timer has run. *)
Theorem hours_task_rounds h cyc id f t :
  1 <= h < 2 ^ 62 → nHours t < 2 ^ 62 → cyc ≠ 0 → idle_timer id t →
  ∃ t0 node, registerOne (addTask (newTimerTask h 0 0 cyc id (Some f)) t) = Ok t0 ∧
    slot ((h + nHours t - 1) mod 24 + 120) t0 = Ok [node] ∧
    mRound node = (h + nHours t) / 24.
Proof.
  intros Hh Hh2 Hcyc Hi. unfold newTimerTask.
  change (u64 (0 + 0 / 60)) with 0. change (0 mod 60) with 0. change (0 / 60) with 0.
  assert (size_max = 18446744073709551616) as Hmax by done.
  rewrite Z.add_0_r, (u64_small h) by lia. rewrite registerOne_spec by done.
  set (task := mkTask h 0 0 cyc id (Some f)).
  destruct (registered_in_frame task t) as (Es & Em & Eh & Ew & Ef & _).
  set (t1 := registered_in task t) in *. destruct Hi as ((Hcs & Hcm & Hch) & Hw & _ & _).
  unfold addTimerNodeFor. cbn [mHours mMinutes mSeconds task].
  rewrite (proj2 (Z.eqb_neq h 0)) by lia. cbn [negb andb].
  rewrite Eh, (u64_small (h + _ - 1)) by lia.
  unfold mHourSlotsNum, mMinuteSlotsNum, mSecondSlotsNum.
  pose proof (Z.mod_pos_bound (h + nHours t - 1) 24 ltac:(lia)).
  replace ((h + nHours t - 1) mod 24 + 60 + 60) with ((h + nHours t - 1) mod 24 + 120) by lia.
  rewrite push_blank by (done || by rewrite Ew || lia). eexists _, _. split; [done|].
  split.
  { unfold slot. cbn [mTimeWheel set_wheel].
    by rewrite list_lookup_insert_eq by (rewrite length_blank; lia). }
  unfold newTimerNode, offset, task. cbn [mRound mHours mMinutes mSeconds]. rewrite Em, Es.
  rewrite (u64_small (0 + nSeconds t)), (Z.div_small (0 + nSeconds t)) by lia.
  rewrite (u64_small (0 + nMinutes t + 0)), (Z.div_small (0 + nMinutes t + 0)) by lia.
  rewrite Z.add_0_r, u64_small by lia. case_if; to_prop; [done|].
  rewrite Z.div_small; lia.
Qed.

End Timer.
Arguments TimerTask : clear implicits.
Arguments TimerNode : clear implicits.
Arguments TimeWheelTimer : clear implicits.

(** Small runs: how many times a task has fired after [n] ticks. *)
Definition fired_after (h m s cyc : Z) (clock : Z * Z * Z) (n : nat) : option nat :=
  let '(c1, c2, c3) := clock in
  match registerOne (addTask (newTimerTask h m s cyc (lit "id") (Some tt)) (set_clock c3 c2 c1 newTimer)) with
  | Ok t => match ticks n t with Ok t => Some (length (fired t)) | Err _ => None end
  | Err _ => None
  end.

Example fire_seconds : fired_after 0 0 5 (-1) (0, 0, 0) <$> [5%nat; 6%nat; 10%nat; 11%nat; 61%nat]
  = [Some 0; Some 1; Some 1; Some 2; Some 12]%nat.
Proof. vm_compute. reflexivity. Qed.
Example fire_n_times : fired_after 0 0 2 3 (0, 0, 59) 40%nat = Some 3%nat.
Proof. vm_compute. reflexivity. Qed.
(** Ninety seconds, set at second 40, are over after 31 ticks. *)
Example fire_early : fired_after 0 1 30 1 (0, 0, 40) <$> [30%nat; 31%nat] = [Some 0; Some 1]%nat.
Proof. vm_compute. reflexivity. Qed.
(** A task of every minute: from second 0 it fires once and stops. *)
Example fire_once : fired_after 0 1 0 (-1) (0, 0, 0) 600%nat = Some 1%nat.
Proof. vm_compute. reflexivity. Qed.
Example fire_minutes : fired_after 0 1 0 (-1) (0, 0, 7) 600%nat = Some 9%nat.
Proof. vm_compute. reflexivity. Qed.

(** ** Witnesses *)

(** A timer with an empty wheel, some hours after its start. *)
Definition demo_timer : TimeWheelTimer unit := set_clock 40 58 30 newTimer.

Lemma demo_timer_idle id : idle_timer id demo_timer.
Proof. split; [|done]. repeat split; by vm_compute. Qed.

Lemma seconds_task_schedule_witness :
  ∃ t0 t', registerOne (addTask (newTimerTask 0 0 7 3 (lit "id") (Some tt)) demo_timer) = Ok t0 ∧
    ticks 100 t0 = Ok t' ∧ fired t' = fired demo_timer ++ replicate (runs_by 7 3 100) tt.
Proof. apply seconds_task_schedule; [lia|lia|apply demo_timer_idle]. Defined.

Lemma minutes_task_run_witness :
  let n := Z.to_nat (60 * 1 + 30 - 60) in
  ∃ t0 t1 t2, registerOne (addTask (newTimerTask 0 1 30 1 (lit "id") (Some tt)) demo_timer) = Ok t0 ∧
    ticks n t0 = Ok t1 ∧ fired t1 = fired demo_timer ∧
    tick t1 = Ok t2 ∧ fired t2 = fired demo_timer ++ [tt].
Proof.
  apply (minutes_task_run 1 30 (lit "id") tt demo_timer); [lia|lia|apply demo_timer_idle|done].
Defined.

Lemma minutes_task_stops_witness :
  ∃ t0 t', registerOne (addTask (newTimerTask 0 2 20 (-1) (lit "id") (Some tt)) demo_timer) = Ok t0 ∧
    ticks 5000 t0 = Ok t' ∧ fired t' = fired demo_timer ++ [tt].
Proof.
  apply minutes_task_stops; [lia|lia|lia|apply demo_timer_idle|done|]. by vm_compute.
Defined.

Lemma offset_carry_witness :
  let t := mkTask 1 30 40 1 (lit "id") (Some tt) in
  let total (t : TimerTask unit) := 3600 * mHours t + 60 * mMinutes t + mSeconds t in
  total (offset 2 10 30 t) = total t + 3600 * 2 + 60 * 10 + 30
    - (if mSeconds t + 30 <? 60 then 0 else 60)
    + (if ((60 <=? mSeconds t + 30) && ((mMinutes t + 10 + 1) mod 60 =? 0))%Z then 3600 else 0).
Proof. intros t total. apply (offset_carry 2 10 30 t); cbn; lia. Defined.

Lemma hours_task_rounds_witness :
  ∃ t0 node, registerOne (addTask (newTimerTask 1 0 0 1 (lit "id") (Some tt)) demo_timer) = Ok t0 ∧
    slot ((1 + nHours demo_timer - 1) mod 24 + 120) t0 = Ok [node] ∧
    mRound node = (1 + nHours demo_timer) / 24.
Proof. apply (hours_task_rounds 1 1 (lit "id") tt demo_timer); [lia|by vm_compute|lia|apply demo_timer_idle]. Defined.
