(* ===== verification/TimerThreads.v ===== *)
(** * The two threads of the time wheel: [Base/utility/Timer.{h,cpp}]

    [Timer] has the body of each thread; here are the loops around them, [stop],
    [join] and the destructor.  The thread of the ticks looks at [mRunning] only
    once in sixty passes. *)

From S2P Require Import Prelude.
From S2P Require SafeQueue.
From S2P Require Import Timer.

Local Open Scope Z_scope.

(** ** The literals *)

Definition _hours (hours : Z) : Z := u64 hours.
Definition _minutes (minutes : Z) : Z := u64 minutes.
Definition _seconds (seconds : Z) : Z := u64 seconds.
Definition _milliseconds (milliseconds : Z) : Z := u64 milliseconds.

Section TimerThreads.
Context {F : Type}.
Abbreviation TimerNode := (@TimerNode F).
Abbreviation TimerTask := (@TimerTask F).
Abbreviation TimeWheelTimer := (@TimeWheelTimer F).

(** ** [TimerNode] *)

Definition hasSeconds (n : TimerNode) : bool := mHasSeconds n.
Definition hasMinutes (n : TimerNode) : bool := mHasMinutes n.
Definition hasHours (n : TimerNode) : bool := mHasHours n.
Definition getSeconds (n : TimerNode) : Z := mSeconds (mTimerTask n).
Definition getMinutes (n : TimerNode) : Z := mMinutes (mTimerTask n).
Definition getHours (n : TimerNode) : Z := mHours (mTimerTask n).
Definition getTimerTask (n : TimerNode) : TimerTask := mTimerTask n.
Definition getId (n : TimerNode) : str := mID (mTimerTask n).
Definition getCycNum (n : TimerNode) : Z := mCycleNumber (mTimerTask n).
Definition getTaskFunc (n : TimerNode) : option F := mTask (mTimerTask n).
Definition getRound (n : TimerNode) : Z := mRound n.

(** [std::swap(a, b)]: [T c(a); a = b; b = c;] *)
Definition std_swap (assign : TimerNode → TimerNode → option TimerNode) (a b : TimerNode) : option (TimerNode * TimerNode) :=
  let c := a in a ← assign a b; b ← assign b c; Some (a, b).

(** [operator=] of two objects that are not the same one; [depth] bounds the calls
    that are open.  [std::swap] assigns with this very operator. *)
Fixpoint assign (depth : nat) (this tn : TimerNode) : option TimerNode :=
  match depth with
  | O => None
  | S depth => let tmp := tn in '(this, tmp) ← std_swap (assign depth) this tmp; Some this
  end.

(** ** The threads *)

Record Threads := mkThreads {
  wheel : TimeWheelTimer;
  mRunning : bool;
  ticking : option Z;         (* the pass of [tick] the thread is at; [None] when it has returned *)
  registering : bool }.       (* [registerTask] has not returned *)

(** Once the constructor has filled the wheel. *)
Definition newThreads : Threads := mkThreads newTimer true (Some 0) true.

Definition stop (s : Threads) : Threads := mkThreads (wheel s) false (ticking s) (registering s).

(** [join] returns when both threads have. *)
Definition join_returns (s : Threads) : bool := negb (registering s) && bool_decide (ticking s = None).

(** The members the destructor clears once [join] has returned. *)
Definition destroyTimer (s : Threads) : option Threads :=
  if join_returns s then
    let t := set_wheel [] (wheel s) in
    let t := set_entry (SafeQueue.clear (mTaskEntry t)) t in
    let t := set_registered ∅ t in
    Some (mkThreads t (mRunning s) (ticking s) (registering s))
  else None.

Inductive event :=
  | Tick                       (* a second: a pass of the loop of [tick] *)
  | Register                   (* a pass of the loop of [registerTask] *)
  | Add (t : TimerTask)
  | Stop.

Definition tick_pass (s : Threads) : res Threads :=
  match ticking s with
  | None => Ok s
  | Some i =>
      t ← tick (wheel s);
      let i := i + 1 in
      Ok (mkThreads t (mRunning s) (if i <? mSecondSlotsNum then Some i else if mRunning s then Some 0 else None) (registering s))
  end.

Definition register_pass (s : Threads) : res Threads :=
  if registering s then
    if mRunning s then t ← registerOne (wheel s); Ok (mkThreads t (mRunning s) (ticking s) true)
    else Ok (mkThreads (wheel s) (mRunning s) (ticking s) false)
  else Ok s.

Definition step (e : event) (s : Threads) : res Threads :=
  match e with
  | Tick => tick_pass s
  | Register => register_pass s
  | Add t => Ok (mkThreads (addTask t (wheel s)) (mRunning s) (ticking s) (registering s))
  | Stop => Ok (stop s)
  end.

Fixpoint run (es : list event) (s : Threads) : res Threads :=
  match es with [] => Ok s | e :: es => s ← step e s; run es s end.

Definition is_tick (e : event) : bool := match e with Tick => true | _ => false end.
Definition tick_count (es : list event) : Z := Z.of_nat (length (filter (λ e, is_tick e = true) es)).
Definition stops (e : event) : bool := match e with Stop => true | _ => false end.

(** ** What [stop] comes to *)

(** The pass the thread is at after some more ticks, once [stop] was called. *)
Definition after (i n : Z) : option Z := if i + n <? mSecondSlotsNum then Some (i + n) else None.

Lemma tick_count_cons e es : tick_count (e :: es) = (if is_tick e then 1 else 0) + tick_count es.
Proof.
  unfold tick_count. destruct (is_tick e) eqn:He.
  - rewrite filter_cons_True by done. cbn [length]. lia.
  - by rewrite filter_cons_False by congruence.
Qed.

Lemma run_ended es s s' : run es s = Ok s' → ticking s = None → ticking s' = None.
Proof.
  revert s. induction es as [|e es IH]; intros s; cbn [run]; [by intros [= ->]|].
  destruct (step e s) as [s1|] eqn:E; [|done]. cbn [mbind res_bind]. intros Hr Hs. apply (IH s1 Hr).
  destruct e; cbn [step] in E.
  - unfold tick_pass in E. rewrite Hs in E. by injection E as <-.
  - unfold register_pass in E. repeat case_if_in E; [destruct (registerOne _)|..]; cbn [mbind res_bind] in E; try done; by injection E as <-.
  - by injection E as <-.
  - by injection E as <-.
Qed.

Lemma step_running e s s' : step e s = Ok s' → mRunning s' = (mRunning s && negb (stops e)).
Proof.
  destruct e; cbn [step stops].
  - unfold tick_pass. destruct (ticking s); [destruct (tick _); cbn [mbind res_bind]; [|done]|]; intros [= <-]; cbn; by rewrite andb_true_r.
  - unfold register_pass. destruct (registering s) eqn:Hr; [|intros [= <-]; by rewrite andb_true_r].
    destruct (mRunning s) eqn:Hm; [destruct (registerOne _); cbn [mbind res_bind]; [|done]|]; intros [= <-]; cbn; by rewrite ?Hm.
  - intros [= <-]. cbn. by rewrite andb_true_r.
  - intros [= <-]. cbn. by rewrite andb_false_r.
Qed.

Lemma step_ticking e s s' i : step e s = Ok s' → ticking s = Some i →
  ticking s' = if is_tick e then (if i + 1 <? mSecondSlotsNum then Some (i + 1) else if mRunning s then Some 0 else None) else Some i.
Proof.
  destruct e; cbn [step is_tick]; intros Hs Hi.
  - unfold tick_pass in Hs. rewrite Hi in Hs. destruct (tick _); cbn [mbind res_bind] in Hs; [|done]. by injection Hs as <-.
  - unfold register_pass in Hs. destruct (registering s); [|by injection Hs as <-].
    destruct (mRunning s); [destruct (registerOne _); cbn [mbind res_bind] in Hs; [|done]|]; by injection Hs as <-.
  - by injection Hs as <-.
  - by injection Hs as <-.
Qed.

Lemma ticking_after es s s' i : mRunning s = false → ticking s = Some i → 0 <= i < mSecondSlotsNum → run es s = Ok s' →
  ticking s' = after i (tick_count es).
Proof.
  unfold mSecondSlotsNum. revert s i. induction es as [|e es IH]; intros s i Hm Hi Hb; cbn [run].
  { intros [= <-]. unfold after, tick_count, mSecondSlotsNum. cbn. rewrite Z.add_0_r, Hi. by rewrite (proj2 (Z.ltb_lt _ _)) by lia. }
  destruct (step e s) as [s1|] eqn:E; [|done]. cbn [mbind res_bind]. intros Hr. rewrite tick_count_cons.
  pose proof (step_running _ _ _ E) as Hm1. rewrite Hm in Hm1. pose proof (step_ticking _ _ _ _ E Hi) as Ht. rewrite Hm in Ht.
  unfold mSecondSlotsNum in Ht. destruct (is_tick e); [destruct (Z.ltb_spec (i + 1) 60)|].
  - rewrite (IH s1 (i + 1) Hm1 Ht ltac:(lia) Hr). unfold after, mSecondSlotsNum.
    by replace (i + 1 + tick_count es) with (i + (1 + tick_count es)) by lia.
  - rewrite (run_ended _ _ _ Hr Ht). unfold after, mSecondSlotsNum. rewrite (proj2 (Z.ltb_ge _ _)); [done|].
    unfold tick_count. lia.
  - by rewrite (IH s1 i Hm1 Ht Hb Hr).
Qed.

Definition is_register (e : event) : bool := match e with Register => true | _ => false end.

Lemma registering_stopped es s s' : mRunning s = false → run es s = Ok s' →
  registering s' = registering s && negb (existsb is_register es).
Proof.
  revert s. induction es as [|e es IH]; intros s Hm; cbn [run existsb]; [intros [= <-]; by rewrite andb_true_r|].
  destruct (step e s) as [s1|] eqn:E; [|done]. cbn [mbind res_bind]. intros Hr.
  pose proof (step_running _ _ _ E) as Hm1. rewrite Hm in Hm1. rewrite (IH s1 Hm1 Hr).
  destruct e; cbn [step is_register orb] in *.
  - unfold tick_pass in E. destruct (ticking s); [destruct (tick _); cbn [mbind res_bind] in E; [|done]|]; by injection E as <-.
  - unfold register_pass in E. destruct (registering s) eqn:Hg; [|injection E as <-; by rewrite Hg].
    rewrite Hm in E. by injection E as <-.
  - by injection E as <-.
  - by injection E as <-.
Qed.

(** C28: once [stop] was called the thread of the ticks goes on to the end of its
    sixty passes: after [n] more seconds it is that much further, with every task
    that falls due run as before, and only when the sixtieth is done has it
    returned.  The other thread returns at its next pass.  Only then does [join]
    return, and what the destructor leaves is an empty timer. *)
Theorem stop_waits es s s' i :
  mRunning s = false → ticking s = Some i → 0 <= i < mSecondSlotsNum → registering s = true → run es s = Ok s' →
  ticking s' = after i (tick_count es) ∧
  join_returns s' = (mSecondSlotsNum <=? i + tick_count es) && existsb is_register es ∧
  (join_returns s' = true → ∃ s2, destroyTimer s' = Some s2 ∧
     mTimeWheel (wheel s2) = [] ∧ mTaskEntry (wheel s2) = [] ∧ mRegisteredTasks (wheel s2) = ∅).
Proof.
  intros Hm Hi Hb Hg Hr. pose proof (ticking_after es s s' i Hm Hi Hb Hr) as Ht.
  split; [done|]. split.
  - unfold join_returns. rewrite (registering_stopped es s s' Hm Hr), Hg, Ht, negb_andb, negb_involutive. cbn [negb orb].
    unfold after. rewrite Z.leb_antisym. destruct (i + tick_count es <? mSecondSlotsNum); cbn.
    + by rewrite andb_false_r.
    + by rewrite andb_true_r.
  - intros Hj. unfold destroyTimer. rewrite Hj. eexists. split; [done|]. split_and!; [done| |done]. apply SafeQueue.clear_empty.
Qed.

(** Nothing in the destructor calls [stop]: without it the threads never return, and
    whoever destroys the timer waits for ever. *)
Theorem destroyed_without_stop es s' :
  Forall (λ e, stops e = false) es → run es newThreads = Ok s' → destroyTimer s' = None.
Proof.
  assert (∀ s, mRunning s = true → is_Some (ticking s) → Forall (λ e, stops e = false) es → run es s = Ok s' →
    is_Some (ticking s')) as Hgen.
  { clear. induction es as [|e es IH]; intros s Hm [i Hi] He; cbn [run]; [intros [= <-]; by eexists|].
    apply Forall_cons in He as [He1 He]. destruct (step e s) as [s1|] eqn:E; [|done]. cbn [mbind res_bind].
    apply IH; [by rewrite (step_running _ _ _ E), Hm, He1| |done].
    rewrite (step_ticking _ _ _ _ E Hi), Hm. destruct (is_tick e); [case_if|]; by eexists. }
  intros He Hr. destruct (Hgen newThreads eq_refl ltac:(by eexists) He Hr) as [i Hi].
  unfold destroyTimer, join_returns. by rewrite Hi, andb_false_r.
Qed.

(** An assignment of a node to another never returns: however many calls may be
    open, one more is made. *)
Theorem assignment_never_returns depth this tn : assign depth this tn = None.
Proof.
  revert this tn. induction depth as [|depth IH]; intros this tn; [done|].
  cbn [assign]. unfold std_swap. by rewrite (IH this tn).
Qed.
End TimerThreads.

(** ** Witness: [stop] in the fifty-eighth second, with a task due in the next *)

Definition stopping : @Threads Z :=
  mkThreads (set_clock 58 0 0 (set_wheel (<[58%nat := [newTimerNode (newTimerTask 0 0 58 1 (lit "t") (Some 7))]]> (mTimeWheel newTimer)) newTimer))
    false (Some 58) true.

Lemma stop_waits_witness :
  ∃ s', run [Tick; Register; Tick] stopping = Ok s' ∧ fired (wheel s') = [7] ∧ ticking s' = None ∧ join_returns s' = true.
Proof.
  destruct (run [Tick; Register; Tick] stopping) as [s'|] eqn:E; [|by vm_compute in E].
  exists s'. split; [done|]. assert (fired (wheel s') = [7]) as Hf by (vm_compute in E; by injection E as <-).
  destruct (stop_waits [Tick; Register; Tick] stopping s' 58 eq_refl eq_refl ltac:(by vm_compute) eq_refl E) as (Ht & Hj & _).
  by rewrite Ht, Hj.
Defined.
