(* ===== verification/IOBuffer.v ===== *)
(** * Socket buffers: [Base/net/IOBuffer.h]

    [read] and [write] make one system call each; what the kernel answers is
    an argument.  The memory [mData] is modelled byte by byte, so that the
    scatter read, the growth and the decay of the buffer are proved to hand
    over exactly the bytes received. *)

From S2P Require Import Prelude BaseMessage.

Local Open Scope Z_scope.

(** [NetParam.h] *)
Definition IO_BUFFER_INITIAL_SIZE : Z := 1024.
Definition IO_BUFFER_MAX_SIZE : Z := 1024 * 64.
Definition IO_BUFFER_DECAY_LIMIT : Z := 5.
Definition POLL_TIMEOUT_MS : Z := 5000.

Record IOBuffer := mkIOBuffer {
  mFD : Z;
  mData : str;
  mCurrSize : Z;
  mDecayNum : Z;              (* unsigned short *)
  mDataQueue : list str }.

Definition mInitSize : Z := IO_BUFFER_INITIAL_SIZE.
Definition mMaxSize : Z := IO_BUFFER_MAX_SIZE.
Definition mContinuousDecayLimit : Z := IO_BUFFER_DECAY_LIMIT.

Definition zeroes (n : Z) : str := replicate (Z.to_nat n) (byte_of 0).

Definition newIOBuffer (fd : Z) : IOBuffer := mkIOBuffer fd (zeroes mInitSize) mInitSize 0 [].

Definition set_queue (q : list str) (b : IOBuffer) : IOBuffer :=
  mkIOBuffer (mFD b) (mData b) (mCurrSize b) (mDecayNum b) q.

Definition put (s : str) (b : IOBuffer) : IOBuffer := set_queue (mDataQueue b ++ [s]) b.

Definition get (b : IOBuffer) : IOBuffer * option str :=
  match mDataQueue b with
  | [] => (b, None)
  | s :: q => (set_queue q b, Some s)
  end.

Definition getCurrentSize (b : IOBuffer) : Z := mCurrSize b.
Definition getFD (b : IOBuffer) : Z := mFD b.
Definition empty (b : IOBuffer) : bool := match mDataQueue b with [] => true | _ => false end.

(** The answer of the kernel to [readv]/[read]: bytes, or an error. *)
Inductive sys_read := Received (bs : str) | ReadError.

(** What a buffer offers to the kernel. *)
Definition capacity (b : IOBuffer) : Z := if mCurrSize b <? mMaxSize then mMaxSize else mCurrSize b.

(** The kernel writes [bs] at the start of the memory [d] of which it was
    offered [n] bytes. *)
Definition fill (bs : str) (n : Z) (d : str) : res str :=
  if (strlen d <? n) || (n <? strlen bs) then Err OutOfBounds
  else Ok (bs ++ drop (length bs) d).

Definition read (answer : sys_read) (b : IOBuffer) : res (IOBuffer * Z) :=
  match answer with
  | ReadError => Ok (b, -1)
  | Received bs =>
      let n := strlen bs in
      b ← (if mCurrSize b <? mMaxSize then
             (* readv into mData, then extraBuff *)
             let extraBuff := drop (Z.to_nat (mCurrSize b)) bs in
             if mMaxSize - mCurrSize b <? strlen extraBuff then Err OutOfBounds else
             d ← fill (take (Z.to_nat (mCurrSize b)) bs) (mCurrSize b) (mData b);
             if mCurrSize b =? 0 then Err DivByZero else
             let multiple := n / mCurrSize b in
             if multiple <? 1 then
               let decay := u16 (mDecayNum b + 1) in
               Ok (mkIOBuffer (mFD b) d
                     (if mContinuousDecayLimit <=? decay then mInitSize else mCurrSize b)
                     decay (mDataQueue b))
             else
               Ok (mkIOBuffer (mFD b) (d ++ extraBuff)
                     (if u64 (u64 (multiple + 1) * mInitSize) <? mMaxSize
                      then u64 (u64 (multiple + 1) * mInitSize) else mMaxSize)
                     0 (mDataQueue b))
           else
             d ← fill bs (mCurrSize b) (mData b);
             Ok (mkIOBuffer (mFD b) d (mCurrSize b) (mDecayNum b) (mDataQueue b)));
      if 0 <? n then
        chunk ← readBytes (mData b) 0 n;
        let b := put chunk b in
        Ok (mkIOBuffer (mFD b) (zeroes (mCurrSize b)) (mCurrSize b) (mDecayNum b) (mDataQueue b), n)
      else Ok (b, n)
  end.

(** [answer] is what [::write] returned: the bytes taken, or a negative number. *)
Definition write (buf : str) (answer : Z) (b : IOBuffer) : IOBuffer * Z :=
  if answer <? 0 then (b, answer)
  else
    let remaining := u64 (strlen buf - answer) in
    (if 0 <? remaining then put (drop (Z.to_nat answer) buf) b else b, answer).

(** ** The invariant between calls *)

Record ok (b : IOBuffer) : Prop := {
  ok_data : strlen (mData b) = mCurrSize b;
  ok_low : mInitSize <= mCurrSize b;
  ok_high : mCurrSize b <= mMaxSize }.

Lemma strlen_zeroes n : 0 <= n → strlen (zeroes n) = n.
Proof. intros. unfold strlen, zeroes. rewrite length_replicate. lia. Qed.

Lemma new_ok fd : ok (newIOBuffer fd).
Proof. split; [by apply strlen_zeroes|done|done]. Qed.

Lemma readBytes_prefix bs d : readBytes (bs ++ d) 0 (strlen bs) = Ok bs.
Proof. apply (readBytes_app []). Qed.

Lemma fill_ok bs n d : strlen d = n → strlen bs <= n → fill bs n d = Ok (bs ++ drop (length bs) d).
Proof.
  intros Hd Hb. unfold fill. rewrite (proj2 (Z.ltb_ge _ _)), (proj2 (Z.ltb_ge _ _)) by lia. done.
Qed.

(** The queue part of a buffer, which is all that its clients see. *)
Definition received (b b' : IOBuffer) (bs : str) : Prop :=
  mDataQueue b' = mDataQueue b ++ [bs] ∧ mFD b' = mFD b ∧ ok b'.

Lemma read_put b fd d c k bs :
  mInitSize <= c <= mMaxSize → 0 < strlen bs → readBytes d 0 (strlen bs) = Ok bs →
  mFD b = fd →
  ∃ b', (chunk ← readBytes d 0 (strlen bs);
         let b1 := put chunk (mkIOBuffer fd d c k (mDataQueue b)) in
         Ok (mkIOBuffer (mFD b1) (zeroes (mCurrSize b1)) (mCurrSize b1) (mDecayNum b1)
               (mDataQueue b1), strlen bs)) = Ok (b', strlen bs) ∧ received b b' bs.
Proof.
  intros Hc Hn Hr Hfd. rewrite Hr. eexists. split; [done|]. split; [done|]. split; [done|].
  split; cbn; [|lia..]. apply strlen_zeroes. unfold mInitSize, IO_BUFFER_INITIAL_SIZE in Hc. lia.
Qed.

Lemma read_received b bs :
  ok b → 0 < strlen bs <= capacity b →
  ∃ b', read (Received bs) b = Ok (b', strlen bs) ∧ received b b' bs.
Proof.
  intros [Hd Hl Hh] [Hn Hcap]. unfold read, capacity in *.
  assert (mInitSize = 1024 ∧ mMaxSize = 65536) as [Hi Hm] by done.
  assert (size_max = 18446744073709551616) as Hmax by done.
  destruct (mCurrSize b <? mMaxSize) eqn:Hcm; to_prop.
  - set (c := mCurrSize b) in *. set (h := take (Z.to_nat c) bs). set (x := drop (Z.to_nat c) bs).
    assert (h ++ x = bs) as Hhx by apply take_drop.
    assert (strlen h = Z.min c (strlen bs)) as Hlh.
    { unfold h, strlen. rewrite length_take. lia. }
    assert (strlen bs = strlen h + strlen x) as Hsum by (by rewrite <- strlen_app, Hhx).
    rewrite (proj2 (Z.ltb_ge _ (strlen x))) by (unfold strlen in *; lia). rewrite fill_ok by lia.
    cbn [mbind res_bind]. rewrite (proj2 (Z.eqb_neq c 0)) by lia.
    destruct (strlen bs / c <? 1) eqn:Hmul; to_prop; cbn [mbind res_bind];
      rewrite (proj2 (Z.ltb_lt 0 _)) by lia; apply read_put; try done.
    + case_if; lia.
    + assert (strlen bs < c) by (pose proof (Z.div_le_lower_bound (strlen bs) c 1); lia).
      cbn [mData]. assert (x = []) as Hx0.
      { apply nil_length_inv. unfold strlen in *. lia. }
      rewrite <- Hhx, Hx0, app_nil_r. apply readBytes_prefix.
    + pose proof (Z.div_le_upper_bound (strlen bs) c (strlen bs)) as Hub.
      assert (strlen bs / c <= strlen bs) by (apply Hub; nia).
      rewrite (u64_small (_ + 1)), u64_small by nia. case_if; to_prop; nia.
    + assert (c <= strlen bs) as Hge.
      { apply Z.nlt_ge. intros Hlt. rewrite Z.div_small in Hmul by lia. lia. }
      cbn [mData]. rewrite drop_ge by (unfold strlen in *; lia). rewrite app_nil_r, Hhx.
      rewrite <- (app_nil_r bs) at 1. apply readBytes_prefix.
  - rewrite fill_ok by lia. cbn [mbind res_bind]. rewrite (proj2 (Z.ltb_lt 0 _)) by lia.
    apply read_put; [lia|done| |done]. apply readBytes_prefix.
Qed.

(** ** Properties *)

(** C25: reading hands over exactly the bytes the kernel delivered, as one chunk
    at the end of the queue, through every growth and decay of the buffer, whose
    size stays between its bounds. *)
Theorem read_appends b bs :
  ok b → 0 < strlen bs <= capacity b →
  ∃ b', read (Received bs) b = Ok (b', strlen bs) ∧
    mDataQueue b' = mDataQueue b ++ [bs] ∧ ok b'.
Proof.
  intros Hb Hn. destruct (read_received b bs Hb Hn) as (b' & Hr & Hq & _ & Hok). by exists b'.
Qed.

(** ** Witnesses *)

Lemma read_appends_witness :
  ∃ b', read (Received (replicate 3000 (byte_of 7))) (newIOBuffer 5) = Ok (b', strlen (replicate 3000 (byte_of 7))) ∧
    mDataQueue b' = mDataQueue (newIOBuffer 5) ++ [replicate 3000 (byte_of 7)] ∧ ok b'.
Proof. apply read_appends; [apply new_ok|by vm_compute]. Defined.
