(* ===== verification/TcpConnection.v ===== *)
(** * Connections: [Base/net/TcpConnection.h]

    The byte stream of a connection: chunks in [mInputBuffer], the incomplete
    message before them, and the chunks waiting in [mOutputBuffer].  [tryGet]
    is specified on the concatenation [content] of the first two; [frame] is
    the prologue shared by the [messageFunc]s of the servers, which peeks at the
    eight bytes of [MSG_LEN] and then takes the message. *)

From S2P Require Import Prelude BaseMessage IOBuffer.

Local Open Scope Z_scope.

Inductive ConnectionState := Disconnected | Connecting | Connected | Disconnecting.

Record TcpConnection := mkConn {
  mName : str;
  mPeerIP : str;
  mPeerPort : str;
  mCommunicationTimestamp : Z;
  mInputBuffer : IOBuffer;
  mOutputBuffer : IOBuffer;
  mIncompleteMessage : str;
  mState : ConnectionState;
  writing : bool;        (* the handler waits for EPOLLOUT *)
  sent : str;            (* bytes the kernel has accepted *)
  open : bool }.         (* mConnectionSocket is not closed *)

(** The constructor: reading enabled, writing disabled. *)
Definition newTcpConnection (connfd : Z) (ip port name : str) : TcpConnection :=
  mkConn name ip port 0 (newIOBuffer connfd) (newIOBuffer connfd) [] Connected false [] true.

Definition set_in (b : IOBuffer) (c : TcpConnection) : TcpConnection :=
  mkConn (mName c) (mPeerIP c) (mPeerPort c) (mCommunicationTimestamp c) b (mOutputBuffer c)
    (mIncompleteMessage c) (mState c) (writing c) (sent c) (open c).
Definition set_out (b : IOBuffer) (c : TcpConnection) : TcpConnection :=
  mkConn (mName c) (mPeerIP c) (mPeerPort c) (mCommunicationTimestamp c) (mInputBuffer c) b
    (mIncompleteMessage c) (mState c) (writing c) (sent c) (open c).
Definition set_incomplete (s : str) (c : TcpConnection) : TcpConnection :=
  mkConn (mName c) (mPeerIP c) (mPeerPort c) (mCommunicationTimestamp c) (mInputBuffer c)
    (mOutputBuffer c) s (mState c) (writing c) (sent c) (open c).
Definition set_writing (w : bool) (c : TcpConnection) : TcpConnection :=
  mkConn (mName c) (mPeerIP c) (mPeerPort c) (mCommunicationTimestamp c) (mInputBuffer c)
    (mOutputBuffer c) (mIncompleteMessage c) (mState c) w (sent c) (open c).
Definition accept_bytes (s : str) (c : TcpConnection) : TcpConnection :=
  mkConn (mName c) (mPeerIP c) (mPeerPort c) (mCommunicationTimestamp c) (mInputBuffer c)
    (mOutputBuffer c) (mIncompleteMessage c) (mState c) (writing c) (sent c ++ s) (open c).
Definition close_socket (c : TcpConnection) : TcpConnection :=
  mkConn (mName c) (mPeerIP c) (mPeerPort c) (mCommunicationTimestamp c) (mInputBuffer c)
    (mOutputBuffer c) (mIncompleteMessage c) (mState c) (writing c) (sent c) false.

Definition setName (name : str) (c : TcpConnection) : TcpConnection :=
  mkConn name (mPeerIP c) (mPeerPort c) (mCommunicationTimestamp c) (mInputBuffer c)
    (mOutputBuffer c) (mIncompleteMessage c) (mState c) (writing c) (sent c) (open c).
Definition setCurrentTimestamp (t : Z) (c : TcpConnection) : TcpConnection :=
  mkConn (mName c) (mPeerIP c) (mPeerPort c) t (mInputBuffer c)
    (mOutputBuffer c) (mIncompleteMessage c) (mState c) (writing c) (sent c) (open c).

Definition getName (c : TcpConnection) : str := mName c.
Definition getIP (c : TcpConnection) : str := mPeerIP c.
Definition getIPPort (c : TcpConnection) : str := mPeerIP c ++ lit ":" ++ mPeerPort c.
Definition getLastTimetamp (c : TcpConnection) : Z := mCommunicationTimestamp c.

(** ** Sending *)

(** [mOutputBuffer.write(..)], with the bytes the kernel took. *)
Definition write_out (buf : str) (answer : Z) (c : TcpConnection) : TcpConnection :=
  let '(b, _) := write buf answer (mOutputBuffer c) in
  accept_bytes (take (Z.to_nat answer) buf) (set_out b c).

(** [enableWriting(); update(..)] *)
Definition enableWriting (c : TcpConnection) : TcpConnection := set_writing true c.
Definition disableWriting (c : TcpConnection) : TcpConnection := set_writing false c.

Definition send (data : str) (answer : Z) (c : TcpConnection) : TcpConnection :=
  let '(b, msgPtr) := get (mOutputBuffer c) in
  let c := set_out b c in
  match msgPtr with
  | None =>
      let c := write_out data answer c in
      if (0 <? u64 (strlen data - answer)) && (0 <=? answer) then enableWriting c else c
  | Some msg =>
      let c := write_out msg answer c in
      enableWriting (set_out (put data (mOutputBuffer c)) c)
  end.

Definition putToBuffer (data : str) (c : TcpConnection) : TcpConnection :=
  enableWriting (set_out (put data (mOutputBuffer c)) c).

Definition writeFunc (answer : Z) (c : TcpConnection) : TcpConnection :=
  let '(b, strPtr) := get (mOutputBuffer c) in
  let c := set_out b c in
  match strPtr with
  | None => disableWriting c
  | Some s => write_out s answer c
  end.

(** ** Receiving *)

(** [get()] dereferences the null pointer when the queue is empty. *)
Definition get_message (c : TcpConnection) : res (TcpConnection * str) :=
  let '(b, msg) := get (mInputBuffer c) in
  msg ← of_option NullDeref msg;
  Ok (set_in b c, msg).

(** The loop of [tryGet] over the queued chunks. *)
Fixpoint tryGet_loop (q : list str) (len : Z) (takeAway : bool) (inc : str)
    : list str * str * str :=     (* the queue, mIncompleteMessage, res *)
  match q with
  | [] => ([], inc, [])
  | msg :: q =>
      let l := strlen msg in
      if l + strlen inc =? len then
        let inc := inc ++ msg in (q, if takeAway then [] else inc, inc)
      else if l + strlen inc <? len then tryGet_loop q len takeAway (inc ++ msg)
      else
        let inc := inc ++ msg in
        (q, if takeAway then drop (Z.to_nat len) inc else inc, take (Z.to_nat len) inc)
  end.

(** A moved-from string is empty. *)
Definition tryGet (len : Z) (takeAway : bool) (c : TcpConnection) : TcpConnection * str :=
  let inc := mIncompleteMessage c in
  let general :=
    if strlen inc =? len then (set_incomplete [] c, inc)
    else if len <? strlen inc then
      (if takeAway then set_incomplete (drop (Z.to_nat len) inc) c else c, take (Z.to_nat len) inc)
    else
      let '(q, inc, res) := tryGet_loop (mDataQueue (mInputBuffer c)) len takeAway inc in
      (set_incomplete inc (set_in (set_queue q (mInputBuffer c)) c), res) in
  if len <=? 0 then
    match inc with
    | [] =>
        match get (mInputBuffer c) with
        | (b, Some msg) => (set_in b c, msg)
        | (_, None) => general
        end
    | _ => (if takeAway then set_incomplete [] c else c, inc)
    end
  else general.

(** ** Events *)

Section Events.
(** The callbacks of the server that owns the connection, if set. *)
Context (mMessageFunc mCloseFunc : option (TcpConnection → res TcpConnection)).

Definition closeFunc (c : TcpConnection) : res TcpConnection :=
  match mCloseFunc with Some f => f c | None => Ok (close_socket c) end.

(** It passes [strlen] of a buffer it never wrote. *)
Definition errorFunc (c : TcpConnection) : res TcpConnection := Err Uninit.

Definition readFunc (answer : sys_read) (c : TcpConnection) : res TcpConnection :=
  '(b, n) ← read answer (mInputBuffer c);
  let c := set_in b c in
  if 0 <? n then match mMessageFunc with Some f => f c | None => Ok c end
  else if n =? 0 then closeFunc c
  else errorFunc c.

(** The linger option of a forced close is the socket's. *)
Definition activeClose (force : bool) (c : TcpConnection) : res TcpConnection :=
  match mCloseFunc with Some f => f c | None => Ok (close_socket c) end.
End Events.

(** ** The prologue of the servers' [messageFunc] *)

Definition frame (c : TcpConnection) : TcpConnection * option str :=
  let '(c, msg) := tryGet 8 false c in
  match msg with
  | [] => (c, None)
  | _ =>
      let len := of_le (take 8 msg) in
      if 8 <=? len then
        let '(c, msg) := tryGet len true c in
        match msg with [] => (c, None) | _ => (c, Some msg) end
      else (c, None)
  end.

(** ** The stream of a connection *)

Definition content (c : TcpConnection) : str :=
  mIncompleteMessage c ++ mjoin (mDataQueue (mInputBuffer c)).

Definition outgoing (c : TcpConnection) : str :=
  sent c ++ mjoin (mDataQueue (mOutputBuffer c)).

Lemma tryGet_loop_spec q len takeAway inc :
  strlen inc < len →
  ∃ q' inc' r, tryGet_loop q len takeAway inc = (q', inc', r) ∧
    if strlen (inc ++ mjoin q) <? len
    then r = [] ∧ q' = [] ∧ inc' = inc ++ mjoin q
    else r = take (Z.to_nat len) (inc ++ mjoin q) ∧
         inc' ++ mjoin q' = (if takeAway then drop (Z.to_nat len) (inc ++ mjoin q) else inc ++ mjoin q) ∧
         (takeAway = false → len <= strlen inc').
Proof.
  revert inc. induction q as [|msg q IH]; intros inc Hi; cbn [tryGet_loop].
  { eexists _, _, _. split; [done|]. rewrite app_nil_r. by rewrite (proj2 (Z.ltb_lt _ _)). }
  rewrite mjoin_cons, app_assoc. pose proof (strlen_app inc msg) as Hlen.
  pose proof (strlen_nonneg (mjoin q)).
  destruct (strlen msg + strlen inc =? len) eqn:He; to_prop;
    [|destruct (strlen msg + strlen inc <? len) eqn:Hlt; to_prop].
  - eexists _, _, _. split; [done|]. rewrite (strlen_app (inc ++ msg)).
    rewrite (proj2 (Z.ltb_ge _ _)) by lia.
    rewrite take_app_length', drop_app_length' by (unfold strlen in *; lia).
    destruct takeAway; split_and!; try done. lia.
  - apply IH. lia.
  - eexists _, _, _. split; [done|]. rewrite (strlen_app (inc ++ msg)).
    rewrite (proj2 (Z.ltb_ge _ _)) by lia.
    rewrite (take_app_le (inc ++ msg)), (drop_app_le (inc ++ msg)) by (unfold strlen in *; lia).
    destruct takeAway; split_and!; try done. lia.
Qed.

(** What [tryGet] returns and leaves, for a positive length. *)
Lemma tryGet_spec len takeAway c :
  0 < len →
  let '(c', r) := tryGet len takeAway c in
  if strlen (content c) <? len
  then r = [] ∧ content c' = content c ∧ mIncompleteMessage c' = content c
  else r = take (Z.to_nat len) (content c) ∧
    (if takeAway then content c' = drop (Z.to_nat len) (content c)
     else if strlen (mIncompleteMessage c) =? len
     then content c' = drop (Z.to_nat len) (content c)
     else content c' = content c ∧ len <= strlen (mIncompleteMessage c')).
Proof.
  intros Hlen. unfold tryGet. rewrite (proj2 (Z.leb_gt len 0)) by lia.
  set (inc := mIncompleteMessage c). set (q := mDataQueue (mInputBuffer c)).
  change (content c) with (inc ++ mjoin q). pose proof (strlen_nonneg (mjoin q)).
  destruct (strlen inc =? len) eqn:He; to_prop; [|destruct (len <? strlen inc) eqn:Hlt; to_prop].
  - rewrite strlen_app, (proj2 (Z.ltb_ge _ _)) by lia.
    rewrite take_app_length', drop_app_length' by (unfold strlen in *; lia). by destruct takeAway.
  - rewrite strlen_app, (proj2 (Z.ltb_ge _ _)) by lia.
    rewrite take_app_le, drop_app_le by (unfold strlen in *; lia).
    destruct takeAway; split_and!; try done. change (mIncompleteMessage c) with inc. lia.
  - destruct (tryGet_loop_spec q len takeAway inc ltac:(lia)) as (q' & inc' & r & -> & Hr).
    destruct (strlen (inc ++ mjoin q) <? len).
    + destruct Hr as (-> & -> & ->). unfold content. cbn. by rewrite app_nil_r.
    + destruct Hr as (-> & Hc & Hl). split; [done|]. unfold content. cbn.
      destruct takeAway; [done|]. split; [done|]. by apply Hl.
Qed.

(** No header is waiting alone. *)
Definition lone (c : TcpConnection) : Prop := strlen (mIncompleteMessage c) = 8.

Lemma take8_nonempty s : 8 <= strlen s → take 8 s ≠ [].
Proof. unfold strlen. destruct s; cbn; [lia|done]. Qed.

Lemma match_nonempty {A} (l : str) (a b : A) : l ≠ [] → match l with [] => a | _ => b end = b.
Proof. by destruct l. Qed.

(** The length that a stream announces. *)
Definition announced (s : str) : Z := of_le (take 8 s).

Lemma frame_spec c :
  ¬ lone c →
  let s := content c in
  let '(c', r) := frame c in
  if (strlen s <? 8) || (announced s <? 8) || (strlen s <? announced s)
  then r = None ∧ content c' = s
  else r = Some (take (Z.to_nat (announced s)) s) ∧ content c' = drop (Z.to_nat (announced s)) s.
Proof.
  intros Hl s. unfold frame. pose proof (tryGet_spec 8 false c ltac:(lia)) as H1.
  destruct (tryGet 8 false c) as [c1 r1]. fold s in H1.
  destruct (strlen s <? 8) eqn:Hs; to_prop; cbn [orb].
  { by destruct H1 as (-> & -> & _). }
  destruct H1 as (-> & H1). rewrite (proj2 (Z.eqb_neq _ 8)) in H1 by done.
  destruct H1 as (Hc1 & Hi1). change (Z.to_nat 8) with 8%nat.
  rewrite match_nonempty by by apply take8_nonempty.
  rewrite take_take. change (8 `min` 8)%nat with 8%nat. fold (announced s).
  rewrite (Z.ltb_antisym 8). destruct (8 <=? announced s) eqn:Ha; to_prop; cbn [orb negb]; [|done].
  pose proof (tryGet_spec (announced s) true c1 ltac:(lia)) as H2.
  destruct (tryGet (announced s) true c1) as [c2 r2]. rewrite Hc1 in H2.
  destruct (strlen s <? announced s) eqn:Hn; to_prop.
  - by destruct H2 as (-> & -> & _).
  - destruct H2 as (-> & Hc2). rewrite match_nonempty; [done|].
    intros H. apply (f_equal length) in H. rewrite length_take in H. unfold strlen in *. cbn in H. lia.
Qed.

(** A header alone in [mIncompleteMessage] is moved out by the peek. *)
Lemma frame_lone c :
  lone c →
  let rest := mjoin (mDataQueue (mInputBuffer c)) in
  let n := announced (mIncompleteMessage c) in
  strlen rest < n → let '(c', r) := frame c in r = None ∧ content c' = rest.
Proof.
  intros Hl rest n Hn. unfold frame, tryGet at 1. unfold lone in Hl.
  rewrite Hl. change (8 =? 8) with true. change (8 <=? 0) with false. cbv iota.
  rewrite match_nonempty by by intros H; rewrite H in Hl.
  fold (announced (mIncompleteMessage c)). fold n.
  destruct (8 <=? n) eqn:H8; to_prop; [|done].
  pose proof (tryGet_spec n true (set_incomplete [] c) ltac:(lia)) as H2.
  destruct (tryGet n true (set_incomplete [] c)) as [c2 r2].
  change (content (set_incomplete [] c)) with rest in H2.
  rewrite (proj2 (Z.ltb_lt _ _)) in H2 by done. by destruct H2 as (-> & -> & _).
Qed.

(** ** A session of read events *)

(** The chunk a read event appends, then the prologue. *)
Definition on_chunk (chunk : str) (c : TcpConnection) : TcpConnection * option str :=
  frame (set_in (put chunk (mInputBuffer c)) c).

Fixpoint feed (chunks : list str) (c : TcpConnection) : TcpConnection * list str :=
  match chunks with
  | [] => (c, [])
  | chunk :: chunks =>
      let '(c, r) := on_chunk chunk c in
      let '(c, outs) := feed chunks c in
      (c, option_list r ++ outs)
  end.

(** No event starts with a header alone. *)
Fixpoint never_lone (chunks : list str) (c : TcpConnection) : Prop :=
  match chunks with
  | [] => True
  | chunk :: chunks => ¬ lone c ∧ never_lone chunks (on_chunk chunk c).1
  end.

(** A frame as [serialize] makes it. *)
Definition is_frame (f : str) : Prop := 8 <= strlen f ∧ announced f = strlen f.

Lemma wire_is_frame name ts vs : total name ts vs < size_max → is_frame (wire name ts vs).
Proof.
  intros Ht. pose proof (total_bounds name ts vs) as (H1 & _). unfold is_frame, announced.
  rewrite strlen_wire. split; [lia|]. unfold wire.
  rewrite take_app_length' by by rewrite length_to_le. rewrite of_le_to_le.
  change (256 ^ Z.of_nat 8) with size_max. apply Z.mod_small. lia.
Qed.

Lemma content_put chunk c : content (set_in (put chunk (mInputBuffer c)) c) = content c ++ chunk.
Proof. unfold content. cbn. by rewrite mjoin_snoc, app_assoc. Qed.

Lemma announced_app s t : 8 <= strlen s → announced (s ++ t) = announced s.
Proof. intros H. unfold announced. rewrite take_app_le; [done|]. unfold strlen in H. lia. Qed.

Lemma frame_step c frames pending :
  Forall is_frame frames → ¬ lone c → content c ++ pending = mjoin frames →
  let '(c', r) := frame c in
  ∃ rest, frames = option_list r ++ rest ∧ content c' ++ pending = mjoin rest.
Proof.
  intros Hf Hl Hc. pose proof (frame_spec c Hl) as H. destruct (frame c) as [c' r].
  cbv zeta in H. set (s := content c) in *.
  destruct ((strlen s <? 8) || (announced s <? 8) || (strlen s <? announced s)) eqn:Hb.
  { destruct H as (-> & ->). by exists frames. }
  apply orb_false_iff in Hb as [Hb Hn]. apply orb_false_iff in Hb as [Hs H8]. to_prop.
  destruct H as (-> & ->).
  destruct Hf as [|f frames [Hf1 Hf2] Hf].
  { apply (f_equal strlen) in Hc. rewrite strlen_app in Hc.
    pose proof (strlen_nonneg pending). cbn in Hc. change (strlen []) with 0 in Hc. lia. }
  rewrite mjoin_cons in Hc.
  assert (announced s = strlen f) as Ha.
  { rewrite <- Hf2, <- (announced_app f (mjoin frames)), <- Hc by done.
    by rewrite announced_app. }
  rewrite Ha in *. assert (take (Z.to_nat (strlen f)) s = f) as Ht.
  { rewrite <- (take_app_le s pending) by (unfold strlen in *; lia). rewrite Hc.
    apply take_app_length'. unfold strlen. lia. }
  exists frames. split; [by rewrite Ht|].
  rewrite <- drop_app_le by (unfold strlen in *; lia). rewrite Hc.
  apply drop_app_length'. unfold strlen. lia.
Qed.

Lemma feed_frames chunks c frames pending :
  Forall is_frame frames → never_lone chunks c →
  content c ++ mjoin chunks ++ pending = mjoin frames →
  let '(c', outs) := feed chunks c in
  ∃ rest, frames = outs ++ rest ∧ content c' ++ pending = mjoin rest.
Proof.
  revert c frames. induction chunks as [|chunk chunks IH]; intros c frames Hf Hl Hc; cbn [feed].
  { by exists frames. }
  destruct Hl as [Hl Hls]. unfold on_chunk in *. rewrite mjoin_cons, <- app_assoc, app_assoc in Hc.
  set (c1 := set_in (put chunk (mInputBuffer c)) c) in *.
  assert (¬ lone c1) as Hl1 by done. rewrite <- (content_put chunk c) in Hc.
  pose proof (frame_step c1 frames (mjoin chunks ++ pending) Hf Hl1 Hc) as H.
  destruct (frame c1) as [c2 r]. destruct H as (rest & -> & Hc2).
  apply Forall_app in Hf as [_ Hf]. specialize (IH c2 rest Hf Hls Hc2).
  destruct (feed chunks c2) as [c' outs]. destruct IH as (rest' & -> & Hc').
  exists rest'. by rewrite <- app_assoc.
Qed.

(** ** The output side *)

Lemma outgoing_write_out buf answer c :
  0 <= answer <= strlen buf → strlen buf < size_max →
  outgoing (write_out buf answer c) =
  sent c ++ take (Z.to_nat answer) buf ++ mjoin (mDataQueue (mOutputBuffer c))
    ++ drop (Z.to_nat answer) buf.
Proof.
  intros Ha Hb. unfold outgoing, write_out, write. rewrite (proj2 (Z.ltb_ge _ _)) by lia.
  rewrite u64_small by lia. case_if; to_prop; cbn.
  - by rewrite mjoin_snoc, <- !app_assoc.
  - rewrite (drop_ge buf), app_nil_r by (unfold strlen in *; lia). by rewrite <- app_assoc.
Qed.

Lemma outgoing_putToBuffer data c : outgoing (putToBuffer data c) = outgoing c ++ data.
Proof. unfold outgoing, putToBuffer. cbn. by rewrite mjoin_snoc, app_assoc. Qed.

Lemma outgoing_set_writing w c : outgoing (set_writing w c) = outgoing c.
Proof. done. Qed.

(** The first waiting chunk is written; its rest goes to the end. *)
Lemma outgoing_writeFunc answer c :
  0 <= answer → Forall (λ x, answer <= strlen x < size_max) (mDataQueue (mOutputBuffer c)) →
  outgoing (writeFunc answer c) =
  match mDataQueue (mOutputBuffer c) with
  | [] => outgoing c
  | x :: q => sent c ++ take (Z.to_nat answer) x ++ mjoin q ++ drop (Z.to_nat answer) x
  end.
Proof.
  intros Ha Hq. unfold writeFunc, get. destruct (mDataQueue (mOutputBuffer c)) as [|x q] eqn:Heq; [done|].
  apply Forall_cons in Hq as [Hx _]. by rewrite outgoing_write_out by lia.
Qed.

Lemma outgoing_send data answer c :
  0 <= answer <= strlen data → strlen data < size_max →
  Forall (λ x, answer <= strlen x < size_max) (mDataQueue (mOutputBuffer c)) →
  outgoing (send data answer c) =
  match mDataQueue (mOutputBuffer c) with
  | [] => sent c ++ take (Z.to_nat answer) data ++ drop (Z.to_nat answer) data
  | x :: q => sent c ++ take (Z.to_nat answer) x ++ mjoin q ++ drop (Z.to_nat answer) x ++ data
  end.
Proof.
  intros Ha Hd Hq. unfold send, get. destruct (mDataQueue (mOutputBuffer c)) as [|x q] eqn:Heq.
  - assert (outgoing (write_out data answer (set_out (mOutputBuffer c) c)) =
      sent c ++ take (Z.to_nat answer) data ++ drop (Z.to_nat answer) data) as Hw.
    { rewrite outgoing_write_out by lia. cbn. by rewrite Heq. }
    by case_if; rewrite ?outgoing_set_writing.
  - apply Forall_cons in Hq as [Hx _]. set (c1 := write_out x answer _).
    assert (outgoing c1 = sent c ++ take (Z.to_nat answer) x ++ mjoin q ++ drop (Z.to_nat answer) x) as Hw.
    { unfold c1. by rewrite outgoing_write_out by lia. }
    unfold outgoing in *. cbn. rewrite mjoin_snoc, app_assoc, Hw. by rewrite <- !app_assoc.
Qed.

(** ** Any use of the stream, against one string *)

Inductive stream_op := Arrive (chunk : str) | Try (len : Z) (takeAway : bool).

Fixpoint session (ops : list stream_op) (c : TcpConnection) : TcpConnection * list str :=
  match ops with
  | [] => (c, [])
  | Arrive chunk :: ops => session ops (set_in (put chunk (mInputBuffer c)) c)
  | Try len takeAway :: ops =>
      let '(c, r) := tryGet len takeAway c in let '(c, outs) := session ops c in (c, r :: outs)
  end.

(** The same on a string: the first [len] bytes when there are so many, or nothing. *)
Fixpoint flat_session (ops : list stream_op) (s : str) : str * list str :=
  match ops with
  | [] => (s, [])
  | Arrive chunk :: ops => flat_session ops (s ++ chunk)
  | Try len takeAway :: ops =>
      let '(s, r) := if strlen s <? len then (s, [])
                     else (if takeAway then drop (Z.to_nat len) s else s, take (Z.to_nat len) s) in
      let '(s, outs) := flat_session ops s in (s, r :: outs)
  end.

(** Some bytes are asked for each time, and none are looked at, to be left there,
    that are all that was kept from before. *)
Fixpoint no_lone_look (ops : list stream_op) (c : TcpConnection) : Prop :=
  match ops with
  | [] => True
  | Arrive chunk :: ops => no_lone_look ops (set_in (put chunk (mInputBuffer c)) c)
  | Try len takeAway :: ops =>
      0 < len ∧ (takeAway = false → strlen (mIncompleteMessage c) ≠ len) ∧ no_lone_look ops (tryGet len takeAway c).1
  end.

Lemma session_flat ops c : no_lone_look ops c →
  (content (session ops c).1, (session ops c).2) = flat_session ops (content c).
Proof.
  revert c. induction ops as [|[chunk|len takeAway] ops IH]; intros c H; cbn [session flat_session no_lone_look] in *.
  - done.
  - by rewrite IH, content_put.
  - destruct H as (Hlen & Hlone & H). pose proof (tryGet_spec len takeAway c Hlen) as Hs.
    destruct (tryGet len takeAway c) as [c' r]. cbn [fst] in H. specialize (IH c' H).
    destruct (session ops c') as [c2 outs]. cbn [fst snd] in *.
    destruct (strlen (content c) <? len).
    + destruct Hs as (-> & E & _). rewrite E in IH. by rewrite <- IH.
    + destruct Hs as (-> & Hs). destruct takeAway; [|rewrite (proj2 (Z.eqb_neq _ _) (Hlone eq_refl)) in Hs; destruct Hs as [Hs _]];
        rewrite Hs in IH; by rewrite <- IH.
Qed.

(** ** Properties *)

(** C2: however the bytes of a sequence of messages are cut into read events,
    as long as no event starts with just the eight bytes of a header waiting,
    the messages handed to the server are those sent, in order and whole, and no
    byte of the others is lost. *)
Theorem frames_received chunks c frames pending :
  Forall is_frame frames → never_lone chunks c →
  content c ++ mjoin chunks ++ pending = mjoin frames →
  ∃ rest, frames = (feed chunks c).2 ++ rest ∧ content (feed chunks c).1 ++ pending = mjoin rest.
Proof.
  intros Hf Hl Hc. pose proof (feed_frames chunks c frames pending Hf Hl Hc) as H.
  by destruct (feed chunks c).
Qed.


(** A message whose eight byte header arrives alone loses it: at the next
    event nothing is delivered and the stream goes on without the header. *)
Theorem lone_header_lost f c :
  is_frame f → mIncompleteMessage c = take 8 f → mDataQueue (mInputBuffer c) = [] →
  let '(c', r) := on_chunk (drop 8 f) c in r = None ∧ content c' = drop 8 f.
Proof.
  intros [Hf Ha] Hi Hq. set (c1 := set_in (put (drop 8 f) (mInputBuffer c)) c).
  assert (mjoin (mDataQueue (mInputBuffer c1)) = drop 8 f) as Hj.
  { cbn. rewrite Hq. apply app_nil_r. }
  assert (lone c1) as Hl.
  { unfold lone, strlen. cbn. rewrite Hi, length_take. unfold strlen in Hf. lia. }
  pose proof (frame_lone c1 Hl) as H. cbv zeta in H. rewrite Hj in H. apply H.
  cbn. rewrite Hi. unfold announced. rewrite take_take. change (8 `min` 8)%nat with 8%nat.
  fold (announced f). rewrite Ha. unfold strlen in *. rewrite length_drop. lia.
Qed.

(** C37: sending keeps the order of the bytes when the kernel does not fail and
    at most one chunk waits: what it accepted and what still waits is the old
    stream followed by the new data. *)
Theorem output_kept data answer c :
  0 <= answer → (length (mDataQueue (mOutputBuffer c)) <= 1)%nat →
  Forall (λ x, answer <= strlen x < size_max) (data :: mDataQueue (mOutputBuffer c)) →
  outgoing (send data answer c) = outgoing c ++ data ∧
  outgoing (writeFunc answer c) = outgoing c ∧
  outgoing (putToBuffer data c) = outgoing c ++ data.
Proof.
  intros Ha Hq [Hd Hx]%Forall_cons. cbv beta in Hd. rewrite outgoing_putToBuffer. split_and!; [| |done].
  - rewrite outgoing_send by (done || lia). unfold outgoing.
    destruct (mDataQueue (mOutputBuffer c)) as [|x [|]]; [|apply Forall_cons in Hx as [Hx _]|cbn in Hq; lia].
    + by rewrite app_nil_r, take_drop.
    + cbn [mjoin list_join app]. rewrite !app_nil_r, !app_assoc. rewrite <- (app_assoc (sent c)).
      by rewrite take_drop.
  - rewrite outgoing_writeFunc by done. unfold outgoing.
    destruct (mDataQueue (mOutputBuffer c)) as [|x [|]]; [done| |cbn in Hq; lia].
    cbn [mjoin list_join app]. by rewrite app_nil_r, take_drop.
Qed.

(** With more chunks waiting, the rest of a partly accepted chunk goes
    behind them, out of order; and a chunk whose write fails, a full socket
    buffer included, is in neither the kernel nor the queue. *)
Theorem output_broken x q data answer c :
  mDataQueue (mOutputBuffer c) = x :: q → strlen x < size_max → answer <= strlen x →
  outgoing (writeFunc answer c) =
    (if answer <? 0 then sent c ++ mjoin q
     else sent c ++ take (Z.to_nat answer) x ++ mjoin q ++ drop (Z.to_nat answer) x) ∧
  outgoing (send data answer c) = outgoing (writeFunc answer c) ++ data.
Proof.
  intros Hq Hx Ha. split.
  - unfold writeFunc, get. rewrite Hq. case_if; to_prop.
    + unfold outgoing, write_out, write. rewrite (proj2 (Z.ltb_lt _ _)) by lia.
      replace (Z.to_nat answer) with 0%nat by lia. cbn. by rewrite app_nil_r.
    + by rewrite outgoing_write_out by lia.
  - unfold send, writeFunc, get. rewrite Hq. unfold outgoing. cbn.
    by rewrite mjoin_snoc, app_assoc.
Qed.

(** ** Witnesses *)

Definition demo_conn : TcpConnection := newTcpConnection 7 (lit "10.0.0.1") (lit "4000") (lit "conn#1").

Definition demo_frame : str := wire (lit "M") [TString] (lit "hello", tt).

Lemma demo_is_frame : is_frame demo_frame.
Proof. apply wire_is_frame. by vm_compute. Qed.

Definition demo_chunks : list str := [take 20 demo_frame; drop 20 demo_frame; take 9 demo_frame].

Lemma frames_received_witness :
  ∃ rest, [demo_frame; demo_frame] = (feed demo_chunks demo_conn).2 ++ rest ∧
    content (feed demo_chunks demo_conn).1 ++ drop 9 demo_frame = mjoin rest.
Proof.
  apply frames_received.
  - repeat constructor; apply demo_is_frame.
  - by vm_compute.
  - by vm_compute.
Defined.

Definition demo_ops : list stream_op :=
  [Arrive (take 5 demo_frame); Try 8 false; Arrive (drop 5 demo_frame); Try 8 false; Try 20 true; Try 100 true; Try 3 false].


Lemma lone_header_lost_witness :
  let c := set_incomplete (take 8 demo_frame) demo_conn in
  let '(c', r) := on_chunk (drop 8 demo_frame) c in r = None ∧ content c' = drop 8 demo_frame.
Proof. intros c. by apply lone_header_lost; [apply demo_is_frame|..]. Defined.

Lemma output_kept_witness :
  let c := set_out (put (lit "abcdef") (mOutputBuffer demo_conn)) demo_conn in
  outgoing (send (lit "xyz") 2 c) = outgoing c ++ lit "xyz" ∧
  outgoing (writeFunc 2 c) = outgoing c ∧
  outgoing (putToBuffer (lit "xyz") c) = outgoing c ++ lit "xyz".
Proof. intros c. apply output_kept; [lia|by vm_compute|by repeat constructor]. Defined.

Lemma output_broken_witness :
  let c := set_out (put (lit "xyz") (put (lit "abcdef") (mOutputBuffer demo_conn))) demo_conn in
  outgoing (writeFunc 2 c) =
    (if 2 <? 0 then sent c ++ mjoin [lit "xyz"]
     else sent c ++ take 2 (lit "abcdef") ++ mjoin [lit "xyz"] ++ drop 2 (lit "abcdef")) ∧
  outgoing (send (lit "!") 2 c) = outgoing (writeFunc 2 c) ++ lit "!".
Proof. intros c. by apply (output_broken (lit "abcdef")). Defined.
