(* ===== verification/Poller.v ===== *)
(** * Event handlers and pollers: [Base/net/{EventHandler,Poller,PollPoller,EpollPoller}.h]

    Handlers are shared objects: the poller's hash, the event loop and the
    connection hold pointers to one handler.  A pointer is a location in
    [heap].  The two pollers keep, besides the hash from descriptors to
    handlers, the array given to [poll(2)] and the kernel's interest list. *)

From S2P Require Import Prelude.

Local Open Scope Z_scope.

(** ** [EventHandler] *)

Definition POLLIN : Z := 1.
Definition POLLPRI : Z := 2.
Definition POLLOUT : Z := 4.
Definition POLLERR : Z := 8.
Definition POLLHUP : Z := 16.
Definition POLLNVAL : Z := 32.
Definition POLLRDHUP : Z := 8192.
Definition EPOLLET : Z := 2 ^ 31.

Definition NONE_EVENT : Z := 0.
Definition READ_EVENT : Z := Z.lor POLLIN POLLPRI.
Definition WRITE_EVENT : Z := POLLOUT.

Inductive callback := CloseFunc | ErrorFunc | ReadFunc | WriteFunc.

#[export] Instance callback_eq_dec : EqDecision callback.
Proof. solve_decision. Defined.

Record EventHandler := mkHandler {
  mFD : Z;
  mEvents : Z;                   (* unsigned int *)
  mRevents : Z;
  mIndex : Z;                    (* int *)
  mFuncs : list callback }.      (* the callbacks that are set *)

Definition newEventHandler (fd : Z) : EventHandler := mkHandler fd NONE_EVENT 0 (-1) [].

Definition setEvents (e : Z) (h : EventHandler) : EventHandler :=
  mkHandler (mFD h) (u32 e) (mRevents h) (mIndex h) (mFuncs h).
Definition setRevents (r : Z) (h : EventHandler) : EventHandler :=
  mkHandler (mFD h) (mEvents h) (u32 r) (mIndex h) (mFuncs h).
Definition setIndex (i : Z) (h : EventHandler) : EventHandler :=
  mkHandler (mFD h) (mEvents h) (mRevents h) i (mFuncs h).
Definition setFunc (f : callback) (h : EventHandler) : EventHandler :=
  mkHandler (mFD h) (mEvents h) (mRevents h) (mIndex h) (f :: mFuncs h).

Definition enableReading (h : EventHandler) : EventHandler := setEvents (Z.lor (mEvents h) READ_EVENT) h.
Definition disableReading (h : EventHandler) : EventHandler := setEvents (Z.land (mEvents h) (Z.lnot READ_EVENT)) h.
Definition enableWriting (h : EventHandler) : EventHandler := setEvents (Z.lor (mEvents h) WRITE_EVENT) h.
Definition disableWriting (h : EventHandler) : EventHandler := setEvents (Z.land (mEvents h) (Z.lnot WRITE_EVENT)) h.
Definition disableAll (h : EventHandler) : EventHandler := setEvents NONE_EVENT h.
Definition isReadable (h : EventHandler) : bool := negb (Z.land (mEvents h) READ_EVENT =? 0).
Definition isWriteable (h : EventHandler) : bool := negb (Z.land (mEvents h) WRITE_EVENT =? 0).
Definition isNoneEvent (h : EventHandler) : bool := mEvents h =? NONE_EVENT.

Definition has (bits mask : Z) : bool := negb (Z.land bits mask =? 0).

(** [if (mXFunc) mXFunc();] *)
Definition call (f : callback) (h : EventHandler) : list callback :=
  if decide (f ∈ mFuncs h) then [f] else [].

(** The callbacks run, in order. *)
Definition doEvnet (h : EventHandler) : list callback :=
  (if has (mRevents h) POLLHUP && negb (has (mRevents h) POLLIN) then call CloseFunc h else []) ++
  (if has (mRevents h) (Z.lor POLLNVAL POLLERR) then call ErrorFunc h else []) ++
  (if has (mRevents h) (Z.lor (Z.lor POLLIN POLLPRI) POLLRDHUP) then call ReadFunc h else []) ++
  (if has (mRevents h) POLLOUT then call WriteFunc h else []).

(** ** [Poller]: what both pollers share *)

Definition loc : Type := nat.

Record Poller := mkPoller {
  mSettlement : Z;
  mAccumulatedMillisec : Z;
  mTouchedEventNum : Z;
  mRate : Z * Z;                            (* a double: milliseconds over events *)
  mDetectionIntervalInMilliseconds : Z;
  mTimeoutInMilliseconds : Z;
  mRestThresholdInseconds : Z;
  mEventHandlerHash : gmap Z loc;
  heap : gmap loc EventHandler }.

Definition newPoller : Poller := mkPoller 1000 0 0 (0, 1) (30 * 1000) (300 * 1000) 3600 ∅ ∅.

Definition set_hash (hs : gmap Z loc) (p : Poller) : Poller :=
  mkPoller (mSettlement p) (mAccumulatedMillisec p) (mTouchedEventNum p) (mRate p)
    (mDetectionIntervalInMilliseconds p) (mTimeoutInMilliseconds p) (mRestThresholdInseconds p)
    hs (heap p).
Definition set_heap (hp : gmap loc EventHandler) (p : Poller) : Poller :=
  mkPoller (mSettlement p) (mAccumulatedMillisec p) (mTouchedEventNum p) (mRate p)
    (mDetectionIntervalInMilliseconds p) (mTimeoutInMilliseconds p) (mRestThresholdInseconds p)
    (mEventHandlerHash p) hp.
Definition set_stats (acc touched : Z) (rate : Z * Z) (p : Poller) : Poller :=
  mkPoller (mSettlement p) acc touched rate
    (mDetectionIntervalInMilliseconds p) (mTimeoutInMilliseconds p) (mRestThresholdInseconds p)
    (mEventHandlerHash p) (heap p).

(** [evHandler->] *)
Definition deref (l : loc) (p : Poller) : res EventHandler := of_option NullDeref (heap p !! l).
Definition modify (l : loc) (f : EventHandler → EventHandler) (p : Poller) : Poller :=
  set_heap (alter f l (heap p)) p.

(** [emplace] keeps a handler already registered for the descriptor. *)
Definition registerEventHandler (l : loc) (p : Poller) : res Poller :=
  h ← deref l p;
  Ok (match mEventHandlerHash p !! mFD h with
      | Some _ => p
      | None => set_hash (<[mFD h := l]> (mEventHandlerHash p)) p
      end).

Definition eventSize (p : Poller) : Z := Z.of_nat (size (mEventHandlerHash p)).

Definition setSettlementPoint (n : Z) (p : Poller) : Poller :=
  mkPoller (if n <? 100 then 100 else n) (mAccumulatedMillisec p) (mTouchedEventNum p) (mRate p)
    (mDetectionIntervalInMilliseconds p) (mTimeoutInMilliseconds p) (mRestThresholdInseconds p)
    (mEventHandlerHash p) (heap p).

Definition setTimeoutParam (interval timeout reset : Z) (p : Poller) : Poller :=
  mkPoller (mSettlement p) (mAccumulatedMillisec p) (mTouchedEventNum p) (mRate p)
    (interval * 1000) (timeout * 1000) reset (mEventHandlerHash p) (heap p).

Definition getLastRate (p : Poller) : Z * Z := mRate p.

(** The accounting at the end of both [poll]s; [dur] is the time measured. *)
Definition settle (touched dur : Z) (p : Poller) : Poller :=
  let touched := u64 (mTouchedEventNum p + touched) in
  let acc := u64 (mAccumulatedMillisec p + dur) in
  if mSettlement p <=? touched then set_stats 0 0 (acc, touched) p
  else set_stats acc touched (mRate p) p.

(** The entry for one ready descriptor. *)
Definition touch (fd revents : Z) (p : Poller) (out : list loc) : Poller * list loc :=
  match mEventHandlerHash p !! fd with
  | Some l => (modify l (setRevents revents) p, out ++ [l])
  | None => (p, out)
  end.

(** ** [PollPoller] *)

Record pollfd := mkPollfd { fd : Z; events : Z; revents : Z }.

Record PollPoller := mkPollPoller { base : Poller; mPollfds : list pollfd }.

Definition newPollPoller : PollPoller := mkPollPoller newPoller [].

(** The loop counts every entry it passes, ready or not. *)
Fixpoint poll_loop (fds : list pollfd) (readyNum : Z) (p : Poller) (out : list loc)
    : Poller * list loc * Z :=
  match fds with
  | [] => (p, out, readyNum)
  | it :: fds =>
      if 0 <? readyNum then
        let '(p, out) := touch (fd it) (revents it) p out in
        poll_loop fds (readyNum - 1) p out
      else (p, out, readyNum)
  end.

(** [answer] is what [::poll] wrote in the [revents] of each entry, with its
    return value. *)
Definition poll (answer : list Z) (readyNum dur : Z) (pp : PollPoller) : PollPoller * list loc :=
  let fds := zip_with (λ pfd r, mkPollfd (fd pfd) (events pfd) r) (mPollfds pp) answer in
  let '(p, out, unspent) := if 0 <? readyNum then poll_loop fds readyNum (base pp) [] else (base pp, [], 0) in
  (mkPollPoller (settle unspent dur p) fds, out).

(** [mPollfds.at(index)] with an [int] index. *)
Definition in_table (index : Z) (fds : list pollfd) : bool :=
  (0 <=? index) && (index <? Z.of_nat (length fds)).

Definition update (l : loc) (pp : PollPoller) : res PollPoller :=
  let p := base pp in
  h ← deref l p;
  match mEventHandlerHash p !! mFD h with
  | None => Ok pp
  | Some _ =>
      if mIndex h <? 0 then
        let fds := mPollfds pp ++ [mkPollfd (mFD h) (u16 (mEvents h)) 0] in
        let p := modify l (setIndex (Z.of_nat (length fds) - 1)) p in
        Ok (mkPollPoller (set_hash (<[mFD h := l]> (mEventHandlerHash p)) p) fds)
      else if in_table (mIndex h) (mPollfds pp) then
        let n := if isNoneEvent h then - mFD h - 1 else mFD h in
        Ok (mkPollPoller p (<[Z.to_nat (mIndex h) := mkPollfd n (u16 (mEvents h)) 0]> (mPollfds pp)))
      else Err OutOfRange
  end.

Definition remove (l : loc) (pp : PollPoller) : res PollPoller :=
  let p := base pp in
  h ← deref l p;
  match mEventHandlerHash p !! mFD h with
  | None => Ok pp
  | Some _ =>
      let index := mIndex h in
      if negb (in_table index (mPollfds pp)) then Ok pp else
      let p := set_hash (delete (mFD h) (mEventHandlerHash p)) p in
      if index =? Z.of_nat (length (mPollfds pp)) - 1
      then Ok (mkPollPoller p (take (length (mPollfds pp) - 1) (mPollfds pp)))
      else
        back ← of_option OutOfBounds (last (mPollfds pp));
        let lastFD := if fd back <? 0 then - fd back - 1 else fd back in
        l' ← of_option NullDeref (mEventHandlerHash p !! lastFD);   (* operator[] makes a null *)
        _ ← deref l' p;
        let p := modify l' (setIndex index) p in
        Ok (mkPollPoller p
              (<[Z.to_nat index := back]> (take (length (mPollfds pp) - 1) (mPollfds pp))))
  end.

(** ** [EpollPoller] *)

Inductive epoll_op := EPOLL_CTL_ADD | EPOLL_CTL_MOD | EPOLL_CTL_DEL.

(** The kernel's side of an epoll descriptor, by its documented behaviour: the
    interest list [interest]; [ADD] of a descriptor in it, [MOD] and [DEL] of
    one that is not fail, the others succeed and do what they say. *)
Class EpollKernel (K : Type) := {
  interest : K → gmap Z Z;
  epoll_ctl : epoll_op → Z → Z → K → option K;
  epoll_add_ok k fd ev : interest k !! fd = None →
    ∃ k', epoll_ctl EPOLL_CTL_ADD fd ev k = Some k' ∧ interest k' = <[fd := ev]> (interest k);
  epoll_add_exists k fd ev : is_Some (interest k !! fd) → epoll_ctl EPOLL_CTL_ADD fd ev k = None;
  epoll_mod_ok k fd ev : is_Some (interest k !! fd) →
    ∃ k', epoll_ctl EPOLL_CTL_MOD fd ev k = Some k' ∧ interest k' = <[fd := ev]> (interest k);
  epoll_mod_absent k fd ev : interest k !! fd = None → epoll_ctl EPOLL_CTL_MOD fd ev k = None;
  epoll_del_ok k fd ev : is_Some (interest k !! fd) →
    ∃ k', epoll_ctl EPOLL_CTL_DEL fd ev k = Some k' ∧ interest k' = delete fd (interest k);
  epoll_del_absent k fd ev : interest k !! fd = None → epoll_ctl EPOLL_CTL_DEL fd ev k = None }.

Section Epoll.
Context {K : Type} `{EpollKernel K}.

Record EpollPoller := mkEpollPoller { ebase : Poller; kernel : K; mEpollEvents : Z (* size *) }.

Fixpoint epoll_loop (ready : list (Z * Z)) (p : Poller) (out : list loc) : Poller * list loc :=
  match ready with
  | [] => (p, out)
  | (fd, revents) :: ready => let '(p, out) := touch fd revents p out in epoll_loop ready p out
  end.

(** [ready] are the events [epoll_wait] returned: at most [mEpollEvents]. *)
Definition epoll_poll (ready : list (Z * Z)) (dur : Z) (ep : EpollPoller) : EpollPoller * list loc :=
  let '(p, out) := epoll_loop ready (ebase ep) [] in
  let readyNum := Z.of_nat (length ready) in
  let sz := if (0 <? readyNum) && (readyNum =? mEpollEvents ep) then readyNum * 2 + 1 else mEpollEvents ep in
  (mkEpollPoller (settle readyNum dur p) (kernel ep) sz, out).

Definition edgeTrigger (l : loc) (on : bool) (ep : EpollPoller) : res EpollPoller :=
  h ← deref l (ebase ep);
  match mEventHandlerHash (ebase ep) !! mFD h with
  | None => Ok ep
  | Some _ =>
      let events := if on then Z.lor (mEvents h) EPOLLET else Z.land (mEvents h) (Z.lnot EPOLLET) in
      Ok (mkEpollPoller (modify l (setEvents events) (ebase ep)) (kernel ep) (mEpollEvents ep))
  end.

(** A failing call is reported and changes nothing. *)
Definition epoll_update (l : loc) (ep : EpollPoller) : res EpollPoller :=
  let p := ebase ep in
  h ← deref l p;
  match mEventHandlerHash p !! mFD h with
  | None => Ok ep
  | Some old =>
      if mIndex h <? 0 then
        match epoll_ctl EPOLL_CTL_ADD (mFD h) (mEvents h) (kernel ep) with
        | None => Ok ep
        | Some k =>
            let p := set_hash (<[mFD h := l]> (mEventHandlerHash p)) p in
            Ok (mkEpollPoller (modify l (setIndex 1) p) k (mEpollEvents ep))
        end
      else if isNoneEvent h then
        match epoll_ctl EPOLL_CTL_DEL (mFD h) (mEvents h) (kernel ep) with
        | None => Ok ep
        | Some k => Ok (mkEpollPoller (modify old (setIndex (-1)) p) k (mEpollEvents ep))
        end
      else
        match epoll_ctl EPOLL_CTL_MOD (mFD h) (mEvents h) (kernel ep) with
        | None => Ok ep
        | Some k =>
            Ok (mkEpollPoller (set_hash (<[mFD h := l]> (mEventHandlerHash p)) p) k (mEpollEvents ep))
        end
  end.

Definition epoll_remove (l : loc) (ep : EpollPoller) : res EpollPoller :=
  let p := ebase ep in
  h ← deref l p;
  match mEventHandlerHash p !! mFD h with
  | None => Ok ep
  | Some _ =>
      match epoll_ctl EPOLL_CTL_DEL (mFD h) 0 (kernel ep) with
      | None => Ok ep
      | Some k =>
          let p := set_hash (delete (mFD h) (mEventHandlerHash p)) p in
          Ok (mkEpollPoller (modify l (setIndex (-1)) p) k (mEpollEvents ep))
      end
  end.

End Epoll.
Arguments EpollPoller : clear implicits.

(** ** The table of [PollPoller] *)

(** The descriptor an entry belongs to: a silenced one holds [-fd-1]. *)
Definition owner (pfd : pollfd) : Z := if fd pfd <? 0 then - fd pfd - 1 else fd pfd.

Definition handler_of (f : Z) (p : Poller) : option (loc * EventHandler) :=
  l ← mEventHandlerHash p !! f; h ← heap p !! l; Some (l, h).

Record table_wf (pp : PollPoller) : Prop := {
  wf_handler f l : mEventHandlerHash (base pp) !! f = Some l →
    ∃ h, heap (base pp) !! l = Some h ∧ mFD h = f ∧ 0 <= f;
  wf_index f l h : mEventHandlerHash (base pp) !! f = Some l → heap (base pp) !! l = Some h →
    0 <= mIndex h → ∃ pfd, mPollfds pp !! Z.to_nat (mIndex h) = Some pfd ∧ owner pfd = f;
  wf_entry i pfd : mPollfds pp !! i = Some pfd →
    ∃ l h, mEventHandlerHash (base pp) !! owner pfd = Some l ∧ heap (base pp) !! l = Some h ∧
      mIndex h = Z.of_nat i }.

Lemma new_table_wf : table_wf newPollPoller.
Proof. split; cbn; intros; by simplify_map_eq. Qed.

Lemma owner_active f e r : 0 <= f → owner (mkPollfd f e r) = f.
Proof. intros. unfold owner. cbn. case_if; to_prop; lia. Qed.

Lemma owner_silent f e r : 0 <= f → owner (mkPollfd (- f - 1) e r) = f.
Proof. intros. unfold owner. cbn. case_if; to_prop; lia. Qed.

(** The handler object is the one registered for its descriptor. *)
Definition registered (l : loc) (p : Poller) : Prop :=
  ∃ h, heap p !! l = Some h ∧ mEventHandlerHash p !! mFD h = Some l.

Section Table.
Context (pp : PollPoller) (Hwf : table_wf pp).

Lemma loc_inj f f' l :
  mEventHandlerHash (base pp) !! f = Some l → mEventHandlerHash (base pp) !! f' = Some l → f = f'.
Proof.
  intros H1 H2. destruct (wf_handler pp Hwf _ _ H1) as (h1 & E1 & <- & _).
  destruct (wf_handler pp Hwf _ _ H2) as (h2 & E2 & <- & _). by simplify_eq.
Qed.

Lemma index_bound f l h :
  mEventHandlerHash (base pp) !! f = Some l → heap (base pp) !! l = Some h → 0 <= mIndex h →
  in_table (mIndex h) (mPollfds pp) = true.
Proof.
  intros Hf Hh Hi. destruct (wf_index pp Hwf f l h Hf Hh Hi) as (pfd & Hp & _).
  apply lookup_lt_Some in Hp. unfold in_table. apply andb_true_iff. rewrite Z.leb_le, Z.ltb_lt. lia.
Qed.

Lemma register_wf l h :
  heap (base pp) !! l = Some h → 0 <= mFD h → mIndex h < 0 →
  mEventHandlerHash (base pp) !! mFD h = None →
  ∃ p', registerEventHandler l (base pp) = Ok p' ∧ registered l p' ∧
    table_wf (mkPollPoller p' (mPollfds pp)).
Proof.
  intros Hh Hf Hi Hn. unfold registerEventHandler, deref. rewrite Hh. cbn [of_option mbind res_bind].
  rewrite Hn. eexists. split; [done|]. split; [exists h; split; [done|apply lookup_insert_eq]|].
  split; cbn [mPollfds base mEventHandlerHash heap set_hash].
  - intros f l'. rewrite lookup_insert_Some. intros [[<- <-]|[_ H]]; [by exists h|].
    by apply (wf_handler pp Hwf).
  - intros f l' h'. rewrite lookup_insert_Some. intros [[<- <-]|[_ H]] Hh' Hi'.
    + simplify_eq. lia.
    + by eapply wf_index.
  - intros i pfd Hp. destruct (wf_entry pp Hwf i pfd Hp) as (l' & h' & Ho & ?).
    exists l', h'. split; [|done]. rewrite lookup_insert_ne; [done|]. congruence.
Qed.

(** A handler other than [l] is at another place. *)
Lemma other_loc f l f' l' : mEventHandlerHash (base pp) !! f = Some l → mEventHandlerHash (base pp) !! f' = Some l' → f' ≠ f → l' ≠ l.
Proof. intros H1 H2 Hf ->. apply Hf. by eapply loc_inj. Qed.

(** Giving the handler of [f] an index keeps every handler where it is. *)
Lemma reindexed_handlers f l i : mEventHandlerHash (base pp) !! f = Some l →
  ∀ f' l', mEventHandlerHash (base pp) !! f' = Some l' →
    ∃ h, alter (setIndex i) l (heap (base pp)) !! l' = Some h ∧ mFD h = f' ∧ 0 <= f'.
Proof.
  intros Hf f' l' H1. destruct (wf_handler pp Hwf _ _ H1) as (h0 & E0 & <- & ?).
  destruct (decide (l' = l)) as [->|].
  - eexists. by rewrite lookup_alter_eq, E0.
  - exists h0. by rewrite lookup_alter_ne.
Qed.

(** A new entry at the end, for a handler without one. *)
Lemma appended_wf l h pfd :
  heap (base pp) !! l = Some h → mEventHandlerHash (base pp) !! mFD h = Some l → mIndex h < 0 → owner pfd = mFD h →
  let p := modify l (setIndex (Z.of_nat (length (mPollfds pp)))) (base pp) in
  table_wf (mkPollPoller (set_hash (<[mFD h := l]> (mEventHandlerHash p)) p) (mPollfds pp ++ [pfd])).
Proof.
  intros Hh Hr Hneg Ho p. split; unfold p; cbn [base mPollfds mEventHandlerHash heap set_hash modify set_heap]; rewrite insert_id by done.
  - by eapply reindexed_handlers.
  - intros f l0 h0 H1. destruct (decide (f = mFD h)) as [->|Hf].
    + assert (l0 = l) as -> by congruence. rewrite lookup_alter_eq, Hh. cbn.
      intros [= <-] _. cbn. exists pfd. by rewrite Nat2Z.id, lookup_app_r, Nat.sub_diag by lia.
    + rewrite lookup_alter_ne by (by apply not_eq_sym, (other_loc _ _ _ _ Hr H1)). intros E0 Hi.
      destruct (wf_index pp Hwf f l0 h0 H1 E0 Hi) as (p0 & Hp0 & ?). exists p0.
      split; [|done]. rewrite lookup_app_l; [done|]. by eapply lookup_lt_Some.
  - intros i p0 Hp0. apply lookup_app_Some in Hp0 as [Hp0|[Hge Hp0]].
    + destruct (wf_entry pp Hwf i p0 Hp0) as (l0 & h0 & H1 & E0 & Hi0).
      exists l0, h0. split; [done|]. rewrite lookup_alter_ne; [done|]. intros <-. simplify_eq. lia.
    + apply list_lookup_singleton_Some in Hp0 as [Hi <-]. exists l, (setIndex (Z.of_nat (length (mPollfds pp))) h).
      rewrite Ho. split; [done|]. rewrite lookup_alter_eq, Hh. split; [done|]. cbn. lia.
Qed.

(** The entry of a handler is written anew. *)
Lemma replaced_wf l h pfd :
  heap (base pp) !! l = Some h → mEventHandlerHash (base pp) !! mFD h = Some l → 0 <= mIndex h → owner pfd = mFD h →
  table_wf (mkPollPoller (base pp) (<[Z.to_nat (mIndex h) := pfd]> (mPollfds pp))).
Proof.
  intros Hh Hr Hneg Ho. destruct (wf_index pp Hwf _ _ _ Hr Hh Hneg) as (q & Hq & Hqo). split; cbn [base mPollfds].
  - apply (wf_handler pp Hwf).
  - intros f l0 h0 H1 E0 Hi. destruct (wf_index pp Hwf f l0 h0 H1 E0 Hi) as (p0 & Hp0 & Hpo).
    destruct (decide (Z.to_nat (mIndex h0) = Z.to_nat (mIndex h))) as [Heq|Hne].
    + rewrite Heq in *. exists pfd. rewrite list_lookup_insert_eq by by eapply lookup_lt_Some.
      split; [done|]. simplify_eq. congruence.
    + exists p0. by rewrite list_lookup_insert_ne.
  - intros i p0. rewrite list_lookup_insert_Some. intros [(<- & <- & _)|(_ & Hp0)].
    + exists l, h. rewrite Ho. split; [done|]. split; [done|]. lia.
    + by apply (wf_entry pp Hwf).
Qed.

Lemma update_wf l :
  registered l (base pp) →
  ∃ pp', update l pp = Ok pp' ∧ table_wf pp' ∧ registered l (base pp').
Proof.
  intros (h & Hh & Hr). destruct (wf_handler pp Hwf _ _ Hr) as (h' & Hh' & _ & Hfd).
  assert (h' = h) as -> by congruence. clear Hh'.
  unfold update, deref. rewrite Hh. cbn [of_option mbind res_bind]. rewrite Hr.
  destruct (mIndex h <? 0) eqn:Hneg; to_prop.
  - rewrite length_app. cbn [length]. replace (Z.of_nat (length (mPollfds pp) + 1) - 1) with (Z.of_nat (length (mPollfds pp))) by lia.
    eexists. split; [done|]. split; [apply appended_wf; try done; by apply owner_active|].
    eexists. cbn [base heap set_hash modify set_heap mEventHandlerHash]. rewrite lookup_alter_eq, Hh. split; [done|].
    by rewrite insert_id.
  - rewrite (index_bound _ _ _ Hr Hh Hneg). eexists. split; [done|]. split; [|by exists h].
    eapply replaced_wf; [done|done|done|]. destruct (isNoneEvent h); [by apply owner_silent|by apply owner_active].
Qed.

(** No two entries belong to one descriptor. *)
Lemma entry_unique f l h k q : mEventHandlerHash (base pp) !! f = Some l → heap (base pp) !! l = Some h →
  mPollfds pp !! k = Some q → owner q = f → k = Z.to_nat (mIndex h).
Proof.
  intros Hr Hh Hq Hqo. destruct (wf_entry pp Hwf k q Hq) as (l0 & h0 & H1 & E0 & Hi0).
  rewrite Hqo in H1. simplify_eq. lia.
Qed.

(** The entry of [l] was the last one. *)
Lemma removed_last_wf l h :
  heap (base pp) !! l = Some h → mEventHandlerHash (base pp) !! mFD h = Some l →
  0 <= mIndex h → mIndex h = Z.of_nat (length (mPollfds pp)) - 1 →
  table_wf (mkPollPoller (set_hash (delete (mFD h) (mEventHandlerHash (base pp))) (base pp))
              (take (length (mPollfds pp) - 1) (mPollfds pp))).
Proof.
  intros Hh Hr Hi Hlast. destruct (wf_index pp Hwf _ _ _ Hr Hh Hi) as (pfd & Hp & Hpo).
  split; cbn [base mPollfds mEventHandlerHash heap set_hash].
  - intros f l0 [_ H1]%lookup_delete_Some. by apply (wf_handler pp Hwf).
  - intros f l0 h0 [Hf H1]%lookup_delete_Some E0 Hi0.
    destruct (wf_index pp Hwf f l0 h0 H1 E0 Hi0) as (q & Hq & Hqo). exists q. split; [|done].
    pose proof (lookup_lt_Some _ _ _ Hq).
    rewrite lookup_take_lt; [done|]. assert (Z.to_nat (mIndex h0) ≠ Z.to_nat (mIndex h)); [|lia].
    intros Heq. rewrite Heq, Hp in Hq. simplify_eq.
  - intros k q [Hq Hk]%lookup_take_Some. destruct (wf_entry pp Hwf k q Hq) as (l0 & h0 & H1 & E0 & Hi0).
    exists l0, h0. split; [|done]. rewrite lookup_delete_ne; [done|]. intros Heq.
    pose proof (entry_unique _ _ _ k q Hr Hh Hq (eq_sym Heq)). lia.
Qed.

(** The last entry moves into the hole. *)
Lemma removed_hole_wf l h back l' h' (n := (length (mPollfds pp) - 1)%nat) :
  heap (base pp) !! l = Some h → mEventHandlerHash (base pp) !! mFD h = Some l →
  0 <= mIndex h < Z.of_nat n → mPollfds pp !! n = Some back →
  mEventHandlerHash (base pp) !! owner back = Some l' → heap (base pp) !! l' = Some h' → mIndex h' = Z.of_nat n →
  owner back ≠ mFD h →
  table_wf (mkPollPoller (modify l' (setIndex (mIndex h)) (set_hash (delete (mFD h) (mEventHandlerHash (base pp))) (base pp)))
              (<[Z.to_nat (mIndex h) := back]> (take n (mPollfds pp)))).
Proof.
  intros Hh Hr Hi Hback H1' E0' Hi0' Hob. destruct (wf_index pp Hwf _ _ _ Hr Hh (proj1 Hi)) as (pfd & Hp & Hpo).
  pose proof (lookup_lt_Some _ _ _ Hback) as Hn.
  split; cbn [base mPollfds mEventHandlerHash heap set_hash modify set_heap].
  - intros f l0 [_ H1]%lookup_delete_Some. by eapply reindexed_handlers.
  - intros f l0 h0 [Hf H1]%lookup_delete_Some. destruct (decide (f = owner back)) as [->|Hfb].
    + assert (l0 = l') as -> by congruence. rewrite lookup_alter_eq, E0'. cbn. intros [= <-] _.
      cbn. exists back. split; [|done]. apply list_lookup_insert_eq. rewrite length_take. lia.
    + rewrite lookup_alter_ne by (by apply not_eq_sym, (other_loc _ _ _ _ H1' H1)). intros E0 Hi0.
      destruct (wf_index pp Hwf f l0 h0 H1 E0 Hi0) as (q & Hq & Hqo). exists q. split; [|done].
      pose proof (lookup_lt_Some _ _ _ Hq) as Hlt. rewrite list_lookup_insert_ne.
      2: { intros Heq. rewrite <- Heq, Hp in Hq. simplify_eq. }
      rewrite lookup_take_lt; [done|]. assert (Z.to_nat (mIndex h0) ≠ n); [|lia].
      intros Heq. rewrite Heq, Hback in Hq. simplify_eq.
  - intros k q. rewrite list_lookup_insert_Some. intros [(<- & <- & _)|(Hki & Hq)].
    + exists l', (setIndex (mIndex h) h'). rewrite lookup_delete_ne, lookup_alter_eq, E0' by done.
      split; [done|]. split; [done|]. cbn. lia.
    + apply lookup_take_Some in Hq as [Hq Hk].
      destruct (wf_entry pp Hwf k q Hq) as (l0 & h0 & H1 & E0 & Hi0). exists l0, h0.
      rewrite lookup_delete_ne by (intros Heq; apply Hki; symmetry; by apply (entry_unique _ _ _ k q Hr Hh)).
      split; [done|]. rewrite lookup_alter_ne; [done|]. intros <-. simplify_eq. lia.
Qed.

Lemma remove_wf l h :
  heap (base pp) !! l = Some h → mEventHandlerHash (base pp) !! mFD h = Some l → 0 <= mIndex h →
  ∃ pp', remove l pp = Ok pp' ∧ table_wf pp' ∧
    mEventHandlerHash (base pp') = delete (mFD h) (mEventHandlerHash (base pp)).
Proof.
  intros Hh Hr Hi. destruct (wf_index pp Hwf _ _ _ Hr Hh Hi) as (pfd & Hp & Hpo).
  pose proof (lookup_lt_Some _ _ _ Hp) as Hin.
  unfold remove, deref. rewrite Hh. cbn [of_option mbind res_bind]. rewrite Hr.
  rewrite (index_bound _ _ _ Hr Hh Hi). cbn [negb].
  destruct (mIndex h =? _) eqn:Hlast; to_prop; [eexists; split; [done|]; split; [by eapply removed_last_wf|done]|].
  destruct (mPollfds pp !! (length (mPollfds pp) - 1)%nat) as [back|] eqn:Hback.
  2: { apply lookup_ge_None in Hback. lia. }
  assert (last (mPollfds pp) = Some back) as ->.
  { rewrite last_lookup. by replace (pred _) with (length (mPollfds pp) - 1)%nat by lia. }
  cbn [of_option mbind res_bind]. change (if fd back <? 0 then _ else _) with (owner back).
  destruct (wf_entry pp Hwf _ _ Hback) as (l' & h' & H1' & E0' & Hi0').
  assert (owner back ≠ mFD h) as Hob by (intros Heq; pose proof (entry_unique _ _ _ _ _ Hr Hh Hback Heq); lia).
  cbn [mEventHandlerHash set_hash]. rewrite lookup_delete_ne by done. rewrite H1'.
  cbn [of_option mbind res_bind]. change (heap (set_hash _ (base pp))) with (heap (base pp)).
  rewrite E0'. cbn [of_option mbind res_bind]. eexists. split; [done|]. split; [|done].
  eapply removed_hole_wf; [exact Hh|done|lia|exact Hback|exact H1'|exact E0'|done|done].
Qed.

End Table.

(** ** Sessions of the clients of a poller *)

Inductive op := Register (l : loc) | Update (l : loc) | Remove (l : loc).

Definition exec (o : op) (pp : PollPoller) : res PollPoller :=
  match o with
  | Register l => p ← registerEventHandler l (base pp); Ok (mkPollPoller p (mPollfds pp))
  | Update l => update l pp
  | Remove l => remove l pp
  end.

(** What [TcpConnection], [Acceptor] and [EventLoop] do: a new handler for a
    free descriptor is registered, updated while registered, and removed once. *)
Definition legal (o : op) (pp : PollPoller) : Prop :=
  match o with
  | Register l => ∃ h, heap (base pp) !! l = Some h ∧ 0 <= mFD h ∧ mIndex h < 0 ∧
                       mEventHandlerHash (base pp) !! mFD h = None
  | Update l => registered l (base pp)
  | Remove l => ∃ h, heap (base pp) !! l = Some h ∧ mEventHandlerHash (base pp) !! mFD h = Some l ∧
                     0 <= mIndex h
  end.

(** Clients may change the events of a handler at any time, and make new ones. *)
Definition retouched (hp hp' : gmap loc EventHandler) : Prop :=
  ∀ l h, hp !! l = Some h → ∃ h', hp' !! l = Some h' ∧ mFD h' = mFD h ∧ mIndex h' = mIndex h.

Inductive reachable : PollPoller → Prop :=
  | reach_new hp : reachable (mkPollPoller (set_heap hp newPoller) [])
  | reach_touch pp hp : reachable pp → retouched (heap (base pp)) hp →
      reachable (mkPollPoller (set_heap hp (base pp)) (mPollfds pp))
  | reach_exec o pp pp' : reachable pp → legal o pp → exec o pp = Ok pp' → reachable pp'.

Lemma touch_wf pp hp :
  table_wf pp → retouched (heap (base pp)) hp →
  table_wf (mkPollPoller (set_heap hp (base pp)) (mPollfds pp)).
Proof.
  intros Hwf Ht. split; cbn [base mPollfds mEventHandlerHash heap set_heap].
  - intros f l Hf. destruct (wf_handler pp Hwf f l Hf) as (h & Hh & <- & ?).
    destruct (Ht l h Hh) as (h' & ? & ? & _). by exists h'.
  - intros f l h' Hf Hh' Hi. destruct (wf_handler pp Hwf f l Hf) as (h & Hh & _ & _).
    destruct (Ht l h Hh) as (h'' & ? & ? & Hix). simplify_eq. rewrite Hix in *.
    by apply (wf_index pp Hwf f l h).
  - intros i pfd Hp. destruct (wf_entry pp Hwf i pfd Hp) as (l & h & Hf & Hh & Hi).
    destruct (Ht l h Hh) as (h' & ? & _ & Hix). exists l, h'. by rewrite Hix.
Qed.

Lemma exec_wf o pp : table_wf pp → legal o pp → ∃ pp', exec o pp = Ok pp' ∧ table_wf pp'.
Proof.
  intros Hwf. destruct o as [l|l|l]; cbn [legal exec].
  - intros (h & Hh & Hf & Hi & Hn).
    destruct (register_wf pp Hwf l h Hh Hf Hi Hn) as (p' & -> & _ & Hw). by eexists.
  - intros Hr. destruct (update_wf pp Hwf l Hr) as (pp' & ? & ? & _). by exists pp'.
  - intros (h & Hh & Hr & Hi). destruct (remove_wf pp Hwf l h Hh Hr Hi) as (pp' & ? & ? & _). by exists pp'.
Qed.

Lemma poll_loop_spec fds n p out :
  (poll_loop fds n p out).1.2 =
  out ++ omap (λ pfd, mEventHandlerHash p !! fd pfd) (take (Z.to_nat n) fds).
Proof.
  revert n p out. induction fds as [|it fds IH]; intros n p out; cbn [poll_loop].
  { by rewrite take_nil, app_nil_r. }
  case_if; to_prop.
  - replace (Z.to_nat n) with (S (Z.to_nat (n - 1))) by lia. cbn [take omap list_omap].
    unfold touch. destruct (mEventHandlerHash p !! fd it) as [l|]; rewrite IH; [|done].
    cbn [mEventHandlerHash modify set_heap]. by rewrite <- app_assoc.
  - replace (Z.to_nat n) with 0%nat by lia. by rewrite app_nil_r.
Qed.

Lemma poll_out answer n dur pp :
  0 < n → length answer = length (mPollfds pp) →
  (poll answer n dur pp).2 =
  omap (λ pfd, mEventHandlerHash (base pp) !! fd pfd) (take (Z.to_nat n) (mPollfds pp)).
Proof.
  intros Hn Hl. unfold poll. rewrite (proj2 (Z.ltb_lt 0 n)) by lia.
  set (fds := zip_with _ _ _). pose proof (poll_loop_spec fds n (base pp) []) as H.
  destruct (poll_loop fds n (base pp) []) as [[p out] u]. cbn [fst snd app] in *. rewrite H.
  unfold fds. generalize (Z.to_nat n). revert Hl. generalize (mPollfds pp). clear.
  intros l. revert answer. induction l as [|q l IH]; intros [|a answer] Hl k; try done; cbn [zip_with].
  destruct k as [|k]; [done|]. cbn [take omap list_omap fd].
  cbn [length] in Hl. rewrite IH by lia. done.
Qed.

(** ** The interest list of [EpollPoller] *)

Section EpollTable.
Context {K : Type} `{EpollKernel K}.

Record epoll_wf (ep : EpollPoller K) : Prop := {
  ewf_handler f l : mEventHandlerHash (ebase ep) !! f = Some l →
    ∃ h, heap (ebase ep) !! l = Some h ∧ mFD h = f;
  ewf_interest f : is_Some (interest (kernel ep) !! f) ↔
    ∃ l h, mEventHandlerHash (ebase ep) !! f = Some l ∧ heap (ebase ep) !! l = Some h ∧ 0 <= mIndex h }.

Lemma epoll_loop_spec ready p out :
  (epoll_loop ready p out).2 = out ++ omap (λ e, mEventHandlerHash p !! e.1) ready.
Proof.
  revert p out. induction ready as [|[f r] ready IH]; intros p out; cbn [epoll_loop omap list_omap fst].
  { by rewrite app_nil_r. }
  unfold touch. destruct (mEventHandlerHash p !! f) as [l|]; rewrite IH; [|done].
  cbn [mEventHandlerHash modify set_heap]. by rewrite <- app_assoc.
Qed.

Lemma set_index_wf ep l h i k sz :
  epoll_wf ep → heap (ebase ep) !! l = Some h → mEventHandlerHash (ebase ep) !! mFD h = Some l →
  (∀ f, f ≠ mFD h → interest k !! f = interest (kernel ep) !! f) →
  (is_Some (interest k !! mFD h) ↔ 0 <= i) →
  epoll_wf (mkEpollPoller (modify l (setIndex i) (ebase ep)) k sz).
Proof.
  intros Hwf Hh Hr Hne Hi. split; cbn [ebase kernel mEventHandlerHash heap modify set_heap].
  - intros f l0 H1. destruct (ewf_handler ep Hwf f l0 H1) as (h0 & E0 & <-).
    destruct (decide (l0 = l)) as [->|].
    + simplify_eq. eexists. by rewrite lookup_alter_eq, Hh.
    + exists h0. by rewrite lookup_alter_ne.
  - intros f. destruct (decide (f = mFD h)) as [->|Hf].
    + rewrite Hi. split.
      * intros. exists l, (setIndex i h). by rewrite lookup_alter_eq, Hh.
      * intros (l0 & h0 & H1 & E0 & Hi0). assert (l0 = l) as -> by congruence.
        rewrite lookup_alter_eq, Hh in E0. cbn in E0. injection E0 as <-. exact Hi0.
    + rewrite Hne, (ewf_interest ep Hwf) by done. split; intros (l0 & h0 & H1 & E0 & Hi0); exists l0, h0.
      * rewrite lookup_alter_ne; [done|]. intros <-.
        destruct (ewf_handler ep Hwf _ _ H1) as (h1 & E1 & ?). congruence.
      * rewrite lookup_alter_ne in E0; [done|]. intros <-.
        destruct (ewf_handler ep Hwf _ _ H1) as (h1 & E1 & ?). congruence.
Qed.

Lemma epoll_update_wf ep l :
  epoll_wf ep → registered l (ebase ep) → ∃ ep', epoll_update l ep = Ok ep' ∧ epoll_wf ep'.
Proof.
  intros Hwf (h & Hh & Hr). unfold epoll_update, deref. rewrite Hh. cbn [of_option mbind res_bind].
  rewrite Hr. rewrite insert_id by done.
  assert (∀ p : Poller, set_hash (mEventHandlerHash p) p = p) as Hsame by by intros [].
  rewrite Hsame.
  assert (is_Some (interest (kernel ep) !! mFD h) ↔ 0 <= mIndex h) as Hint.
  { rewrite (ewf_interest ep Hwf). split; [intros (l0 & h0 & ? & ? & ?); by simplify_eq|by exists l, h]. }
  destruct (mIndex h <? 0) eqn:Hneg; to_prop.
  - destruct (interest (kernel ep) !! mFD h) eqn:Hk; [exfalso; assert (0 <= mIndex h) by (apply Hint; by eexists); lia|].
    destruct (epoll_add_ok (kernel ep) (mFD h) (mEvents h) Hk) as (k' & -> & Hk').
    eexists. split; [done|]. eapply set_index_wf; try done.
    + intros f Hf. by rewrite Hk', lookup_insert_ne.
    + rewrite Hk', lookup_insert_eq. split; [lia|by eexists].
  - assert (is_Some (interest (kernel ep) !! mFD h)) as Hk by by apply Hint.
    destruct (isNoneEvent h).
    + destruct (epoll_del_ok (kernel ep) (mFD h) (mEvents h) Hk) as (k' & -> & Hk').
      eexists. split; [done|]. eapply set_index_wf; try done.
      * intros f Hf. by rewrite Hk', lookup_delete_ne.
      * rewrite Hk', lookup_delete_eq. split; [intros []%is_Some_None|lia].
    + destruct (epoll_mod_ok (kernel ep) (mFD h) (mEvents h) Hk) as (k' & -> & Hk').
      eexists. split; [done|]. split; cbn [ebase kernel]; [apply (ewf_handler ep Hwf)|].
      intros f. rewrite <- (ewf_interest ep Hwf), Hk'. destruct (decide (f = mFD h)) as [->|].
      * rewrite lookup_insert_eq. split; [done|by eexists].
      * by rewrite lookup_insert_ne.
Qed.

Lemma epoll_remove_wf ep l h :
  epoll_wf ep → heap (ebase ep) !! l = Some h → mEventHandlerHash (ebase ep) !! mFD h = Some l →
  0 <= mIndex h →
  ∃ ep', epoll_remove l ep = Ok ep' ∧ epoll_wf ep' ∧
    mEventHandlerHash (ebase ep') = delete (mFD h) (mEventHandlerHash (ebase ep)) ∧
    interest (kernel ep') !! mFD h = None.
Proof.
  intros Hwf Hh Hr Hi. unfold epoll_remove, deref. rewrite Hh. cbn [of_option mbind res_bind]. rewrite Hr.
  assert (is_Some (interest (kernel ep) !! mFD h)) as Hk.
  { apply (ewf_interest ep Hwf). by exists l, h. }
  destruct (epoll_del_ok (kernel ep) (mFD h) 0 Hk) as (k' & -> & Hk').
  eexists. split; [done|]. split; [|split; [done|cbn; by rewrite Hk', lookup_delete_eq]].
  assert (∀ f l0, f ≠ mFD h → mEventHandlerHash (ebase ep) !! f = Some l0 → l0 ≠ l) as Hne.
  { intros f l0 Hf H1 ->. destruct (ewf_handler ep Hwf _ _ H1) as (h1 & E1 & ?). congruence. }
  split; cbn [ebase kernel mEventHandlerHash heap modify set_heap set_hash].
  - intros f l0 [Hf H1]%lookup_delete_Some. destruct (ewf_handler ep Hwf f l0 H1) as (h0 & E0 & <-).
    exists h0. rewrite lookup_alter_ne; [done|]. apply not_eq_sym. by apply (Hne (mFD h0)).
  - intros f. rewrite Hk'. destruct (decide (f = mFD h)) as [->|Hf].
    + rewrite lookup_delete_eq. split; [intros []%is_Some_None|].
      intros (l0 & h0 & H1 & _). by rewrite lookup_delete_eq in H1.
    + rewrite lookup_delete_ne, (ewf_interest ep Hwf) by done.
      split; intros (l0 & h0 & H1 & E0 & ?); exists l0, h0; rewrite lookup_delete_ne in * by done.
      * rewrite lookup_alter_ne; [done|]. by apply not_eq_sym, (Hne f).
      * rewrite lookup_alter_ne in E0; [done|]. by apply not_eq_sym, (Hne f).
Qed.

End EpollTable.

(** ** Properties *)

(** C29: in every state the clients of a poll poller can reach, each registered
    handler's index points at its own entry of the table and each entry belongs
    to a registered handler that points back, and no legal call faults. *)
Theorem poll_table_invariant pp o :
  reachable pp → table_wf pp ∧ (legal o pp → ∃ pp', exec o pp = Ok pp' ∧ table_wf pp').
Proof.
  intros Hr. assert (table_wf pp) as Hwf.
  { induction Hr as [hp|pp hp Hr IH Ht|o' pp pp' Hr IH Hl He].
    - split; cbn; intros; by simplify_map_eq.
    - by apply touch_wf.
    - destruct (exec_wf o' pp IH Hl) as (pp'' & He' & ?). congruence. }
  split; [done|]. by apply exec_wf.
Qed.

(** [PollPoller::poll] hands out the handlers of the first [n] entries,
    where [n] is the number of ready descriptors, whichever are ready: with one
    ready descriptor behind an idle first entry, the loop's wakeup descriptor,
    the ready handler is not handed out and the idle one runs nothing. *)
Theorem poll_scans_prefix answer n dur pp :
  0 < n → length answer = length (mPollfds pp) →
  (poll answer n dur pp).2 =
    omap (λ pfd, mEventHandlerHash (base pp) !! fd pfd) (take (Z.to_nat n) (mPollfds pp)) ∧
  ∀ idle rest l h rs, mPollfds pp = idle :: rest → answer = 0 :: rs →
    mEventHandlerHash (base pp) !! fd idle = Some l → heap (base pp) !! l = Some h → n = 1 →
    (poll answer n dur pp).2 = [l] ∧
    ∃ h', heap (base (poll answer n dur pp).1) !! l = Some h' ∧ doEvnet h' = [].
Proof.
  intros Hn Hl. split; [by apply poll_out|].
  intros idle rest l h rs Hp Ha Hf Hh ->. rewrite poll_out, Hp by done.
  change (take (Z.to_nat 1) (idle :: rest)) with [idle]. cbn [omap list_omap]. rewrite Hf.
  split; [done|].
  unfold poll. rewrite Hp, Ha. cbn [zip_with]. change (0 <? 1) with true. cbv iota.
  cbn [poll_loop fd]. change (0 <? 1) with true. cbv iota. unfold touch. rewrite Hf.
  assert (∀ fds p out, poll_loop fds (1 - 1) p out = (p, out, 1 - 1)) as Hz by by intros [].
  rewrite Hz. cbn [base fst snd]. exists (setRevents 0 h). split; [|done].
  unfold settle. case_if; cbn; by rewrite lookup_alter_eq, Hh.
Qed.

(** The epoll poller keeps the kernel's interest list equal to the handlers
    it has added, its calls never fail, and every ready descriptor with a
    registered handler is handed out, in order. *)
Theorem epoll_invariant {K : Type} `{EpollKernel K} (ep : EpollPoller K) l h ready dur :
  epoll_wf ep → heap (ebase ep) !! l = Some h → mEventHandlerHash (ebase ep) !! mFD h = Some l →
  (∃ ep', epoll_update l ep = Ok ep' ∧ epoll_wf ep') ∧
  (0 <= mIndex h → ∃ ep', epoll_remove l ep = Ok ep' ∧ epoll_wf ep' ∧
     interest (kernel ep') !! mFD h = None) ∧
  (epoll_poll ready dur ep).2 = omap (λ e, mEventHandlerHash (ebase ep) !! e.1) ready.
Proof.
  intros Hwf Hh Hr. split_and!.
  - apply epoll_update_wf; [done|]. by exists h.
  - intros Hi. destruct (epoll_remove_wf ep l h Hwf Hh Hr Hi) as (ep' & ? & ? & _ & ?). by exists ep'.
  - unfold epoll_poll. pose proof (epoll_loop_spec ready (ebase ep) []) as Hs.
    by destruct (epoll_loop ready (ebase ep) []).
Qed.

(** A handler with all its callbacks set runs the close callback exactly on
    a hang-up without input, and goes on to the other callbacks after it: an
    error, urgent data, a peer shutdown or room to write that comes with the
    hang-up runs a callback of the connection that the close may have destroyed. *)
Theorem callbacks_after_close h :
  mFuncs h = [CloseFunc; ErrorFunc; ReadFunc; WriteFunc] →
  (CloseFunc ∈ doEvnet h ↔ has (mRevents h) POLLHUP = true ∧ has (mRevents h) POLLIN = false) ∧
  (CloseFunc ∈ doEvnet h → ∃ after, doEvnet h = CloseFunc :: after ∧
     (after = [] ↔ has (mRevents h) (Z.lor POLLNVAL POLLERR) = false ∧
        has (mRevents h) (Z.lor (Z.lor POLLIN POLLPRI) POLLRDHUP) = false ∧
        has (mRevents h) POLLOUT = false)).
Proof.
  intros Hf. assert (∀ f, call f h = [f]) as Hcall.
  { intros f. unfold call. rewrite Hf. rewrite decide_True; [done|]. destruct f; set_solver. }
  unfold doEvnet. rewrite !Hcall.
  destruct (has (mRevents h) POLLHUP), (has (mRevents h) POLLIN),
    (has (mRevents h) (Z.lor POLLNVAL POLLERR)),
    (has (mRevents h) (Z.lor (Z.lor POLLIN POLLPRI) POLLRDHUP)), (has (mRevents h) POLLOUT);
    cbn [andb negb app];
    (split; [split; [set_solver|intros [? ?]; try done; set_solver]|]);
    intros Hin; try (exfalso; set_solver); (eexists; split; [reflexivity|]);
    split; intros; try done; naive_solver.
Qed.

(** ** Witnesses *)

Definition demo_heap : gmap loc EventHandler :=
  <[0%nat := enableReading (newEventHandler 5)]> (<[1%nat := enableReading (newEventHandler 9)]> ∅).

Definition demo_pp : PollPoller := mkPollPoller (set_heap demo_heap newPoller) [].

Lemma poll_table_invariant_witness :
  table_wf demo_pp ∧
  (legal (Register 0%nat) demo_pp → ∃ pp', exec (Register 0%nat) demo_pp = Ok pp' ∧ table_wf pp').
Proof. apply poll_table_invariant. apply reach_new. Defined.

(** The wakeup descriptor 5 and a connection 9, both in the table. *)
Definition demo_two : PollPoller :=
  mkPollPoller
    (set_heap (<[0%nat := setIndex 0 (enableReading (newEventHandler 5))]>
                (<[1%nat := setIndex 1 (enableReading (newEventHandler 9))]> ∅))
      (set_hash (<[5 := 0%nat]> (<[9 := 1%nat]> ∅)) newPoller))
    [mkPollfd 5 3 0; mkPollfd 9 3 0].

Lemma poll_scans_prefix_witness :
  (poll [0; POLLIN] 1 0 demo_two).2 =
    omap (λ pfd, mEventHandlerHash (base demo_two) !! fd pfd) (take (Z.to_nat 1) (mPollfds demo_two)) ∧
  ∀ idle rest l h rs, mPollfds demo_two = idle :: rest → [0; POLLIN] = 0 :: rs →
    mEventHandlerHash (base demo_two) !! fd idle = Some l → heap (base demo_two) !! l = Some h → 1 = 1 →
    (poll [0; POLLIN] 1 0 demo_two).2 = [l] ∧
    ∃ h', heap (base (poll [0; POLLIN] 1 0 demo_two).1) !! l = Some h' ∧ doEvnet h' = [].
Proof. apply (poll_scans_prefix [0; POLLIN] 1 0 demo_two); [lia|done]. Defined.

(** A kernel that behaves as documented. *)
Definition gmap_ctl (o : epoll_op) (fd ev : Z) (k : gmap Z Z) : option (gmap Z Z) :=
  match o, k !! fd with
  | EPOLL_CTL_ADD, None => Some (<[fd := ev]> k)
  | EPOLL_CTL_ADD, Some _ => None
  | EPOLL_CTL_MOD, Some _ => Some (<[fd := ev]> k)
  | EPOLL_CTL_MOD, None => None
  | EPOLL_CTL_DEL, Some _ => Some (delete fd k)
  | EPOLL_CTL_DEL, None => None
  end.

#[export] Instance gmap_kernel : EpollKernel (gmap Z Z).
Proof.
  refine (Build_EpollKernel _ (λ k, k) gmap_ctl _ _ _ _ _ _); unfold gmap_ctl; intros k f ev;
    destruct (k !! f); intros Hk; try done; try (by eexists); by destruct Hk.
Defined.

Definition demo_epoll : EpollPoller (gmap Z Z) :=
  mkEpollPoller (set_heap (<[0%nat := setIndex 1 (enableReading (newEventHandler 5))]> ∅)
      (set_hash (<[5 := 0%nat]> ∅) newPoller)) (<[5 := 3]> ∅) 16.

Lemma demo_epoll_wf : epoll_wf demo_epoll.
Proof.
  split; cbn.
  - intros f l [[<- <-]|[_ H]]%lookup_insert_Some; [by eexists|done].
  - intros f. destruct (decide (f = 5)) as [->|Hf].
    + rewrite lookup_insert_eq. split; [|by eexists]. intros _. by eexists _, _.
    + rewrite lookup_insert_ne by done. split; [intros []%is_Some_None|].
      intros (l & h & H & _). by rewrite lookup_insert_ne in H.
Qed.

Lemma epoll_invariant_witness :
  let h := setIndex 1 (enableReading (newEventHandler 5)) in
  (∃ ep', epoll_update 0%nat demo_epoll = Ok ep' ∧ epoll_wf ep') ∧
  (0 <= mIndex h → ∃ ep', epoll_remove 0%nat demo_epoll = Ok ep' ∧ epoll_wf ep' ∧
     interest (kernel ep') !! mFD h = None) ∧
  (epoll_poll [(5, POLLIN)] 0 demo_epoll).2
    = omap (λ e, mEventHandlerHash (ebase demo_epoll) !! e.1) [(5, POLLIN)].
Proof. intros h. by apply (epoll_invariant demo_epoll 0%nat h); [apply demo_epoll_wf|..]. Defined.

Lemma callbacks_after_close_witness :
  let h := mkHandler 9 3 (Z.lor POLLHUP POLLERR) 1 [CloseFunc; ErrorFunc; ReadFunc; WriteFunc] in
  (CloseFunc ∈ doEvnet h ↔ has (mRevents h) POLLHUP = true ∧ has (mRevents h) POLLIN = false) ∧
  (CloseFunc ∈ doEvnet h → ∃ after, doEvnet h = CloseFunc :: after ∧
     (after = [] ↔ has (mRevents h) (Z.lor POLLNVAL POLLERR) = false ∧
        has (mRevents h) (Z.lor (Z.lor POLLIN POLLPRI) POLLRDHUP) = false ∧
        has (mRevents h) POLLOUT = false)).
Proof. intros h. by apply callbacks_after_close. Defined.
