(* ===== verification/EventLoop.v ===== *)
(** * Event loops and their threads: [Base/net/{EventLoop,EventLoopThread,EventLoopThreadpool}.h]

    First the life of one loop, whose thread and whose owner touch [mRunning]
    in any order; then the pool, which distributes connections over its loops
    by one of three rules. *)

From S2P Require Import Prelude.

Local Open Scope Z_scope.

(** ** One loop *)

Record EventLoop := mkEventLoop {
  mRunning : bool;
  mIsDoingEvent : bool;
  wakeups : Z;         (* the counter of the eventfd [mWakeupFD] *)
  looping : bool }.    (* the thread is inside [loop] *)

Definition newEventLoop : EventLoop := mkEventLoop false false 0 false.

(** [loop] up to its [while], and each test of the condition. *)
Definition loop_enter (l : EventLoop) : EventLoop :=
  mkEventLoop true (mIsDoingEvent l) (wakeups l) true.
Definition loop_test (l : EventLoop) : EventLoop :=
  mkEventLoop (mRunning l) false (wakeups l) (mRunning l).

(** The eventfd adds what is written to its counter; reading resets it. *)
Definition wakeup (l : EventLoop) : EventLoop :=
  mkEventLoop (mRunning l) (mIsDoingEvent l) (wakeups l + 1) (looping l).
Definition nap (l : EventLoop) : EventLoop :=
  mkEventLoop (mRunning l) (mIsDoingEvent l) 0 (looping l).

Definition quit (l : EventLoop) : EventLoop :=
  wakeup (mkEventLoop false (mIsDoingEvent l) (wakeups l) (looping l)).

Definition isRunning (l : EventLoop) : bool := mRunning l.

(** The thread's steps and the owner's [quit], interleaved. *)
Inductive loop_step := Enter | Test | Nap | Quit.

Definition step (s : loop_step) (l : EventLoop) : EventLoop :=
  match s with
  | Enter => loop_enter l
  | Test => if looping l then loop_test l else l
  | Nap => nap l
  | Quit => quit l
  end.

Definition run (ss : list loop_step) (l : EventLoop) : EventLoop := fold_left (λ l s, step s l) ss l.

Lemma run_app a b l : run (a ++ b) l = run b (run a l).
Proof. apply fold_left_app. Qed.

Lemma running_kept ss l :
  Quit ∉ ss → mRunning l = true → looping l = true →
  mRunning (run ss l) = true ∧ looping (run ss l) = true.
Proof.
  revert l. induction ss as [|s ss IH]; intros l Hq Hr Hl; [done|].
  apply not_elem_of_cons in Hq as [Hs Hq]. apply IH; [done|..]; destruct s; cbn; rewrite ?Hl; try done.
Qed.

Lemma stopped_kept ss l :
  Enter ∉ ss → mRunning l = false → mRunning (run ss l) = false.
Proof.
  revert l. induction ss as [|s ss IH]; intros l Hq Hr; [done|].
  apply not_elem_of_cons in Hq as [Hs Hq]. apply IH; [done|]. destruct s; cbn; try done.
  by destruct (looping l).
Qed.

(** ** The pool *)

Section Pool.
(** The rates are doubles: their [>] and the largest one are the machine's. *)
Context {R : Type} (gtb : R → R → bool) (rate_max : R).

Record EventLoopThread := mkThread {
  mID : Z;
  isLooping : bool;
  getEventSize : Z;
  getLastRate : R }.

Inductive DistributionType := DEFAULT | ROUND_ROBIN | FEWER_EVENTS | FASTER_HANDLED.

Record EventLoopThreadpool := mkPool {
  mThreadNum : Z;
  mNextIndex : Z;
  mEventLoopThreads : list (option EventLoopThread) }.   (* None is a null pointer *)

(** [mk i] is the [i]th thread made. *)
Definition newEventLoopThreadpool (num hardwareNum : Z) (mk : nat → EventLoopThread) : EventLoopThreadpool :=
  mkPool (if hardwareNum <? num then hardwareNum else num) 0
    ((λ i, Some (mk i)) <$> seq 0 (Z.to_nat num)).

Definition thread_at (i : Z) (p : EventLoopThreadpool) : res (option EventLoopThread) :=
  of_option OutOfRange (mEventLoopThreads p !! Z.to_nat i).

Definition isInactive (i : Z) (p : EventLoopThreadpool) : res bool :=
  t ← thread_at i p;
  Ok (match t with None => true | Some t => negb (isLooping t) end).

Definition getSize (p : EventLoopThreadpool) : Z := mThreadNum p.

Definition set_next (n : Z) (p : EventLoopThreadpool) : EventLoopThreadpool :=
  mkPool (mThreadNum p) n (mEventLoopThreads p).

(** [None] is a null loop. *)
Definition getEventLoop (index : Z) (p : EventLoopThreadpool) : res (option EventLoopThread) :=
  if (index <? 0) || (mThreadNum p <=? index) then Ok None
  else t ← thread_at index p; t ← of_option NullDeref t; Ok (Some t).

Fixpoint find_tid (tid : Z) (ts : list (option EventLoopThread)) : res (option EventLoopThread) :=
  match ts with
  | [] => Ok None
  | t :: ts => t ← of_option NullDeref t; if mID t =? tid then Ok (Some t) else find_tid tid ts
  end.

Definition getEventLoop_tid (tid : Z) (p : EventLoopThreadpool) : res (option EventLoopThread) :=
  find_tid tid (mEventLoopThreads p).

(** The scan of [roundRobinIndex] from [i] to [stop]. *)
Fixpoint robin_loop (fuel : nat) (i stop : Z) (p : EventLoopThreadpool) : res (EventLoopThreadpool * Z) :=
  if stop <=? i then Ok (p, -1) else
  match fuel with
  | O => Err OutOfFuel
  | S fuel =>
      if mThreadNum p =? 0 then Err DivByZero else
      b ← isInactive (i mod mThreadNum p) p;
      if negb b then Ok (p, i mod mThreadNum p)
      else robin_loop fuel (i + 1) stop (set_next (u64 (mNextIndex p + 1) mod mThreadNum p) p)
  end.

Definition roundRobinIndex (p : EventLoopThreadpool) : res (EventLoopThreadpool * Z) :=
  let tmp := u64 (mNextIndex p + 1) in
  let p := set_next (if tmp =? mThreadNum p then 0 else tmp) p in
  robin_loop (Z.to_nat (tmp + mThreadNum p)) (mNextIndex p) (tmp + mThreadNum p) p.

Fixpoint fewer_loop (fuel : nat) (i fewer best : Z) (p : EventLoopThreadpool) : res Z :=
  if mThreadNum p <=? i then Ok best else
  match fuel with
  | O => Err OutOfFuel
  | S fuel =>
      b ← isInactive i p;
      if (b : bool) then fewer_loop fuel (i + 1) fewer best p else
      t ← thread_at i p;
      t ← of_option NullDeref t;
      if getEventSize t <? fewer then fewer_loop fuel (i + 1) (getEventSize t) i p
      else fewer_loop fuel (i + 1) fewer best p
  end.

Definition fewerEventsIndex (p : EventLoopThreadpool) : res Z :=
  fewer_loop (Z.to_nat (mThreadNum p)) 0 (size_max - 1) (-1) p.

Fixpoint faster_loop (fuel : nat) (i : Z) (faster : R) (best : Z) (p : EventLoopThreadpool) : res Z :=
  if mThreadNum p <=? i then Ok best else
  match fuel with
  | O => Err OutOfFuel
  | S fuel =>
      b ← isInactive i p;
      if (b : bool) then faster_loop fuel (i + 1) faster best p else
      t ← thread_at i p;
      t ← of_option NullDeref t;
      if gtb faster (getLastRate t) then faster_loop fuel (i + 1) (getLastRate t) i p
      else faster_loop fuel (i + 1) faster best p
  end.

Definition fasterHandledIndex (p : EventLoopThreadpool) : res Z :=
  faster_loop (Z.to_nat (mThreadNum p)) 0 rate_max (-1) p.

Definition getDesiredIndex (which : DistributionType) (p : EventLoopThreadpool)
    : res (EventLoopThreadpool * Z) :=
  match which with
  | DEFAULT | ROUND_ROBIN => roundRobinIndex p
  | FEWER_EVENTS => i ← fewerEventsIndex p; Ok (p, i)
  | FASTER_HANDLED => i ← fasterHandledIndex p; Ok (p, i)
  end.

(** [addEvent] on the chosen thread: one more handler in its poller. *)
Definition addEvent (t : EventLoopThread) : EventLoopThread :=
  mkThread (mID t) (isLooping t) (getEventSize t + 1) (getLastRate t).

Definition distributionEvent (which : DistributionType) (p : EventLoopThreadpool)
    : res (EventLoopThreadpool * bool) :=
  '(p, index) ← getDesiredIndex which p;
  if 0 <=? index then
    t ← thread_at index p;
    t ← of_option NullDeref t;
    Ok (mkPool (mThreadNum p) (mNextIndex p)
          (<[Z.to_nat index := Some (addEvent t)]> (mEventLoopThreads p)), true)
  else Ok (p, false).

(** ** The pool as its constructor leaves it, whatever its threads do since *)

Record pool_ok (p : EventLoopThreadpool) : Prop := {
  pok_num : 0 < mThreadNum p < 2 ^ 32;
  pok_next : 0 <= mNextIndex p < mThreadNum p;
  pok_threads i : 0 <= i < mThreadNum p → ∃ t, mEventLoopThreads p !! Z.to_nat i = Some (Some t) }.

Lemma new_pool_ok num hardwareNum mk :
  0 < num < 2 ^ 32 → 0 < hardwareNum → pool_ok (newEventLoopThreadpool num hardwareNum mk).
Proof.
  intros Hn Hh. unfold newEventLoopThreadpool. split; cbn [mThreadNum mNextIndex mEventLoopThreads].
  - case_if; to_prop; lia.
  - case_if; to_prop; lia.
  - intros i Hi. exists (mk (Z.to_nat i)). rewrite list_lookup_fmap, lookup_seq_lt; [done|].
    case_if_in Hi; to_prop; lia.
Qed.

(** Thread [i] of the pool takes events. *)
Definition active (i : Z) (p : EventLoopThreadpool) : Prop :=
  ∃ t, mEventLoopThreads p !! Z.to_nat i = Some (Some t) ∧ isLooping t = true.

Lemma isInactive_spec i p :
  pool_ok p → 0 <= i < mThreadNum p →
  ∃ b, isInactive i p = Ok b ∧ (b = false ↔ active i p).
Proof.
  intros Hp Hi. destruct (pok_threads p Hp i Hi) as [t Ht]. unfold isInactive, thread_at, active.
  rewrite Ht. eexists. split; [done|]. rewrite negb_false_iff. split; [by exists t|].
  intros (t' & Ht' & ?). congruence.
Qed.

Lemma robin_loop_spec fuel i stop p :
  pool_ok p → 0 <= i → i mod mThreadNum p = mNextIndex p → (Z.to_nat (stop - i) <= fuel)%nat →
  ∃ n r, robin_loop fuel i stop p = Ok (set_next n p, r) ∧ 0 <= n < mThreadNum p ∧
    ((r = -1 ∧ ∀ j, i <= j < stop → ¬ active (j mod mThreadNum p) p) ∨
     (∃ j, i <= j < stop ∧ r = j mod mThreadNum p ∧ n = r ∧ active r p ∧
        ∀ k, i <= k < j → ¬ active (k mod mThreadNum p) p)).
Proof.
  revert i p. induction fuel as [|fuel IH]; intros i p Hp Hi Hn Hf; cbn [robin_loop].
  { rewrite (proj2 (Z.leb_le stop i)) by lia. exists (mNextIndex p), (-1).
    destruct Hp as [? ? _]. split; [by destruct p|]. split; [done|]. left. split; [done|lia]. }
  destruct (stop <=? i) eqn:Hs; to_prop.
  { exists (mNextIndex p), (-1). destruct Hp as [? ? _]. split; [by destruct p|].
    split; [done|]. left. split; [done|lia]. }
  pose proof Hp as [HN Hnx Hth]. rewrite (proj2 (Z.eqb_neq _ 0)) by lia.
  pose proof (Z.mod_pos_bound i (mThreadNum p) ltac:(lia)) as Hm.
  destruct (isInactive_spec (i mod mThreadNum p) p Hp Hm) as (b & Hb & Hact). rewrite Hb.
  cbn [mbind res_bind]. destruct b; cbn [negb].
  - rewrite (u64_small (_ + 1)) by (unfold size_max; lia).
    set (p' := set_next _ p).
    assert (pool_ok p') as Hp'.
    { split; cbn; [done| |done]. apply Z.mod_pos_bound. lia. }
    assert ((i + 1) mod mThreadNum p' = mNextIndex p') as Hn'.
    { cbn. rewrite <- Hn. by rewrite Zplus_mod_idemp_l. }
    destruct (IH (i + 1) p' Hp' ltac:(lia) Hn' ltac:(lia)) as (n & r & Hr & Hnb & Hcase).
    exists n, r. split; [exact Hr|]. split; [exact Hnb|].
    assert (¬ active (i mod mThreadNum p) p) as Hni by (intros H%Hact; done).
    destruct Hcase as [[Hr1 Hno]|(j & Hj & Hrj & Hnr & Har & Hno)].
    + left. split; [done|]. intros j Hj. destruct (decide (j = i)) as [->|]; [done|].
      apply (Hno j). lia.
    + right. exists j. split; [lia|]. split_and!; try done. intros k Hk.
      destruct (decide (k = i)) as [->|]; [done|]. apply (Hno k). lia.
  - exists (mNextIndex p), (i mod mThreadNum p). split; [by destruct p|]. split; [done|].
    right. exists i. split; [lia|]. split_and!; try done; [by apply Hact|lia].
Qed.

(** Scanning one whole turn sees every thread. *)
Lemma turn_covers a n i : 0 < n → 0 <= i < n → ∃ j, a <= j < a + n ∧ j mod n = i.
Proof.
  intros Hn Hi. exists (a + (i - a) mod n). pose proof (Z.mod_pos_bound (i - a) n Hn).
  split; [lia|]. rewrite Zplus_mod_idemp_r. replace (a + (i - a)) with i by lia.
  by apply Z.mod_small.
Qed.

(** The best of the active threads below [i], by a relation [le] on a measure. *)
Definition best_below {A} (get : EventLoopThread → A) (le : A → A → Prop) (p : EventLoopThreadpool)
    (i : Z) (best : Z) : Prop :=
  0 <= best < i ∧ ∃ t, mEventLoopThreads p !! Z.to_nat best = Some (Some t) ∧ isLooping t = true ∧
    ∀ j t', 0 <= j < i → mEventLoopThreads p !! Z.to_nat j = Some (Some t') → isLooping t' = true →
      le (get t) (get t').

Definition none_below {A} (get : EventLoopThread → A) (beaten : A → Prop) (p : EventLoopThreadpool)
    (i : Z) : Prop :=
  ∀ j t, 0 <= j < i → mEventLoopThreads p !! Z.to_nat j = Some (Some t) → isLooping t = true →
    ¬ beaten (get t).

Lemma fewer_loop_spec fuel i fewer best p :
  pool_ok p → 0 <= i <= mThreadNum p → (Z.to_nat (mThreadNum p - i) <= fuel)%nat →
  (best = -1 ∧ fewer = size_max - 1 ∧ none_below getEventSize (λ n, n < size_max - 1) p i ∨
   best_below getEventSize Z.le p i best ∧
     ∃ t, mEventLoopThreads p !! Z.to_nat best = Some (Some t) ∧ fewer = getEventSize t) →
  ∃ r, fewer_loop fuel i fewer best p = Ok r ∧
    (r = -1 ∧ none_below getEventSize (λ n, n < size_max - 1) p (mThreadNum p) ∨
     best_below getEventSize Z.le p (mThreadNum p) r).
Proof.
  intros Hp. revert i fewer best. induction fuel as [|fuel IH]; intros i fewer best Hi Hf Hb;
    cbn [fewer_loop]; (destruct (mThreadNum p <=? i) eqn:Hs; to_prop;
      [exists best; assert (i = mThreadNum p) as -> by lia; split; [done|]; tauto|]); [lia|].
  destruct (pok_threads p Hp i ltac:(lia)) as [t Ht].
  unfold isInactive, thread_at. rewrite Ht. cbn [of_option mbind res_bind].
  destruct (isLooping t) eqn:Hl; cbn [negb].
  - destruct (getEventSize t <? fewer) eqn:Hlt; to_prop.
    + apply IH; [lia|lia|]. right. split; [|by exists t]. split; [lia|]. exists t. split; [done|].
      split; [done|]. intros j t' Hj Ht' Hl'. destruct (decide (j = i)) as [->|]; [simplify_eq; lia|].
      destruct Hb as [(-> & -> & Hno)|((_ & t0 & Ht0 & _ & Hmin) & t1 & Ht1 & ->)].
      * pose proof (Hno j t' ltac:(lia) Ht' Hl'). cbn in *. lia.
      * simplify_eq. pose proof (Hmin j t' ltac:(lia) Ht' Hl'). lia.
    + apply IH; [lia|lia|].
      destruct Hb as [(-> & -> & Hno)|((Hbi & t0 & Ht0 & Hl0 & Hmin) & t1 & Ht1 & ->)]; [left|right].
      * split_and!; [done|done|]. intros j t' Hj Ht' Hl'. cbn.
        destruct (decide (j = i)) as [->|]; [simplify_eq; lia|]. by apply (Hno j t'); [lia|..].
      * split; [|by exists t1]. split; [lia|]. exists t0. split; [done|]. split; [done|].
        intros j t' Hj Ht' Hl'. simplify_eq.
        destruct (decide (j = i)) as [->|]; [simplify_eq; lia|]. by apply (Hmin j t'); [lia|..].
  - apply IH; [lia|lia|].
    destruct Hb as [(-> & -> & Hno)|((Hbi & t0 & Ht0 & Hl0 & Hmin) & t1 & Ht1 & ->)]; [left|right].
    + split_and!; [done|done|]. intros j t' Hj Ht' Hl'.
      destruct (decide (j = i)) as [->|]; [congruence|]. by apply (Hno j t'); [lia|..].
    + split; [|by exists t1]. split; [lia|]. exists t0. split; [done|]. split; [done|].
      intros j t' Hj Ht' Hl'.
      destruct (decide (j = i)) as [->|]; [congruence|]. by apply (Hmin j t'); [lia|..].
Qed.

Lemma faster_loop_active fuel i faster best p :
  pool_ok p → 0 <= i <= mThreadNum p → (Z.to_nat (mThreadNum p - i) <= fuel)%nat →
  (best = -1 ∨ 0 <= best < mThreadNum p ∧ active best p) →
  ∃ r, faster_loop fuel i faster best p = Ok r ∧ (r = -1 ∨ 0 <= r < mThreadNum p ∧ active r p).
Proof.
  intros Hp. revert i faster best. induction fuel as [|fuel IH]; intros i faster best Hi Hf Hb;
    cbn [faster_loop]; (destruct (mThreadNum p <=? i) eqn:Hs; to_prop; [by exists best|]); [lia|].
  destruct (pok_threads p Hp i ltac:(lia)) as [t Ht].
  unfold isInactive, thread_at. rewrite Ht. cbn [of_option mbind res_bind].
  destruct (isLooping t) eqn:Hl; cbn [negb]; [|apply IH; (done || lia)].
  case_if; apply IH; try (done || lia). right. split; [lia|by exists t].
Qed.

(** What each rule promises of the index it returns. *)
Lemma roundRobinIndex_spec p :
  pool_ok p →
  ∃ n r, roundRobinIndex p = Ok (set_next n p, r) ∧ 0 <= n < mThreadNum p ∧
    ((r = -1 ∧ ∀ i, 0 <= i < mThreadNum p → ¬ active i p) ∨
     (n = r ∧ active r p ∧ ∃ d, 1 <= d <= mThreadNum p ∧ r = (mNextIndex p + d) mod mThreadNum p ∧
        ∀ k, 1 <= k < d → ¬ active ((mNextIndex p + k) mod mThreadNum p) p)).
Proof.
  intros Hp. pose proof Hp as [HN Hnx Hth]. unfold roundRobinIndex.
  set (N := mThreadNum p) in *. set (x := mNextIndex p) in *.
  rewrite u64_small by (unfold size_max; lia).
  set (p1 := set_next (if x + 1 =? N then 0 else x + 1) p).
  assert (0 <= mNextIndex p1 < N) as Hn1 by (cbn; case_if; to_prop; lia).
  assert (pool_ok p1) as Hp1 by by split.
  destruct (robin_loop_spec (Z.to_nat (x + 1 + N)) (mNextIndex p1) (x + 1 + N) p1 Hp1)
    as (n & r & Hr & Hn & Hcase); [lia|by apply Z.mod_small|lia|].
  exists n, r. split; [exact Hr|]. split; [exact Hn|]. change (mThreadNum p1) with N in *.
  destruct Hcase as [[-> Hno]|(j & Hj & Hrj & Hnr & Har & Hno)].
  - left. split; [done|]. intros i Hi Ha.
    destruct (turn_covers (x + 1) N i ltac:(lia) Hi) as (j & Hj & Hji).
    apply (Hno j); [cbn in *; case_if_in Hn1; to_prop; lia|]. by rewrite Hji.
  - right. split; [done|]. split; [done|]. cbn [mNextIndex set_next p1] in Hj, Hno.
    destruct (x + 1 =? N) eqn:Hx; to_prop.
    + assert (j < N) as HjN.
      { apply Z.nle_gt. intros Hle. apply (Hno (j - N)); [lia|].
        replace (j - N) with (j + (-1) * N) by lia. rewrite Z_mod_plus_full, <- Hrj. exact Har. }
      exists (j + 1). split; [lia|]. split.
      * rewrite Hrj. replace (x + (j + 1)) with (j + 1 * N) by lia. by rewrite Z_mod_plus_full.
      * intros k Hk Ha. apply (Hno (k - 1)); [lia|].
        replace (x + k) with (k - 1 + 1 * N) in Ha by lia. by rewrite Z_mod_plus_full in Ha.
    + exists (j - x). split; [lia|]. split.
      * rewrite Hrj. by replace (x + (j - x)) with j by lia.
      * intros k Hk Ha. apply (Hno (x + k)); [lia|]. exact Ha.
Qed.

(** ** Properties *)

(** Round robin takes the first looping thread after the last one chosen,
    in the cyclic order of the pool, and remembers it; it returns -1 only when
    no thread loops. *)
Theorem round_robin_fair p :
  pool_ok p →
  ∃ n r, roundRobinIndex p = Ok (set_next n p, r) ∧ pool_ok (set_next n p) ∧
    ((r = -1 ∧ ∀ i, 0 <= i < mThreadNum p → ¬ active i p) ∨
     (n = r ∧ active r p ∧ ∃ d, 1 <= d <= mThreadNum p ∧ r = (mNextIndex p + d) mod mThreadNum p ∧
        ∀ k, 1 <= k < d → ¬ active ((mNextIndex p + k) mod mThreadNum p) p)).
Proof.
  intros Hp. destruct (roundRobinIndex_spec p Hp) as (n & r & Hr & Hn & Hcase).
  exists n, r. split; [done|]. split; [|done]. destruct Hp. by split.
Qed.

(** The fewer-events rule returns a looping thread no other looping thread
    has fewer handlers than, and -1 only when none loops. *)
Theorem fewer_events_minimal p :
  pool_ok p →
  ∃ r, fewerEventsIndex p = Ok r ∧
    (r = -1 ∧ none_below getEventSize (λ n, n < size_max - 1) p (mThreadNum p) ∨
     best_below getEventSize Z.le p (mThreadNum p) r).
Proof.
  intros Hp. pose proof Hp as [HN _ _]. apply fewer_loop_spec; [done|lia|lia|].
  left. split_and!; [done|done|]. intros j t Hj. lia.
Qed.

(** Distributing a connection adds it to exactly one thread, one that was
    looping and is counted by [getSize], or to none. *)
Theorem distribution_one_thread which p :
  pool_ok p →
  ∃ p' b, distributionEvent which p = Ok (p', b) ∧
    if b then ∃ i t, 0 <= i < getSize p ∧ mEventLoopThreads p !! Z.to_nat i = Some (Some t) ∧
      isLooping t = true ∧
      mEventLoopThreads p' = <[Z.to_nat i := Some (addEvent t)]> (mEventLoopThreads p)
    else mEventLoopThreads p' = mEventLoopThreads p.
Proof.
  intros Hp. assert (∃ n r, getDesiredIndex which p = Ok (set_next n p, r) ∧
    (r = -1 ∨ 0 <= r < mThreadNum p ∧ active r p)) as (n & r & Hr & Hcase).
  { pose proof Hp as [HN _ _].
    assert (∃ n r, roundRobinIndex p = Ok (set_next n p, r) ∧
      (r = -1 ∨ 0 <= r < mThreadNum p ∧ active r p)) as Hrr.
    { destruct (roundRobinIndex_spec p Hp) as (n & r & Hr & Hn & Hcase). exists n, r.
      split; [exact Hr|]. destruct Hcase as [[-> _]|(Hnr & Ha & _)]; [by left|right].
      by rewrite <- Hnr at 1 2. }
    destruct which; cbn [getDesiredIndex]; [done|done| |].
    - destruct (fewer_loop_spec (Z.to_nat (mThreadNum p)) 0 (size_max - 1) (-1) p Hp) as (r & Hr & Hc);
        [lia|lia|left; split_and!; [done|done|intros j t Hj; lia]|].
      unfold fewerEventsIndex. rewrite Hr. exists (mNextIndex p), r. split; [by destruct p|].
      destruct Hc as [[-> _]|(Hb & t & Ht & Hl & _)]; [by left|right]. split; [done|by exists t].
    - destruct (faster_loop_active (Z.to_nat (mThreadNum p)) 0 rate_max (-1) p Hp) as (r & Hr & Hc);
        [lia|lia|by left|].
      unfold fasterHandledIndex. rewrite Hr. exists (mNextIndex p), r. by split; [destruct p|]. }
  unfold distributionEvent. rewrite Hr. cbn [mbind res_bind].
  destruct Hcase as [->|(Hb & t & Ht & Hl)].
  - by exists (set_next n p), false.
  - rewrite (proj2 (Z.leb_le 0 r)) by lia. unfold thread_at. cbn [mEventLoopThreads set_next].
    rewrite Ht. cbn [of_option mbind res_bind]. eexists _, true. split; [done|].
    exists r, t. split; [exact Hb|]. done.
Qed.

End Pool.

(** A [quit] that reaches the loop after its thread entered [loop] ends it at
    the next test; one that comes before the thread has entered is lost, and the
    thread, which the destructor joins, loops on. *)
Theorem quit_race (before after : list loop_step) (l : EventLoop) :
  (Enter ∉ after → looping (run (before ++ [Quit] ++ after ++ [Test]) l) = false) ∧
  (Quit ∉ after → mRunning (run (before ++ [Quit; Enter] ++ after) l) = true ∧
                  looping (run (before ++ [Quit; Enter] ++ after) l) = true).
Proof.
  split; intros Ha; rewrite !run_app.
  - pose proof (stopped_kept after (run [Quit] (run before l)) Ha eq_refl) as Hs.
    cbn [run fold_left step]. fold (run after (quit (run before l))).
    change (run [Quit] (run before l)) with (quit (run before l)) in Hs.
    set (l1 := run after (quit (run before l))) in *.
    destruct (looping l1) eqn:Hl; [|done]. unfold loop_test. cbn. exact Hs.
  - by apply running_kept.
Qed.

(** ** Witnesses *)

Definition demo_mk (i : nat) : EventLoopThread (R := Z) :=
  mkThread (Z.of_nat i) (negb (i =? 1)%nat) (5 - Z.of_nat i) 0.
Definition demo_pool : EventLoopThreadpool := newEventLoopThreadpool 4 4 demo_mk.

Lemma demo_pool_ok : pool_ok demo_pool.
Proof. apply new_pool_ok; lia. Qed.

Lemma round_robin_fair_witness :
  ∃ n r, roundRobinIndex demo_pool = Ok (set_next n demo_pool, r) ∧ pool_ok (set_next n demo_pool) ∧
    ((r = -1 ∧ ∀ i, 0 <= i < mThreadNum demo_pool → ¬ active i demo_pool) ∨
     (n = r ∧ active r demo_pool ∧ ∃ d, 1 <= d <= mThreadNum demo_pool ∧
        r = (mNextIndex demo_pool + d) mod mThreadNum demo_pool ∧
        ∀ k, 1 <= k < d → ¬ active ((mNextIndex demo_pool + k) mod mThreadNum demo_pool) demo_pool)).
Proof. apply round_robin_fair, demo_pool_ok. Defined.

Lemma fewer_events_minimal_witness :
  ∃ r, fewerEventsIndex demo_pool = Ok r ∧
    (r = -1 ∧ none_below getEventSize (λ n, n < size_max - 1) demo_pool (mThreadNum demo_pool) ∨
     best_below getEventSize Z.le demo_pool (mThreadNum demo_pool) r).
Proof. apply (fewer_events_minimal Z.gtb 1000), demo_pool_ok. Defined.

Lemma distribution_one_thread_witness :
  ∃ p' b, distributionEvent Z.gtb 1000 FASTER_HANDLED demo_pool = Ok (p', b) ∧
    if b then ∃ i t, 0 <= i < getSize demo_pool ∧
      mEventLoopThreads demo_pool !! Z.to_nat i = Some (Some t) ∧ isLooping t = true ∧
      mEventLoopThreads p' = <[Z.to_nat i := Some (addEvent t)]> (mEventLoopThreads demo_pool)
    else mEventLoopThreads p' = mEventLoopThreads demo_pool.
Proof. apply distribution_one_thread, demo_pool_ok. Defined.
