(* ===== verification/TcpServer.v ===== *)
(** * The TCP server: [Base/net/{TcpServer,Acceptor,SocketAddr}.h]

    The registry of connections (the pool of loops, the hash map by name and
    the connection objects with the pointers that keep them alive), and the
    queue of timer tasks between the timer's thread and the server's own.  A
    connection object is a location; it is destroyed when neither the map nor
    its own close callback points to it. *)

From S2P Require Import Prelude SafeHashmap SafeQueue Timer IOBuffer TcpConnection Poller EventLoop.

Local Open Scope Z_scope.

(** The numeric form of an address; [getnameinfo] with both numeric flags looks
    nothing up. *)
Record SocketAddr := mkAddr { host : str; service : str }.

Definition getHostAndServiceNUM (a : SocketAddr) : str := host a ++ lit ":" ++ service a.
Definition addr_getIP (a : SocketAddr) : str := host a.

Section TcpServer.
Context {R F : Type} (gtb : R → R → bool) (rate_max : R) (mHashFunc : str → Z).

Record Registry := mkRegistry {
  mEventLoopThreadpool : EventLoopThreadpool (R := R);
  mTcpConnections : SafeHashmap str loc;
  conns : gmap loc (TcpConnection * Z);   (* the live objects, with the loop that has their handler *)
  bound : gset loc;                       (* the objects whose close callback holds its pointer *)
  nextLoc : loc }.

Record TimerTasks := mkTimerTasks {
  mTimer : option (TimeWheelTimer str);   (* None: mTimerWeak has expired *)
  mTimerTasks : gmap str F;
  mTimeoutTaskIDQueue : list str }.

Record TcpServer := mkServer {
  mServName : str;
  mEventLoopThdNum : Z;
  registry : Registry;
  tasks : TimerTasks;
  mConnBlacklist : gset str;
  mStarted : bool }.

Definition newTcpServer (servName : str) (bucketSize : Z) (pool : EventLoopThreadpool (R := R)) : TcpServer :=
  mkServer servName (getSize pool)
    (mkRegistry pool (newSafeHashmap bucketSize) ∅ ∅ 0%nat)
    (mkTimerTasks None ∅ []) ∅ false.

Definition set_registry (r : Registry) (s : TcpServer) : TcpServer :=
  mkServer (mServName s) (mEventLoopThdNum s) r (tasks s) (mConnBlacklist s) (mStarted s).
Definition set_tasks (t : TimerTasks) (s : TcpServer) : TcpServer :=
  mkServer (mServName s) (mEventLoopThdNum s) (registry s) t (mConnBlacklist s) (mStarted s).

Definition set_pool (p : EventLoopThreadpool (R := R)) (r : Registry) : Registry :=
  mkRegistry p (mTcpConnections r) (conns r) (bound r) (nextLoc r).
Definition set_table (t : SafeHashmap str loc) (r : Registry) : Registry :=
  mkRegistry (mEventLoopThreadpool r) t (conns r) (bound r) (nextLoc r).
Definition set_bound (b : gset loc) (r : Registry) : Registry :=
  mkRegistry (mEventLoopThreadpool r) (mTcpConnections r) (conns r) b (nextLoc r).

(** ** The blacklist, the accessors *)

Definition addToBlacklist (ips : list str) (s : TcpServer) : TcpServer :=
  mkServer (mServName s) (mEventLoopThdNum s) (registry s) (tasks s)
    (mConnBlacklist s ∪ list_to_set ips) (mStarted s).

Definition isInBlacklist (ip : str) (s : TcpServer) : bool := bool_decide (ip ∈ mConnBlacklist s).

Definition start (s : TcpServer) : TcpServer :=
  mkServer (mServName s) (mEventLoopThdNum s) (registry s) (tasks s) (mConnBlacklist s) true.

Definition isStartCalled (s : TcpServer) : bool := mStarted s.

Definition getConnPtrRef (connID : str) (s : TcpServer) : res (option loc) :=
  find mHashFunc connID (mTcpConnections (registry s)).

Definition server_getEventLoop (tid : Z) (s : TcpServer) : res (option EventLoopThread) :=
  getEventLoop_tid tid (mEventLoopThreadpool (registry s)).

Fixpoint active_loop (fuel : nat) (i num : Z) (s : TcpServer) : res Z :=
  if mEventLoopThdNum s <=? i then Ok num else
  match fuel with
  | O => Err OutOfFuel
  | S fuel =>
      l ← getEventLoop i (mEventLoopThreadpool (registry s));
      active_loop fuel (i + 1)
        (match l with Some l => u64 (num + getEventSize l) | None => num end) s
  end.

Definition getActiveConnectionNum (s : TcpServer) : res Z :=
  active_loop (Z.to_nat (mEventLoopThdNum s)) 0 0 s.

(** ** Timer tasks *)

Definition linkTimer (t : option (TimeWheelTimer str)) (s : TcpServer) : TcpServer * bool :=
  (set_tasks (mkTimerTasks t (mTimerTasks (tasks s)) (mTimeoutTaskIDQueue (tasks s))) s,
   match t with Some _ => true | None => false end).

(** [now] is the clock's, for the identifier. *)
Definition registerTimerTask (now hours minutes seconds cyc : Z) (func : F) (s : TcpServer)
    : TcpServer * bool :=
  match mTimer (tasks s) with
  | None => (s, false)
  | Some timer =>
      let '(timer, id) := generateID now timer in
      match mTimerTasks (tasks s) !! id with
      | Some _ =>
          (set_tasks (mkTimerTasks (Some timer) (mTimerTasks (tasks s)) (mTimeoutTaskIDQueue (tasks s))) s, false)
      | None =>
          let tt := newTimerTask hours minutes seconds cyc id (Some id) in
          (set_tasks (mkTimerTasks (Some (addTask tt timer)) (<[id := func]> (mTimerTasks (tasks s)))
             (mTimeoutTaskIDQueue (tasks s))) s, true)
      end
  end.

Definition pushTaskID (id : str) (s : TcpServer) : TcpServer :=
  set_tasks (mkTimerTasks (mTimer (tasks s)) (mTimerTasks (tasks s)) (mTimeoutTaskIDQueue (tasks s) ++ [id])) s.

(** A pass [f] of one of the timer's threads: the tasks it fires push their
    identifiers. *)
Definition timer_pass (f : TimeWheelTimer str → res (TimeWheelTimer str)) (s : TcpServer) : res TcpServer :=
  match mTimer (tasks s) with
  | None => Ok s
  | Some timer =>
      timer' ← f timer;
      let ids := drop (length (fired timer)) (fired timer') in
      let s := set_tasks (mkTimerTasks (Some timer') (mTimerTasks (tasks s)) (mTimeoutTaskIDQueue (tasks s))) s in
      Ok (fold_left (λ s id, pushTaskID id s) ids s)
  end.

(** [exec] is what calling a task function does. *)
Definition runTimerTask (exec : F → TcpServer → res TcpServer) (id : str) (s : TcpServer) : res TcpServer :=
  match mTimerTasks (tasks s) !! id with
  | Some func => exec func s
  | None => Ok s
  end.

(** One pass of the loop of [timerWork]; it waits while the queue is empty. *)
Definition timerWork (exec : F → TcpServer → res TcpServer) (s : TcpServer) : res TcpServer :=
  match mTimeoutTaskIDQueue (tasks s) with
  | [] => Ok s
  | id :: q => runTimerTask exec id (set_tasks (mkTimerTasks (mTimer (tasks s)) (mTimerTasks (tasks s)) q) s)
  end.

(** ** Connections *)

Definition generateConnID (connfd : Z) (peerAddr : SocketAddr) (s : TcpServer) : str :=
  mServName s ++ lit "_fd" ++ to_string connfd ++ lit "_" ++ getHostAndServiceNUM peerAddr.

Definition set_thread (index : Z) (t : EventLoopThread) (p : EventLoopThreadpool (R := R)) : EventLoopThreadpool :=
  mkPool (mThreadNum p) (mNextIndex p) (<[Z.to_nat index := Some t]> (mEventLoopThreads p)).

(** [make_shared<TcpConnection>]: the constructor registers the handler in the loop. *)
Definition make_connection (c : TcpConnection) (index : Z) (t : EventLoopThread) (r : Registry) : Registry * loc :=
  (mkRegistry (set_thread index (addEvent t) (mEventLoopThreadpool r)) (mTcpConnections r)
     (<[nextLoc r := (c, index)]> (conns r)) (bound r) (S (nextLoc r)), nextLoc r).

Definition removeEvent (t : EventLoopThread (R := R)) : EventLoopThread :=
  mkThread (mID t) (isLooping t) (getEventSize t - 1) (getLastRate t).

Definition referenced (l : loc) (r : Registry) : bool :=
  bool_decide (l ∈ bound r) || bool_decide (l ∈ (pairs (mTcpConnections r)).*2).

(** When the last pointer goes, the destructor removes the handler. *)
Definition release (l : loc) (r : Registry) : res Registry :=
  if referenced l r then Ok r else
  match conns r !! l with
  | None => Ok r
  | Some (_, index) =>
      t ← thread_at index (mEventLoopThreadpool r);
      t ← of_option NullDeref t;
      Ok (mkRegistry (set_thread index (removeEvent t) (mEventLoopThreadpool r)) (mTcpConnections r)
            (delete l (conns r)) (bound r) (nextLoc r))
  end.

(** The functions the server's owner has set. *)
Context (mConnNameFunc mCloseFunc : option (str → TcpServer → res TcpServer)).

Definition call_opt (f : option (str → TcpServer → res TcpServer)) (a : str) (s : TcpServer) : res TcpServer :=
  match f with Some f => f a s | None => Ok s end.

Definition newConnectionFunc (connfd : Z) (peerAddr : SocketAddr) (s : TcpServer) : res TcpServer :=
  '(p, index) ← getDesiredIndex gtb rate_max ROUND_ROBIN (mEventLoopThreadpool (registry s));
  let r := set_pool p (registry s) in
  eventloopPtr ← getEventLoop index p;
  match eventloopPtr with
  | None => Ok (set_registry r s)
  | Some t =>
      let connName := generateConnID connfd peerAddr s in
      let c := setName connName (newTcpConnection connfd (host peerAddr) (service peerAddr) connName) in
      let '(r, l) := make_connection c index t r in
      table ← insert mHashFunc connName l (mTcpConnections r);
      s ← call_opt mConnNameFunc connName (set_registry (set_table table r) s);
      Ok (set_registry (set_bound (bound (registry s) ∪ {[l]}) (registry s)) s)
  end.

(** [connPtr] is the pointer bound in the callback, reset at the end. *)
Definition removeConnection (l : loc) (s : TcpServer) : res TcpServer :=
  let r := registry s in
  if negb (bool_decide (l ∈ bound r)) then Err NullDeref else
  '(c, _) ← of_option NullDeref (conns r !! l);
  table ← erase mHashFunc (getName c) (mTcpConnections r);
  s ← call_opt mCloseFunc (getIPPort c) (set_registry (set_table table r) s);
  let r := registry s in
  r ← release l (set_bound (bound r ∖ {[l]}) r);
  Ok (set_registry r s).

(** An event of a connection changed the object at [l]. *)
Definition set_conn (l : loc) (c : TcpConnection) (s : TcpServer) : TcpServer :=
  let r := registry s in
  set_registry (mkRegistry (mEventLoopThreadpool r) (mTcpConnections r)
    (alter (λ ci, (c, ci.2)) l (conns r)) (bound r) (nextLoc r)) s.

(** ** [Acceptor::connFunc] *)

(** The visitors' queue is shared with whoever set it; a function that is not
    set is [None].  The result names the descriptor it closed, if any. *)
Definition connFunc (connfd : Z) (clisa : SocketAddr) (mVisitors : option (list (Z * SocketAddr)))
    (mFilterFunc : option (SocketAddr → TcpServer → bool))
    (mConnectionFunc : option (Z → SocketAddr → TcpServer → res TcpServer)) (s : TcpServer)
    : res (TcpServer * option (list (Z * SocketAddr)) * option Z) :=
  if 0 <? connfd then
    let mVisitors := (λ q, q ++ [(connfd, clisa)]) <$> mVisitors in
    match mConnectionFunc with
    | None => Ok (s, mVisitors, None)
    | Some f =>
        match mFilterFunc with
        | Some filter =>
            if filter clisa s then s ← f connfd clisa s; Ok (s, mVisitors, None)
            else Ok (s, mVisitors, Some connfd)
        | None => s ← f connfd clisa s; Ok (s, mVisitors, None)
        end
    end
  else Ok (s, mVisitors, None).

(** ** Names *)

Definition digit (a : ascii) : Prop := 48 <= byte_val a <= 57.

Lemma pretty_go_digits x s : Forall digit (lit s) → Forall digit (lit (pretty_N_go x s)).
Proof.
  revert s. induction (N.lt_wf_0 x) as [x _ IH]. intros s Hs.
  destruct (decide (x = 0%N)) as [->|Hx]; [by rewrite pretty_N_go_0|].
  rewrite pretty_N_go_step by lia. apply IH.
  - apply N.div_lt; lia.
  - cbn. constructor; [|done]. pose proof (N.mod_lt x 10 ltac:(lia)).
    unfold pretty_N_char, digit. destruct (x `mod` 10)%N as [|p]; [by vm_compute|].
    repeat (destruct p as [p|p|]; try (by vm_compute); try lia).
Qed.

Lemma to_string_digits z : 0 <= z → Forall digit (to_string z).
Proof.
  intros Hz. unfold to_string. destruct z as [|p|p]; [|change (pretty (Z.pos p)) with (pretty (N.pos p))|lia].
  - constructor; [|constructor]. by vm_compute.
  - unfold pretty, pretty_N. case_decide; [lia|]. by apply pretty_go_digits.
Qed.

Lemma digits_prefix (a b c d : str) (x : ascii) :
  Forall digit a → Forall digit b → ¬ digit x → a ++ x :: c = b ++ x :: d → a = b.
Proof.
  revert b. induction a as [|y a IH]; intros [|z b] Ha Hb Hx H; cbn in H.
  - done.
  - injection H as -> _. by apply Forall_cons in Hb as [? _].
  - injection H as -> _. by apply Forall_cons in Ha as [? _].
  - injection H as -> H. apply Forall_cons in Ha as [_ Ha], Hb as [_ Hb]. f_equal. by apply (IH b).
Qed.

Lemma generateConnID_inj fd fd' a a' s :
  0 <= fd → 0 <= fd' → generateConnID fd a s = generateConnID fd' a' s → fd = fd'.
Proof.
  intros Hf Hf' H. unfold generateConnID in H. apply app_inv_head, app_inv_head in H.
  apply (inj to_string). eapply digits_prefix; [..|exact H]; try by apply to_string_digits.
  unfold digit. change (byte_val _) with 95. lia.
Qed.

(** ** Counting *)

Abbreviation pool := (EventLoopThreadpool (R := R)).

Definition events_of (ts : list (option (EventLoopThread (R := R)))) : Z :=
  foldr (λ t a, match t with Some t => getEventSize t + a | None => a end) 0 ts.

Lemma events_of_app a b : events_of (a ++ b) = events_of a + events_of b.
Proof. unfold events_of. induction a as [|[t|] a IH]; cbn; rewrite ?IH; lia. Qed.

Lemma events_of_insert ts i t t' :
  ts !! i = Some (Some t) →
  events_of (<[i := Some t']> ts) = events_of ts + (getEventSize t' - getEventSize t).
Proof.
  intros Hi. pose proof (lookup_lt_Some _ _ _ Hi).
  rewrite <- (take_drop_middle _ _ _ Hi) at 2. rewrite insert_take_drop by done.
  rewrite !events_of_app. cbn. fold (events_of (drop (S i) ts)). lia.
Qed.

Definition events (p : pool) : Z := events_of (take (Z.to_nat (mThreadNum p)) (mEventLoopThreads p)).

Lemma events_set_thread i t t' p :
  0 <= i < mThreadNum p → mEventLoopThreads p !! Z.to_nat i = Some (Some t) →
  events (set_thread i t' p) = events p + (getEventSize t' - getEventSize t).
Proof.
  intros Hi Ht. unfold events, set_thread. cbn [mThreadNum mEventLoopThreads].
  rewrite take_insert_lt by lia. apply events_of_insert.
  by rewrite lookup_take_lt by lia.
Qed.

Lemma set_thread_ok i t p : pool_ok p → 0 <= i < mThreadNum p → pool_ok (set_thread i t p).
Proof.
  intros [Hn Hx Ht] Hi. split; cbn [set_thread mThreadNum mNextIndex mEventLoopThreads]; [done|done|].
  intros j Hj. destruct (Ht i Hi) as [ti Hti], (Ht j Hj) as [tj Htj].
  destruct (decide (Z.to_nat i = Z.to_nat j)) as [<-|Hne].
  - exists t. rewrite list_lookup_insert_eq; [done|by eapply lookup_lt_Some].
  - exists tj. by rewrite list_lookup_insert_ne.
Qed.

Lemma active_loop_spec fuel i num s :
  let p := mEventLoopThreadpool (registry s) in
  pool_ok p → mEventLoopThdNum s = mThreadNum p → 0 <= i <= mThreadNum p → num = u64 num →
  Z.to_nat (mThreadNum p - i) = fuel →
  active_loop fuel i num s
  = Ok (u64 (num + events_of (drop (Z.to_nat i) (take (Z.to_nat (mThreadNum p)) (mEventLoopThreads p))))).
Proof.
  cbv zeta. intros Hp Hn. revert i num. induction fuel as [|fuel IH]; intros i num Hi Hnum Hf; cbn [active_loop];
    rewrite Hn.
  - rewrite (proj2 (Z.leb_le _ _)) by lia. rewrite drop_ge; [cbn; by rewrite Z.add_0_r, <- Hnum|].
    rewrite length_take. lia.
  - rewrite (proj2 (Z.leb_gt _ _)) by lia. destruct (pok_threads _ Hp i ltac:(lia)) as [t Ht].
    unfold getEventLoop, thread_at. rewrite (proj2 (Z.ltb_ge i 0)), (proj2 (Z.leb_gt _ i)) by lia.
    rewrite Ht. cbn [orb of_option mbind res_bind].
    rewrite IH; [|lia|by rewrite u64_idem|lia].
    rewrite (drop_S _ (Some t) (Z.to_nat i)) by (rewrite lookup_take_lt by lia; exact Ht).
    replace (Z.to_nat (i + 1)) with (S (Z.to_nat i)) by lia. cbn [events_of foldr].
    rewrite u64_add_l. do 2 f_equal. unfold events_of. lia.
Qed.

Lemma active_spec s :
  let p := mEventLoopThreadpool (registry s) in
  pool_ok p → mEventLoopThdNum s = mThreadNum p → getActiveConnectionNum s = Ok (u64 (events p)).
Proof.
  cbv zeta. intros Hp Hn. pose proof (pok_num _ Hp). unfold getActiveConnectionNum.
  rewrite active_loop_spec by (done || lia). by rewrite Z.add_0_l, drop_0.
Qed.

(** ** The registry *)

Definition fd_of (c : TcpConnection) : Z := getFD (mInputBuffer c).

Record registry_ok (s : TcpServer) (m : gmap str loc) : Prop := {
  rok_map : denotes mHashFunc (mTcpConnections (registry s)) m;
  rok_pool : pool_ok (mEventLoopThreadpool (registry s));
  rok_num : mEventLoopThdNum s = mThreadNum (mEventLoopThreadpool (registry s));
  rok_entry name l : m !! name = Some l → ∃ c i, conns (registry s) !! l = Some (c, i) ∧ getName c = name;
  rok_conn (l : loc) c i : conns (registry s) !! l = Some (c, i) →
    m !! getName c = Some l ∧ l ∈ bound (registry s) ∧ (l < nextLoc (registry s))%nat ∧
    0 <= i < mThreadNum (mEventLoopThreadpool (registry s)) ∧
    0 <= fd_of c ∧ ∃ peer, getName c = generateConnID (fd_of c) peer s;
  rok_bound l : l ∈ bound (registry s) → is_Some (conns (registry s) !! l);
  rok_events : events (mEventLoopThreadpool (registry s)) =
    mThreadNum (mEventLoopThreadpool (registry s)) + Z.of_nat (base.size (conns (registry s))) }.

Lemma robin_step p :
  pool_ok p →
  ∃ n r, getDesiredIndex gtb rate_max ROUND_ROBIN p = Ok (set_next n p, r) ∧ pool_ok (set_next n p) ∧
    ((r = -1 ∧ ∀ i, 0 <= i < mThreadNum p → ¬ active i p) ∨ 0 <= r < mThreadNum p).
Proof.
  intros Hp. destruct (roundRobinIndex_spec p Hp) as (n & r & Hr & Hn & Hcase). exists n, r.
  split; [exact Hr|]. split; [by destruct Hp|]. destruct Hcase as [?|(-> & _)]; [by left|by right].
Qed.

(** A call that leaves the registry alone. *)
Definition quiet (f : option (str → TcpServer → res TcpServer)) : Prop :=
  ∀ a s, ∃ s', call_opt f a s = Ok s' ∧ registry s' = registry s ∧ mServName s' = mServName s ∧
    mEventLoopThdNum s' = mEventLoopThdNum s.

Lemma getConn_denotes s m name :
  denotes mHashFunc (mTcpConnections (registry s)) m → getConnPtrRef name s = Ok (m !! name).
Proof. intros [_ Hf]. apply Hf. Qed.

(** Only the registry and the two constants matter to the invariant. *)
Lemma registry_ok_ext s s' m :
  registry s' = registry s → mServName s' = mServName s → mEventLoopThdNum s' = mEventLoopThdNum s →
  registry_ok s m → registry_ok s' m.
Proof.
  intros Hr Hs Hn []. split; rewrite ?Hr, ?Hn; try done.
  intros l c i Hc. unfold generateConnID. rewrite Hs. by apply rok_conn0.
Qed.

Lemma set_next_registry_ok n s m :
  registry_ok s m → pool_ok (set_next n (mEventLoopThreadpool (registry s))) →
  registry_ok (set_registry (set_pool (set_next n (mEventLoopThreadpool (registry s))) (registry s)) s) m.
Proof. intros [] Hp. by split. Qed.

(** A descriptor the kernel hands out is not that of a live connection. *)
Definition fresh_fd (fd : Z) (s : TcpServer) : Prop :=
  0 < fd ∧ ∀ l c i, conns (registry s) !! l = Some (c, i) → fd_of c ≠ fd.

Lemma fresh_name fd peer s m :
  registry_ok s m → fresh_fd fd s → m !! generateConnID fd peer s = None.
Proof using Type.
  clear gtb rate_max mConnNameFunc mCloseFunc.
  intros Hok [Hfd Hf]. destruct (m !! generateConnID fd peer s) as [l|] eqn:Hm; [|done].
  destruct (rok_entry _ _ Hok _ _ Hm) as (c & i & Hc & Hn).
  destruct (rok_conn _ _ Hok _ _ _ Hc) as (_ & _ & _ & _ & Hp & peer' & Hn').
  destruct (Hf _ _ _ Hc). rewrite Hn in Hn'. symmetry.
  by apply (generateConnID_inj fd (fd_of c) peer peer' s); [lia|..].
Qed.

(** A registry with one more connection. *)
Lemma registered_ok s s' m name c i l p table :
  registry_ok s m → m !! name = None → l = nextLoc (registry s) →
  registry s' = mkRegistry p table (<[l := (c, i)]> (conns (registry s))) (bound (registry s) ∪ {[l]}) (S l) →
  mServName s' = mServName s → mEventLoopThdNum s' = mEventLoopThdNum s →
  denotes mHashFunc table (<[name := l]> m) →
  pool_ok p → mThreadNum p = mThreadNum (mEventLoopThreadpool (registry s)) →
  events p = events (mEventLoopThreadpool (registry s)) + 1 →
  0 <= i < mThreadNum p → 0 <= fd_of c → getName c = name → (∃ peer, name = generateConnID (fd_of c) peer s) →
  registry_ok s' (<[name := l]> m).
Proof using Type.
  clear gtb rate_max mConnNameFunc mCloseFunc.
  intros [Hd Hp Hn He Hc Hb Hev] Hnew -> Hr Hs Hnum Hd' Hp' Hpn Hpe Hi Hfd Hcn Hpeer.
  set (l := nextLoc (registry s)) in *.
  assert (conns (registry s) !! l = None) as Hl.
  { destruct (conns (registry s) !! l) as [[c' i']|] eqn:Hx; [|done].
    destruct (Hc _ _ _ Hx) as (_ & _ & Hlt & _). unfold l in Hlt. lia. }
  split; rewrite ?Hr, ?Hnum; cbn [mTcpConnections mEventLoopThreadpool conns bound nextLoc].
  - done.
  - done.
  - by rewrite Hpn.
  - intros x l' [[<- <-]|[Hx Hl']]%lookup_insert_Some.
    + exists c, i. by rewrite lookup_insert_eq.
    + destruct (He _ _ Hl') as (c' & i' & Hc' & Hn'). exists c', i'.
      rewrite lookup_insert_ne; [done|]. intros <-. by rewrite Hl in Hc'.
  - unfold generateConnID. rewrite Hs. fold (generateConnID).
    intros l' c' i' [[<- [= <- <-]]|[Hx Hl']]%lookup_insert_Some.
    + rewrite Hcn, lookup_insert_eq. split_and!; try done; [set_solver|lia|lia|lia].
    + destruct (Hc _ _ _ Hl') as (H1 & H2 & H3 & H4 & H5 & H6).
      split_and!; [|by apply elem_of_union_l|fold l in H3; lia|lia|lia|done|done].
      rewrite lookup_insert_ne; [done|]. intros Hx'. congruence.
  - intros l' [Hin| ->%elem_of_singleton]%elem_of_union.
    + destruct (decide (l' = l)) as [->|]; [by rewrite lookup_insert_eq|].
      rewrite lookup_insert_ne by done. by apply Hb.
    + by rewrite lookup_insert_eq.
  - rewrite map_size_insert_None by done. lia.
Qed.

Lemma set_conn_ok l c c0 i s m :
  registry_ok s m → conns (registry s) !! l = Some (c0, i) → getName c = getName c0 → fd_of c = fd_of c0 →
  registry_ok (set_conn l c s) m.
Proof.
  intros Hok Hl Hn Hf.
  destruct Hok as [Hd Hp Hnum He Hc Hb Hev]. split; cbn; try done.
  + intros name l' Hm. destruct (He _ _ Hm) as (c' & i' & Hc' & Hn').
    destruct (decide (l' = l)) as [->|].
    * rewrite lookup_alter_eq, Hl. exists c, i. split; [done|]. rewrite Hn. congruence.
    * rewrite lookup_alter_ne by done. by exists c', i'.
  + intros l' c' i'. destruct (decide (l' = l)) as [->|].
    * rewrite lookup_alter_eq, Hl. intros [= <- <-]. rewrite Hn, Hf. by apply Hc.
    * rewrite lookup_alter_ne by done. apply Hc.
  + intros l' Hl'. rewrite lookup_alter_is_Some. by apply Hb.
  + by rewrite <- (size_dom (D := gset loc)), dom_alter_L, size_dom.
Qed.

Section Steps.
Hypothesis Hname : quiet mConnNameFunc.
Hypothesis Hclose : quiet mCloseFunc.

(** What accepting does to the registry. *)
Lemma accept_step fd peer s m :
  registry_ok s m → fresh_fd fd s →
  ∃ s', newConnectionFunc fd peer s = Ok s' ∧ mServName s' = mServName s ∧
    (registry_ok s' m ∧ conns (registry s') = conns (registry s) ∧
       (∀ i, 0 <= i < mEventLoopThdNum s → ¬ active i (mEventLoopThreadpool (registry s))) ∨
     ∃ c i, registry_ok s' (<[generateConnID fd peer s := nextLoc (registry s)]> m) ∧
       conns (registry s') = <[nextLoc (registry s) := (c, i)]> (conns (registry s)) ∧
       (fd_of c = fd ∧ mInputBuffer c = newIOBuffer fd ∧ writing c = false) ∧
       getName c = generateConnID fd peer s ∧ getIPPort c = getHostAndServiceNUM peer).
Proof using Hname.
  clear Hclose.
  intros Hok Hfresh. pose proof (fresh_name fd peer s m Hok Hfresh) as Hnew.
  pose proof (rok_pool _ _ Hok) as Hp. unfold newConnectionFunc.
  destruct (robin_step _ Hp) as (n & r & -> & Hp' & Hr). cbn [mbind res_bind].
  set (p := set_next n (mEventLoopThreadpool (registry s))) in *.
  destruct Hr as [[-> Hnone]|Hr].
  { unfold getEventLoop. cbn [Z.ltb Z.compare orb]. eexists. split; [done|]. split; [done|]. left.
    split; [by apply set_next_registry_ok|]. by rewrite (rok_num _ _ Hok). }
  destruct (pok_threads _ Hp' r Hr) as [t Ht]. unfold getEventLoop, thread_at.
  rewrite (proj2 (Z.ltb_ge r 0)), (proj2 (Z.leb_gt _ r)) by (cbn in *; lia). rewrite Ht.
  cbn [orb of_option mbind res_bind make_connection mTcpConnections set_pool nextLoc].
  set (name := generateConnID fd peer s) in *. set (c := setName name _).
  set (l := nextLoc (registry s)).
  destruct (insert_denotes mHashFunc _ m name l (rok_map _ _ Hok)) as (table & -> & Hd1).
  unfold insert_new in Hd1. rewrite Hnew in Hd1. cbn [mbind res_bind].
  set (s1 := set_registry _ s). destruct (Hname name s1) as (s2 & -> & Hr2 & Hs2 & Hn2).
  cbn [mbind res_bind]. eexists. split; [done|]. split; [done|]. right. exists c, r.
  cbn [set_registry registry set_bound conns mServName]. rewrite Hr2. split_and!; try done.
  eapply (registered_ok s _ m name c r l (set_thread r (addEvent t) p) table); try done.
  - by apply set_thread_ok.
  - rewrite (events_set_thread r t) by done. cbn [getEventSize addEvent].
    change (events p) with (events (mEventLoopThreadpool (registry s))). lia.
  - cbn. destruct Hfresh. lia.
  - by exists peer.
Qed.

(** What closing does. *)
Lemma close_step l c i s m :
  registry_ok s m → conns (registry s) !! l = Some (c, i) →
  ∃ s', removeConnection l s = Ok s' ∧ mServName s' = mServName s ∧
    registry_ok s' (delete (getName c) m) ∧ conns (registry s') = delete l (conns (registry s)) ∧
    bound (registry s') = bound (registry s) ∖ {[l]}.
Proof using Hclose.
  clear Hname gtb rate_max mConnNameFunc.
  intros Hok Hl. pose proof Hok as [Hd Hp Hn He Hc Hb Hev].
  destruct (Hc _ _ _ Hl) as (Hm & Hin & Hlt & Hi & Hfd & Hpeer). unfold removeConnection.
  rewrite bool_decide_eq_true_2 by done. cbn [negb]. rewrite Hl. cbn [of_option mbind res_bind].
  destruct (erase_denotes mHashFunc _ m (getName c) Hd) as (table & -> & Hd'). cbn [mbind res_bind].
  set (s1 := set_registry _ s). destruct (Hclose (getIPPort c) s1) as (s2 & -> & Hr2 & Hs2 & Hn2).
  cbn [mbind res_bind]. rewrite Hr2. unfold release.
  assert (referenced l (set_bound (bound (registry s1) ∖ {[l]}) (registry s1)) = false) as ->.
  { unfold referenced. apply orb_false_iff.
    split; apply bool_decide_eq_false; cbn; [set_solver|].
    rewrite (pairs_permutation mHashFunc _ _ Hd'). intros ([name l'] & -> & Hmem)%list_elem_of_fmap.
    apply elem_of_map_to_list, lookup_delete_Some in Hmem as [Hne Hmem].
    destruct (He _ _ Hmem) as (c' & i' & Hc' & Hn'). cbn in *. rewrite Hl in Hc'. congruence. }
  cbn [conns set_bound registry s1 set_registry set_table]. rewrite Hl.
  destruct (pok_threads _ Hp i Hi) as [t Ht]. unfold thread_at. cbn [mEventLoopThreadpool set_table set_bound registry set_registry].
  rewrite Ht. cbn [of_option mbind res_bind]. eexists. split; [done|]. split; [done|].
  cbn [registry set_registry conns bound set_table set_bound]. split; [|done].
  split; cbn [set_registry registry set_bound mEventLoopThdNum mTcpConnections mEventLoopThreadpool
    conns bound nextLoc set_table mServName set_pool].
  - done.
  - by apply set_thread_ok.
  - by rewrite Hn2.
  - intros name l' [Hne Hl']%lookup_delete_Some. destruct (He _ _ Hl') as (c' & i' & Hc' & Hn').
    exists c', i'. rewrite lookup_delete_ne; [done|]. intros <-. rewrite Hl in Hc'. congruence.
  - intros l' c' i' [Hne Hl']%lookup_delete_Some.
    destruct (Hc _ _ _ Hl') as (H1 & H2 & H3 & H4 & H5 & peer' & H6).
    split_and!; [| |done|apply H4|apply H4|done|].
    + rewrite lookup_delete_ne; [done|]. intros Hx. congruence.
    + apply elem_of_difference. by rewrite elem_of_singleton.
    + exists peer'. unfold generateConnID. cbn [mServName set_registry]. by rewrite Hs2.
  - intros l' [Hl' Hne]%elem_of_difference. rewrite elem_of_singleton in Hne.
    rewrite lookup_delete_ne by done. by apply Hb.
  - rewrite (events_set_thread i t) by done. rewrite map_size_delete, Hl.
    cbn [getEventSize removeEvent set_thread mThreadNum].
    assert (base.size (conns (registry s)) ≠ 0%nat).
    { intros H0%map_size_empty_inv. by rewrite H0 in Hl. }
    lia.
Qed.

(** ** Sequences of events *)

(** [Event] is any event that leaves the object its name and descriptor. *)
Inductive server_op :=
  | Accept (fd : Z) (peer : SocketAddr)
  | Event (l : loc) (c : TcpConnection)
  | Close (l : loc).

Definition exec_op (o : server_op) (s : TcpServer) : res TcpServer :=
  match o with
  | Accept fd peer => newConnectionFunc fd peer s
  | Event l c => Ok (set_conn l c s)
  | Close l => removeConnection l s
  end.

Definition legal (o : server_op) (s : TcpServer) : Prop :=
  match o with
  | Accept fd _ => fresh_fd fd s
  | Event l c => ∃ c0 i, conns (registry s) !! l = Some (c0, i) ∧ getName c = getName c0 ∧ fd_of c = fd_of c0
  | Close l => is_Some (conns (registry s) !! l)
  end.

Inductive reachable (s0 : TcpServer) : TcpServer → Prop :=
  | reach_start : reachable s0 s0
  | reach_step s o s' : reachable s0 s → legal o s → exec_op o s = Ok s' → reachable s0 s'.

Lemma new_registry_ok name n p :
  0 < n → pool_ok p → events p = mThreadNum p → registry_ok (newTcpServer name n p) ∅.
Proof.
  intros Hn Hp He. split; cbn; try done.
  - by apply new_denotes.
  - rewrite map_size_empty. lia.
Qed.

Lemma exec_op_ok o s m :
  registry_ok s m → legal o s → ∃ s' m', exec_op o s = Ok s' ∧ registry_ok s' m'.
Proof.
  intros Hok Hl. destruct o as [fd peer|l c|l]; cbn [exec_op legal] in *.
  - destruct (accept_step fd peer s m Hok Hl) as (s' & -> & _ & [[Hok' _]|(c & i & Hok' & _)]); by do 2 eexists.
  - destruct Hl as (c0 & i & Hl & Hn & Hf). exists (set_conn l c s), m. split; [done|]. by eapply set_conn_ok.
  - destruct Hl as [[c i] Hl]. destruct (close_step l c i s m Hok Hl) as (s' & -> & _ & Hok' & _).
    by do 2 eexists.
Qed.

Lemma reachable_ok s0 s m0 : registry_ok s0 m0 → reachable s0 s → ∃ m, registry_ok s m.
Proof.
  intros H0 Hr. induction Hr as [|s o s' _ [m IH] Hl He]; [by exists m0|].
  destruct (exec_op_ok o s m IH Hl) as (s1 & m' & He' & Hok). rewrite He in He'. simplify_eq. by exists m'.
Qed.

Lemma registry_lookup s m name l :
  registry_ok s m →
  getConnPtrRef name s = Ok (Some l) ↔ ∃ c i, conns (registry s) !! l = Some (c, i) ∧ getName c = name.
Proof.
  intros Hok. rewrite (getConn_denotes _ m) by apply Hok. split.
  - intros [= Hm]. by apply (rok_entry _ _ Hok).
  - intros (c & i & Hc & <-). destruct (rok_conn _ _ Hok _ _ _ Hc) as (Hm & _). by rewrite Hm.
Qed.

(** ** Properties *)

(** C9: whatever connections come, go and have events, in any order, the server
    never throws, its map finds by name exactly the live connections, and the
    number it gives of active connections is that of the live ones plus one for
    each loop, whose wake-up handler it counts. *)
Theorem registry_correct name n p s o :
  0 < n → pool_ok p → events p = mThreadNum p → reachable (newTcpServer name n p) s → legal o s →
  is_ok (exec_op o s) = true ∧
  (∀ id l, getConnPtrRef id s = Ok (Some l) ↔ ∃ c i, conns (registry s) !! l = Some (c, i) ∧ getName c = id) ∧
  getActiveConnectionNum s = Ok (u64 (mEventLoopThdNum s + Z.of_nat (base.size (conns (registry s))))).
Proof.
  intros Hn Hp He Hr Hl.
  destruct (reachable_ok _ _ _ (new_registry_ok name n p Hn Hp He) Hr) as [m Hok]. split_and!.
  - destruct (exec_op_ok o s m Hok Hl) as (s' & m' & -> & _). done.
  - intros id l. by eapply registry_lookup.
  - rewrite active_spec by apply Hok. by rewrite (rok_events _ _ Hok), (rok_num _ _ Hok).
Qed.

(** While some loop runs, a connection accepted is found under the
    identifier made of server, descriptor and address; once closed it is not
    found, its object is gone, and a second close dereferences the null that the
    first one left in the callback. *)
Theorem connection_lifecycle name n p s fd peer :
  0 < n → pool_ok p → events p = mThreadNum p → reachable (newTcpServer name n p) s → fresh_fd fd s →
  (∃ i, 0 <= i < mEventLoopThdNum s ∧ active i (mEventLoopThreadpool (registry s))) →
  let id := generateConnID fd peer s in
  let l := nextLoc (registry s) in
  ∃ s1 s2, newConnectionFunc fd peer s = Ok s1 ∧ removeConnection l s1 = Ok s2 ∧
    getConnPtrRef id s1 = Ok (Some l) ∧
    (∃ c i, conns (registry s1) !! l = Some (c, i) ∧ getIPPort c = getHostAndServiceNUM peer) ∧
    getConnPtrRef id s2 = Ok None ∧ conns (registry s2) = conns (registry s) ∧
    removeConnection l s2 = Err NullDeref.
Proof.
  intros Hn Hp He Hr Hf (i & Hi & Ha) id l.
  destruct (reachable_ok _ _ _ (new_registry_ok name n p Hn Hp He) Hr) as [m Hok].
  destruct (accept_step fd peer s m Hok Hf) as (s1 & Hs1 & _ & [(_ & _ & Hno)|(c & j & Hok1 & Hc1 & _ & Hcn & Hip)]).
  { by destruct (Hno i Hi). }
  assert (conns (registry s1) !! l = Some (c, j)) as Hl by (rewrite Hc1; apply lookup_insert_eq).
  destruct (close_step l c j s1 _ Hok1 Hl) as (s2 & Hs2 & _ & Hok2 & Hc2 & Hb2).
  exists s1, s2. split_and!; [done|done| |by exists c, j| | |].
  - rewrite (getConn_denotes _ _ _ (rok_map _ _ Hok1)). by rewrite lookup_insert_eq.
  - rewrite (getConn_denotes _ _ _ (rok_map _ _ Hok2)). rewrite Hcn. by rewrite lookup_delete_eq.
  - rewrite Hc2, Hc1. apply delete_insert_id. destruct (conns (registry s) !! nextLoc (registry s)) as [[c' j']|] eqn:Hx; [|done].
    destruct (rok_conn _ _ Hok _ _ _ Hx) as (_ & _ & Hlt & _). lia.
  - unfold removeConnection. rewrite Hb2, bool_decide_eq_false_2; [done|]. set_solver.
Qed.
End Steps.

(** ** Timer tasks end to end *)

Lemma push_ids ids s :
  fold_left (λ s id, pushTaskID id s) ids s =
  set_tasks (mkTimerTasks (mTimer (tasks s)) (mTimerTasks (tasks s)) (mTimeoutTaskIDQueue (tasks s) ++ ids)) s.
Proof.
  revert s. induction ids as [|id ids IH]; intros s; cbn [fold_left].
  - rewrite app_nil_r. by destruct s as [? ? ? [] ? ?].
  - rewrite IH. unfold pushTaskID. cbn. by rewrite <- app_assoc.
Qed.

Lemma timer_pass_spec f s t t' ids :
  mTimer (tasks s) = Some t → f t = Ok t' → fired t' = fired t ++ ids →
  timer_pass f s = Ok (set_tasks (mkTimerTasks (Some t') (mTimerTasks (tasks s)) (mTimeoutTaskIDQueue (tasks s) ++ ids)) s).
Proof.
  intros Ht Hf Hi. unfold timer_pass. rewrite Ht, Hf. cbn [mbind res_bind].
  rewrite Hi, drop_app_length, push_ids. done.
Qed.

End TcpServer.

(** ** Witnesses *)

Definition demo_loops : EventLoopThreadpool (R := Z) :=
  newEventLoopThreadpool 2 4 (λ i, mkThread (Z.of_nat i) true 1 0).

Definition demo_peer : SocketAddr := mkAddr (lit "10.0.0.9") (lit "4000").

Definition demo_hash (k : str) : Z := of_le (take 8 k).

Lemma demo_loops_ok : pool_ok demo_loops.
Proof. apply new_pool_ok; lia. Qed.

Lemma quiet_None {F} : quiet (R := Z) (F := F) None.
Proof. intros a s. by exists s. Qed.

Definition demo_server : TcpServer (R := Z) (F := unit) := newTcpServer (lit "Login") 7 demo_loops.

Lemma demo_fresh : fresh_fd 9 demo_server.
Proof. split; [lia|]. intros l c i H. done. Qed.

Lemma registry_correct_witness :
  is_ok (exec_op Z.gtb 1000 demo_hash None None (Accept 9 demo_peer) demo_server) = true ∧
  (∀ id l, getConnPtrRef demo_hash id demo_server = Ok (Some l) ↔
     ∃ c i, conns (registry demo_server) !! l = Some (c, i) ∧ getName c = id) ∧
  getActiveConnectionNum demo_server =
    Ok (u64 (mEventLoopThdNum demo_server + Z.of_nat (base.size (conns (registry demo_server))))).
Proof.
  apply (registry_correct Z.gtb 1000 demo_hash None None quiet_None quiet_None (lit "Login") 7 demo_loops).
  - lia.
  - apply demo_loops_ok.
  - reflexivity.
  - apply reach_start.
  - apply demo_fresh.
Defined.

Lemma connection_lifecycle_witness :
  let id := generateConnID 9 demo_peer demo_server in
  let l := nextLoc (registry demo_server) in
  ∃ s1 s2, newConnectionFunc Z.gtb 1000 demo_hash None 9 demo_peer demo_server = Ok s1 ∧
    removeConnection demo_hash None l s1 = Ok s2 ∧
    getConnPtrRef demo_hash id s1 = Ok (Some l) ∧
    (∃ c i, conns (registry s1) !! l = Some (c, i) ∧ getIPPort c = getHostAndServiceNUM demo_peer) ∧
    getConnPtrRef demo_hash id s2 = Ok None ∧ conns (registry s2) = conns (registry demo_server) ∧
    removeConnection demo_hash None l s2 = Err NullDeref.
Proof.
  apply (connection_lifecycle Z.gtb 1000 demo_hash None None quiet_None quiet_None (lit "Login") 7 demo_loops).
  - lia.
  - apply demo_loops_ok.
  - reflexivity.
  - apply reach_start.
  - apply demo_fresh.
  - exists 1. split; [by vm_compute|]. eexists. split; reflexivity.
Defined.

