(* ===== verification/Acceptor.v ===== *)
(** * A loop with its poller, and the acceptor on it:
    [Base/net/{EventLoop,Acceptor,TcpServer}.h] and the constructor of [TcpConnection]

    [EventLoop] has the life of a loop and [Poller] its table; here is the loop
    with both: its constructor with the handler of the wake-up descriptor, and
    one turn of [loop], which waits and runs the callbacks of what is ready.  The
    acceptor is a listening socket of [Socket] with a handler in such a loop; a
    connection is made from the descriptor it accepts. *)

From S2P Require Import Prelude Socket Poller EventLoop TcpServer.

Local Open Scope Z_scope.

Section Loop.
Context {Ke : Type} `{EpollKernel Ke}.

(** ** [EventLoop] *)

Record Loop := mkLoop {
  mWakeupFD : Z;
  mWakeupHandler : loc;
  mPoller : EpollPoller Ke;
  flags : EventLoop;
  nextHandler : loc }.

Definition set_poller (p : EpollPoller Ke) (lo : Loop) : Loop :=
  mkLoop (mWakeupFD lo) (mWakeupHandler lo) p (flags lo) (nextHandler lo).
Definition set_flags (f : EventLoop) (lo : Loop) : Loop :=
  mkLoop (mWakeupFD lo) (mWakeupHandler lo) (mPoller lo) f (nextHandler lo).

Definition set_base (b : Poller) (p : EpollPoller Ke) : EpollPoller Ke :=
  mkEpollPoller b (kernel p) (mEpollEvents p).

(** [make_shared<EventHandler>]. *)
Definition make_handler (h : EventHandler) (lo : Loop) : loc * Loop :=
  let p := mPoller lo in
  let l := nextHandler lo in
  (l, mkLoop (mWakeupFD lo) (mWakeupHandler lo)
        (set_base (set_heap (<[l := h]> (heap (ebase p))) (ebase p)) p) (flags lo) (S l)).

Definition loop_registerEventHandler (l : loc) (lo : Loop) : res Loop :=
  b ← registerEventHandler l (ebase (mPoller lo));
  Ok (set_poller (set_base b (mPoller lo)) lo).
Definition loop_update (l : loc) (lo : Loop) : res Loop :=
  p ← epoll_update l (mPoller lo); Ok (set_poller p lo).
Definition loop_remove (l : loc) (lo : Loop) : res Loop :=
  p ← epoll_remove l (mPoller lo); Ok (set_poller p lo).

(** The lines every owner of a handler has: make it, register it, [update]. *)
Definition add_handler (h : EventHandler) (lo : Loop) : res (loc * Loop) :=
  let '(l, lo) := make_handler h lo in
  lo ← loop_registerEventHandler l lo;
  lo ← loop_update l lo;
  Ok (l, lo).

(** The constructor, with an [EpollPoller]; [evtfd] is the descriptor [eventfd]
    gave, and [k] a new epoll descriptor. *)
Definition makeLoop (evtfd : Z) (k : Ke) : res Loop :=
  let lo := mkLoop evtfd 0%nat (mkEpollPoller newPoller k 16) newEventLoop 0%nat in
  '(_, lo) ← add_handler (enableReading (setFunc ReadFunc (newEventHandler evtfd))) lo;
  Ok lo.

(** The destructor, before it closes the wake-up descriptor. *)
Definition destroyLoop (lo : Loop) : res Loop :=
  let p := mPoller lo in
  loop_remove (mWakeupHandler lo)
    (set_poller (set_base (modify (mWakeupHandler lo) disableAll (ebase p)) p) lo).

Definition loop_setSettlementPoint (n : Z) (lo : Loop) : Loop :=
  set_poller (set_base (setSettlementPoint n (ebase (mPoller lo))) (mPoller lo)) lo.
Definition loop_setTimeoutParam (interval timeout reset : Z) (lo : Loop) : Loop :=
  set_poller (set_base (setTimeoutParam interval timeout reset (ebase (mPoller lo))) (mPoller lo)) lo.
Definition loop_getEventSize (lo : Loop) : Z := eventSize (ebase (mPoller lo)).
Definition loop_getLastRate (lo : Loop) : Z * Z := Poller.getLastRate (ebase (mPoller lo)).

(** One turn of the [while] of [loop]: the handlers of what is [ready], then the
    callbacks of each.  [S] is what the callbacks work on, the loop included;
    the loop runs the callback [nap] of its wake-up handler itself. *)
Section Turn.
Context {S : Type} (loop_of : S → Loop) (set_loop : Loop → S → S) (exec : loc → callback → S → res S).

Definition run_callback (l : loc) (c : callback) (s : S) : res S :=
  if decide (l = mWakeupHandler (loop_of s)) then Ok (set_loop (set_flags (nap (flags (loop_of s))) (loop_of s)) s)
  else exec l c s.

Fixpoint run_callbacks (l : loc) (cs : list callback) (s : S) : res S :=
  match cs with
  | [] => Ok s
  | c :: cs => s ← run_callback l c s; run_callbacks l cs s
  end.

Fixpoint run_handlers (ls : list loc) (s : S) : res S :=
  match ls with
  | [] => Ok s
  | l :: ls =>
      h ← deref l (ebase (mPoller (loop_of s)));
      s ← run_callbacks l (doEvnet h) s;
      run_handlers ls s
  end.

Definition set_doing (b : bool) (lo : Loop) : Loop :=
  let f := flags lo in set_flags (mkEventLoop (mRunning f) b (wakeups f) (looping f)) lo.

Definition turn (ready : list (Z * Z)) (dur : Z) (s : S) : res S :=
  let lo := loop_of s in
  let '(p, mEventHandlers) := epoll_poll ready dur (mPoller lo) in
  let s := set_loop (set_doing true (set_poller p lo)) s in
  s ← run_handlers mEventHandlers s;
  Ok (set_loop (set_doing false (loop_of s)) s).
End Turn.
End Loop.
Arguments Loop : clear implicits.

(** ** The constructor of [TcpConnection] *)

Section Connection.
Context {Ke Ks : Type} `{EpollKernel Ke} `{SocketCalls Ks}.

(** The socket does not block, is kept alive, and its handler waits for input. *)
Definition makeTcpConnection (connfd : Z) (noDelay : bool) (lo : Loop Ke) (k : Ks) : res (loc * Loop Ke * Ks) :=
  let '(s, k) := newTCPSocket_nonBlocking connfd true k in
  let k := setKeepAlive true s k in
  let k := setTcpNoDelay noDelay s k in
  let h := setFunc ErrorFunc (setFunc CloseFunc (setFunc WriteFunc (setFunc ReadFunc (newEventHandler connfd)))) in
  '(l, lo) ← add_handler (disableWriting (enableReading h)) lo;
  Ok (l, lo, k).

End Connection.

(** ** [Acceptor] *)

Section Acceptor.
Context {Ke Ks : Type} `{EpollKernel Ke} `{SocketCalls Ks} (SOMAXCONN : Z).
Context {R F : Type}.

Abbreviation Server := (@TcpServer.TcpServer R F).

Record Acceptor := mkAcceptor {
  mLocalAddr : sockaddr_in;
  mListenSocket : Socket;
  mListenHandlerPtr : loc;
  mFilterFunc : option (SocketAddr → Server → bool);
  mConnectionFunc : option (Z → SocketAddr → Server → res Server);
  mVisitors : option (list (Z * SocketAddr)) }.   (* None: the queue has gone *)

(** The address as the text the server works with. *)
Definition addr_text (a : sockaddr_in) : SocketAddr :=
  mkAddr (SocketAddr.getIP a) (to_string (SocketAddr.getPort a)).

(** The handler is registered before the socket is bound, and what [bind] answers
    is not looked at. *)
Definition newAcceptor (listenAddr : sockaddr_in) (lo : Loop Ke) (k : Ks) : res (Acceptor * Loop Ke * Ks) :=
  let '(fd, k) := createTCPSocket k in
  let s := newTCPSocket fd in
  '(l, lo) ← add_handler (enableReading (setFunc ReadFunc (newEventHandler (getFD s)))) lo;
  let k := setResueAddr true s k in
  let k := setReusePort true s k in
  let k := (bind listenAddr s k).2 in
  Ok (mkAcceptor listenAddr s l None None None, lo, k).

Definition acceptor_getFD (a : Acceptor) : Z := getFD (mListenSocket a).
Definition getLocalAddr (a : Acceptor) : sockaddr_in := mLocalAddr a.
Definition setVistorsDest (q : option (list (Z * SocketAddr))) (a : Acceptor) : Acceptor :=
  mkAcceptor (mLocalAddr a) (mListenSocket a) (mListenHandlerPtr a) (mFilterFunc a) (mConnectionFunc a) q.
Definition setFilterFunc (f : SocketAddr → Server → bool) (a : Acceptor) : Acceptor :=
  mkAcceptor (mLocalAddr a) (mListenSocket a) (mListenHandlerPtr a) (Some f) (mConnectionFunc a) (mVisitors a).
Definition setConnectionFunc (f : Z → SocketAddr → Server → res Server) (a : Acceptor) : Acceptor :=
  mkAcceptor (mLocalAddr a) (mListenSocket a) (mListenHandlerPtr a) (mFilterFunc a) (Some f) (mVisitors a).

Definition acceptor_listen (a : Acceptor) (k : Ks) : Ks := (listen SOMAXCONN (mListenSocket a) k).2.

(** The thread of the acceptor: its loop, the system and the server. *)
Record Accepting := mkAccepting {
  acceptor : Acceptor;
  aloop : Loop Ke;
  system : Ks;
  server : Server }.

Definition set_aloop (lo : Loop Ke) (x : Accepting) : Accepting :=
  mkAccepting (acceptor x) lo (system x) (server x).

(** [connFunc]: [accept], then what [TcpServer.connFunc] says; the descriptor it
    names is closed. *)
Definition accept_one (x : Accepting) : res Accepting :=
  let a := acceptor x in
  let '(connfd, clisa, k) := accept (mListenSocket a) (system x) in
  '(s, q, closed) ← connFunc connfd (addr_text (default (mkSockaddr 0 0) clisa)) (mVisitors a) (mFilterFunc a)
    (mConnectionFunc a) (server x);
  let k := match closed with Some fd => (sys_close fd k).2 | None => k end in
  Ok (mkAccepting (setVistorsDest q a) (aloop x) k s).

Definition exec_acceptor (l : loc) (c : callback) (x : Accepting) : res Accepting :=
  if decide (l = mListenHandlerPtr (acceptor x) ∧ c = ReadFunc) then accept_one x else Ok x.

(** One turn of the loop that [run] runs. *)
Definition run_turn (ready : list (Z * Z)) (dur : Z) (x : Accepting) : res Accepting :=
  turn aloop set_aloop exec_acceptor ready dur x.

End Acceptor.

(** ** A handler is added *)

Section LoopLaws.
Context {Ke : Type} `{EpollKernel Ke}.

Abbreviation base lo := (ebase (mPoller lo)).

(** The poller is well formed, and no handler is where the next one goes. *)
Record loop_wf (lo : Loop Ke) : Prop := {
  lwf_poller : epoll_wf (mPoller lo);
  lwf_fresh l : is_Some (heap (base lo) !! l) → (l < nextHandler lo)%nat }.

(** A handler is handed to the kernel, under its descriptor. *)
Definition watched (fd : Z) (l : loc) (h : EventHandler) (lo : Loop Ke) : Prop :=
  mFD h = fd ∧ 0 <= mIndex h ∧ heap (base lo) !! l = Some h ∧
  mEventHandlerHash (base lo) !! fd = Some l ∧ interest (kernel (mPoller lo)) !! fd = Some (mEvents h).

Lemma added_wf h lo k' :
  loop_wf lo → heap (base lo) !! nextHandler lo = None → mEventHandlerHash (base lo) !! mFD h = None →
  interest k' = <[mFD h := mEvents h]> (interest (kernel (mPoller lo))) →
  ∀ lo', heap (base lo') = alter (setIndex 1) (nextHandler lo) (<[nextHandler lo := h]> (heap (base lo))) →
  mEventHandlerHash (base lo') = <[mFD h := nextHandler lo]> (mEventHandlerHash (base lo)) →
  kernel (mPoller lo') = k' → nextHandler lo' = S (nextHandler lo) → loop_wf lo'.
Proof.
  intros [Hwf Hfresh] Hl Hnone Hk' lo' Hheap Hhash Hker Hnext.
  assert (heap (base lo') = <[nextHandler lo := setIndex 1 h]> (heap (base lo))) as Hh.
  { rewrite Hheap. apply map_eq. intros i. destruct (decide (i = nextHandler lo)) as [->|]; by simplify_map_eq. }
  split; [split|]; rewrite ?Hh, ?Hhash, ?Hker, ?Hk', ?Hnext.
  - intros f l [[<- <-]|[Hf Hfl]]%lookup_insert_Some; [exists (setIndex 1 h); by rewrite lookup_insert_eq|].
    destruct (ewf_handler _ Hwf f l Hfl) as (h0 & Hh0 & <-). exists h0. split; [|done].
    rewrite lookup_insert_ne; [done|]. intros E. subst. congruence.
  - intros f. destruct (decide (f = mFD h)) as [->|Hf].
    { rewrite lookup_insert_eq. split; [intros _|by eexists].
      exists (nextHandler lo), (setIndex 1 h). by rewrite !lookup_insert_eq. }
    rewrite lookup_insert_ne, (ewf_interest _ Hwf f) by done.
    split; intros (l & h0 & H1 & H2 & H3); exists l, h0; rewrite lookup_insert_ne in * by done.
    + split_and!; [done| |done]. rewrite lookup_insert_ne; [done|]. intros E. subst. congruence.
    + split_and!; [done| |done]. rewrite lookup_insert_ne in H2; [done|]. intros E.
      destruct (ewf_handler _ Hwf f l H1) as (h1 & Hh1 & _). subst. congruence.
  - intros l [<-|[_ Hs]]%lookup_insert_is_Some; [lia|]. specialize (Hfresh l Hs). lia.
Qed.

Lemma add_handler_ok h lo :
  loop_wf lo → mIndex h < 0 → mEventHandlerHash (base lo) !! mFD h = None →
  ∃ lo', add_handler h lo = Ok (nextHandler lo, lo') ∧ loop_wf lo' ∧
    watched (mFD h) (nextHandler lo) (setIndex 1 h) lo' ∧
    mWakeupHandler lo' = mWakeupHandler lo ∧
    (flags lo' = flags lo ∧ mWakeupFD lo' = mWakeupFD lo ∧
     mEventHandlerHash (base lo') = <[mFD h := nextHandler lo]> (mEventHandlerHash (base lo)) ∧
     ∀ l, l ≠ nextHandler lo → heap (base lo') !! l = heap (base lo) !! l) ∧
    (∀ fd l h', fd ≠ mFD h → watched fd l h' lo → watched fd l h' lo').
Proof.
  intros [Hwf Hfresh] Hi Hnone. set (l := nextHandler lo).
  assert (heap (base lo) !! l = None) as Hl.
  { destruct (heap (base lo) !! l) eqn:E; [|done]. specialize (Hfresh l ltac:(by eexists)). subst l. lia. }
  assert (interest (kernel (mPoller lo)) !! mFD h = None) as Hk.
  { destruct (interest _ !! mFD h) eqn:E; [|done].
    destruct (proj1 (ewf_interest _ Hwf (mFD h)) ltac:(by eexists)) as (? & ? & ? & _). congruence. }
  unfold add_handler, make_handler, loop_registerEventHandler, registerEventHandler, deref.
  cbn [mPoller ebase set_base heap set_heap of_option mbind res_bind mEventHandlerHash].
  fold l. rewrite lookup_insert_eq. cbn [of_option mbind res_bind]. rewrite Hnone.
  unfold loop_update, epoll_update, deref.
  cbn [mPoller ebase set_base set_poller heap set_heap set_hash of_option mbind res_bind mEventHandlerHash kernel].
  rewrite lookup_insert_eq. cbn [of_option mbind res_bind]. rewrite lookup_insert_eq.
  rewrite (proj2 (Z.ltb_lt _ _) Hi). destruct (epoll_add_ok _ (mFD h) (mEvents h) Hk) as (k' & -> & Hk').
  cbn [of_option mbind res_bind set_poller mPoller mWakeupFD mWakeupHandler flags nextHandler].
  eexists. split; [done|]. unfold watched.
  cbn [set_poller mPoller mWakeupFD mWakeupHandler flags nextHandler ebase kernel modify set_heap set_hash heap mEventHandlerHash].
  rewrite insert_insert_eq.
  assert (alter (setIndex 1) l (<[l := h]> (heap (base lo))) = <[l := setIndex 1 h]> (heap (base lo))) as Ha.
  { apply map_eq. intros i. destruct (decide (i = l)) as [->|]; by simplify_map_eq. }
  split_and!; try done.
  - by apply (added_wf h lo k').
  - by rewrite Ha, lookup_insert_eq.
  - by rewrite lookup_insert_eq.
  - by rewrite Hk', lookup_insert_eq.
  - intros l' Hl'. by rewrite Ha, lookup_insert_ne.
  - intros fd l' h' Hne (H1 & H2 & H3 & H4 & H5). split_and!; try done.
    + rewrite Ha, lookup_insert_ne; [done|]. intros <-. congruence.
    + by rewrite lookup_insert_ne.
    + by rewrite Hk', lookup_insert_ne.
Qed.

(** A new loop watches its own descriptor alone. *)
Lemma new_loop_wf evtfd (k : Ke) : interest k = ∅ →
  ∃ lo, makeLoop evtfd k = Ok lo ∧ loop_wf lo ∧ mWakeupFD lo = evtfd ∧
    watched evtfd (mWakeupHandler lo) (setIndex 1 (enableReading (setFunc ReadFunc (newEventHandler evtfd)))) lo ∧
    mEventHandlerHash (base lo) = <[evtfd := 0%nat]> ∅.
Proof.
  intros Hk. unfold makeLoop. set (h := enableReading _). set (lo := mkLoop _ _ _ _ _).
  assert (loop_wf lo) as Hwf.
  { split; [split|]; cbn; try done.
    - intros f. rewrite Hk, lookup_empty. split; [intros []%is_Some_None|]. intros (? & ? & E & _). done.
    - intros l [? E]. done. }
  destruct (add_handler_ok h lo Hwf ltac:(done) ltac:(done)) as (lo' & -> & Hwf' & Hw & Hwake & (_ & Hfd & Hhash & _) & _).
  exists lo'. split; [done|]. split; [done|]. rewrite Hwake, Hfd. by split_and!.
Qed.
End LoopLaws.

(** ** The acceptor listens, and takes what comes *)

Lemma acts_on_lookup {K} `{SocketCalls K} fd f (r : Z * K) k d :
  acts_on fd f r k → table k !! fd = Some d →
  (r.1 = 0 ∧ table r.2 !! fd = Some (f d)) ∨ (r.1 = -1 ∧ table r.2 !! fd = Some d).
Proof.
  intros [(Hr & _ & Ht)|[Hr Ht]] Hd; rewrite Ht; [left|by right].
  split; [done|]. by rewrite lookup_alter_eq, Hd.
Qed.

Section AcceptorLaws.
Context {Ke Ks : Type} `{EpollKernel Ke} `{SocketLaws Ks} (SOMAXCONN : Z).
Context {R F : Type}.

Abbreviation Server := (@TcpServer.TcpServer R F).
Abbreviation base lo := (ebase (mPoller lo)).

Lemma setsockopt_part fd o v (k : Ks) d : table k !! fd = Some d →
  ∃ d', table (sys_setsockopt fd o v k).2 !! fd = Some d' ∧ part d' = part d.
Proof.
  intros Hd. destruct (acts_on_lookup _ _ _ _ _ (law_setsockopt fd o v k) Hd) as [[_ ->]|[_ ->]]; by eexists.
Qed.

(** An acceptor made on a loop is watched by the kernel for input; when
    [bind] and [listen] have done their work it listens at the address it was
    given.  Nothing looks at what [bind] answers: when it has failed the acceptor
    is made all the same, and listens where the kernel puts it. *)
Theorem acceptor_ready listenAddr (lo : Loop Ke) (k : Ks) :
  let fd := (createTCPSocket k).1 in
  let s := newTCPSocket fd in
  let bound := bind listenAddr s (setReusePort true s (setResueAddr true s (createTCPSocket k).2)) in
  loop_wf lo → 0 <= fd → mEventHandlerHash (base lo) !! fd = None →
  ∃ (a : Acceptor (R := R) (F := F)) lo' h, newAcceptor listenAddr lo k = Ok (a, lo', bound.2) ∧
    loop_wf lo' ∧ watched fd (mListenHandlerPtr a) h lo' ∧ mEvents h = READ_EVENT ∧ mFuncs h = [ReadFunc] ∧
    acceptor_getFD a = fd ∧
    (bound.1 = 0 ∨ bound.1 = -1) ∧
    ((listen SOMAXCONN s bound.2).1 = 0 → ∃ d addr, table (acceptor_listen SOMAXCONN a bound.2) !! fd = Some d ∧
       part d = Listening addr ∧ (bound.1 = 0 → addr = listenAddr)).
Proof.
  pose proof (law_socket true false false k) as Hs. unfold newAcceptor, createTCPSocket.
  destruct (sys_socket true false false k) as [fd k1]. cbn [fst snd] in Hs |- *.
  intros Hwf Hfd Hnone. set (s := newTCPSocket fd).
  destruct Hs as [[-> _]|[_ Ht]]; [lia|].
  set (k2 := setReusePort true s (setResueAddr true s k1)). set (bnd := bind listenAddr s k2).
  set (h := enableReading (setFunc ReadFunc (newEventHandler fd))).
  destruct (add_handler_ok h lo Hwf ltac:(done) Hnone) as (lo' & Hadd & Hwf' & Hw & _).
  change (getFD s) with fd. fold h. rewrite Hadd. cbn [mbind res_bind].
  eexists _, lo', (setIndex 1 h). split; [done|]. split; [done|]. split; [done|]. split; [by vm_compute|].
  split; [done|]. split; [done|].
  destruct (setsockopt_part fd SO_REUSEADDR (flag true) k1 (new_descr true false false)) as (d1 & Hd1 & Hp1).
  { rewrite Ht. by simplify_map_eq. }
  destruct (setsockopt_part fd SO_REUSEPORT (flag true) _ d1 Hd1) as (d2 & Hd2 & Hp2).
  change (table k2 !! fd = Some d2) in Hd2. rewrite Hp1 in Hp2.
  pose proof (acts_on_lookup _ _ _ _ _ (law_bind fd listenAddr k2) Hd2) as Hb.
  change (sys_bind fd listenAddr k2) with (bind listenAddr s k2) in Hb. fold bnd in Hb.
  split; [destruct Hb as [[? _]|[? _]]; [by left|by right]|].
  intros Hl. unfold acceptor_listen. cbn [mListenSocket]. change (listen SOMAXCONN s bnd.2) with (sys_listen fd SOMAXCONN bnd.2) in *.
  destruct (law_listen fd SOMAXCONN bnd.2) as (addr & Hact & Hsame).
  destruct Hb as [[Hb0 Hb]|[Hb1 Hb]]; destruct (acts_on_lookup _ _ _ _ _ Hact Hb) as [[_ Hd]|[? _]]; try lia.
  - exists (set_part (Listening addr) (set_part (Bound listenAddr) d2)), addr. split; [done|]. split; [done|].
    intros _. by eapply Hsame.
  - exists (set_part (Listening addr) d2), addr. split; [done|]. split; [done|]. intros; lia.
Qed.

(** The turn in which the listening descriptor alone is ready runs [accept_one]. *)
Lemma run_turn_accepts fd h dur (x : Accepting (Ke := Ke) (Ks := Ks) (R := R) (F := F)) :
  watched fd (mListenHandlerPtr (acceptor x)) h (aloop x) → mFuncs h = [ReadFunc] →
  mListenHandlerPtr (acceptor x) ≠ mWakeupHandler (aloop x) →
  ∃ lo, run_turn [(fd, POLLIN)] dur x =
    (y ← accept_one (set_aloop lo x); Ok (set_aloop (set_doing false (aloop y)) y)).
Proof.
  intros (Hfd & _ & Hh & Hr & _) Hf Hne. unfold run_turn, turn, epoll_poll. cbn [epoll_loop].
  unfold touch. rewrite Hr. cbn [app length].
  set (p := mkEpollPoller _ _ _). set (lo := set_doing true (set_poller p (aloop x))). exists lo.
  cbn [run_handlers]. change (aloop (set_aloop lo x)) with lo.
  assert (heap (base lo) !! mListenHandlerPtr (acceptor x) = Some (setRevents POLLIN h)) as Hh'.
  { subst lo p. unfold set_doing, set_flags, set_poller, settle. cbn [mPoller ebase].
    case_if; cbn [set_stats heap modify set_heap]; by rewrite lookup_alter_eq, Hh. }
  unfold deref. rewrite Hh'. cbn [of_option mbind res_bind].
  assert (doEvnet (setRevents POLLIN h) = [ReadFunc]) as ->.
  { unfold doEvnet. change (mRevents (setRevents POLLIN h)) with POLLIN. unfold call. cbn [mFuncs setRevents].
    rewrite Hf. reflexivity. }
  cbn [run_callbacks]. unfold run_callback. change (aloop (set_aloop lo x)) with lo.
  rewrite decide_False by done. unfold exec_acceptor. cbn [acceptor set_aloop]. rewrite decide_True by done.
  destruct (accept_one _) as [y|e]; [|done]. by cbn.
Qed.

(** C30: when the listening descriptor is ready, its loop accepts one connection:
    with a filter that refuses the peer the descriptor is closed again and the
    server is as it was; otherwise the server's function gets the descriptor and
    the peer's address; when there is nothing to accept nothing happens. *)
Theorem acceptor_accepts fd h dur f (x : Accepting (Ke := Ke) (Ks := Ks) (R := R) (F := F)) :
  watched fd (mListenHandlerPtr (acceptor x)) h (aloop x) → mFuncs h = [ReadFunc] →
  mListenHandlerPtr (acceptor x) ≠ mWakeupHandler (aloop x) →
  mConnectionFunc (acceptor x) = Some f →
  let '(connfd, peer, k) := accept (mListenSocket (acceptor x)) (system x) in
  let clisa := addr_text (default (mkSockaddr 0 0) peer) in
  let refused := match mFilterFunc (acceptor x) with Some filter => negb (filter clisa (server x)) | None => false end in
  (connfd <= 0 → ∃ x', run_turn [(fd, POLLIN)] dur x = Ok x' ∧ server x' = server x ∧ system x' = k) ∧
  (0 < connfd → refused = true → ∃ x', run_turn [(fd, POLLIN)] dur x = Ok x' ∧ server x' = server x ∧
     table (system x') = table (system x)) ∧
  (0 < connfd → refused = false → ∀ s', f connfd clisa (server x) = Ok s' →
     ∃ x', run_turn [(fd, POLLIN)] dur x = Ok x' ∧ server x' = s' ∧ system x' = k ∧
       is_Some (table k !! connfd) ∧ peer ≠ None).
Proof.
  intros Hw Hf Hne Hc. destruct (run_turn_accepts fd h dur x Hw Hf Hne) as [lo ->].
  unfold accept_one. cbn [acceptor set_aloop system server aloop].
  pose proof (law_accept (Socket.mFD (mListenSocket (acceptor x))) (system x)) as Ha. unfold accept.
  destruct (sys_accept _ _) as [[c p] k]. cbn zeta in *. unfold connFunc. rewrite Hc.
  destruct (Z.ltb_spec 0 c); split_and!; try lia.
  - intros _ Href. destruct (mFilterFunc _) as [filter|]; [|done]. apply negb_true_iff in Href. rewrite Href.
    eexists. split; [done|]. split; [done|]. cbn. rewrite law_close.
    destruct Ha as [(-> & _ & Ht)|(a & _ & (_ & Hfree & _) & Ht)]; [lia|]. by rewrite Ht, delete_insert_id.
  - intros _ Href s' Hs'.
    assert (is_Some (table k !! c) ∧ p ≠ None) as [? ?].
    { destruct Ha as [(-> & _)|(a & -> & _ & Ht)]; [lia|]. rewrite Ht. split; [by simplify_map_eq|done]. }
    destruct (mFilterFunc _) as [filter|]; [apply negb_false_iff in Href; rewrite Href|];
      rewrite Hs'; cbn [mbind res_bind]; eexists; by split_and!.
  - intros _. by eexists.
Qed.
End AcceptorLaws.

(** ** A connection is set up *)

Section ConnectionLaws.
Context {Ke Ks : Type} `{EpollKernel Ke} `{SocketLaws Ks}.

Lemma setsockopt_keeps fd o v (k : Ks) d : table k !! fd = Some d →
  ∃ d', table (sys_setsockopt fd o v k).2 !! fd = Some d' ∧
    fl d' = fl d ∧ fd_flags d' = fd_flags d ∧ part d' = part d ∧
    (∀ fd', fd' ≠ fd → table (sys_setsockopt fd o v k).2 !! fd' = table k !! fd').
Proof.
  intros Hd. destruct (law_setsockopt fd o v k) as [(_ & _ & ->)|[_ ->]]; [|by exists d].
  exists (set_opt o v d). rewrite lookup_alter_eq, Hd. repeat split. intros. by rewrite lookup_alter_ne.
Qed.

(** The constructor of a connection never fails: its socket does not block
    and is closed on [exec], no other descriptor is touched, its handler waits
    for input and for nothing else, and every handler watched before still is. *)
Theorem connection_made connfd noDelay (lo : Loop Ke) (k : Ks) d :
  loop_wf lo → mEventHandlerHash (ebase (mPoller lo)) !! connfd = None → table k !! connfd = Some d →
  ∃ l lo' k' h d', makeTcpConnection connfd noDelay lo k = Ok (l, lo', k') ∧ loop_wf lo' ∧
    watched connfd l h lo' ∧ isReadable h = true ∧ isWriteable h = false ∧
    (∀ fd l' h', fd ≠ connfd → watched fd l' h' lo → watched fd l' h' lo') ∧
    table k' !! connfd = Some d' ∧ fl d' = Z.lor (fl d) O_NONBLOCK ∧
    fd_flags d' = Z.lor (fd_flags d) FD_CLOEXEC ∧ part d' = part d ∧
    (∀ fd', fd' ≠ connfd → table k' !! fd' = table k !! fd').
Proof.
  intros Hwf Hnone Hd. unfold makeTcpConnection. cbn [newTCPSocket_nonBlocking].
  set (h := disableWriting _). destruct (add_handler_ok h lo Hwf ltac:(done) Hnone) as (lo' & -> & Hwf' & Hw & _ & _ & Hk).
  set (k1 := setNonBlackAndCloseOnExec connfd k).
  assert (table k1 = <[connfd := both d]> (table k)) as H1 by (by apply nonblock_open).
  destruct (setsockopt_keeps connfd SO_KEEPALIVE (flag true) k1 (both d)) as (d2 & Hd2 & F2 & G2 & P2 & O2);
    [rewrite H1; by simplify_map_eq|].
  destruct (setsockopt_keeps connfd TCP_NODELAY (flag noDelay) _ d2 Hd2) as (d3 & Hd3 & F3 & G3 & P3 & O3).
  eexists _, lo', _, (setIndex 1 h), d3. split; [reflexivity|]. split_and!; try done.
  - by rewrite F3, F2.
  - by rewrite G3, G2.
  - by rewrite P3, P2.
  - intros fd' Hne. unfold setTcpNoDelay, setKeepAlive. cbn [Socket.mFD].
    rewrite O3, O2, H1 by done. by rewrite lookup_insert_ne.
Qed.
End ConnectionLaws.

(** ** Witnesses *)

Definition demo_addr : sockaddr_in := SocketAddr.of_ip_port (lit "127.0.0.1") 8080.

Definition demo_loop : Loop (gmap Z Z) :=
  match makeLoop 9 (∅ : gmap Z Z) with Ok lo => lo | Err _ => mkLoop 0 0%nat (mkEpollPoller newPoller ∅ 0) newEventLoop 0%nat end.

Lemma demo_loop_wf : loop_wf demo_loop.
Proof. destruct (new_loop_wf 9 (∅ : gmap Z Z) ltac:(done)) as (lo & Hlo & Hwf & _). unfold demo_loop. by rewrite Hlo. Qed.

Lemma acceptor_ready_witness :
  ∃ (a : Acceptor (R := Z) (F := unit)) lo' k,
    newAcceptor demo_addr demo_loop demo_kernel = Ok (a, lo', k) ∧ acceptor_getFD a = 3 ∧
    ∃ d addr, tab (acceptor_listen 128 a k) !! 3 = Some d ∧ part d = Listening addr.
Proof.
  assert (0 <= (createTCPSocket demo_kernel).1) as Hfd0 by (vm_compute; discriminate).
  destruct (acceptor_ready 128 (R := Z) (F := unit) demo_addr demo_loop demo_kernel demo_loop_wf Hfd0 eq_refl) as (a & lo' & h & Ha & _ & _ & _ & _ & Hfd & _ & Hl).
  eexists a, lo', _. split; [exact Ha|]. split; [exact Hfd|].
  destruct (Hl eq_refl) as (d & addr & Hd & Hp & _). exists d, addr. split; [exact Hd|exact Hp].
Defined.

Definition demo_server : @TcpServer.TcpServer Z unit := newTcpServer (lit "s") 1 (demo_pool).

(** A function of the server that notes the peer in its blacklist. *)
Definition demo_note (connfd : Z) (peer : SocketAddr) (s : @TcpServer.TcpServer Z unit) : res (@TcpServer.TcpServer Z unit) :=
  Ok (addToBlacklist [host peer] s).

Definition demo_accepting : Accepting (Ke := gmap Z Z) (Ks := Socket.kernel) (R := Z) (F := unit) :=
  match newAcceptor demo_addr demo_loop demo_kernel with
  | Ok (a, lo, k) => mkAccepting (setConnectionFunc demo_note a) lo (acceptor_listen 128 a k) demo_server
  | Err _ => mkAccepting (mkAcceptor demo_addr (mkSocket 0) 0%nat None None None) demo_loop demo_kernel demo_server
  end.

Lemma demo_watched :
  watched 3 (mListenHandlerPtr (acceptor demo_accepting))
    (setIndex 1 (enableReading (setFunc ReadFunc (newEventHandler 3)))) (aloop demo_accepting).
Proof. vm_compute. repeat split; discriminate. Qed.

Lemma acceptor_accepts_witness :
  ∃ x', run_turn [(3, POLLIN)] 0 demo_accepting = Ok x' ∧
    isInBlacklist (lit "127.0.0.1") (server x') = true ∧
    isInBlacklist (lit "127.0.0.1") (server demo_accepting) = false.
Proof.
  destruct (acceptor_accepts 3 _ 0 demo_note demo_accepting demo_watched eq_refl ltac:(vm_compute; discriminate) eq_refl)
    as (_ & _ & H).
  destruct (H eq_refl eq_refl _ eq_refl) as (x' & Hx' & Hs & _). exists x'.
  split; [exact Hx'|]. rewrite Hs. split; reflexivity.
Defined.

Lemma connection_made_witness :
  ∃ l lo' k' d', makeTcpConnection 1 true demo_loop demo_kernel = Ok (l, lo', k') ∧
    tab k' !! 1 = Some d' ∧ fl d' = O_NONBLOCK.
Proof.
  assert (table demo_kernel !! 1 = Some (new_descr true false false)) as Hd by reflexivity.
  destruct (connection_made 1 true demo_loop demo_kernel (new_descr true false false) demo_loop_wf eq_refl Hd)
    as (l & lo' & k' & h & d' & Hm & _ & _ & _ & _ & _ & Hd' & Hf & _).
  exists l, lo', k', d'. split; [exact Hm|]. split; [exact Hd'|exact Hf].
Defined.
