(* ===== verification/Network.v ===== *)
(** * The network layer together: [Base/net/]

    The server of [TcpServer], the loops of [Acceptor] with their epoll pollers,
    and the kernel's descriptors.  A connection is an object of the server, a
    handler in the loop it was given, and an open descriptor; it is made when the
    acceptor takes it, has events in the turns of its loop, and ends when its peer
    closes or the server does.  The callbacks of a handler hold the bare [this] of
    their connection. *)

From stdpp Require Import functions.
From S2P Require Import Prelude BaseMessage SafeHashmap IOBuffer.
From S2P Require TcpConnection.
From S2P Require Import Socket Poller EventLoop TcpServer Acceptor.

Local Open Scope Z_scope.

Abbreviation Connection := TcpConnection.TcpConnection.
Abbreviation base lo := (ebase (mPoller lo)).

(** ** The state *)

Section Network.
Context {R F Ke Ks Ow Ev : Type} `{EpollKernel Ke} `{SocketCalls Ks}.
Context (gtb : R → R → bool) (rate_max : R) (mHashFunc : str → Z) (mNoDelay : bool).

Abbreviation Server := (@TcpServer.TcpServer R F).

Record Network := mkNetwork {
  the_server : Server;
  the_loops : Z → Loop Ke;                   (* by the index of their thread *)
  mConnectionHandlerPtr : gmap loc loc;      (* of each connection object *)
  this_of : gmap (Z * loc) loc;              (* what the callbacks of a loop's handler hold *)
  the_kernel : Ks;
  the_owner : Ow }.                           (* the rest of the object that has the server *)

Definition set_server (s : Server) (n : Network) : Network :=
  mkNetwork s (the_loops n) (mConnectionHandlerPtr n) (this_of n) (the_kernel n) (the_owner n).
Definition set_kernel (k : Ks) (n : Network) : Network :=
  mkNetwork (the_server n) (the_loops n) (mConnectionHandlerPtr n) (this_of n) k (the_owner n).
Definition set_loop (i : Z) (lo : Loop Ke) (n : Network) : Network :=
  mkNetwork (the_server n) (<[i := lo]> (the_loops n)) (mConnectionHandlerPtr n) (this_of n) (the_kernel n) (the_owner n).

Definition set_owner (o : Ow) (n : Network) : Network :=
  mkNetwork (the_server n) (the_loops n) (mConnectionHandlerPtr n) (this_of n) (the_kernel n) o.

Definition live (n : Network) : gmap loc (Connection * Z) := conns (registry (the_server n)).

(** What the server's owner has set: a message function works on the connection
    it is called for and on its owner.  An [Ev] is what the functions are told from
    outside, the thread and the clock among it; [mCloseOwner] is the part of the close
    function that is the owner's. *)
Context (mConnNameFunc : Ev → option (str → Server → res Server)).
Context (mCloseFunc : option (str → Server → res Server)) (mCloseOwner : str → Ow → Ow).
Context (mMessageFunc : option (Ev → Connection → Server → Ow → res (Connection * Server * Ow))).
Context (mFilterFunc : option (SocketAddr → Server → bool)).

(** ** Connections *)

(** [newConnectionFunc] of the server, with the rest of the connection's
    constructor: its socket and its handler. *)
Definition newConnection (e : Ev) (connfd : Z) (peerAddr : SocketAddr) (n : Network) : res Network :=
  let l := nextLoc (registry (the_server n)) in
  s ← newConnectionFunc gtb rate_max mHashFunc (mConnNameFunc e) connfd peerAddr (the_server n);
  match conns (registry s) !! l with
  | None => Ok (set_server s n)                (* no loop runs *)
  | Some (_, i) =>
      '(h, lo, k) ← makeTcpConnection connfd mNoDelay (the_loops n i) (the_kernel n);
      Ok (mkNetwork s (<[i := lo]> (the_loops n)) (<[l := h]> (mConnectionHandlerPtr n)) (<[(i, h) := l]> (this_of n)) k (the_owner n))
  end.

(** [Acceptor::connFunc] *)
Definition accept_connection (listenSocket : Socket) (e : Ev) (n : Network) : res Network :=
  let '(connfd, clisa, k) := accept listenSocket (the_kernel n) in
  let peer := addr_text (default (mkSockaddr 0 0) clisa) in
  let n := set_kernel k n in
  if 0 <? connfd then
    if (match mFilterFunc with Some filter => filter peer (the_server n) | None => true end)
    then newConnection e connfd peer n
    else Ok (set_kernel (sys_close connfd k).2 n)
  else Ok n.

(** [~TcpConnection], whose members close the descriptor. *)
Definition destroyConnection (l : loc) (c : Connection) (i : Z) (n : Network) : res Network :=
  h ← of_option NullDeref (mConnectionHandlerPtr n !! l);
  lo ← loop_remove h (the_loops n i);
  Ok (mkNetwork (the_server n) (<[i := lo]> (the_loops n)) (delete l (mConnectionHandlerPtr n)) (this_of n)
        (destroySocket (mkSocket (fd_of c)) (the_kernel n)) (the_owner n)).

(** [mCloseFunc] of a connection is [removeConnection]; the last pointer to the
    object goes with it, or does not. *)
Definition closeConnection (l : loc) (n : Network) : res Network :=
  '(c, i) ← of_option NullDeref (live n !! l);
  s ← removeConnection mHashFunc mCloseFunc l (the_server n);
  let n := set_owner (mCloseOwner (TcpConnection.getIPPort c) (the_owner n)) (set_server s n) in
  match live n !! l with
  | Some _ => Ok n
  | None => destroyConnection l c i n
  end.

(** [enableWriting] or [disableWriting] of a handler and the [update] after it. *)
Definition update_writing (h : loc) (w : bool) (lo : Loop Ke) : res (Loop Ke) :=
  let f := if w then Poller.enableWriting else Poller.disableWriting in
  loop_update h (set_poller (set_base (modify h f (base lo)) (mPoller lo)) lo).

(** A method of a connection has changed the object. *)
Definition put_connection (l : loc) (c : Connection) (n : Network) : Network :=
  set_server (set_conn l c (the_server n)) n.

(** The handler's part of such a method: [mConnectionHandlerPtr->enableWriting()] or
    [disableWriting()], and [mEventLoop->update]. *)
Definition update_handler (l : loc) (w : bool) (n : Network) : res Network :=
  '(_, i) ← of_option NullDeref (live n !! l);
  h ← of_option NullDeref (mConnectionHandlerPtr n !! l);
  lo ← update_writing h w (the_loops n i);
  Ok (set_loop i lo n).

(** [putToBuffer] of the connection at [l]. *)
Definition putToBuffer (data : str) (l : loc) (n : Network) : res Network :=
  '(c, _) ← of_option NullDeref (live n !! l);
  update_handler l true (put_connection l (TcpConnection.putToBuffer data c) n).

(** ** Events *)

(** What the kernel answers to a [read] and a [write] of a descriptor, and what the
    message function is told. *)
Definition answers : Type := Z → sys_read * Z * Ev.

(** A message function that has left bytes to be written has updated the handler. *)
Definition messageFunc (l : loc) (e : Ev) (c : Connection) (n : Network) : res Network :=
  match mMessageFunc with
  | Some f =>
      '(c', s, o) ← f e c (the_server n) (the_owner n);
      let n := put_connection l c' (set_owner o (set_server s n)) in
      if Bool.eqb (TcpConnection.writing c') (TcpConnection.writing c) then Ok n
      else update_handler l (TcpConnection.writing c') n
  | None => Ok n
  end.

Definition readFunc (l : loc) (a : answers) (n : Network) : res Network :=
  '(c, _) ← of_option NullDeref (live n !! l);
  '(b, got) ← read (a (fd_of c)).1.1 (TcpConnection.mInputBuffer c);
  let c := TcpConnection.set_in b c in
  let n := put_connection l c n in
  if 0 <? got then messageFunc l (a (fd_of c)).2 c n
  else if got =? 0 then closeConnection l n
  else Err Uninit.                           (* [errorFunc] *)

Definition writeFunc (l : loc) (a : answers) (n : Network) : res Network :=
  '(c, _) ← of_option NullDeref (live n !! l);
  let n := put_connection l (TcpConnection.writeFunc (a (fd_of c)).1.2 c) n in
  if IOBuffer.empty (TcpConnection.mOutputBuffer c) then update_handler l false n else Ok n.

(** A callback of the handler [h] of loop [i]. *)
Definition run_event (i : Z) (a : answers) (h : loc) (f : callback) (n : Network) : res Network :=
  l ← of_option NullDeref (this_of n !! (i, h));
  match f with
  | ReadFunc => readFunc l a n
  | WriteFunc => writeFunc l a n
  | CloseFunc => closeConnection l n
  | ErrorFunc => Err Uninit
  end.

(** A turn of loop [i]. *)
Definition net_turn (i : Z) (ready : list (Z * Z)) (dur : Z) (a : answers) : Network → res Network :=
  turn (λ n, the_loops n i) (set_loop i) (run_event i a) ready dur.

(** [TcpServer::setTimeoutParam], from loop [i] on: [k] of them. *)
Fixpoint timeout_loop (k : nat) (i interval timeout reset : Z) (n : Network) : res Network :=
  match k with
  | O => Ok n
  | S k =>
      l ← getEventLoop i (mEventLoopThreadpool (registry (the_server n)));
      _ ← of_option NullDeref l;
      timeout_loop k (i + 1) interval timeout reset (set_loop i (loop_setTimeoutParam interval timeout reset (the_loops n i)) n)
  end.
Definition setTimeoutParam (interval timeout reset : Z) (n : Network) : res Network :=
  timeout_loop (Z.to_nat (mEventLoopThdNum (the_server n))) 0 interval timeout reset n.

(** What happens to a network, from whatever thread. *)
Inductive net_event :=
  | Accepted (listenSocket : Socket) (e : Ev)
  | Turned (i : Z) (ready : list (Z * Z)) (dur : Z) (a : answers)
  | Sent (l : loc) (data : str)              (* [putToBuffer], for an answer of the broker *)
  | Closed (l : loc)                         (* [activeClose], for a heartbeat that is late *)
  | Limited (interval timeout reset : Z)
  | Outside (t : TimerTasks (F := F)) (o : Ow). (* the timer's thread, the owner's threads *)

Definition net_step (e : net_event) (n : Network) : res Network :=
  match e with
  | Accepted s e => accept_connection s e n
  | Turned i ready dur a => net_turn i ready dur a n
  | Sent l data => putToBuffer data l n
  | Closed l => closeConnection l n
  | Limited interval timeout reset => setTimeoutParam interval timeout reset n
  | Outside t o => Ok (set_owner o (set_server (set_tasks t (the_server n)) n))
  end.
End Network.
Arguments Network : clear implicits.

(** ** A loop of which one handler changes *)

Section Frames.
Context {Ke : Type} `{EpollKernel Ke}.

(** What is kept but for the descriptor [fd] and its handler. *)
Record loop_frame (fd : Z) (h : loc) (lo lo' : Loop Ke) : Prop := {
  lf_wf : loop_wf lo';
  lf_wake : mWakeupFD lo' = mWakeupFD lo ∧ mWakeupHandler lo' = mWakeupHandler lo;
  lf_hash f : f ≠ fd → mEventHandlerHash (base lo') !! f = mEventHandlerHash (base lo) !! f;
  lf_heap l : l ≠ h → heap (base lo') !! l = heap (base lo) !! l;
  lf_watched f l hd : f ≠ fd → watched f l hd lo → watched f l hd lo' }.

(** One handler's entry has changed, and the kernel's with it. *)
Lemma watched_frame (fd : Z) (h : loc) (hd : EventHandler) (g : EventHandler → EventHandler) (lo lo' : Loop Ke) (f : Z) (l : loc) (hd' : EventHandler) :
  watched fd h hd lo → f ≠ fd → watched f l hd' lo →
  heap (base lo') = alter g h (heap (base lo)) →
  mEventHandlerHash (base lo') !! f = mEventHandlerHash (base lo) !! f →
  interest (Poller.kernel (mPoller lo')) !! f = interest (Poller.kernel (mPoller lo)) !! f →
  watched f l hd' lo'.
Proof.
  intros (W1 & _ & W3 & _) Hf (V1 & V2 & V3 & V4 & V5) Hh Hs Hk. split_and!; [done|done| |by rewrite Hs|by rewrite Hk].
  rewrite Hh, lookup_alter_ne; [done|]. intros <-. congruence.
Qed.

Lemma update_writing_ok (fd : Z) (h : loc) (hd : EventHandler) (w : bool) (lo : Loop Ke) :
  let hd' := (if w then Poller.enableWriting else Poller.disableWriting) hd in
  loop_wf lo → watched fd h hd lo → mEvents hd' ≠ 0 →
  ∃ lo', update_writing h w lo = Ok lo' ∧ loop_frame fd h lo lo' ∧ watched fd h hd' lo' ∧
    mEventHandlerHash (base lo') = mEventHandlerHash (base lo).
Proof.
  intros hd' [Hwf Hfresh] Hw He. pose proof Hw as (Hfd & Hi & Hh & Hs & Hk). unfold update_writing.
  set (g := if w then Poller.enableWriting else Poller.disableWriting) in *.
  assert (mFD hd' = fd ∧ mIndex hd' = mIndex hd) as [Hfd' Hi'] by (subst hd' g; by destruct w).
  set (ep := mkEpollPoller (modify h g (base lo)) (Poller.kernel (mPoller lo)) (mEpollEvents (mPoller lo))).
  assert (heap (ebase ep) !! h = Some hd') as Hh' by (cbn; by rewrite lookup_alter_eq, Hh).
  assert (∀ l x, heap (ebase ep) !! l = Some x → ∃ y, heap (base lo) !! l = Some y ∧ mFD x = mFD y ∧ mIndex x = mIndex y) as Hback.
  { intros l x. cbn. destruct (decide (l = h)) as [->|]; [|rewrite lookup_alter_ne by done; intros ?; by exists x].
    rewrite lookup_alter_eq, Hh. intros [= <-]. exists hd. split_and!; [done|exact (eq_trans Hfd' (eq_sym Hfd))|exact Hi']. }
  assert (∀ l y, heap (base lo) !! l = Some y → ∃ x, heap (ebase ep) !! l = Some x ∧ mFD x = mFD y ∧ mIndex x = mIndex y) as Hforth.
  { intros l y Hy. cbn. destruct (decide (l = h)) as [->|]; [|rewrite lookup_alter_ne by done; by exists y].
    rewrite Hh in Hy. injection Hy as <-. exists hd'. rewrite lookup_alter_eq, Hh. split_and!; [done|exact (eq_trans Hfd' (eq_sym Hfd))|exact Hi']. }
  assert (epoll_wf ep) as Hep.
  { split.
    - intros f l Hl. destruct (ewf_handler _ Hwf f l Hl) as (y & Hy & <-). destruct (Hforth l y Hy) as (x & Hx & Hf & _). by exists x.
    - intros f. rewrite (ewf_interest _ Hwf f : is_Some (interest (Poller.kernel ep) !! f) ↔ _).
      split; intros (l & y & H1 & H2 & H3); exists l.
      + destruct (Hforth l y H2) as (x & Hx & _ & E). exists x. by rewrite E.
      + destruct (Hback l y H2) as (x & Hx & _ & E). exists x. by rewrite <- E. }
  destruct (epoll_update_wf ep h Hep) as (ep' & Hu & Hw').
  { exists hd'. split; [exact Hh'|]. by rewrite Hfd'. }
  pose proof Hu as Hu'. unfold epoll_update, deref in Hu'. rewrite Hh' in Hu'. cbn [of_option mbind res_bind] in Hu'.
  rewrite Hfd' in Hu'. change (mEventHandlerHash (ebase ep)) with (mEventHandlerHash (base lo)) in Hu'. rewrite Hs in Hu'.
  rewrite Hi', (proj2 (Z.ltb_ge _ _) Hi) in Hu'. rewrite (proj2 (Z.eqb_neq _ _) He : isNoneEvent hd' = false) in Hu'.
  destruct (epoll_mod_ok (Poller.kernel ep) fd (mEvents hd')) as (k & Hm & Hk'); [by eexists|]. rewrite Hm, (insert_id _ _ _ Hs) in Hu'.
  exists (set_poller ep' (set_poller ep lo)). unfold loop_update. change (mPoller (set_poller _ lo)) with ep. rewrite Hu.
  split; [done|]. injection Hu' as <-.
  assert (heap (modify h g (base lo)) = alter g h (heap (base lo))) as Halter by done.
  split; [|split; [|done]].
  - split; [split; [exact Hw'|]|done|done| |].
    + intros l. cbn. rewrite lookup_alter_is_Some. apply Hfresh.
    + intros l Hl. cbn. by rewrite lookup_alter_ne.
    + intros f l x Hf Hx. eapply (watched_frame fd h hd g lo); try done. cbn. by rewrite Hk', lookup_insert_ne.
  - split_and!; [done|by rewrite Hi'|exact Hh'|exact Hs|]. cbn. by rewrite Hk', lookup_insert_eq.
Qed.

Lemma loop_remove_ok (fd : Z) (h : loc) (hd : EventHandler) (lo : Loop Ke) : loop_wf lo → watched fd h hd lo →
  ∃ lo', loop_remove h lo = Ok lo' ∧ loop_frame fd h lo lo' ∧ mEventHandlerHash (base lo') !! fd = None.
Proof.
  intros [Hwf Hfresh] Hw. pose proof Hw as (Hfd & Hi & Hh & Hs & Hk). rewrite <- Hfd in Hs.
  destruct (epoll_remove_wf _ h hd Hwf Hh Hs Hi) as (ep & Hr & Hw' & Hd & Hn).
  exists (set_poller ep lo). unfold loop_remove. rewrite Hr. split; [done|].
  unfold epoll_remove, deref in Hr. rewrite Hh in Hr. cbn [of_option mbind res_bind] in Hr. rewrite Hs in Hr.
  destruct (epoll_del_ok (Poller.kernel (mPoller lo)) (mFD hd) 0) as (k & Hc & Hk'); [rewrite Hfd; by eexists|].
  rewrite Hc in Hr. injection Hr as <-. split; [split; [split; [exact Hw'|]|done| | |]|].
  - intros l. cbn. rewrite lookup_alter_is_Some. apply Hfresh.
  - intros f Hf. cbn. rewrite lookup_delete_ne; [done|]. congruence.
  - intros l Hl. cbn. by rewrite lookup_alter_ne.
  - intros f l x Hf Hx. eapply (watched_frame fd h hd (setIndex (-1)) lo); try done.
    + cbn. rewrite lookup_delete_ne; [done|]. congruence.
    + cbn. rewrite Hk', lookup_delete_ne; [done|]. congruence.
  - cbn. by rewrite <- Hfd, lookup_delete_eq.
Qed.

(** A handler of a connection, as its constructor makes it. *)
Definition all_funcs : list callback := [ErrorFunc; CloseFunc; WriteFunc; ReadFunc].

Lemma makeTcpConnection_ok {Ks} `{SocketLaws Ks} connfd noDelay (lo : Loop Ke) (k : Ks) d :
  loop_wf lo → mEventHandlerHash (base lo) !! connfd = None → table k !! connfd = Some d →
  ∃ lo' k', makeTcpConnection connfd noDelay lo k = Ok (nextHandler lo, lo', k') ∧
    loop_frame connfd (nextHandler lo) lo lo' ∧
    (∃ hd, watched connfd (nextHandler lo) hd lo' ∧ mFuncs hd = all_funcs ∧ mEvents hd = READ_EVENT) ∧
    ∀ f, is_Some (table k' !! f) ↔ is_Some (table k !! f).
Proof.
  intros Hwf Hn Hd. destruct (connection_made connfd noDelay lo k d Hwf Hn Hd) as (l & lo' & k' & h & d' & Hm & _ & _ & _ & _ & _ & Hd' & _ & _ & _ & Hk).
  exists lo', k'. revert Hm. unfold makeTcpConnection. cbn [newTCPSocket_nonBlocking]. set (hd := Poller.disableWriting _).
  destruct (add_handler_ok hd lo Hwf ltac:(done) Hn) as (lo1 & -> & Hwf' & Hw & Hwake & (_ & Hfd & Hs & Hheap) & Ho).
  cbn [mbind res_bind]. intros [= <- <- <-]. split; [done|]. split; [|split].
  - split; [done|done| |done|exact Ho]. intros f Hf. by rewrite Hs, lookup_insert_ne.
  - exists (setIndex 1 hd). by split_and!.
  - intros f. destruct (decide (f = connfd)) as [->|Hf]; [rewrite Hd, Hd'; split; by eexists|by rewrite Hk].
Qed.
End Frames.

(** ** The parts in step *)

(** What a connection waits for. *)
Definition wanted (c : Connection) : Z :=
  if TcpConnection.writing c then Z.lor READ_EVENT WRITE_EVENT else READ_EVENT.

Section InStep.
Context {R F Ke Ks Ow : Type} `{EpollKernel Ke} `{SocketLaws Ks}.
Context (mHashFunc : str → Z).

Abbreviation Net := (Network R F Ke Ks Ow).

(** The handler of a connection is in the loop of the connection, its callbacks
    hold the connection, and the kernel watches it for what the connection waits. *)
Definition attached (n : Net) (l : loc) (c : Connection) (i : Z) : Prop :=
  ∃ h hd, mConnectionHandlerPtr n !! l = Some h ∧ this_of n !! (i, h) = Some l ∧
    watched (fd_of c) h hd (the_loops n i) ∧ mFuncs hd = all_funcs ∧ mEvents hd = wanted c.

(** [t0] are the descriptors that were open before there were connections. *)
Record loop_ok (t0 : gset Z) (own : Z → Prop) (lo : Loop Ke) : Prop := {
  lo_wf : loop_wf lo;
  lo_wake : (∃ hd, watched (mWakeupFD lo) (mWakeupHandler lo) hd lo) ∧ mWakeupFD lo ∈ t0;
  lo_owned f : is_Some (mEventHandlerHash (base lo) !! f) → f = mWakeupFD lo ∨ own f }.

Record in_step (t0 : gset Z) (n : Net) (m : gmap str loc) : Prop := {
  is_registry : registry_ok mHashFunc (the_server n) m;
  is_loop i : loop_ok t0 (λ f, ∃ l c, live n !! l = Some (c, i) ∧ fd_of c = f) (the_loops n i);
  is_conn l c i : live n !! l = Some (c, i) →
    attached n l c i ∧ (fd_of c ∉ t0) ∧ IOBuffer.ok (TcpConnection.mInputBuffer c);
  is_fds l l' c c' i i' : live n !! l = Some (c, i) → live n !! l' = Some (c', i') → fd_of c = fd_of c' → l = l';
  is_table f : is_Some (table (the_kernel n) !! f) ↔ f ∈ t0 ∨ ∃ l c i, live n !! l = Some (c, i) ∧ fd_of c = f }.

(** At most the connection [l], with the descriptor [fd] and the handler [h] of loop
    [i], has changed. *)
Record one_changed (l : loc) (i fd : Z) (h : loc) (n n' : Net) : Prop := {
  oc_loop : loop_frame fd h (the_loops n i) (the_loops n' i);
  oc_loops j : j ≠ i → the_loops n' j = the_loops n j;
  oc_handler hd : heap (base (the_loops n i)) !! h = Some hd → Poller.mFD hd = fd;
  oc_ptr l' : l' ≠ l → mConnectionHandlerPtr n' !! l' = mConnectionHandlerPtr n !! l';
  oc_this j h' : (j, h') ≠ (i, h) → this_of n' !! (j, h') = this_of n !! (j, h');
  oc_live l' : l' ≠ l → live n' !! l' = live n !! l';
  oc_before c j : live n !! l = Some (c, j) → j = i ∧ fd_of c = fd;
  oc_after c j : live n' !! l = Some (c, j) →
    j = i ∧ fd_of c = fd ∧ attached n' l c i ∧ IOBuffer.ok (TcpConnection.mInputBuffer c);
  oc_hash : is_Some (mEventHandlerHash (base (the_loops n' i)) !! fd) → is_Some (live n' !! l);
  oc_table f : f ≠ fd → is_Some (table (the_kernel n') !! f) ↔ is_Some (table (the_kernel n) !! f);
  oc_open : is_Some (table (the_kernel n') !! fd) ↔ is_Some (live n' !! l) }.

Definition others_kept (i fd : Z) (n n' : Net) : Prop :=
  ∀ f l hd, f ≠ fd → watched f l hd (the_loops n i) → watched f l hd (the_loops n' i).

Lemma attached_kept l i fd h n n' l' c' j :
  one_changed l i fd h n n' → l' ≠ l → fd_of c' ≠ fd → attached n l' c' j → attached n' l' c' j.
Proof.
  intros [] Hl Hf (h' & hd & H1 & H2 & H3 & H4). exists h', hd.
  rewrite oc_ptr0 by done. split; [done|]. destruct (decide (j = i)) as [->|Hj].
  - rewrite oc_this0. { split; [done|]. split; [by apply (lf_watched _ _ _ _ oc_loop0)|done]. }
    intros [= ->]. destruct H3 as (E & _ & Hh & _). apply oc_handler0 in Hh. congruence.
  - rewrite oc_this0 by congruence. by rewrite oc_loops0.
Qed.

Lemma in_step_changed t0 n m l i fd h n' m' :
  in_step t0 n m → registry_ok mHashFunc (the_server n') m' → fd ∉ t0 →
  (∀ l' c j, live n !! l' = Some (c, j) → fd_of c = fd → l' = l) →
  one_changed l i fd h n n' → in_step t0 n' m'.
Proof.
  intros [Hreg Hloop Hconn Hfds Htab] Hreg' Hfd Huniq Hoc. pose proof Hoc as [].
  assert (∀ l' c j, live n' !! l' = Some (c, j) → fd_of c = fd → l' = l) as Huniq'.
  { intros l' c j Hl' E. destruct (decide (l' = l)); [done|]. rewrite oc_live0 in Hl' by done. by eapply Huniq. }
  split; [done|..].
  - intros j. destruct (Hloop j) as [W1 W2 W3]. destruct (decide (j = i)) as [->|Hj].
    + destruct oc_loop0 as [L1 [L2 L2'] L3 L4 L5]. split; [done|rewrite L2, L2'|].
      { destruct W2 as [[hd Hw] Hin]. split; [exists hd; apply L5; [|done]|done]. intros E. apply Hfd. by rewrite <- E. }
      intros f Hf. rewrite L2. destruct (decide (f = fd)) as [->|Hne].
      * right. destruct (oc_hash0 Hf) as [[c j] Hc]. destruct (oc_after0 _ _ Hc) as (-> & E & _). by exists l, c.
      * rewrite L3 in Hf by done. destruct (W3 f Hf) as [|(l' & c & Hl' & E)]; [by left|right].
        exists l', c. split; [|done]. rewrite oc_live0; [done|]. intros ->. destruct (oc_before0 _ _ Hl'). congruence.
    + rewrite oc_loops0 by done. split; [done..|]. intros f Hf. destruct (W3 f Hf) as [|(l' & c & Hl' & E)]; [by left|right].
      exists l', c. split; [|done]. rewrite oc_live0; [done|]. intros ->. by destruct (oc_before0 _ _ Hl').
  - intros l' c j Hl'. destruct (decide (l' = l)) as [->|Hne].
    { destruct (oc_after0 _ _ Hl') as (-> & -> & Ha & Hb). done. }
    assert (fd_of c ≠ fd) as Hcf by (intros E; by apply Hne, (Huniq' l' c j)).
    rewrite oc_live0 in Hl' by done. destruct (Hconn l' c j Hl') as (Ha & Hn & Hb).
    split; [|done]. by eapply attached_kept.
  - intros l1 l2 c1 c2 i1 i2 H1' H2' E. destruct (decide (l1 = l)) as [->|N1].
    { destruct (oc_after0 _ _ H1') as (_ & E1 & _). symmetry. apply (Huniq' l2 c2 i2 H2'). congruence. }
    destruct (decide (l2 = l)) as [->|N2].
    { destruct (oc_after0 _ _ H2') as (_ & E2 & _). apply (Huniq' l1 c1 i1 H1'). congruence. }
    rewrite oc_live0 in H1', H2' by done. by eapply Hfds.
  - intros f. destruct (decide (f = fd)) as [->|Hne].
    + rewrite oc_open0. split.
      * intros [[c j] Hc]. right. destruct (oc_after0 _ _ Hc) as (_ & E & _). by exists l, c, j.
      * intros [|(l' & c & j & Hl' & E)]; [done|]. by rewrite <- (Huniq' _ _ _ Hl' E), Hl'.
    + rewrite oc_table0, Htab by done. apply or_iff_compat_l. split; intros (l' & c & j & Hl' & E); exists l', c, j.
      * rewrite oc_live0; [done|]. intros ->. destruct (oc_before0 _ _ Hl'). congruence.
      * rewrite <- oc_live0; [done|]. intros ->. destruct (oc_after0 _ _ Hl') as (_ & ? & _). congruence.
Qed.

(** The handler of a live connection, and that it is not the loop's own. *)
Lemma conn_handler t0 n m l c i : in_step t0 n m → live n !! l = Some (c, i) →
  ∃ h hd, mConnectionHandlerPtr n !! l = Some h ∧ this_of n !! (i, h) = Some l ∧
    watched (fd_of c) h hd (the_loops n i) ∧ mFuncs hd = all_funcs ∧ mEvents hd = wanted c ∧
    h ≠ mWakeupHandler (the_loops n i) ∧ loop_wf (the_loops n i).
Proof.
  intros Hn Hl. destruct (is_conn _ _ _ Hn l c i Hl) as ((h & hd & H1 & H2 & H3 & H4 & H5) & Hf & _).
  destruct (is_loop _ _ _ Hn i) as [Hwf [[hd' (E & _ & Hh & _)] Hin] _]. exists h, hd. split_and!; try done.
  intros ->. destruct H3 as (E' & _ & Hh' & _). apply Hf. rewrite <- E'. congruence.
Qed.

Lemma live_put l c (n : Net) : live (put_connection l c n) = alter (λ ci, (c, ci.2)) l (live n).
Proof. done. Qed.

Lemma loop_frame_refl fd h (lo : Loop Ke) : loop_wf lo → loop_frame fd h lo lo.
Proof. by split. Qed.

(** What a method may do to its connection. *)
Definition same_conn (c c' : Connection) : Prop :=
  TcpConnection.getName c' = TcpConnection.getName c ∧ fd_of c' = fd_of c ∧ IOBuffer.ok (TcpConnection.mInputBuffer c').

Lemma put_registry l c c' i (n : Net) m :
  registry_ok mHashFunc (the_server n) m → live n !! l = Some (c, i) → same_conn c c' →
  registry_ok mHashFunc (the_server (put_connection l c' n)) m ∧ live (put_connection l c' n) !! l = Some (c', i).
Proof.
  intros Hr Hl (H1 & H2 & _). split; [by eapply set_conn_ok|]. by rewrite live_put, lookup_alter_eq, Hl.
Qed.

(** The parts of [one_changed] that storing a connection gives. *)
Lemma put_changed t0 l c c' i h hd lo' (n : Net) m :
  in_step t0 n m → live n !! l = Some (c, i) → same_conn c c' →
  mConnectionHandlerPtr n !! l = Some h → this_of n !! (i, h) = Some l → watched (fd_of c) h hd (the_loops n i) →
  loop_frame (fd_of c) h (the_loops n i) lo' →
  (∃ hd', watched (fd_of c) h hd' lo' ∧ mFuncs hd' = all_funcs ∧ mEvents hd' = wanted c') →
  in_step t0 (set_loop i lo' (put_connection l c' n)) m.
Proof.
  intros Hn Hl Hc Hp Ht Hw Hlo (hd' & Hw' & Hf & He). destruct (is_conn _ _ _ Hn l c i Hl) as (_ & Hfd & _).
  destruct (put_registry l c c' i n m (is_registry _ _ _ Hn) Hl Hc) as [Hreg Hl']. destruct Hc as (Hc1 & Hc2 & Hc3).
  eapply (in_step_changed t0 n m l i (fd_of c) h); [done|exact Hreg|done| |split]; cbn [set_loop the_loops]; rewrite ?fn_lookup_insert.
  - intros l' d j Hd E. by eapply (is_fds _ _ _ Hn).
  - done.
  - intros j Hj. by rewrite fn_lookup_insert_ne.
  - intros x Hx. destruct Hw as (E & _ & Hh & _). congruence.
  - done.
  - done.
  - intros l' Hne. change (live (put_connection l c' n) !! l' = live n !! l'). by rewrite live_put, lookup_alter_ne.
  - intros d j Hd. rewrite Hl in Hd. by injection Hd as <- <-.
  - intros d j Hd. change (live (put_connection l c' n) !! l = Some (d, j)) in Hd. rewrite Hl' in Hd. injection Hd as <- <-.
    split_and!; try done. exists h, hd'. cbn [set_loop the_loops]. rewrite fn_lookup_insert, Hc2. by split_and!.
  - intros _. change (is_Some (live (put_connection l c' n) !! l)). by rewrite Hl'.
  - done.
  - change (is_Some (table (the_kernel n) !! fd_of c) ↔ is_Some (live (put_connection l c' n) !! l)). rewrite Hl', (is_table _ _ _ Hn).
    split; [by eexists|]. intros _. right. by exists l, c, i.
Qed.

(** The object has changed, and not what its handler waits for. *)
Lemma put_same t0 l c c' i (n : Net) m :
  in_step t0 n m → live n !! l = Some (c, i) → same_conn c c' →
  TcpConnection.writing c' = TcpConnection.writing c → in_step t0 (put_connection l c' n) m.
Proof.
  intros Hn Hl Hc Hw. destruct (conn_handler _ _ _ _ _ _ Hn Hl) as (h & hd & H1 & H2 & H3 & H4 & H5 & _ & Hwf).
  pose proof (put_changed t0 l c c' i h hd (the_loops n i) n m Hn Hl Hc H1 H2 H3 (loop_frame_refl _ _ _ Hwf)) as Hp.
  destruct Hp as [P1 P2 P3 P4 P5].
  { exists hd. split_and!; try done. unfold wanted. by rewrite Hw. }
  assert (∀ j, the_loops (set_loop i (the_loops n i) (put_connection l c' n)) j = the_loops n j) as Hlo.
  { intros j. cbn. destruct (decide (i = j)) as [<-|]; [by rewrite fn_lookup_insert|by rewrite fn_lookup_insert_ne]. }
  split; try done.
  - intros j. specialize (P2 j). by rewrite Hlo in P2.
  - intros l' d j Hd. destruct (P3 l' d j Hd) as ((h' & x & A & B & X & Y) & ?). split; [|done].
    exists h', x. by rewrite Hlo in X.
Qed.

(** And its handler has been updated. *)
Lemma put_update t0 l c c' i (n : Net) m :
  in_step t0 n m → live n !! l = Some (c, i) → same_conn c c' →
  ∃ n', update_handler l (TcpConnection.writing c') (put_connection l c' n) = Ok n' ∧ in_step t0 n' m ∧
    others_kept i (fd_of c) n n' ∧ live n' !! l = Some (c', i) ∧ mConnectionHandlerPtr n' = mConnectionHandlerPtr n.
Proof.
  intros Hn Hl Hc. destruct (conn_handler _ _ _ _ _ _ Hn Hl) as (h & hd & H1 & H2 & H3 & H4 & H5 & _ & Hwf).
  set (w := TcpConnection.writing c').
  assert (mEvents ((if w then Poller.enableWriting else Poller.disableWriting) hd) = wanted c') as He.
  { unfold wanted. fold w. destruct w; cbn; rewrite H5; unfold wanted; by destruct (TcpConnection.writing c). }
  destruct (update_writing_ok (fd_of c) h hd w (the_loops n i) Hwf H3) as (lo' & Hu & Hfr & Hw' & _).
  { rewrite He. unfold wanted. by destruct (TcpConnection.writing c'). }
  destruct (put_registry l c c' i n m (is_registry _ _ _ Hn) Hl Hc) as [_ Hl'].
  exists (set_loop i lo' (put_connection l c' n)). split; [|split; [|split; [|split; [|done]]]].
  - unfold update_handler. rewrite Hl'. cbn [of_option mbind res_bind]. change (mConnectionHandlerPtr (put_connection l c' n)) with (mConnectionHandlerPtr n).
    rewrite H1. cbn [of_option mbind res_bind]. change (the_loops (put_connection l c' n) i) with (the_loops n i). by rewrite Hu.
  - eapply put_changed; try done. eexists. split; [exact Hw'|]. split; [|exact He]. by destruct w.
  - intros f l' x Hf Hx. cbn. rewrite fn_lookup_insert. by apply (lf_watched _ _ _ _ Hfr).
  - exact Hl'.
Qed.
End InStep.

(** ** What [poll] does to the handlers *)

Section Poll.
Context {Ke : Type} `{EpollKernel Ke}.

Lemma touch_kept fd r p out l :
  (∀ f, mEventHandlerHash p !! f = Some l → f ≠ fd) → heap (touch fd r p out).1 !! l = heap p !! l.
Proof.
  intros Hl. unfold touch. destruct (_ !! fd) as [l'|] eqn:E; [|done]. cbn.
  rewrite lookup_alter_ne; [done|]. intros ->. by apply (Hl fd).
Qed.

Lemma touch_hash fd r p out : mEventHandlerHash (touch fd r p out).1 = mEventHandlerHash p.
Proof. unfold touch. by destruct (_ !! fd). Qed.

Lemma epoll_loop_hash ready p out : mEventHandlerHash (epoll_loop ready p out).1 = mEventHandlerHash p.
Proof.
  revert p out. induction ready as [|[fd r] ready IH]; intros p out; [done|]. cbn [epoll_loop].
  rewrite <- (touch_hash fd r p out). destruct (touch fd r p out). apply IH.
Qed.

Lemma epoll_loop_kept ready p out l :
  (∀ f, mEventHandlerHash p !! f = Some l → f ∉ ready.*1) → heap (epoll_loop ready p out).1 !! l = heap p !! l.
Proof.
  revert p out. induction ready as [|[fd r] ready IH]; intros p out Hl; [done|]. cbn [epoll_loop].
  pose proof (touch_kept fd r p out l) as Hk. pose proof (touch_hash fd r p out) as Hh.
  destruct (touch fd r p out) as [p' out']. cbn [fst] in *. rewrite IH.
  - apply Hk. intros f Hf ->. apply (Hl _ Hf). cbn. by left.
  - rewrite Hh. intros f Hf Hin. apply (Hl _ Hf). cbn. by right.
Qed.

(** Only the events that came back are written in a handler. *)
Lemma epoll_loop_told ready p out l h :
  heap p !! l = Some h → ∃ h', heap (epoll_loop ready p out).1 !! l = Some h' ∧
    Poller.mFD h' = Poller.mFD h ∧ mIndex h' = mIndex h ∧ mFuncs h' = mFuncs h ∧ mEvents h' = mEvents h.
Proof.
  revert p out h. induction ready as [|[fd r] ready IH]; intros p out h Hl; [by exists h|]. cbn [epoll_loop].
  unfold touch. destruct (_ !! fd) as [l'|]; [|by apply IH].
  destruct (decide (l' = l)) as [->|Hne].
  - destruct (IH (modify l (setRevents r) p) (out ++ [l]) (setRevents r h)) as (h' & Hh' & ?); [|by exists h'].
    cbn. by rewrite lookup_alter_eq, Hl.
  - apply IH. cbn. by rewrite lookup_alter_ne.
Qed.

(** A handler that is ready has the events that came for its descriptor. *)
Lemma epoll_loop_revents ready p out fd r l h :
  NoDup ready.*1 → (fd, r) ∈ ready → mEventHandlerHash p !! fd = Some l → heap p !! l = Some h →
  (∀ f, mEventHandlerHash p !! f = Some l → f = fd) →
  ∃ h', heap (epoll_loop ready p out).1 !! l = Some h' ∧ mRevents h' = u32 r.
Proof.
  revert p out h. induction ready as [|[fd1 r1] ready IH]; intros p out h Hnd Hin Hl Hh Hinj; [by apply not_elem_of_nil in Hin|].
  cbn in Hnd. apply NoDup_cons in Hnd as [Hfd Hnd]. cbn [epoll_loop]. apply elem_of_cons in Hin as [[= <- <-]|Hin].
  - pose proof (touch_hash fd r p out) as Hh1. unfold touch in *. rewrite Hl in *. rewrite epoll_loop_kept.
    + exists (setRevents r h). cbn. by rewrite lookup_alter_eq, Hh.
    + intros f Hf. by rewrite (Hinj f Hf).
  - assert (fd1 ≠ fd) as Hne.
    { intros ->. apply Hfd. apply list_elem_of_fmap. by exists (fd, r). }
    pose proof (touch_hash fd1 r1 p out) as Hh1. pose proof (touch_kept fd1 r1 p out l) as Hk.
    destruct (touch fd1 r1 p out) as [p' out']. cbn [fst] in *.
    apply (IH p' out' h); [done|done|by rewrite Hh1| |by rewrite Hh1].
    rewrite Hk; [done|]. intros f Hf ->. by apply Hne, Hinj.
Qed.

Lemma settle_same t d p : heap (settle t d p) = heap p ∧ mEventHandlerHash (settle t d p) = mEventHandlerHash p.
Proof. unfold settle. by case_if. Qed.

(** A loop with the same handlers, for the same descriptors. *)
Record loop_like (lo lo' : Loop Ke) : Prop := {
  ll_wf : loop_wf lo';
  ll_wake : mWakeupFD lo' = mWakeupFD lo ∧ mWakeupHandler lo' = mWakeupHandler lo;
  ll_hash : mEventHandlerHash (base lo') = mEventHandlerHash (base lo);
  ll_watched fd h hd : watched fd h hd lo → ∃ hd', watched fd h hd' lo' ∧ mFuncs hd' = mFuncs hd ∧ mEvents hd' = mEvents hd }.

Lemma like_flags f (lo lo' : Loop Ke) : loop_like lo lo' → loop_like lo (set_flags f lo').
Proof. intros [[Hp Hf] Hw Hh Hk]. split; [by split|done..]. Qed.

Lemma flags_like f (lo : Loop Ke) : loop_wf lo → loop_like lo (set_flags f lo).
Proof. intros Hwf. apply like_flags. split; [done|done|done|]. intros fd h hd Hw. by exists hd. Qed.

Lemma timeout_like interval timeout reset (lo : Loop Ke) : loop_wf lo → loop_like lo (loop_setTimeoutParam interval timeout reset lo).
Proof. intros [[H1 H2] H3]. split; [split; [split|]; done|done|done|]. intros fd h hd Hw. by exists hd. Qed.

Lemma polled_ok ready dur (lo : Loop Ke) : loop_wf lo → NoDup ready.*1 →
  ∃ p out, epoll_poll ready dur (mPoller lo) = (p, out) ∧ loop_like lo (set_poller p lo) ∧
    out = omap (λ e, mEventHandlerHash (base lo) !! e.1) ready ∧
    ∀ fd r l h, (fd, r) ∈ ready → watched fd l h lo →
      ∃ h', watched fd l h' (set_poller p lo) ∧ mFuncs h' = mFuncs h ∧ mEvents h' = mEvents h ∧ mRevents h' = u32 r.
Proof.
  intros [Hwf Hfresh] Hnd. unfold epoll_poll. pose proof (epoll_loop_spec ready (base lo) []) as Hout.
  pose proof (epoll_loop_hash ready (base lo) []) as Hhash. pose proof (λ l, epoll_loop_kept ready (base lo) [] l) as Hkept.
  pose proof (λ l h, epoll_loop_told ready (base lo) [] l h) as Htold.
  pose proof (λ fd r l h, epoll_loop_revents ready (base lo) [] fd r l h Hnd) as Hrev.
  destruct (epoll_loop ready (base lo) []) as [q out]. cbn [fst snd app] in *. set (p := mkEpollPoller _ _ _).
  exists p, out. split; [done|]. destruct (settle_same (Z.of_nat (length ready)) dur q) as [Hs1 Hs2].
  assert (heap (ebase p) = heap q) as E1 by done. assert (mEventHandlerHash (ebase p) = mEventHandlerHash (base lo)) as E2 by (cbn; by rewrite Hs2).
  assert (∀ fd h hd, watched fd h hd lo → ∃ hd', watched fd h hd' (set_poller p lo) ∧ mFuncs hd' = mFuncs hd ∧ mEvents hd' = mEvents hd) as Hwatched.
  { intros fd h hd (W1 & W2 & W3 & W4 & W5). destruct (Htold h hd W3) as (hd' & Hh' & F1 & F2 & F3 & F4). exists hd'.
    split; [|done]. split_and!; [by rewrite F1|by rewrite F2|cbn; by rewrite Hs1|cbn; by rewrite Hs2, Hhash|by rewrite F4]. }
  split; [split; [split; [split|]|done|done|done]|split; [exact Hout|]].
  - intros f l. change (mEventHandlerHash (ebase (mPoller (set_poller p lo)))) with (mEventHandlerHash (ebase p)). rewrite E2. intros Hl.
    destruct (ewf_handler _ Hwf f l Hl) as (h & Hh & <-). destruct (Htold l h Hh) as (h' & Hh' & F1 & _). exists h'. split; [|done]. cbn. by rewrite Hs1.
  - intros f. rewrite (ewf_interest _ Hwf f : is_Some (interest (Poller.kernel (mPoller (set_poller p lo))) !! f) ↔ _).
    change (mPoller (set_poller p lo)) with p. rewrite E1, E2. split; intros (l & h & L1 & L2 & L3); exists l.
    + destruct (Htold l h L2) as (h' & Hh' & _ & F2 & _). exists h'. by rewrite F2.
    + destruct (ewf_handler _ Hwf f l L1) as (h0 & Hh0 & _). destruct (Htold l h0 Hh0) as (h' & Hh' & _ & F2 & _).
      exists h0. split_and!; [done|done|]. rewrite <- F2. congruence.
  - intros l Hl. change (is_Some (heap (settle (Z.of_nat (length ready)) dur q) !! l)) in Hl. rewrite Hs1 in Hl. apply Hfresh.
    destruct (heap (base lo) !! l) eqn:E; [by eexists|]. assert (heap q !! l = heap (base lo) !! l) as Hk.
    { apply (Hkept l). intros f Hf. destruct (ewf_handler _ Hwf f l Hf) as (h & Hh & _). pose proof (eq_trans (eq_sym Hh) E). done. }
    rewrite Hk, E in Hl. by destruct Hl.
  - intros fd r l h Hin Hw. destruct (Hwatched fd l h Hw) as (h' & Hw' & F). exists h'. split; [done|]. split; [apply F|]. split; [apply F|].
    destruct Hw as (W1 & _ & W3 & W4 & _). destruct (Hrev fd r l h Hin W4 W3) as (h1 & Hh1 & Hr).
    { intros f Hf. destruct (ewf_handler _ Hwf f l Hf) as (h2 & Hh2 & <-). congruence. }
    destruct Hw' as (_ & _ & Hh' & _). change (heap (settle (Z.of_nat (length ready)) dur q) !! l = Some h') in Hh'. rewrite Hs1 in Hh'. congruence.
Qed.
End Poll.

(** ** What happens to one connection *)

Section Steps.
Context {R F Ke Ks Ow Ev : Type} `{EpollKernel Ke} `{SocketLaws Ks}.
Context (gtb : R → R → bool) (rate_max : R) (mHashFunc : str → Z) (mNoDelay : bool).

Abbreviation Server := (@TcpServer.TcpServer R F).
Abbreviation Net := (Network R F Ke Ks Ow).

Context (mConnNameFunc : Ev → option (str → Server → res Server)).
Context (mCloseFunc : option (str → Server → res Server)) (mCloseOwner : str → Ow → Ow).
Context (mMessageFunc : option (Ev → Connection → Server → Ow → res (Connection * Server * Ow))).
Context (mFilterFunc : option (SocketAddr → Server → bool)).

(** The owner's functions leave the registry alone, and the message function, where
    it does not fault, the name, the descriptor and the buffer of its connection. *)
Hypothesis Hname : ∀ e, quiet (mConnNameFunc e).
Hypothesis Hclose : quiet mCloseFunc.
Definition obliging (f : Ev → Connection → Server → Ow → res (Connection * Server * Ow)) : Prop :=
  ∀ e c s o c' s' o', IOBuffer.ok (TcpConnection.mInputBuffer c) → f e c s o = Ok (c', s', o') → same_conn c c' ∧
    registry s' = registry s ∧ mServName s' = mServName s ∧ mEventLoopThdNum s' = mEventLoopThdNum s.
Hypothesis Hmessage : ∀ f, mMessageFunc = Some f → obliging f.

(** The faults of the message function. *)
Definition message_fault (x : fault) : Prop :=
  ∃ f e c s o, mMessageFunc = Some f ∧ f e c s o = Err x.

(** [s1] is the server after the method that closes has changed the object. *)
Lemma closeConnection_ok t0 (n : Net) s1 m l c c1 i :
  in_step mHashFunc t0 n m → live n !! l = Some (c, i) →
  registry_ok mHashFunc s1 m → conns (registry s1) !! l = Some (c1, i) →
  TcpConnection.getName c1 = TcpConnection.getName c → fd_of c1 = fd_of c →
  (∀ l', l' ≠ l → conns (registry s1) !! l' = live n !! l') →
  ∃ n', closeConnection mHashFunc mCloseFunc mCloseOwner l (set_server s1 n) = Ok n' ∧
    in_step mHashFunc t0 n' (delete (TcpConnection.getName c) m) ∧ others_kept i (fd_of c) n n' ∧
    live n' !! l = None ∧ this_of n' = this_of n ∧ mWakeupHandler (the_loops n' i) = mWakeupHandler (the_loops n i).
Proof using H0 Hclose.
  intros Hn Hl Hreg Hl1 Hcn Hcf Hother. destruct (conn_handler _ _ _ _ _ _ _ Hn Hl) as (h & hd & H1 & H2 & H3 & H4 & H5 & _ & Hwf).
  destruct (is_conn _ _ _ _ Hn l c i Hl) as (_ & Hfd & _).
  unfold closeConnection. change (live (set_server s1 n) !! l) with (conns (registry s1) !! l). rewrite Hl1. cbn [of_option mbind res_bind].
  destruct (close_step mHashFunc mCloseFunc Hclose l c1 i s1 m Hreg Hl1) as (s' & Hs' & _ & Hreg' & Hlive & _).
  cbn [set_server the_server]. rewrite Hs'. cbn [mbind res_bind]. unfold live. cbn [set_server set_owner the_server].
  rewrite Hlive, lookup_delete_eq. unfold destroyConnection. cbn [set_server set_owner mConnectionHandlerPtr the_loops].
  rewrite H1. cbn [of_option mbind res_bind]. destruct (loop_remove_ok (fd_of c) h hd _ Hwf H3) as (lo' & -> & Hfr & Hnone).
  cbn [mbind res_bind]. eexists. split; [done|]. rewrite <- Hcn. split; [|split; [|split]].
  - assert (∀ l', l' ≠ l → conns (registry s') !! l' = live n !! l') as Ho.
    { intros l' Hne. rewrite Hlive, lookup_delete_ne by done. by apply Hother. }
    assert (conns (registry s') !! l = None) as Hgone by (by rewrite Hlive, lookup_delete_eq).
    eapply (in_step_changed mHashFunc t0 n m l i (fd_of c) h); [done|exact Hreg'|done| |split]; unfold live;
      cbn [set_server set_owner the_server the_loops this_of mConnectionHandlerPtr the_kernel]; rewrite ?fn_lookup_insert.
    + intros l' d j Hd E. by eapply (is_fds _ _ _ _ Hn).
    + done.
    + intros j Hj. by rewrite fn_lookup_insert_ne.
    + intros x Hx. destruct H3 as (E & _ & Hh & _). congruence.
    + intros l' Hne. by rewrite lookup_delete_ne.
    + done.
    + exact Ho.
    + intros d j Hd. unfold live in Hl. rewrite Hl in Hd. by injection Hd as <- <-.
    + intros d j. by rewrite Hgone.
    + rewrite Hnone. by intros []%is_Some_None.
    + intros f Hf. unfold destroySocket. cbn [Socket.mFD]. rewrite law_close, lookup_delete_ne; [done|]. congruence.
    + unfold destroySocket. cbn [Socket.mFD]. rewrite law_close, Hcf, lookup_delete_eq, Hgone. done.
  - intros f l' x Hf Hx. cbn. rewrite fn_lookup_insert. by apply (lf_watched _ _ _ _ Hfr).
  - unfold live. cbn. by rewrite Hlive, lookup_delete_eq.
  - split; [done|]. cbn. rewrite fn_lookup_insert. apply (lf_wake _ _ _ _ Hfr).
Qed.
(** What the kernel answers to a read and a write of a descriptor it says is ready. *)
Definition answer_ok (a : sys_read * Z * Ev) : Prop :=
  ∃ bs, a.1.1 = Received bs ∧ strlen bs <= mMaxSize.
Definition eof (a : sys_read * Z * Ev) : Prop := a.1.1 = Received [].

(** What is done for the descriptor [fd] of loop [i] keeps the parts in step and the
    other handlers as they are. *)
Definition event_done (t0 : gset Z) (i fd : Z) (n : Net) (r : res Net) : Prop :=
  ∃ n' m', r = Ok n' ∧ in_step mHashFunc t0 n' m' ∧ others_kept i fd n n'.
(** Or the message function has faulted. *)
Definition event_run (t0 : gset Z) (i fd : Z) (n : Net) (r : res Net) : Prop :=
  event_done t0 i fd n r ∨ ∃ x, r = Err x ∧ message_fault x.

(** The server of a network may be replaced by one with the same registry. *)
Lemma in_step_server t0 (n : Net) m s o :
  registry s = registry (the_server n) → mServName s = mServName (the_server n) →
  mEventLoopThdNum s = mEventLoopThdNum (the_server n) →
  in_step mHashFunc t0 n m → in_step mHashFunc t0 (set_owner o (set_server s n)) m.
Proof.
  intros H1 H2 H3 [P1 P2 P3 P4 P5]. assert (live (set_owner o (set_server s n)) = live n) as E by (unfold live; cbn; by rewrite H1).
  split; rewrite ?E; try done. by apply (registry_ok_ext mHashFunc (the_server n)).
Qed.

Lemma messageFunc_ok t0 (n : Net) m l e c i :
  in_step mHashFunc t0 n m → live n !! l = Some (c, i) →
  (∃ n' c', messageFunc mMessageFunc l e c n = Ok n' ∧ in_step mHashFunc t0 n' m ∧
    others_kept i (fd_of c) n n' ∧ live n' !! l = Some (c', i) ∧ same_conn c c' ∧
    mConnectionHandlerPtr n' = mConnectionHandlerPtr n) ∨
  ∃ x, messageFunc mMessageFunc l e c n = Err x ∧ message_fault x.
Proof using H0 Hmessage.
  intros Hn Hl. unfold messageFunc. pose proof (proj2 (proj2 (is_conn _ _ _ _ Hn l c i Hl))) as Hb.
  pose proof (λ f, Hmessage f) as Hf. unfold message_fault.
  destruct mMessageFunc as [f|]; [|left; exists n, c; split; [done|split; [done|split; [by intros ???|split; [done|split; [by split|done]]]]]].
  destruct (f e c (the_server n) (the_owner n)) as [[[c' s] o]|x] eqn:Hr; [left|right; exists x; split; [done|by eexists f, e, c, _, _]].
  destruct (Hf f eq_refl _ _ _ _ _ _ _ Hb Hr) as (Hc & R1 & R2 & R3). cbn [mbind res_bind].
  pose proof (in_step_server t0 n m s o R1 R2 R3 Hn) as Hs.
  assert (live (set_owner o (set_server s n)) !! l = Some (c, i)) as Hl' by (unfold live; cbn; by rewrite R1).
  destruct (put_registry mHashFunc l c c' i _ m (is_registry _ _ _ _ Hs) Hl' Hc) as [_ Hp].
  destruct (Bool.eqb _ _) eqn:Hw.
  - apply Bool.eqb_prop in Hw. exists (put_connection l c' (set_owner o (set_server s n))), c'.
    split; [done|]. split; [by eapply put_same|]. split; [by intros ???|]. split; [done|]. by split.
  - destruct (put_update mHashFunc t0 l c c' i _ m Hs Hl' Hc) as (n' & -> & Hn' & Ho & Hl2 & Hp2). by exists n', c'.
Qed.

Lemma read_eof b : IOBuffer.ok b → ∃ b', read (Received []) b = Ok (b', 0) ∧ IOBuffer.getFD b' = IOBuffer.getFD b.
Proof.
  intros [Hd Hl Hh]. unfold mInitSize, IO_BUFFER_INITIAL_SIZE in Hl. unfold read. change (strlen []) with 0.
  rewrite take_nil, drop_nil. change (strlen []) with 0. destruct (mCurrSize b <? mMaxSize) eqn:E; to_prop.
  - rewrite (proj2 (Z.ltb_ge (mMaxSize - mCurrSize b) 0)) by lia. rewrite fill_ok by (done || change (strlen []) with 0; lia). cbn [mbind res_bind].
    rewrite (proj2 (Z.eqb_neq _ 0)) by lia. rewrite Z.div_0_l by lia. cbn. by eexists.
  - rewrite fill_ok by (done || change (strlen []) with 0; lia). cbn. by eexists.
Qed.

Lemma put_conns l c c' i s (n : Net) : live n !! l = Some (c, i) → s = the_server n →
  conns (registry (set_conn l c' s)) !! l = Some (c', i) ∧
  ∀ l', l' ≠ l → conns (registry (set_conn l c' s)) !! l' = live n !! l'.
Proof.
  intros Hl ->. split; [by change (live (put_connection l c' n) !! l = Some (c', i)); rewrite live_put, lookup_alter_eq, Hl|].
  intros l' Hne. change (live (put_connection l c' n) !! l' = live n !! l'). by rewrite live_put, lookup_alter_ne.
Qed.

(** Bytes have come: the connection lives on. *)
Lemma readFunc_more t0 (n : Net) m l c i a :
  in_step mHashFunc t0 n m → live n !! l = Some (c, i) → answer_ok (a (fd_of c)) → ¬ eof (a (fd_of c)) →
  (∃ n' c', readFunc mHashFunc mCloseFunc mCloseOwner mMessageFunc l a n = Ok n' ∧ in_step mHashFunc t0 n' m ∧
    others_kept i (fd_of c) n n' ∧ live n' !! l = Some (c', i) ∧ fd_of c' = fd_of c ∧
    mConnectionHandlerPtr n' = mConnectionHandlerPtr n) ∨
  ∃ x, readFunc mHashFunc mCloseFunc mCloseOwner mMessageFunc l a n = Err x ∧ message_fault x.
Proof using H0 Hmessage.
  intros Hn Hl (bs & Ha & Hbs) Heof. pose proof (proj2 (proj2 (is_conn _ _ _ _ Hn l c i Hl))) as Hb.
  assert (0 < strlen bs) as Hpos.
  { pose proof (strlen_nonneg bs). destruct (decide (strlen bs = 0)) as [E|]; [|lia]. destruct Heof. unfold eof. rewrite Ha.
    by destruct bs. }
  unfold readFunc. rewrite Hl. cbn [of_option mbind res_bind]. rewrite Ha.
  destruct (read_received (TcpConnection.mInputBuffer c) bs Hb) as (b' & -> & _ & Hfd & Hb').
  { unfold capacity. destruct (_ <? _) eqn:E; to_prop; lia. }
  cbn [mbind res_bind]. rewrite (proj2 (Z.ltb_lt 0 _)) by done. set (c1 := TcpConnection.set_in b' c).
  assert (same_conn c c1) as Hc by (by split).
  pose proof (put_same mHashFunc t0 l c c1 i n m Hn Hl Hc eq_refl) as Hn1.
  destruct (put_registry mHashFunc l c c1 i n m (is_registry _ _ _ _ Hn) Hl Hc) as [_ Hl1].
  assert (fd_of c1 = fd_of c) as Hfc by apply Hc.
  destruct (messageFunc_ok t0 _ m l (a (fd_of c1)).2 c1 i Hn1 Hl1) as [(n' & c' & Hr & Hn' & Ho & Hl' & (_ & Hf & _) & Hp)|(x & Hr & Hx)];
    [left|right; by exists x].
  exists n', c'. rewrite <- Hfc. by split_and!.
Qed.

(** The peer has closed: the connection goes. *)
Lemma readFunc_eof t0 (n : Net) m l c i a :
  in_step mHashFunc t0 n m → live n !! l = Some (c, i) → eof (a (fd_of c)) →
  ∃ n', readFunc mHashFunc mCloseFunc mCloseOwner mMessageFunc l a n = Ok n' ∧
    in_step mHashFunc t0 n' (delete (TcpConnection.getName c) m) ∧ others_kept i (fd_of c) n n' ∧
    live n' !! l = None ∧ this_of n' = this_of n ∧ mWakeupHandler (the_loops n' i) = mWakeupHandler (the_loops n i).
Proof using H0 Hclose.
  intros Hn Hl Ha. pose proof (proj2 (proj2 (is_conn _ _ _ _ Hn l c i Hl))) as Hb.
  unfold readFunc. rewrite Hl. cbn [of_option mbind res_bind]. unfold eof in Ha. rewrite Ha.
  destruct (read_eof _ Hb) as (b' & -> & Hfd). cbn [mbind res_bind Z.ltb Z.compare Z.eqb]. set (c1 := TcpConnection.set_in b' c).
  change (put_connection l c1 n) with (set_server (set_conn l c1 (the_server n)) n).
  destruct (put_conns l c c1 i _ n Hl eq_refl) as [Hl1 Ho].
  destruct (closeConnection_ok t0 n (set_conn l c1 (the_server n)) m l c c1 i Hn Hl) as (n' & -> & Hn' & Hk & Hgone); try done.
  - by apply (set_conn_ok mHashFunc l c1 c i (the_server n) m (is_registry _ _ _ _ Hn) Hl).
  - by exists n'.
Qed.

Lemma writeFunc_ok t0 (n : Net) m l c i (a : answers (Ev := Ev)) :
  in_step mHashFunc t0 n m → live n !! l = Some (c, i) → event_done t0 i (fd_of c) n (writeFunc l a n).
Proof.
  intros Hn Hl. pose proof (proj2 (proj2 (is_conn _ _ _ _ Hn l c i Hl))) as Hb.
  unfold writeFunc. rewrite Hl. cbn [of_option mbind res_bind]. set (c1 := TcpConnection.writeFunc _ c).
  assert (same_conn c c1 ∧ if IOBuffer.empty (TcpConnection.mOutputBuffer c) then TcpConnection.writing c1 = false
    else TcpConnection.writing c1 = TcpConnection.writing c) as [Hc Hw].
  { subst c1. unfold TcpConnection.writeFunc, IOBuffer.empty, get, TcpConnection.write_out, write.
    destruct (mDataQueue (TcpConnection.mOutputBuffer c)); [by repeat split; try apply Hb|].
    destruct (_ <? 0); (split; [by split|done]). }
  destruct (IOBuffer.empty _).
  - destruct (put_update mHashFunc t0 l c c1 i n m Hn Hl Hc) as (n' & Hu & Hn' & Ho & _). rewrite Hw in Hu. by exists n', m.
  - exists (put_connection l c1 n), m. split; [done|]. split; [by eapply put_same|by intros ???].
Qed.

Lemma closed_ok t0 (n : Net) m l c i :
  in_step mHashFunc t0 n m → live n !! l = Some (c, i) →
  ∃ n', closeConnection mHashFunc mCloseFunc mCloseOwner l n = Ok n' ∧
    in_step mHashFunc t0 n' (delete (TcpConnection.getName c) m) ∧ others_kept i (fd_of c) n n' ∧ live n' !! l = None.
Proof using H0 Hclose.
  intros Hn Hl. destruct (closeConnection_ok t0 n (the_server n) m l c c i Hn Hl (is_registry _ _ _ _ Hn) Hl) as (n' & Hr & ? & ? & ? & _); try done.
  exists n'. split; [|done]. rewrite <- Hr. by destruct n.
Qed.

Lemma putToBuffer_ok t0 (n : Net) m l c i data :
  in_step mHashFunc t0 n m → live n !! l = Some (c, i) → event_done t0 i (fd_of c) n (putToBuffer data l n).
Proof.
  intros Hn Hl. pose proof (proj2 (proj2 (is_conn _ _ _ _ Hn l c i Hl))) as Hb.
  unfold putToBuffer. rewrite Hl. cbn [of_option mbind res_bind].
  destruct (put_update mHashFunc t0 l c (TcpConnection.putToBuffer data c) i n m Hn Hl) as (n' & Hu & Hn' & Ho & _); [by split|].
  by exists n', m.
Qed.
(** ** A connection is accepted *)

Definition some_loop (n : Net) : Prop :=
  ∃ i, 0 <= i < mEventLoopThdNum (the_server n) ∧ active i (mEventLoopThreadpool (registry (the_server n))).

Lemma in_step_kernel t0 (n : Net) m k :
  (∀ f, is_Some (table k !! f) ↔ is_Some (table (the_kernel n) !! f)) → in_step mHashFunc t0 n m → in_step mHashFunc t0 (set_kernel k n) m.
Proof. intros Hk [P1 P2 P3 P4 P5]. split; try done. intros f. cbn [set_kernel the_kernel]. by rewrite Hk. Qed.

(** A descriptor that was not open is nobody's. *)
Lemma free_fd t0 (n : Net) m fd :
  in_step mHashFunc t0 n m → table (the_kernel n) !! fd = None →
  (fd ∉ t0) ∧ (∀ l c i, live n !! l = Some (c, i) → fd_of c ≠ fd) ∧ ∀ i, mEventHandlerHash (base (the_loops n i)) !! fd = None.
Proof.
  intros Hn Hk. assert (¬ (fd ∈ t0 ∨ ∃ l c i, live n !! l = Some (c, i) ∧ fd_of c = fd)) as Hno.
  { rewrite <- (is_table _ _ _ _ Hn), Hk. by intros []%is_Some_None. }
  split; [tauto|]. split; [intros l c i Hl E; apply Hno; right; by exists l, c, i|].
  intros i. destruct (mEventHandlerHash (base (the_loops n i)) !! fd) as [l0|] eqn:E; [|done]. destruct Hno. destruct (is_loop _ _ _ _ Hn i) as [_ [_ Hw] Hown].
  destruct (Hown fd ltac:(by eexists)) as [->|(l & c & Hl & Hc)]; [by left|right]. by exists l, c, i.
Qed.

Lemma newConnection_ok t0 (n : Net) m e connfd peer k d :
  in_step mHashFunc t0 n m → some_loop n → 0 < connfd → table (the_kernel n) !! connfd = None →
  table k = <[connfd := d]> (table (the_kernel n)) →
  let l := nextLoc (registry (the_server n)) in
  ∃ n', newConnection gtb rate_max mHashFunc mNoDelay mConnNameFunc e connfd peer (set_kernel k n) = Ok n' ∧
    in_step mHashFunc t0 n' (<[generateConnID connfd peer (the_server n) := l]> m).
Proof using H0 Hname.
  intros Hn (j & Hj & Hact) Hpos Hfree Hk l. destruct (free_fd t0 n m connfd Hn Hfree) as (Ht & Hlive & Hhash).
  unfold newConnection. cbn [set_kernel the_server]. fold l.
  destruct (accept_step gtb rate_max mHashFunc (mConnNameFunc e) (Hname e) connfd peer (the_server n) m (is_registry _ _ _ _ Hn))
    as (s & Hs & _ & [(_ & _ & Hno)|(c & i & Hreg & Hconns & (Hfd & Hin & Hw) & _)]); [by split|by destruct (Hno j Hj)|].
  rewrite Hs. cbn [mbind res_bind]. fold l in Hconns, Hreg. rewrite Hconns, lookup_insert_eq.
  assert (live n !! l = None) as Hl.
  { unfold live. destruct (conns _ !! l) as [[c' i']|] eqn:E; [|done]. apply (rok_conn _ _ _ (is_registry _ _ _ _ Hn)) in E as (_ & _ & E & _). unfold l in E. lia. }
  destruct (is_loop _ _ _ _ Hn i) as [Hwf _ _].
  destruct (makeTcpConnection_ok connfd mNoDelay (the_loops n i) k d Hwf (Hhash i)) as (lo' & k' & Hm & Hfr & (hd & Hwd & Hf & He) & Hk').
  { by rewrite Hk, lookup_insert_eq. }
  cbn [set_kernel the_loops the_kernel mConnectionHandlerPtr this_of]. rewrite Hm. cbn [mbind res_bind]. eexists. split; [done|].
  set (h := nextHandler (the_loops n i)) in *.
  eapply (in_step_changed mHashFunc t0 n m l i connfd h); [done|exact Hreg|done| |split]; unfold live in *;
    cbn [the_server the_loops this_of mConnectionHandlerPtr the_kernel] in *; rewrite ?fn_lookup_insert, ?Hconns, ?lookup_insert_eq.
  - intros l' c' i' Hl' E. by destruct (Hlive l' c' i' Hl').
  - done.
  - intros j' Hj'. by rewrite fn_lookup_insert_ne.
  - intros x Hx. pose proof (lwf_fresh _ Hwf h ltac:(by eexists)). subst h. lia.
  - intros l' Hne. by rewrite lookup_insert_ne.
  - intros j' h' Hne. by rewrite lookup_insert_ne.
  - intros l' Hne. by rewrite lookup_insert_ne.
  - intros c' j'. by rewrite Hl.
  - intros c' j' [= <- <-]. split_and!; [done|done| |rewrite Hin; apply new_ok]. exists h, hd. cbn.
    rewrite !lookup_insert_eq, fn_lookup_insert, Hfd. split_and!; try done. unfold wanted. by rewrite Hw.
  - by eexists.
  - intros f Hne. by rewrite Hk', Hk, lookup_insert_ne.
  - rewrite Hk', Hk, lookup_insert_eq. split; by eexists.
Qed.

Lemma accept_connection_ok t0 (n : Net) m s e :
  in_step mHashFunc t0 n m → some_loop n → 0 ∈ t0 →
  ∃ n' m', accept_connection gtb rate_max mHashFunc mNoDelay mConnNameFunc mFilterFunc s e n = Ok n' ∧ in_step mHashFunc t0 n' m'.
Proof using H0 Hname.
  intros Hn Hloop Ht0. unfold accept_connection, accept.
  pose proof (law_accept (Socket.mFD s) (the_kernel n)) as Ha. destruct (sys_accept _ _) as [[connfd p] k].
  destruct Ha as [(-> & _ & Hk)|(a & -> & (Hge & Hfree & _) & Hk)]; cbn [Z.ltb Z.compare].
  { exists (set_kernel k n), m. split; [done|]. apply in_step_kernel; [|done]. by rewrite Hk. }
  assert (0 < connfd) as Hpos.
  { destruct (decide (connfd = 0)) as [->|]; [|lia]. destruct (free_fd t0 n m 0 Hn Hfree) as [? _]. done. }
  rewrite (proj2 (Z.ltb_lt 0 _)) by done. set (peer := addr_text (default _ (Some a))).
  change (the_server (set_kernel k n)) with (the_server n).
  destruct (match mFilterFunc with Some filter => filter peer (the_server n) | None => true end).
  - destruct (newConnection_ok t0 n m e connfd peer k _ Hn Hloop Hpos Hfree Hk) as (n' & Hr & Hn'). exists n'. eexists. split; [exact Hr|exact Hn'].
  - eexists _, m. split; [done|]. apply (in_step_kernel t0 n m); [|done]. intros f. by rewrite law_close, Hk, delete_insert_id.
Qed.
(** ** A turn *)

Lemma in_step_like t0 (n : Net) m i lo' :
  in_step mHashFunc t0 n m → loop_like (the_loops n i) lo' → in_step mHashFunc t0 (set_loop i lo' n) m.
Proof.
  intros [P1 P2 P3 P4 P5] [L1 [L2 L2'] L3 L4]. split; [done| | |done|done]; cbn [set_loop the_loops].
  - intros j. destruct (decide (i = j)) as [<-|Hj]; [|by rewrite fn_lookup_insert_ne]. rewrite fn_lookup_insert.
    destruct (P2 i) as [_ [[hd Hw] Hin] Hown]. split; [done|rewrite L2, L2'|by rewrite L2, L3].
    destruct (L4 _ _ _ Hw) as (hd' & Hw' & _). split; [by exists hd'|done].
  - intros l c j Hl. destruct (P3 l c j Hl) as ((h & hd & A1 & A2 & A3 & A4 & A5) & ?). split; [|done].
    destruct (decide (i = j)) as [<-|Hj]; [|exists h, hd; cbn; by rewrite fn_lookup_insert_ne].
    destruct (L4 _ _ _ A3) as (hd' & Hw' & F1 & F2). exists h, hd'. cbn. rewrite fn_lookup_insert, F1, F2. by split_and!.
Qed.

Lemma done_same t0 i fd (n : Net) m : in_step mHashFunc t0 n m → event_done t0 i fd n (Ok n).
Proof. intros Hn. exists n, m. split; [done|]. split; [done|by intros ???]. Qed.

(** The callbacks of a handler of a connection for the events [r] that came. *)
Definition callbacks_of (r : Z) : list callback := doEvnet (mkHandler 0 0 r 0 all_funcs).

Lemma doEvnet_all h : mFuncs h = all_funcs → doEvnet h = callbacks_of (mRevents h).
Proof. intros Hf. unfold callbacks_of, doEvnet, call. cbn [mFuncs mRevents]. by rewrite Hf. Qed.

(** What is ready is no error, and an end of the input comes alone. *)
Definition calm (a : answers (Ev := Ev)) (fd r : Z) : Prop :=
  answer_ok (a fd) ∧
  (callbacks_of r ∈ [[]; [CloseFunc]; [ReadFunc]; [WriteFunc]] ∨ callbacks_of r = [ReadFunc; WriteFunc] ∧ ¬ eof (a fd)).

Abbreviation exec i a := (run_event mHashFunc mCloseFunc mCloseOwner mMessageFunc i a).
Abbreviation loop_at i := (λ n : Net, the_loops n i).

(** The events of a loop's own handler. *)
Lemma wake_callbacks_ok t0 i a fd cs (n : Net) m :
  in_step mHashFunc t0 n m →
  event_done t0 i fd n (run_callbacks (loop_at i) (set_loop i) (exec i a) (mWakeupHandler (the_loops n i)) cs n).
Proof.
  revert n. induction cs as [|f cs IH]; intros n Hn; cbn [run_callbacks]; [by apply (done_same t0 i fd n m)|].
  unfold run_callback. rewrite decide_True by done. cbn [mbind res_bind].
  set (lo' := set_flags _ _). destruct (is_loop _ _ _ _ Hn i) as [Hwf _ _].
  pose proof (in_step_like t0 n m i lo' Hn (flags_like _ _ Hwf)) as Hn'. destruct (IH _ Hn') as (n2 & m2 & Hr & Hn2 & Ho).
  cbn [set_loop the_loops] in Hr. rewrite fn_lookup_insert in Hr. exists n2, m2. split; [exact Hr|]. split; [done|].
  intros f' l hd Hf Hw. apply Ho; [done|]. cbn. by rewrite fn_lookup_insert.
Qed.

(** A callback of a connection's handler. *)
Lemma run_callback_conn t0 i a (n : Net) m l c h f :
  in_step mHashFunc t0 n m → live n !! l = Some (c, i) → mConnectionHandlerPtr n !! l = Some h →
  run_callback (loop_at i) (set_loop i) (exec i a) h f n =
  match f with
  | ReadFunc => readFunc mHashFunc mCloseFunc mCloseOwner mMessageFunc l a n
  | WriteFunc => writeFunc l a n
  | CloseFunc => closeConnection mHashFunc mCloseFunc mCloseOwner l n
  | ErrorFunc => Err Uninit
  end.
Proof.
  intros Hn Hl Hp. destruct (conn_handler _ _ _ _ _ _ _ Hn Hl) as (h' & hd & H1 & H2 & _ & _ & _ & Hw & _).
  rewrite Hp in H1. injection H1 as <-. unfold run_callback. rewrite decide_False by done. unfold run_event. by rewrite H2.
Qed.

Lemma conn_callbacks_ok t0 i a (n : Net) m l c h r :
  in_step mHashFunc t0 n m → live n !! l = Some (c, i) → mConnectionHandlerPtr n !! l = Some h → calm a (fd_of c) r →
  event_run t0 i (fd_of c) n (run_callbacks (loop_at i) (set_loop i) (exec i a) h (callbacks_of r) n).
Proof using H0 Hclose Hmessage.
  intros Hn Hl Hp [Ha Hr]. assert (∀ x : res Net, (y ← x; Ok y) = x) as Hbind by by intros [].
  pose proof (λ f, run_callback_conn t0 i a n m l c h f Hn Hl Hp) as Hrun.
  destruct Hr as [Hr|[-> Heof]].
  - apply elem_of_cons in Hr as [->|Hr]; [left; by apply (done_same t0 i _ n m)|].
    apply elem_of_cons in Hr as [->|Hr]; cbn [run_callbacks]; rewrite ?Hrun, ?Hbind.
    { left. destruct (closed_ok t0 n m l c i Hn Hl) as (n' & -> & Hn' & Ho & _). by eexists _, _. }
    apply elem_of_cons in Hr as [->|Hr]; cbn [run_callbacks]; rewrite ?Hrun, ?Hbind.
    { destruct (decide (strlen (match (a (fd_of c)).1.1 with Received bs => bs | ReadError => [] end) = 0)).
      - destruct Ha as (bs & Ha & _). assert (eof (a (fd_of c))) as Heof by (unfold eof; rewrite Ha in *; by destruct bs).
        left. destruct (readFunc_eof t0 n m l c i a Hn Hl Heof) as (n' & -> & Hn' & Ho & _). by eexists _, _.
      - assert (¬ eof (a (fd_of c))) as Heof by (unfold eof; intros E; by rewrite E in *).
        destruct (readFunc_more t0 n m l c i a Hn Hl Ha Heof) as [(n' & c' & -> & Hn' & Ho & _)|Hx]; [left; by eexists _, _|by right]. }
    apply list_elem_of_singleton in Hr as ->. cbn [run_callbacks]. rewrite Hrun, Hbind. left. by apply (writeFunc_ok t0 n m l c i a).
  - cbn [run_callbacks]. rewrite Hrun.
    destruct (readFunc_more t0 n m l c i a Hn Hl Ha Heof) as [(n1 & c1 & -> & Hn1 & Ho1 & Hl1 & Hf & Hp1)|(x & -> & Hx)]; [left|right; by exists x].
    cbn [mbind res_bind]. rewrite <- Hp1 in Hp. rewrite (run_callback_conn t0 i a n1 m l c1 h WriteFunc Hn1 Hl1 Hp).
    destruct (writeFunc_ok t0 n1 m l c1 i a Hn1 Hl1) as (n2 & m2 & -> & Hn2 & Ho2). cbn. exists n2, m2. split; [done|]. split; [done|].
    intros f l' hd Hne Hw. rewrite <- Hf in Hne, Ho1. by apply Ho2, Ho1.
Qed.
Lemma handler_ok t0 i a (n : Net) m fd h hd :
  in_step mHashFunc t0 n m → watched fd h hd (the_loops n i) → calm a fd (mRevents hd) →
  event_run t0 i fd n (run_callbacks (loop_at i) (set_loop i) (exec i a) h (doEvnet hd) n).
Proof using H0 Hclose Hmessage.
  intros Hn Hw Ha. pose proof Hw as (_ & _ & Hh & Hs & _). destruct (is_loop _ _ _ _ Hn i) as [Hwf [[hd' (_ & _ & _ & Hs' & _)] Hin] Hown].
  destruct (Hown fd ltac:(by eexists)) as [->|(l & c & Hl & <-)].
  - rewrite Hs in Hs'. injection Hs' as ->. left. by apply (wake_callbacks_ok t0 i a _ _ n m).
  - destruct (conn_handler _ _ _ _ _ _ _ Hn Hl) as (h' & hd1 & P1 & _ & (_ & _ & Hh' & Hs1 & _) & P2 & _).
    rewrite Hs in Hs1. injection Hs1 as <-. rewrite Hh in Hh'. injection Hh' as <-. rewrite doEvnet_all by done.
    by apply (conn_callbacks_ok t0 i a n m l c h).
Qed.

Definition pending (a : answers (Ev := Ev)) (lo : Loop Ke) (fd : Z) (h : loc) : Prop :=
  ∃ hd, watched fd h hd lo ∧ calm a fd (mRevents hd).

(** The parts are still in step, or the message function has faulted. *)
Definition outcome (t0 : gset Z) (r : res Net) : Prop :=
  (∃ n' m', r = Ok n' ∧ in_step mHashFunc t0 n' m') ∨ ∃ x, r = Err x ∧ message_fault x.

Lemma handlers_in_step t0 i a hs fds (n : Net) m :
  in_step mHashFunc t0 n m → NoDup fds → Forall2 (pending a (the_loops n i)) fds hs →
  outcome t0 (run_handlers (loop_at i) (set_loop i) (exec i a) hs n).
Proof using H0 Hclose Hmessage.
  intros Hn Hnd Hp. revert n m Hn Hp. revert fds Hnd. induction hs as [|h hs IH]; intros fds Hnd n m Hn Hp; [left; by exists n, m|].
  apply Forall2_cons_inv_r in Hp as (fd & fds' & (hd & Hw & Ha) & Hp & ->). apply NoDup_cons in Hnd as [Hfd Hnd].
  cbn [run_handlers]. pose proof Hw as (_ & _ & Hh & _). unfold deref. rewrite Hh. cbn [of_option mbind res_bind].
  destruct (handler_ok t0 i a n m fd h hd Hn Hw Ha) as [(n1 & m1 & -> & Hn1 & Ho)|(x & -> & Hx)]; [|right; by exists x]. cbn [mbind res_bind].
  apply (IH fds' Hnd n1 m1 Hn1). apply Forall2_same_length_lookup in Hp as [Hlen Hp]. apply Forall2_same_length_lookup.
  split; [done|]. intros k fd' h' Hk Hk'. destruct (Hp k fd' h' Hk Hk') as (hd' & Hw' & Ha'). exists hd'. split; [|done].
  apply Ho; [|done]. intros ->. apply Hfd. by eapply list_elem_of_lookup_2.
Qed.

(** What [epoll_wait] reports: descriptors it was asked to watch, each once. *)
Definition ready_ok (a : answers (Ev := Ev)) (lo : Loop Ke) (ready : list (Z * Z)) : Prop :=
  NoDup ready.*1 ∧ Forall (λ e, is_Some (mEventHandlerHash (base lo) !! e.1) ∧ calm a e.1 (u32 e.2)) ready.

Lemma hash_watched t0 (n : Net) m i fd h :
  in_step mHashFunc t0 n m → mEventHandlerHash (base (the_loops n i)) !! fd = Some h → ∃ hd, watched fd h hd (the_loops n i).
Proof.
  intros Hn Hs. destruct (is_loop _ _ _ _ Hn i) as [Hwf [[hd' Hw] Hin] Hown].
  destruct (Hown fd ltac:(by eexists)) as [->|(l & c & Hl & <-)].
  - exists hd'. pose proof Hw as (_ & _ & _ & Hs' & _). rewrite Hs in Hs'. by injection Hs' as ->.
  - destruct (conn_handler _ _ _ _ _ _ _ Hn Hl) as (h' & hd1 & _ & _ & Hw1 & _). exists hd1.
    pose proof Hw1 as (_ & _ & _ & Hs1 & _). rewrite Hs in Hs1. by injection Hs1 as ->.
Qed.

Lemma net_turn_ok t0 i ready dur a (n : Net) m :
  in_step mHashFunc t0 n m → ready_ok a (the_loops n i) ready →
  outcome t0 (net_turn mHashFunc mCloseFunc mCloseOwner mMessageFunc i ready dur a n).
Proof using H0 Hclose Hmessage.
  intros Hn [Hnd Hready]. destruct (is_loop _ _ _ _ Hn i) as [Hwf _ _]. unfold net_turn, turn.
  destruct (polled_ok ready dur (the_loops n i) Hwf Hnd) as (p & out & -> & Hlike & -> & Htold).
  set (lo1 := set_poller p (the_loops n i)) in *. set (n1 := set_loop i (set_doing true lo1) n).
  assert (in_step mHashFunc t0 n1 m) as Hn1 by (by apply in_step_like, like_flags).
  destruct (handlers_in_step t0 i a (omap (λ e, mEventHandlerHash (base (the_loops n i)) !! e.1) ready) ready.*1 n1 m Hn1 Hnd) as [(n2 & m2 & Hr & Hn2)|(x & Hr & Hx)].
  { cbn [set_loop the_loops n1]. rewrite fn_lookup_insert. change (pending a (set_doing true lo1)) with (pending a lo1).
    assert (∀ fd r h hd, (fd, r) ∈ ready → watched fd h hd (the_loops n i) → calm a fd (u32 r) → pending a lo1 fd h) as Hpend.
    { intros fd r h hd Hin Hw Hc. destruct (Htold fd r h hd Hin Hw) as (h' & Hw' & _ & _ & E). exists h'. by rewrite E. }
    clear Htold Hnd. induction Hready as [|[fd r] ready [[h Hs] Hc] Hready IH]; [done|]. cbn. cbn in Hs. rewrite Hs.
    destruct (hash_watched t0 n m i fd h Hn Hs) as [hd Hw]. constructor.
    - apply (Hpend fd r h hd); [by left|done|done].
    - apply IH. intros fd' r' h' hd' Hin. apply Hpend. by right. }
  - rewrite Hr. cbn [mbind res_bind]. left. eexists _, m2. split; [done|]. apply in_step_like; [done|].
    destruct (is_loop _ _ _ _ Hn2 i) as [Hwf2 _ _]. by apply flags_like.
  - rewrite Hr. right. by exists x.
Qed.

Lemma timeout_loop_ok t0 k i interval timeout reset (n : Net) m :
  in_step mHashFunc t0 n m → 0 <= i → i + Z.of_nat k <= mEventLoopThdNum (the_server n) →
  ∃ n', timeout_loop k i interval timeout reset n = Ok n' ∧ in_step mHashFunc t0 n' m.
Proof.
  revert i n. induction k as [|k IH]; intros i n Hn Hi Hk; cbn [timeout_loop]; [by exists n|].
  pose proof (is_registry _ _ _ _ Hn) as Hreg. pose proof (rok_num _ _ _ Hreg) as Hnum.
  destruct (pok_threads _ (rok_pool _ _ _ Hreg) i ltac:(lia)) as [t Ht]. unfold getEventLoop, thread_at.
  rewrite (proj2 (Z.ltb_ge i 0)), (proj2 (Z.leb_gt _ i)), Ht by lia. cbn [orb of_option mbind res_bind].
  apply IH; [|lia|cbn; lia]. apply in_step_like; [done|]. apply timeout_like, (is_loop _ _ _ _ Hn i).
Qed.

(** ** Any run *)

Definition net_legal (e : net_event (F := F) (Ow := Ow) (Ev := Ev)) (n : Net) : Prop :=
  match e with
  | Accepted _ _ => some_loop n
  | Turned i ready _ a => ready_ok a (the_loops n i) ready
  | Sent l _ | Closed l => is_Some (live n !! l)
  | Limited _ _ _ | Outside _ _ => True
  end.

Abbreviation do_step := (net_step gtb rate_max mHashFunc mNoDelay mConnNameFunc mCloseFunc mCloseOwner mMessageFunc mFilterFunc).

Inductive net_reachable (n0 : Net) : Net → Prop :=
  | net_start : net_reachable n0 n0
  | net_went n e n' : net_reachable n0 n → net_legal e n → do_step e n = Ok n' → net_reachable n0 n'.

Lemma net_step_ok t0 (n : Net) m e :
  in_step mHashFunc t0 n m → 0 ∈ t0 → net_legal e n → outcome t0 (do_step e n).
Proof using H0 Hname Hclose Hmessage.
  intros Hn Ht0. destruct e as [s e|i ready dur a|l data|l|interval timeout reset|t o]; cbn [net_legal net_step].
  - intros Hl. left. by apply (accept_connection_ok t0 n m).
  - intros Hr. by apply (net_turn_ok t0 i ready dur a n m).
  - intros [[c i] Hl]. left. destruct (putToBuffer_ok t0 n m l c i data Hn Hl) as (n' & m' & ? & ? & _). by exists n', m'.
  - intros [[c i] Hl]. left. destruct (closed_ok t0 n m l c i Hn Hl) as (n' & ? & ? & _). by eexists _, _.
  - intros _. left. pose proof (rok_pool _ _ _ (is_registry _ _ _ _ Hn)) as [Hp _ _]. pose proof (rok_num _ _ _ (is_registry _ _ _ _ Hn)) as Hnum.
    destruct (timeout_loop_ok t0 (Z.to_nat (mEventLoopThdNum (the_server n))) 0 interval timeout reset n m Hn) as (n' & ? & ?); [lia|lia|].
    by exists n', m.
  - intros _. left. eexists _, m. split; [done|]. by apply in_step_server.
Qed.

Lemma net_reachable_ok t0 n0 (n : Net) m0 : in_step mHashFunc t0 n0 m0 → 0 ∈ t0 → net_reachable n0 n → ∃ m, in_step mHashFunc t0 n m.
Proof using H0 Hname Hclose Hmessage.
  intros H1 Ht0 Hr. induction Hr as [|n e n' _ [m IH] Hl He]; [by exists m0|].
  destruct (net_step_ok t0 n m e IH Ht0 Hl) as [(n2 & m2 & He2 & Hn2)|(x & He2 & _)]; rewrite He in He2; simplify_eq. by exists m2.
Qed.

(** The network before any connection: a server with a new registry, new loops and the descriptors
    that are open. *)
Record new_network (n : Net) : Prop := {
  nn_server : ∃ name b p, let s := newTcpServer (F := F) name b p in
    registry (the_server n) = registry s ∧ mServName (the_server n) = name ∧
    mEventLoopThdNum (the_server n) = mEventLoopThdNum s ∧ 0 < b ∧ pool_ok p ∧ events p = mThreadNum p;
  nn_loop i : ∃ evtfd k, makeLoop evtfd k = Ok (the_loops n i) ∧ interest k = ∅ ∧ is_Some (table (the_kernel n) !! evtfd);
  nn_stdin : is_Some (table (the_kernel n) !! 0) }.

Lemma new_in_step (n : Net) : new_network n → in_step mHashFunc (dom (table (the_kernel n))) n ∅ ∧ 0 ∈ dom (table (the_kernel n)).
Proof.
  intros [(name & b & p & Hs & Hname' & Hnum & Hb & Hp & He) Hloop H00]. split; [|by apply elem_of_dom]. split; unfold live; rewrite ?Hs; try done.
  - by eapply registry_ok_ext, new_registry_ok.
  - intros i. destruct (Hloop i) as (evtfd & k & Hm & Hk & Ho). destruct (new_loop_wf evtfd k Hk) as (lo & Hm' & Hwf & Hfd & Hw & Hhash).
    rewrite Hm in Hm'. injection Hm' as <-. rewrite <- Hfd in Hw. split; [done| |].
    + split; [by eexists|]. rewrite Hfd. by apply elem_of_dom.
    + intros f. rewrite Hhash. intros [<-|[_ [? ?]]]%lookup_insert_is_Some; [by left|by rewrite lookup_empty in *].
  - intros f. rewrite elem_of_dom. split; [by left|]. intros [|(l & c & i & Hl & _)]; [done|]. cbn in Hl. by rewrite lookup_empty in Hl.
Qed.
(** What the invariant says of a network that began as [n0]: the server finds by name
    exactly the live connections; each of them has its own handler in its own loop,
    which the kernel watches for what the connection waits; a loop watches its wake-up
    descriptor and its live connections; the descriptors open are those of the start
    and those of the live connections. *)
Definition parts_agree (n0 n : Net) : Prop :=
  (∀ id l, getConnPtrRef mHashFunc id (the_server n) = Ok (Some l) ↔ ∃ c i, live n !! l = Some (c, i) ∧ TcpConnection.getName c = id) ∧
  (∀ l c i, live n !! l = Some (c, i) → attached n l c i) ∧
  (∀ i f, is_Some (mEventHandlerHash (base (the_loops n i)) !! f) ↔
     f = mWakeupFD (the_loops n i) ∨ ∃ l c, live n !! l = Some (c, i) ∧ fd_of c = f) ∧
  (∀ f, is_Some (table (the_kernel n) !! f) ↔
     is_Some (table (the_kernel n0) !! f) ∨ ∃ l c i, live n !! l = Some (c, i) ∧ fd_of c = f).

Lemma in_step_agree (n0 n : Net) m : in_step mHashFunc (dom (table (the_kernel n0))) n m → parts_agree n0 n.
Proof.
  intros Hn. split_and!.
  - intros id l. exact (registry_lookup mHashFunc _ m id l (is_registry _ _ _ _ Hn)).
  - intros l c i Hc. apply (is_conn _ _ _ _ Hn l c i Hc).
  - intros i f. split; [apply (is_loop _ _ _ _ Hn i)|]. intros [->|(l & c & Hc & <-)].
    + destruct (is_loop _ _ _ _ Hn i) as [_ [[hd (_ & _ & _ & Hs & _)] _] _]. by eexists.
    + destruct (conn_handler _ _ _ _ _ _ _ Hn Hc) as (h & hd & _ & _ & (_ & _ & _ & Hs & _) & _). by eexists.
  - intros f. by rewrite (is_table _ _ _ _ Hn f), elem_of_dom.
Qed.

(** Any network that can be reached is as the invariant says, and its next step gives
    such a network again or is a fault of the message function. *)
Lemma reachable_runs (n0 n : Net) e :
  new_network n0 → net_reachable n0 n → net_legal e n →
  parts_agree n0 n ∧
  ((∃ n', do_step e n = Ok n' ∧ parts_agree n0 n') ∨ ∃ x, do_step e n = Err x ∧ message_fault x).
Proof using H0 Hname Hclose Hmessage.
  intros Hnew Hr Hl. destruct (new_in_step n0 Hnew) as [H1 Ht0]. destruct (net_reachable_ok _ n0 n ∅ H1 Ht0 Hr) as [m Hn].
  split; [by apply (in_step_agree n0 n m)|].
  destruct (net_step_ok _ n m e Hn Ht0 Hl) as [(n' & m' & -> & Hn')|Hx]; [left|by right].
  exists n'. split; [done|]. by apply (in_step_agree n0 n' m').
Qed.

(** ** Properties *)


(** When the peer has closed and the connection has bytes to write, the kernel
    reports both at once: [readFunc] ends the connection, and its handler goes on to
    the [writeFunc] of an object that is gone. *)
Theorem eof_with_output_faults (n0 n : Net) l c i r dur a :
  new_network n0 → net_reachable n0 n → live n !! l = Some (c, i) →
  callbacks_of (u32 r) = [ReadFunc; WriteFunc] → eof (a (fd_of c)) →
  do_step (Turned i [(fd_of c, r)] dur a) n = Err NullDeref.
Proof using H0 Hname Hclose Hmessage.
  intros Hnew Hr Hl Hcs Heof. destruct (new_in_step n0 Hnew) as [H1 Ht0]. destruct (net_reachable_ok _ n0 n ∅ H1 Ht0 Hr) as [m Hn].
  destruct (conn_handler _ _ _ _ _ _ _ Hn Hl) as (h & hd & P1 & P2 & P3 & P4 & P5 & Hne & Hwf). pose proof P3 as (_ & _ & Hh & Hs & _).
  cbn [net_step]. unfold net_turn, turn.
  destruct (polled_ok [(fd_of c, r)] dur (the_loops n i) Hwf) as (p & out & -> & Hlike & -> & Htold); [by apply NoDup_singleton|].
  destruct (Htold (fd_of c) r h hd ltac:(by left) P3) as (hd' & (_ & _ & Hh' & _) & F1 & _ & F3).
  set (lo1 := set_poller p (the_loops n i)) in *. set (n1 := set_loop i (set_doing true lo1) n).
  assert (in_step mHashFunc (dom (table (the_kernel n0))) n1 m) as Hn1 by (by apply in_step_like, like_flags).
  cbn [omap list_omap fst]. rewrite Hs. cbn [run_handlers].
  assert (the_loops n1 i = set_doing true lo1) as Hlo by (cbn; by rewrite fn_lookup_insert).
  rewrite Hlo. unfold deref. change (heap (base (set_doing true lo1))) with (heap (base lo1)). rewrite Hh'. cbn [of_option mbind res_bind].
  rewrite doEvnet_all, F3, Hcs by (by rewrite F1). cbn [run_callbacks].
  rewrite (run_callback_conn _ i a n1 m l c h ReadFunc Hn1 Hl P1).
  destruct (readFunc_eof _ n1 m l c i a Hn1 Hl Heof) as (n2 & -> & Hn2 & _ & Hgone & Hthis & Hwake). cbn [mbind res_bind].
  unfold run_callback. rewrite Hwake, Hlo. rewrite decide_False by (change (h ≠ mWakeupHandler (the_loops n i)); done).
  unfold run_event. rewrite Hthis. change (this_of n1) with (this_of n). rewrite P2. cbn [of_option mbind res_bind].
  unfold writeFunc. by rewrite Hgone.
Qed.
End Steps.

(** ** Witnesses *)

Definition demo_calls : option (str → @TcpServer.TcpServer Z unit → res (@TcpServer.TcpServer Z unit)) := None.

(** The message function answers every message with [ok]; it counts them. *)
Definition demo_message (_ : unit) (c : Connection) (s : @TcpServer.TcpServer Z unit) (seen : nat)
    : res (Connection * @TcpServer.TcpServer Z unit * nat) :=
  Ok (TcpConnection.putToBuffer (lit "ok") c, s, S seen).

Lemma demo_obliging f : Some demo_message = Some f → obliging f.
Proof. intros [= <-] e c s o c' s' o' Hb [= <- <- <-]. by split_and!. Qed.

(** A listening socket, number 3, and the descriptor 9 of the loops. *)
Definition demo_net : Network Z unit (gmap Z Z) Socket.kernel nat :=
  mkNetwork TcpServer.demo_server (λ _, demo_loop) ∅ ∅
    (set_tab (<[9 := new_descr true false false]> (tab (system demo_accepting))) (system demo_accepting)) 0%nat.

Lemma demo_net_new : new_network demo_net.
Proof.
  split; [|intros i|by eexists].
  - exists (lit "Login"), 7, demo_loops. split_and!; [done|done|done|lia|apply demo_loops_ok|done].
  - exists 9, ∅. split; [by vm_compute|]. split; [done|by eexists].
Qed.

Definition demo_step := net_step (Ke := gmap Z Z) (Ks := Socket.kernel) Z.gtb 1000 demo_hash true (λ _, demo_calls) demo_calls (λ _ o, o) (Some demo_message) None.
Definition demo_after (es : list net_event) : Network Z unit (gmap Z Z) Socket.kernel nat :=
  foldl (λ n e, match demo_step e n with Ok n => n | Err _ => n end) demo_net es.

(** A peer comes, its connection gets loop 1 and the descriptor 4, and it says [hi]. *)
Definition demo_accept : net_event (F := unit) (Ow := nat) := Accepted (mkSocket 3) ().
Definition demo_hi : net_event (F := unit) (Ow := nat) := Turned 1 [(4, POLLIN)] 0 (λ _, (Received (lit "hi"), 0, ())).

Abbreviation demo_reachable := (net_reachable Z.gtb 1000 demo_hash true (λ _, demo_calls) demo_calls (λ _ o, o) (Some demo_message) None demo_net).

Lemma demo_next es e : demo_reachable (demo_after es) → net_legal e (demo_after es) →
  is_ok (demo_step e (demo_after es)) = true → demo_reachable (demo_after (es ++ [e])).
Proof.
  intros Hr Hl Hok. eapply net_went; [exact Hr|exact Hl|]. unfold demo_after at 2. rewrite foldl_app. cbn [foldl].
  fold (demo_after es). unfold demo_step in *. by destruct (net_step _ _ _ _ _ _ _ _ _ e (demo_after es)).
Qed.

Lemma demo_some_loop : some_loop demo_net.
Proof. exists 0. split; [by vm_compute|]. by eexists. Qed.

Lemma demo_accepted : demo_reachable (demo_after [demo_accept]).
Proof. apply (demo_next [] demo_accept); [apply net_start|apply demo_some_loop|by vm_compute]. Qed.

Lemma net_demo_ready : net_legal demo_hi (demo_after [demo_accept]).
Proof.
  split; [apply NoDup_singleton|]. constructor; [|done]. split; [vm_compute; by eexists|]. split; [exists (lit "hi"); by split|].
  left. vm_compute. right; right; left.
Qed.


Lemma eof_with_output_faults_witness :
  demo_step (Turned 1 [(4, Z.lor POLLIN POLLOUT)] 0 (λ _, (Received [], 0, ()))) (demo_after [demo_accept; demo_hi]) = Err NullDeref.
Proof.
  assert (is_ok (demo_step demo_hi (demo_after [demo_accept])) = true) as Hhi by by vm_compute.
  pose proof (demo_next [demo_accept] demo_hi demo_accepted net_demo_ready Hhi) as Hr.
  assert (∃ c, live (demo_after [demo_accept; demo_hi]) !! 0%nat = Some (c, 1) ∧ fd_of c = 4) as (c & Hc & <-).
  { vm_compute. eexists. by split. }
  apply (eof_with_output_faults Z.gtb 1000 demo_hash true (λ _, demo_calls) demo_calls (λ _ o, o) (Some demo_message) None (λ _, quiet_None) quiet_None
    demo_obliging demo_net _ 0%nat c 1); [apply demo_net_new|exact Hr|exact Hc|by vm_compute|done].
Defined.
