(* ===== verification/LoopThread.v ===== *)
(** * A thread with its event loop: [Base/net/EventLoopThread.h]

    [EventLoop] has the flags of a loop and [Acceptor] its turns; here a thread of
    its own runs [loop], while its owner adds events, takes them out, and destroys
    it: [quit], then [join]. *)

From S2P Require Import Prelude Poller.
From S2P Require EventLoop.
From S2P Require Import Acceptor.

Local Open Scope Z_scope.

Section LoopThread.
Context {Ke W : Type} `{EpollKernel Ke}.

(** What the callbacks of the handlers do to the loop and to the rest of the world. *)
Context (exec : loc → callback → Loop Ke * W → res (Loop Ke * W)).

(** Where the thread is: before [mRunning = true], before a test of the condition
    of [loop], in the body, or after it. *)
Inductive place := Starting | Testing | Turning | Returned.

Record EventLoopThread := mkLoopThread { mEventloop : Loop Ke; mID : Z; at_ : place; world : W }.

Definition set_loop (lo : Loop Ke) (t : EventLoopThread) : EventLoopThread := mkLoopThread lo (mID t) (at_ t) (world t).

Definition newEventLoopThread (evtfd : Z) (k : Ke) (id : Z) (w : W) : res EventLoopThread :=
  lo ← makeLoop evtfd k; Ok (mkLoopThread lo id Starting w).

Definition loop_wakeup (lo : Loop Ke) : Loop Ke := set_flags (EventLoop.wakeup (flags lo)) lo.
Definition loop_quit (lo : Loop Ke) : Loop Ke := set_flags (EventLoop.quit (flags lo)) lo.

Definition addEvent (evHandler : loc) (t : EventLoopThread) : res EventLoopThread :=
  lo ← loop_registerEventHandler evHandler (mEventloop t);
  lo ← loop_update evHandler lo;
  Ok (set_loop (loop_wakeup lo) t).

Definition removeEvent (evHandler : loc) (t : EventLoopThread) : res EventLoopThread :=
  lo ← loop_remove evHandler (mEventloop t);
  Ok (set_loop (loop_wakeup lo) t).

Definition getEventLoop (t : EventLoopThread) : Loop Ke := mEventloop t.
Definition getEventSize (t : EventLoopThread) : Z := loop_getEventSize (mEventloop t).
Definition getLastRate (t : EventLoopThread) : Z * Z := loop_getLastRate (mEventloop t).
Definition isLooping (t : EventLoopThread) : bool := EventLoop.isRunning (flags (mEventloop t)).
Definition getThreadID (t : EventLoopThread) : Z := mID t.

(** [func] is empty or some function of the world. *)
Definition injector (func : option (W → W)) (t : EventLoopThread) : EventLoopThread :=
  match func with Some f => mkLoopThread (mEventloop t) (mID t) (at_ t) (f (world t)) | None => t end.

(** What a call of the poller answers, and how long it took. *)
Definition polled : Type := list (Z * Z) * Z.

(** A step of [work]. *)
Definition work (p : polled) (t : EventLoopThread) : res EventLoopThread :=
  let lo := mEventloop t in
  match at_ t with
  | Starting => Ok (mkLoopThread (set_flags (EventLoop.loop_enter (flags lo)) lo) (mID t) Testing (world t))
  | Testing =>
      Ok (mkLoopThread (set_flags (EventLoop.loop_test (flags lo)) lo) (mID t)
            (if EventLoop.mRunning (flags lo) then Turning else Returned) (world t))
  | Turning =>
      '(lo, w) ← turn fst (λ lo s, (lo, s.2)) exec p.1 p.2 (lo, world t);
      Ok (mkLoopThread lo (mID t) Testing w)
  | Returned => Ok t
  end.

Fixpoint works (ps : list polled) (t : EventLoopThread) : res EventLoopThread :=
  match ps with [] => Ok t | p :: ps => t ← work p t; works ps t end.

(** The destructor: [quit], and a [join] that returns when the thread has. *)
Definition destroyEventLoopThread (t : EventLoopThread) : EventLoopThread := set_loop (loop_quit (mEventloop t)) t.
Definition join_returns (t : EventLoopThread) : bool := match at_ t with Returned => true | _ => false end.

(** ** Turns that go through *)

Abbreviation base lo := (ebase (mPoller lo)).
Abbreviation running lo := (EventLoop.mRunning (flags lo)).

(** Every handler of the table is there. *)
Definition sound (lo : Loop Ke) : Prop := ∀ f l, mEventHandlerHash (base lo) !! f = Some l → is_Some (heap (base lo) !! l).

(** What a callback leaves: the flag, the handlers that were there. *)
Record keeps (lo lo' : Loop Ke) : Prop := {
  kp_running : running lo' = running lo;
  kp_handlers l : is_Some (heap (base lo) !! l) → is_Some (heap (base lo') !! l);
  kp_sound : sound lo → sound lo' }.

Lemma keeps_trans lo lo1 lo2 : keeps lo lo1 → keeps lo1 lo2 → keeps lo lo2.
Proof. intros [R1 H1 S1] [R2 H2 S2]. split; [congruence|auto..]. Qed.

Lemma keeps_same lo lo' : running lo' = running lo → base lo' = base lo → keeps lo lo'.
Proof. intros Hr Hb. split; [done| |]; unfold sound; by rewrite Hb. Qed.

(** A callback returns, and neither quits the loop nor takes a handler away. *)
Hypothesis calls_return : ∀ l c lo w, sound lo → ∃ lo' w', exec l c (lo, w) = Ok (lo', w') ∧ keeps lo lo'.

Abbreviation exec_turn := (turn fst (λ lo s, (lo, s.2)) exec).

Lemma run_callbacks_ok l cs lo w : sound lo →
  ∃ lo' w', run_callbacks fst (λ lo s, (lo, s.2)) exec l cs (lo, w) = Ok (lo', w') ∧ keeps lo lo'.
Proof.
  revert lo w. induction cs as [|c cs IH]; intros lo w Hs; [exists lo, w; split; [done|by apply keeps_same]|].
  assert (∃ lo1 w1, run_callback fst (λ lo s, (lo, s.2)) exec l c (lo, w) = Ok (lo1, w1) ∧ keeps lo lo1) as (lo1 & w1 & H1 & K1).
  { unfold run_callback. cbn [fst snd]. case_decide; [|by apply calls_return]. eexists _, w. split; [done|]. by apply keeps_same. }
  destruct (IH lo1 w1 (kp_sound _ _ K1 Hs)) as (lo2 & w2 & H2 & K2). exists lo2, w2. cbn [run_callbacks].
  rewrite H1. split; [done|]. by eapply keeps_trans.
Qed.

Lemma run_handlers_ok ls lo w : sound lo → (∀ l, l ∈ ls → is_Some (heap (base lo) !! l)) →
  ∃ lo' w', run_handlers fst (λ lo s, (lo, s.2)) exec ls (lo, w) = Ok (lo', w') ∧ keeps lo lo'.
Proof.
  revert lo w. induction ls as [|l ls IH]; intros lo w Hs Hl; [exists lo, w; split; [done|by apply keeps_same]|].
  destruct (Hl l ltac:(by left)) as [h Hh]. cbn [run_handlers fst]. unfold deref. rewrite Hh. cbn [of_option mbind res_bind].
  destruct (run_callbacks_ok l (doEvnet h) lo w Hs) as (lo1 & w1 & -> & K1). cbn [mbind res_bind].
  destruct (IH lo1 w1 (kp_sound _ _ K1 Hs)) as (lo2 & w2 & -> & K2).
  { intros l' Hl'. apply (kp_handlers _ _ K1), Hl. by right. }
  exists lo2, w2. split; [done|]. by eapply keeps_trans.
Qed.

Lemma epoll_loop_keeps ready p out : mEventHandlerHash (epoll_loop ready p out).1 = mEventHandlerHash p ∧
  ∀ l, is_Some (heap (epoll_loop ready p out).1 !! l) ↔ is_Some (heap p !! l).
Proof.
  revert p out. induction ready as [|[f r] ready IH]; intros p out; [done|]. cbn [epoll_loop]. unfold touch.
  destruct (mEventHandlerHash p !! f) as [l|] eqn:Hf; [|apply IH].
  destruct (IH (modify l (setRevents r) p) (out ++ [l])) as [Hh Hs]. split; [by rewrite Hh|].
  intros l'. rewrite Hs. unfold modify. cbn [heap set_heap]. by rewrite lookup_alter_is_Some.
Qed.

Lemma turn_ok ready dur lo w : sound lo → ∃ lo' w', exec_turn ready dur (lo, w) = Ok (lo', w') ∧ keeps lo lo'.
Proof.
  intros Hs. unfold turn, epoll_poll. cbn [fst snd].
  pose proof (epoll_loop_keeps ready (base lo) []) as [Hh Hd]. pose proof (epoll_loop_spec ready (base lo) []) as Ho.
  destruct (epoll_loop ready (base lo) []) as [p out]. cbn [fst snd] in *.
  set (lo1 := set_doing true _).
  assert (mEventHandlerHash (base lo1) = mEventHandlerHash p ∧ heap (base lo1) = heap p) as [E1 E2].
  { subst lo1. unfold set_doing, set_flags, set_poller, settle. cbn [mPoller ebase]. by case_if. }
  assert (keeps lo lo1) as K1.
  { split; [done| |]; [intros l; rewrite E2; by apply Hd|]. intros _ f l. rewrite E1, E2, Hh, Hd. apply Hs. }
  destruct (run_handlers_ok out lo1 w (kp_sound _ _ K1 Hs)) as (lo2 & w2 & -> & K2).
  { intros l Hl. rewrite E2, Hd. rewrite Ho in Hl. cbn [app] in Hl. apply list_elem_of_omap in Hl as ([f r] & _ & Hl).
    by apply (Hs f). }
  cbn [mbind res_bind fst snd]. eexists _, w2. split; [done|]. apply (keeps_trans _ _ _ K1).
  apply (keeps_trans _ _ _ K2). by apply keeps_same.
Qed.

(** ** The end of the thread *)

(** The steps a thread that was told to quit has to go. *)
Definition remaining (p : place) : option nat :=
  match p with Starting => None | Testing => Some 1%nat | Turning => Some 2%nat | Returned => Some 0%nat end.

(** A thread that runs goes on. *)
Lemma works_running ps t : sound (mEventloop t) → at_ t = Starting ∨ (at_ t = Testing ∨ at_ t = Turning) ∧ running (mEventloop t) = true →
  ∃ t', works ps t = Ok t' ∧ at_ t' ≠ Returned.
Proof.
  revert t. induction ps as [|p ps IH]; intros [lo id q w] Hs Hq; cbn [at_ mEventloop works] in *.
  { eexists. split; [done|]. intros E. cbn in E. naive_solver. }
  unfold work. cbn [at_ mEventloop mID world]. destruct q.
  - apply IH; [done|]. right. split; [by left|done].
  - destruct Hq as [?|[_ Hr]]; [done|]. rewrite Hr. cbn [mbind res_bind]. apply IH; [done|]. right. split; [by right|done].
  - destruct Hq as [?|[_ Hr]]; [done|]. destruct (turn_ok p.1 p.2 lo w Hs) as (lo' & w' & -> & K). cbn [mbind res_bind].
    apply IH; [by apply (kp_sound _ _ K)|]. right. split; [by left|]. cbn. by rewrite (kp_running _ _ K).
  - naive_solver.
Qed.

(** One that was told to quit counts down. *)
Lemma works_quit ps t n : sound (mEventloop t) → running (mEventloop t) = false → remaining (at_ t) = Some n →
  ∃ t', works ps t = Ok t' ∧ remaining (at_ t') = Some (n - length ps)%nat.
Proof.
  revert t n. induction ps as [|p ps IH]; intros [lo id q w] n Hs Hr Hq; cbn [at_ mEventloop works length] in *.
  { eexists. split; [done|]. by rewrite Nat.sub_0_r. }
  unfold work. cbn [at_ mEventloop mID world]. destruct q; cbn [remaining] in Hq; [done|injection Hq as <-..].
  - rewrite Hr. cbn [mbind res_bind]. destruct (IH (mkLoopThread (set_flags (EventLoop.loop_test (flags lo)) lo) id Returned w) 0%nat)
      as (t' & Ht & Hn); [done|done|done|]. exists t'. split; [done|]. by rewrite Hn.
  - destruct (turn_ok p.1 p.2 lo w Hs) as (lo' & w' & -> & K). cbn [mbind res_bind].
    destruct (IH (mkLoopThread lo' id Testing w') 1%nat) as (t' & Ht & Hn); [by apply (kp_sound _ _ K)|cbn; by rewrite (kp_running _ _ K)|done|].
    exists t'. split; [done|]. by rewrite Hn.
  - destruct (IH (mkLoopThread lo id Returned w) 0%nat) as (t' & Ht & Hn); [done..|]. exists t'. split; [done|]. by rewrite Hn.
Qed.

(** C31: the destructor of a thread with a loop returns after one more turn of the
    loop at most, if the thread had entered [loop] when it was called; if it had not,
    [loop] sets the flag again that [quit] cleared, and the destructor waits for
    ever, whatever the poller finds. *)
Theorem loop_thread_destroyed ps t : sound (mEventloop t) →
  ∃ t', works ps (destroyEventLoopThread t) = Ok t' ∧
    join_returns t' = match remaining (at_ t) with Some n => (n <=? length ps)%nat | None => false end.
Proof.
  intros Hs. assert (sound (mEventloop (destroyEventLoopThread t))) as Hs' by done.
  destruct (remaining (at_ t)) as [n|] eqn:Hn.
  - destruct (works_quit ps (destroyEventLoopThread t) n Hs' eq_refl Hn) as (t' & Ht & Hr). exists t'. split; [done|].
    unfold join_returns. destruct (Nat.leb_spec n (length ps)); destruct (at_ t'); cbn in Hr; try done; injection Hr as Hr; lia.
  - destruct (works_running ps (destroyEventLoopThread t) Hs') as (t' & Ht & Hr); [left; by destruct t as [? ? []]|].
    exists t'. split; [done|]. unfold join_returns. by destruct (at_ t').
Qed.
End LoopThread.

(** ** An event that is taken out *)

(** The kernel watches its descriptor no more, and the loop is woken. *)
Lemma event_removed {Ke W} `{EpollKernel Ke} l h (t : EventLoopThread (Ke := Ke) (W := W)) :
  epoll_wf (mPoller (mEventloop t)) → watched (mFD h) l h (mEventloop t) →
  ∃ t', removeEvent l t = Ok t' ∧ epoll_wf (mPoller (mEventloop t')) ∧
    interest (kernel (mPoller (mEventloop t'))) !! mFD h = None ∧
    mEventHandlerHash (ebase (mPoller (mEventloop t'))) = delete (mFD h) (mEventHandlerHash (ebase (mPoller (mEventloop t)))) ∧
    EventLoop.wakeups (flags (mEventloop t')) = EventLoop.wakeups (flags (mEventloop t)) + 1.
Proof.
  intros Hwf (_ & Hi & Hh & Hr & _). destruct (epoll_remove_wf _ l h Hwf Hh Hr Hi) as (ep & He & Hw & Hd & Hn).
  unfold removeEvent, loop_remove. rewrite He. cbn [mbind res_bind]. eexists. split; [done|]. by split_and!.
Qed.

(** ** Witness *)

(** A loop of its own, whose only handler is that of the wake-up descriptor. *)
Definition demo_thread (p : place) : EventLoopThread (W := unit) := mkLoopThread demo_loop 7 p tt.
Definition demo_exec (l : loc) (c : callback) (s : Loop (gmap Z Z) * unit) : res (Loop (gmap Z Z) * unit) := Ok s.

Lemma demo_sound : sound demo_loop.
Proof.
  intros f l Hf. destruct (ewf_handler _ (lwf_poller _ demo_loop_wf) f l Hf) as (h & Hh & _). by exists h.
Qed.

Lemma loop_thread_destroyed_witness :
  (∃ t', works demo_exec [([(9, POLLIN)], 3); ([], 0)] (destroyEventLoopThread (demo_thread Turning)) = Ok t' ∧ join_returns t' = true) ∧
  ∀ ps, ∃ t', works demo_exec ps (destroyEventLoopThread (demo_thread Starting)) = Ok t' ∧ join_returns t' = false.
Proof.
  assert (∀ l c lo w, sound lo → ∃ lo' w', demo_exec l c (lo, w) = Ok (lo', w') ∧ keeps lo lo') as Hc.
  { intros l c lo w Hs. exists lo, w. split; [done|]. by apply keeps_same. }
  split.
  - exact (loop_thread_destroyed demo_exec Hc [([(9, POLLIN)], 3); ([], 0)] (demo_thread Turning) demo_sound).
  - intros ps. exact (loop_thread_destroyed demo_exec Hc ps (demo_thread Starting) demo_sound).
Defined.
