(* ===== verification/Broker.v ===== *)
(** * The message broker: [Broker/{RSBrokerHelper,RSBrokerManager}]

    The servers talk through Redis streams.  The client library is a class
    [Redis] of commands on a store [D]; each may throw.  [RSBrokerHelper] decides
    which exceptions the callers see.  [RSBrokerManager] looks after messages
    that were delivered and never acknowledged. *)

From stdpp Require Import sorting.
From S2P Require Import Prelude.

Local Open Scope Z_scope.

(** ** The client library *)

Abbreviation fields := (list (str * str)).
(** An entry: its identifier, and its fields unless it was deleted. *)
Abbreviation ItemType := (str * option fields)%type.
Abbreviation ItemStreamType := (list (str * option fields)).

Record PendingItem := mkPending { pid : str; consumerName : str; idleTime : Z; deliveredTimes : Z }.
Record GroupInfo := mkGroup {
  groupName : str; group_consumers : Z; group_pending : Z;
  last_delivered_id : str; entries_read : Z; lag : Z }.
Record ConsumerInfo := mkConsumer {
  consumer_name : str; consumer_pending : Z; consumer_idle : Z; consumer_inactive : Z }.

#[export] Instance PendingItem_eq_dec : EqDecision PendingItem.
Proof. solve_decision. Defined.

(** [sw::redis::ReplyError] and the other [sw::redis::Error]s. *)
Inductive redis_error := ReplyError | OtherError.

Definition cmd (D A : Type) : Type := D → D * (A + redis_error).

Class Redis (D : Type) := {
  xadd : str → str → fields → Z → cmd D str;
  xreadgroup : str → str → str → str → Z → Z → cmd D (gmap str ItemStreamType);
  xread : str → str → Z → Z → cmd D (gmap str ItemStreamType);
  xread_keys : list (str * str) → Z → Z → cmd D (gmap str ItemStreamType);
  xgroup_create : str → str → str → cmd D unit;
  xack : str → str → str → cmd D Z;
  xpending : str → str → Z → option str → cmd D (list PendingItem);
  xinfo_groups : str → cmd D (list GroupInfo);
  xinfo_consumers : str → str → cmd D (list ConsumerInfo);
  xdel : str → list str → cmd D Z;
  xclaim : str → str → str → Z → list str → cmd D ItemStreamType;
  xrevrange : str → str → str → Z → cmd D ItemStreamType;
  zadd : str → str → Z → cmd D Z;
  zrem : str → str → cmd D Z;
  zrangebyscore : str → cmd D (list (str * Z));   (* the unbounded interval *)
  incr : str → cmd D Z;
  sadd : str → str → cmd D Z;
  hset : str → fields → cmd D Z;
  hget : str → str → cmd D (option str);
  unlink : str → cmd D Z;
  exists_key : str → cmd D Z;
  expire : str → Z → cmd D bool;
  ttl : str → cmd D Z;
  set_key : str → str → cmd D bool;
  smembers : str → cmd D (list str);
  srem : str → str → cmd D Z;
  publish : str → str → cmd D Z }.

(** ** [RSBrokerHelper] *)

Section Helper.
Context {D : Type} `{Redis D}.

(** [try { return f(..); } catch (const sw::redis::Error &) { return dflt; }] *)
Definition caught {A B} (m : cmd D A) (dflt : B) (f : A → B) (d : D) : D * B :=
  let '(d, r) := m d in (d, match r with inl a => f a | inr _ => dflt end).

Definition uncaught {A} (m : cmd D A) (d : D) : res (D * A) :=
  let '(d, r) := m d in match r with inl a => Ok (d, a) | inr _ => Err Uncaught end.

Definition counted {A} (l : list A) : option Z * list A := (Some (Z.of_nat (length l)), l).

(** [kvs] is what the message's [FILL_2_VEC] wrote. *)
Definition push (key : str) (kvs : fields) (maxLen : Z) (d : D) : D * str :=
  caught (xadd key (lit "*") kvs maxLen) [] (λ id, id) d.

Abbreviation pulled := (option Z * gmap str ItemStreamType)%type.
Definition pulled_of (r : gmap str ItemStreamType) : pulled := (Some (Z.of_nat (size r)), r).

Definition pull_group (key group consumer id : str) (ms count : Z) (d : D) : D * pulled :=
  caught (xreadgroup group consumer key id ms count) (None, ∅) pulled_of d.
Definition pull (key id : str) (ms count : Z) (d : D) : D * pulled :=
  caught (xread key id ms count) (None, ∅) pulled_of d.
Definition pull_keys (keys : list (str * str)) (ms count : Z) (d : D) : D * pulled :=
  caught (xread_keys keys ms count) (None, ∅) pulled_of d.

(** A group that exists already is a reply error. *)
Definition createGroup (key group id : str) (d : D) : D * bool :=
  let '(d, r) := xgroup_create key group id d in
  (d, match r with inl _ => true | inr ReplyError => true | inr OtherError => false end).

Definition ack (key group id : str) (d : D) : res (D * Z) := uncaught (xack key group id) d.

Definition getPending_group (key group : str) (count : Z) (d : D) : D * (option Z * list PendingItem) :=
  caught (xpending key group count None) (None, []) counted d.
Definition getPending (key group consumer : str) (count : Z) (d : D) : D * (option Z * list PendingItem) :=
  caught (xpending key group count (Some consumer)) (None, []) counted d.

Definition getGroupsInfo (key : str) (d : D) : D * (option Z * list GroupInfo) :=
  caught (xinfo_groups key) (None, []) counted d.
Definition getConsumersInfo (key group : str) (d : D) : D * (option Z * list ConsumerInfo) :=
  caught (xinfo_consumers key group) (None, []) counted d.

Definition del (key id : str) (d : D) : res (D * Z) := uncaught (xdel key [id]) d.
Definition del_all (key : str) (ids : list str) (d : D) : res (D * Z) := uncaught (xdel key ids) d.

Definition claim (key group consumer : str) (milliseconds : Z) (id : str) (d : D)
    : D * (option Z * ItemStreamType) :=
  caught (xclaim key group consumer milliseconds [id]) (None, []) counted d.
Definition claim_all (key group consumer : str) (milliseconds : Z) (ids : list str) (d : D)
    : D * (option Z * ItemStreamType) :=
  caught (xclaim key group consumer milliseconds ids) (None, []) counted d.

(** [operator<] of [std::string]: bytes, unsigned. *)
Fixpoint str_ltb (a b : str) : bool :=
  match a, b with
  | _, [] => false
  | [], _ :: _ => true
  | x :: a, y :: b =>
      if byte_val x <? byte_val y then true
      else if byte_val y <? byte_val x then false else str_ltb a b
  end.

Definition getPreviousID (key id : str) (d : D) : res (D * str) :=
  '(d, result) ← uncaught (xrevrange key id (lit "-") 2) d;
  match result with
  | (a, _) :: (b, _) :: _ => Ok (d, if str_ltb b a then b else a)
  | _ => Ok (d, [])
  end.

Definition sortedAdd (key member : str) (score : Z) (d : D) : D * Z :=
  caught (zadd key member score) (-1) (λ n, n) d.
Definition sortedRemove (key member : str) (d : D) : D * Z :=
  caught (zrem key member) (-1) (λ n, n) d.

(** ** [RSBrokerManager] *)

(** [std::set<std::string>]: in increasing order. *)
Fixpoint set_insert (x : str) (l : list str) : list str :=
  match l with
  | [] => [x]
  | y :: l => if str_ltb x y then x :: y :: l else if str_ltb y x then y :: set_insert x l else y :: l
  end.

Record Manager := mkManager {
  mNapMilliseconds : Z;
  mTolerantMilliseconds : Z;
  mTransferMilliseconds : Z;
  mMaxDelivered : Z;
  mKeys : list str;
  mPendingGroupQueue : list (str * str);
  mPendingConsumerQueue : list (str * str * str * Z);
  mPendingGroupsSibling : gmap str (list str) }.

Definition newManager : Manager := mkManager 1000 10000 5000 3 [] [] [] ∅.

Definition set_limits (nap tolerant transfer maxd : Z) (m : Manager) : Manager :=
  mkManager nap tolerant transfer maxd (mKeys m) (mPendingGroupQueue m) (mPendingConsumerQueue m)
    (mPendingGroupsSibling m).
Definition set_groups (q : list (str * str)) (m : Manager) : Manager :=
  mkManager (mNapMilliseconds m) (mTolerantMilliseconds m) (mTransferMilliseconds m) (mMaxDelivered m)
    (mKeys m) q (mPendingConsumerQueue m) (mPendingGroupsSibling m).
Definition set_consumers (q : list (str * str * str * Z)) (m : Manager) : Manager :=
  mkManager (mNapMilliseconds m) (mTolerantMilliseconds m) (mTransferMilliseconds m) (mMaxDelivered m)
    (mKeys m) (mPendingGroupQueue m) q (mPendingGroupsSibling m).
Definition set_siblings (g : gmap str (list str)) (m : Manager) : Manager :=
  mkManager (mNapMilliseconds m) (mTolerantMilliseconds m) (mTransferMilliseconds m) (mMaxDelivered m)
    (mKeys m) (mPendingGroupQueue m) (mPendingConsumerQueue m) g.

Definition setNapSecond (ms : Z) (m : Manager) : Manager :=
  set_limits (if 10 <? ms then ms else 1000) (mTolerantMilliseconds m) (mTransferMilliseconds m) (mMaxDelivered m) m.
Definition setTolerantTime (ms : Z) (m : Manager) : Manager :=
  set_limits (mNapMilliseconds m) (if 8000 <=? ms then ms else 10000) (mTransferMilliseconds m) (mMaxDelivered m) m.
Definition setTransferTime (ms : Z) (m : Manager) : Manager :=
  set_limits (mNapMilliseconds m) (mTolerantMilliseconds m) (if 1000 <? ms then ms else 1000) (mMaxDelivered m) m.
Definition setMaxDelivered (n : Z) (m : Manager) : Manager :=
  set_limits (mNapMilliseconds m) (mTolerantMilliseconds m) (mTransferMilliseconds m) (if 3 <=? n then n else 3) m.

Definition registerKey (key : str) (m : Manager) : Manager * bool :=
  (mkManager (mNapMilliseconds m) (mTolerantMilliseconds m) (mTransferMilliseconds m) (mMaxDelivered m)
     (set_insert key (mKeys m)) (mPendingGroupQueue m) (mPendingConsumerQueue m) (mPendingGroupsSibling m),
   negb (bool_decide (key ∈ mKeys m))).

(** The body of the loop over the groups. *)
Definition push_group (key : str) (m : Manager) (g : GroupInfo) : Manager :=
  let m := if 0 <? group_pending g then set_groups (mPendingGroupQueue m ++ [(key, groupName g)]) m else m in
  set_siblings (<[groupName g := []]> (mPendingGroupsSibling m)) m.

Definition pushPendingGroups (key : str) (st : D * Manager) : D * Manager :=
  let '(d, m) := st in
  let '(d, (n, groupsInfo)) := getGroupsInfo key d in
  match n with
  | Some n => if 0 <? n then (d, fold_left (push_group key) groupsInfo m) else (d, m)
  | None => (d, m)
  end.

Definition push_consumer (key group : str) (m : Manager) (c : ConsumerInfo) : Manager :=
  let m := if 0 <? consumer_pending c
           then set_consumers (mPendingConsumerQueue m ++ [(key, group, consumer_name c, u64 (consumer_pending c))]) m
           else m in
  match mPendingGroupsSibling m !! group with
  | Some s => set_siblings (<[group := set_insert (consumer_name c) s]> (mPendingGroupsSibling m)) m
  | None => m
  end.

Definition pushPendingConsumers (key group : str) (st : D * Manager) : D * Manager :=
  let '(d, m) := st in
  let '(d, (n, consumersInfo)) := getConsumersInfo key group d in
  match n with
  | Some n => if 0 <? n then (d, fold_left (push_consumer key group) consumersInfo m) else (d, m)
  | None => (d, m)
  end.

(** The empty string for none. *)
Definition getOneSibling (group consumer : str) (m : Manager) : str :=
  match mPendingGroupsSibling m !! group with
  | Some s => match list_find (λ c, c ≠ consumer) s with Some (_, c) => c | None => [] end
  | None => []
  end.

(** The body of the loop over the pending items of a consumer. *)
Definition handleItem (key group : str) (m : Manager) (it : PendingItem) (d : D) : res D :=
  if mMaxDelivered m <? u64 (deliveredTimes it) then
    '(d, _) ← ack key group (pid it) d; '(d, _) ← del key (pid it) d; Ok d
  else if mTolerantMilliseconds m <? u64 (idleTime it) then
    '(d, _) ← ack key group (pid it) d; Ok d
  else if mTransferMilliseconds m <? u64 (idleTime it) then
    match getOneSibling group (consumerName it) m with
    | [] => Ok d
    | sibling => Ok (claim key group sibling (mTransferMilliseconds m) (pid it) d).1
    end
  else Ok d.

Fixpoint handleItems (key group : str) (m : Manager) (its : list PendingItem) (d : D) : res D :=
  match its with
  | [] => Ok d
  | it :: its => d ← handleItem key group m it d; handleItems key group m its d
  end.

(** The three phases of [handlePending]. *)
Fixpoint group_phase (fuel : nat) (st : D * Manager) : res (D * Manager) :=
  match mPendingGroupQueue st.2 with
  | [] => Ok st
  | (key, group) :: _ =>
      match fuel with
      | O => Err OutOfFuel
      | S fuel =>
          let '(d, m) := pushPendingConsumers key group st in
          group_phase fuel (d, set_groups (tail (mPendingGroupQueue m)) m)
      end
  end.

Fixpoint consumer_phase (fuel : nat) (st : D * Manager) : res (D * Manager) :=
  let '(d, m) := st in
  match mPendingConsumerQueue m with
  | [] => Ok st
  | (key, group, consumer, pendingNum) :: q =>
      match fuel with
      | O => Err OutOfFuel
      | S fuel =>
          let '(d, (n, pendingItems)) := getPending key group consumer pendingNum d in
          d ← (match n with
               | Some n => if 0 <? n then handleItems key group m pendingItems d else Ok d
               | None => Ok d
               end);
          consumer_phase fuel (d, set_consumers q m)
      end
  end.

Definition handlePending (st : D * Manager) : res (D * Manager) :=
  let '(d, m) := fold_left (λ st key, pushPendingGroups key st) (mKeys st.2) st in
  '(d, m) ← group_phase (length (mPendingGroupQueue m)) (d, m);
  consumer_phase (length (mPendingConsumerQueue m)) (d, m).

(** ** The queues empty *)

Lemma ack_fault key g id d e : ack key g id d = Err e → e = Uncaught.
Proof. unfold ack, uncaught. destruct (xack key g id d) as [? []]; congruence. Qed.

Lemma del_fault key id d e : del key id d = Err e → e = Uncaught.
Proof. unfold del, uncaught. destruct (xdel key [id] d) as [? []]; congruence. Qed.

Lemma handleItem_fault key g m it d e : handleItem key g m it d = Err e → e = Uncaught.
Proof.
  unfold handleItem. repeat case_if; try discriminate.
  - destruct (ack key g (pid it) d) as [[d1 n]|e1] eqn:Ha; cbn; [|intros [= <-]; by eapply ack_fault].
    destruct (del key (pid it) d1) as [[d2 n2]|e2] eqn:Hd; cbn; [done|intros [= <-]; by eapply del_fault].
  - destruct (ack key g (pid it) d) as [[d1 n]|e1] eqn:Ha; cbn; [done|intros [= <-]; by eapply ack_fault].
  - by destruct (getOneSibling g (consumerName it) m).
Qed.

Lemma handleItems_fault key g m its d e : handleItems key g m its d = Err e → e = Uncaught.
Proof.
  revert d. induction its as [|it its IH]; intros d; cbn [handleItems]; [done|].
  destruct (handleItem key g m it d) as [d1|e1] eqn:Hi; cbn; [apply IH|].
  intros [= <-]. by eapply handleItem_fault.
Qed.

Lemma push_consumer_groups key g m c : mPendingGroupQueue (push_consumer key g m c) = mPendingGroupQueue m.
Proof.
  unfold push_consumer. destruct (0 <? consumer_pending c); cbn; by destruct (mPendingGroupsSibling m !! g).
Qed.

Lemma pushPendingConsumers_groups key g st :
  mPendingGroupQueue (pushPendingConsumers key g st).2 = mPendingGroupQueue st.2.
Proof.
  destruct st as [d m]. unfold pushPendingConsumers. destruct (getConsumersInfo key g d) as [d1 [[n|] cs]]; [|done].
  case_if; cbn; [|done]. revert m. induction cs as [|c cs IH]; intros m; cbn; [done|].
  by rewrite IH, push_consumer_groups.
Qed.

Lemma group_phase_ends st : ∃ st', group_phase (length (mPendingGroupQueue st.2)) st = Ok st' ∧
  mPendingGroupQueue st'.2 = [].
Proof.
  remember (length (mPendingGroupQueue st.2)) as n eqn:Hn. revert st Hn.
  induction n as [|n IH]; intros st Hn; cbn [group_phase].
  - destruct (mPendingGroupQueue st.2) eqn:Hq; [|done]. by exists st.
  - destruct (mPendingGroupQueue st.2) as [|[key g] q] eqn:Hq; [done|].
    pose proof (pushPendingConsumers_groups key g st) as Hp.
    destruct (pushPendingConsumers key g st) as [d1 m1]. cbn in Hp. rewrite Hq in Hp.
    apply IH. cbn. rewrite Hp. cbn in *. lia.
Qed.

Lemma consumer_phase_ends d m :
  match consumer_phase (length (mPendingConsumerQueue m)) (d, m) with
  | Ok (_, m') => mPendingConsumerQueue m' = [] ∧ mPendingGroupQueue m' = mPendingGroupQueue m
  | Err e => e = Uncaught
  end.
Proof.
  remember (length (mPendingConsumerQueue m)) as n eqn:Hn. revert d m Hn.
  induction n as [|n IH]; intros d m Hn; cbn [consumer_phase];
    destruct (mPendingConsumerQueue m) as [|[[[key g] c] num] q] eqn:Hq; cbn in Hn; try done.
  destruct (getPending key g c num d) as [d1 [n1 its]].
  assert (∀ d2, match consumer_phase n (d2, set_consumers q m) with
    | Ok (_, m') => mPendingConsumerQueue m' = [] ∧ mPendingGroupQueue m' = mPendingGroupQueue m
    | Err e => e = Uncaught end) as Hrec.
  { intros d2. specialize (IH d2 (set_consumers q m)). cbn in IH. apply IH. lia. }
  destruct n1 as [n1|]; [|apply Hrec]. destruct (0 <? n1); [|apply Hrec].
  destruct (handleItems key g m its d1) as [d2|e] eqn:Hi; cbn; [apply Hrec|]. by eapply handleItems_fault.
Qed.

(** ** Siblings *)

Lemma set_insert_elem x y l : y ∈ set_insert x l ↔ y = x ∨ y ∈ l.
Proof.
  assert (∀ a b, str_ltb a b = false → str_ltb b a = false → a = b) as Htri.
  { induction a as [|a1 a IH]; intros [|b1 b]; cbn; try done.
    destruct (byte_val a1 <? byte_val b1) eqn:H1; [done|]. destruct (byte_val b1 <? byte_val a1) eqn:H2; [done|].
    to_prop. intros Ha Hb. f_equal; [|by apply IH].
    rewrite <- (byte_of_val a1), <- (byte_of_val b1). f_equal. lia. }
  induction l as [|z l IH]; cbn [set_insert].
  { rewrite list_elem_of_singleton, elem_of_nil. naive_solver. }
  destruct (str_ltb x z) eqn:Hx; [by rewrite elem_of_cons|].
  destruct (str_ltb z x) eqn:Hz; [rewrite !elem_of_cons, IH; naive_solver|].
  rewrite (Htri x z Hx Hz), elem_of_cons. naive_solver.
Qed.

Lemma getOneSibling_spec group c m s :
  mPendingGroupsSibling m !! group = Some s → [] ∉ s →
  (getOneSibling group c m = [] ↔ ∀ x, x ∈ s → x = c) ∧
  (getOneSibling group c m ≠ [] → getOneSibling group c m ∈ s ∧ getOneSibling group c m ≠ c).
Proof.
  intros Hs Hne. unfold getOneSibling. rewrite Hs.
  destruct (list_find (λ x, x ≠ c) s) as [[i x]|] eqn:Hf.
  - apply list_find_Some in Hf as (Hi & Hx & _). apply list_elem_of_lookup_2 in Hi.
    split; [|done]. split; [intros ->; done|]. intros Hall. by destruct Hx; apply Hall.
  - split; [|done]. split; [|done]. intros _ x Hx. rewrite list_find_None, Forall_forall in Hf.
    destruct (decide (x = c)) as [|Hxc]; [done|]. by destruct (Hf x Hx).
Qed.

Lemma push_consumer_siblings key g cs m s :
  mPendingGroupsSibling m !! g = Some s →
  ∃ s', mPendingGroupsSibling (fold_left (push_consumer key g) cs m) !! g = Some s' ∧
    ∀ x, x ∈ s' ↔ x ∈ s ∨ x ∈ consumer_name <$> cs.
Proof.
  revert m s. induction cs as [|c cs IH]; intros m s Hs; cbn [fold_left].
  { exists s. split; [done|]. intros x. cbn. rewrite elem_of_nil. naive_solver. }
  destruct (IH (push_consumer key g m c) (set_insert (consumer_name c) s)) as (s' & Hs' & Hx).
  { unfold push_consumer. destruct (0 <? consumer_pending c); cbn; rewrite Hs; cbn; by rewrite lookup_insert_eq. }
  exists s'. split; [done|]. intros x. rewrite Hx, set_insert_elem, fmap_cons, elem_of_cons. naive_solver.
Qed.
End Helper.

(** ** Redis while the connection holds *)

(** What the commands do to the pending entries of a group and to the stored
    messages of a stream, by the documentation of Redis: [XACK] removes the entry
    and counts those it removed, [XDEL] the message, and [XCLAIM] gives a pending message that has been idle
    long enough to another consumer, as one more delivery. *)
Class StreamLaws (D : Type) `{Redis D} := {
  pel : D → str → str → gmap str PendingItem;
  stored : D → str → gset str;
  ack_law key g id d : ∃ d',
    xack key g id d = (d', inl (match pel d key g !! id with Some _ => 1 | None => 0 end)) ∧
    pel d' key g = delete id (pel d key g) ∧
    (∀ key' g', (key', g') ≠ (key, g) → pel d' key' g' = pel d key' g') ∧
    ∀ key', stored d' key' = stored d key';
  del_law key ids d : ∃ d' n, xdel key ids d = (d', inl n) ∧
    (∀ key' g', pel d' key' g' = pel d key' g') ∧
    stored d' key = stored d key ∖ list_to_set ids ∧
    (∀ key', key' ≠ key → stored d' key' = stored d key');
  claim_law key g c ms id it d : id ∈ stored d key → pel d key g !! id = Some it → ms <= idleTime it →
    ∃ d' r, xclaim key g c ms [id] d = (d', inl r) ∧
      pel d' key g = <[id := mkPending id c 0 (deliveredTimes it + 1)]> (pel d key g) ∧
      (∀ key' g', (key', g') ≠ (key, g) → pel d' key' g' = pel d key' g') ∧
      ∀ key', stored d' key' = stored d key' }.

(** The order of a sorted set. *)
Definition by_score (a b : str * Z) : Prop := a.2 <= b.2.
#[export] Instance by_score_dec a b : Decision (by_score a b).
Proof. unfold by_score. apply _. Defined.

Lemma by_score_lookup l i k a b :
  StronglySorted by_score l → l !! i = Some a → l !! k = Some b → (i <= k)%nat → a.2 <= b.2.
Proof.
  intros Hs. revert i k. induction Hs as [|x l _ IH Hx]; intros i k Ha Hb Hik; [done|].
  destruct i as [|i], k as [|k]; cbn in Ha, Hb; try lia.
  - rewrite Ha in Hb. injection Hb as ->. lia.
  - injection Ha as ->. rewrite Forall_forall in Hx. apply Hx. by eapply list_elem_of_lookup_2.
  - apply (IH i k Ha Hb). lia.
Qed.

(** Sorted sets: [ZADD] writes a score and counts new members, [ZREM] removes and
    counts, [ZRANGEBYSCORE] lists them by increasing score. *)
Class SortedLaws (D : Type) `{Redis D} := {
  zset : D → str → gmap str Z;
  zadd_law key member score d : ∃ d',
    zadd key member score d = (d', inl (match zset d key !! member with Some _ => 0 | None => 1 end)) ∧
    zset d' key = <[member := score]> (zset d key) ∧ (∀ key', key' ≠ key → zset d' key' = zset d key');
  zrem_law key member d : ∃ d',
    zrem key member d = (d', inl (match zset d key !! member with Some _ => 1 | None => 0 end)) ∧
    zset d' key = delete member (zset d key) ∧ (∀ key', key' ≠ key → zset d' key' = zset d key');
  zrange_law key d : ∃ l, zrangebyscore key d = (d, inl l) ∧
    l ≡ₚ map_to_list (zset d key) ∧ StronglySorted by_score l }.

(** The fields written last win. *)
Definition set_fields (fs : fields) (h : gmap str str) : gmap str str := foldl (λ h f, <[f.1 := f.2]> h) h fs.

(** Hashes: [HSET] writes fields, [HGET] reads one, [EXPIRE] finds the key when it
    holds something and leaves it as it is, for now. *)
Class HashLaws (D : Type) `{Redis D} := {
  hash : D → str → gmap str str;
  hset_law key fs d : ∃ d' n, hset key fs d = (d', inl n) ∧
    hash d' key = set_fields fs (hash d key) ∧ (∀ key', key' ≠ key → hash d' key' = hash d key');
  hget_law key f d : hget key f d = (d, inl (hash d key !! f));
  expire_law key secs d : 0 < secs → ∃ d',
    expire key secs d = (d', inl (negb (bool_decide (hash d key = ∅)))) ∧
    ∀ key', hash d' key' = hash d key' }.

(** The seconds a key has left: -1 when it does not expire, -2 when there is none. *)
Class LifeLaws (D : Type) `{Redis D} := {
  life : D → str → Z;
  ttl_law key d : ttl key d = (d, inl (life d key)) ∧ -2 <= life d key < 2 ^ 63 }.

Section Manager.
Context {D : Type} `{StreamLaws D}.

(** What becomes of a pending message. *)
Inductive fate := Dead | Overdue | Transfer (sibling : str) | Kept.

#[local] Instance fate_eq_dec : EqDecision fate.
Proof. solve_decision. Defined.

Definition fate_of (group : str) (m : Manager) (it : PendingItem) : fate :=
  if mMaxDelivered m <? deliveredTimes it then Dead
  else if mTolerantMilliseconds m <? idleTime it then Overdue
  else if mTransferMilliseconds m <? idleTime it then
    match getOneSibling group (consumerName it) m with [] => Kept | s => Transfer s end
  else Kept.

Definition entry_after (f : fate) (it : PendingItem) : option PendingItem :=
  match f with
  | Dead | Overdue => None
  | Transfer s => Some (mkPending (pid it) s 0 (deliveredTimes it + 1))
  | Kept => Some it
  end.

(** A snapshot entry with the counters of a [long long] that are not negative. *)
Definition listed (key group : str) (d : D) (it : PendingItem) : Prop :=
  pel d key group !! pid it = Some it ∧ pid it ∈ stored d key ∧
  0 <= idleTime it < 2 ^ 63 ∧ 0 <= deliveredTimes it < 2 ^ 63.

Lemma handleItem_ok key group m it d :
  listed key group d it →
  ∃ d', handleItem key group m it d = Ok d' ∧
    pel d' key group !! pid it = entry_after (fate_of group m it) it ∧
    (∀ id, id ≠ pid it → pel d' key group !! id = pel d key group !! id) ∧
    (∀ key' g', (key', g') ≠ (key, group) → pel d' key' g' = pel d key' g') ∧
    stored d' key = stored d key ∖ (if decide (fate_of group m it = Dead) then {[pid it]} else ∅).
Proof.
  intros (Hp & Hs & Hi & Hd). unfold handleItem, fate_of.
  rewrite !u64_small by (unfold size_max; lia).
  destruct (mMaxDelivered m <? deliveredTimes it).
  { destruct (ack_law key group (pid it) d) as (d1 & Ha & Hp1 & Ho1 & Hs1).
    destruct (del_law key [pid it] d1) as (d2 & n2 & Hdel & Hp2 & Hs2 & _).
    unfold ack, del, uncaught. rewrite Ha. cbn [mbind res_bind]. rewrite Hdel. cbn [mbind res_bind].
    exists d2. split; [done|]. rewrite !Hp2, Hp1, Hs2, Hs1. split_and!.
    - by rewrite lookup_delete_eq.
    - intros id Hid. by rewrite lookup_delete_ne.
    - intros key' g' Hne. by rewrite Hp2, Ho1.
    - rewrite decide_True by done. cbn. set_solver. }
  destruct (mTolerantMilliseconds m <? idleTime it).
  { destruct (ack_law key group (pid it) d) as (d1 & Ha & Hp1 & Ho1 & Hs1).
    unfold ack, uncaught. rewrite Ha. cbn [mbind res_bind]. exists d1. split; [done|].
    rewrite Hp1, Hs1. split_and!.
    - by rewrite lookup_delete_eq.
    - intros id Hid. by rewrite lookup_delete_ne.
    - done.
    - rewrite decide_False by done. set_solver. }
  destruct (mTransferMilliseconds m <? idleTime it) eqn:Ht; to_prop;
    [destruct (getOneSibling group (consumerName it) m) as [|b sib] eqn:Hsib|].
  - exists d. split_and!; try done. rewrite decide_False by done. set_solver.
  - destruct (claim_law key group (b :: sib) (mTransferMilliseconds m) (pid it) it d Hs Hp ltac:(lia))
      as (d1 & r & Hc & Hp1 & Ho1 & Hs1).
    unfold claim, caught. rewrite Hc. cbn [fst]. exists d1. split; [done|]. rewrite Hp1, Hs1. split_and!.
    + by rewrite lookup_insert_eq.
    + intros id Hid. by rewrite lookup_insert_ne.
    + done.
    + rewrite decide_False by done. set_solver.
  - exists d. split_and!; try done. rewrite decide_False by done. set_solver.
Qed.

Lemma handleItems_ok key group m its d :
  NoDup (pid <$> its) → Forall (listed key group d) its →
  ∃ d', handleItems key group m its d = Ok d' ∧
    (∀ it, it ∈ its → pel d' key group !! pid it = entry_after (fate_of group m it) it ∧
       (pid it ∈ stored d' key ↔ fate_of group m it ≠ Dead)) ∧
    (∀ id, id ∉ pid <$> its → pel d' key group !! id = pel d key group !! id ∧
       (id ∈ stored d' key ↔ id ∈ stored d key)) ∧
    (∀ key' g', (key', g') ≠ (key, group) → pel d' key' g' = pel d key' g').
Proof.
  revert d. induction its as [|it its IH]; intros d Hn Hl; cbn [handleItems].
  { exists d. split_and!; [done| |done|done]. intros it []%elem_of_nil. }
  rewrite fmap_cons in *. apply NoDup_cons in Hn as [Hnew Hn]. apply Forall_cons in Hl as [Hit Hl].
  destruct (handleItem_ok key group m it d Hit) as (d1 & -> & Hp1 & Hf1 & Ho1 & Hs1). cbn [mbind res_bind].
  assert (Forall (listed key group d1) its) as Hl1.
  { apply Forall_forall. intros x Hx. rewrite Forall_forall in Hl. destruct (Hl x Hx) as (Hpx & Hsx & Hb).
    assert (pid x ≠ pid it) as Hxi by (intros Hxi; apply Hnew; rewrite <- Hxi; by apply list_elem_of_fmap_2).
    split; [by rewrite Hf1|]. split; [|done]. rewrite Hs1. case_decide; set_solver. }
  destruct (IH d1 Hn Hl1) as (d' & Hd' & Hin & Hout & Ho). exists d'. split_and!; [done| | |].
  - intros x [->|Hx]%elem_of_cons; [|by apply Hin].
    destruct (Hout (pid it) Hnew) as [Hp Hs]. rewrite Hp, Hs, Hs1. split; [done|].
    destruct Hit as (_ & Hst & _). case_decide; set_solver.
  - intros id [Hid Hids]%not_elem_of_cons. destruct (Hout id Hids) as [Hp Hs].
    rewrite Hp, Hs, Hs1, Hf1 by done. split; [done|]. case_decide; set_solver.
  - intros key' g' Hne. by rewrite Ho, Ho1.
Qed.

(** ** Properties *)

(** C17: one pass over the pending messages of a consumer acknowledges and
    deletes those delivered too often, acknowledges but keeps those idle beyond
    tolerance, gives those idle beyond the transfer time to another consumer of
    the group if one is known, and touches nothing else. *)
Theorem pending_pass key group m its d :
  NoDup (pid <$> its) → Forall (listed key group d) its →
  ∃ d', handleItems key group m its d = Ok d' ∧
    (∀ it, it ∈ its → pel d' key group !! pid it = entry_after (fate_of group m it) it ∧
       (pid it ∈ stored d' key ↔ fate_of group m it ≠ Dead)) ∧
    (∀ id, id ∉ pid <$> its → pel d' key group !! id = pel d key group !! id ∧
       (id ∈ stored d' key ↔ id ∈ stored d key)) ∧
    (∀ key' g', (key', g') ≠ (key, group) → pel d' key' g' = pel d key' g').
Proof. apply handleItems_ok. Qed.

End Manager.

(** C38: [handlePending] ends whatever Redis answers: both queues are empty after
    it, unless an exception of [XACK] or [XDEL], which nothing catches, left it. *)
Theorem handlePending_ends {D : Type} `{Redis D} (d : D) (m : Manager) :
  match handlePending (d, m) with
  | Ok (_, m') => mPendingGroupQueue m' = [] ∧ mPendingConsumerQueue m' = []
  | Err e => e = Uncaught
  end.
Proof.
  unfold handlePending. destruct (fold_left _ _ _) as [d1 m1].
  destruct (group_phase_ends (d1, m1)) as ([d2 m2] & Hg & Hq). cbn [snd] in *. rewrite Hg.
  cbn [mbind res_bind]. pose proof (consumer_phase_ends d2 m2) as Hc.
  destruct (consumer_phase _ _) as [[d3 m3]|e]; [|done]. destruct Hc as [Hc1 Hc2]. by rewrite Hc2.
Qed.

(** The consumers of groups of the same name in two streams share one set:
    the sibling chosen for a message of the first stream can be any consumer of
    either other than its own, also one that only reads the second. *)
Theorem siblings_shared {D : Type} `{Redis D} group k1 k2 cs1 cs2 (m : Manager) c :
  mPendingGroupsSibling m !! group = Some [] → [] ∉ consumer_name <$> cs1 ++ cs2 →
  let m' := fold_left (push_consumer k2 group) cs2 (fold_left (push_consumer k1 group) cs1 m) in
  (getOneSibling group c m' = [] ↔ ∀ x, x ∈ consumer_name <$> cs1 ++ cs2 → x = c) ∧
  (getOneSibling group c m' ≠ [] →
     getOneSibling group c m' ∈ consumer_name <$> cs1 ++ cs2 ∧ getOneSibling group c m' ≠ c).
Proof.
  intros Hm Hne m'. destruct (push_consumer_siblings k1 group cs1 m [] Hm) as (s1 & Hs1 & Hx1).
  destruct (push_consumer_siblings k2 group cs2 _ s1 Hs1) as (s2 & Hs2 & Hx2). fold m' in Hs2.
  assert (∀ x, x ∈ s2 ↔ x ∈ consumer_name <$> cs1 ++ cs2) as Hx.
  { intros x. rewrite Hx2, Hx1, fmap_app, elem_of_app, elem_of_nil. naive_solver. }
  destruct (getOneSibling_spec group c m' s2 Hs2) as [H1 H2]; [by rewrite Hx|].
  rewrite <- Hx. split; [|exact H2]. rewrite H1. split; intros Ha x Hxx; by apply Ha, Hx.
Qed.

(** ** Witnesses: a store of pending entries and messages *)

Record store := mkStoreWith {
  spel : gmap (str * str) (gmap str PendingItem);
  sstored : gmap str (gset str);
  szsets : gmap str (gmap str Z);
  sinbox : gmap str ItemStreamType;     (* what the next read of a group returns *)
  shashes : gmap str (gmap str str);
  sttl : gmap str Z;
  ssets : gmap str (gset str);
  sout : list (str * str * fields) }.   (* what was added to streams and published *)

Definition mkStore p m z i : store := mkStoreWith p m z i ∅ ∅ ∅ [].

Definition store_pel p (s : store) : store :=
  mkStoreWith p (sstored s) (szsets s) (sinbox s) (shashes s) (sttl s) (ssets s) (sout s).
Definition store_stored m (s : store) : store :=
  mkStoreWith (spel s) m (szsets s) (sinbox s) (shashes s) (sttl s) (ssets s) (sout s).
Definition store_zsets z (s : store) : store :=
  mkStoreWith (spel s) (sstored s) z (sinbox s) (shashes s) (sttl s) (ssets s) (sout s).
Definition store_hashes h (s : store) : store :=
  mkStoreWith (spel s) (sstored s) (szsets s) (sinbox s) h (sttl s) (ssets s) (sout s).
Definition store_ttl t (s : store) : store :=
  mkStoreWith (spel s) (sstored s) (szsets s) (sinbox s) (shashes s) t (ssets s) (sout s).
Definition store_sets t (s : store) : store :=
  mkStoreWith (spel s) (sstored s) (szsets s) (sinbox s) (shashes s) (sttl s) t (sout s).
Definition store_out o (s : store) : store :=
  mkStoreWith (spel s) (sstored s) (szsets s) (sinbox s) (shashes s) (sttl s) (ssets s) o.

Definition entries_of (s : store) (key g : str) : gmap str PendingItem := default ∅ (spel s !! (key, g)).
Definition messages_of (s : store) (key : str) : gset str := default ∅ (sstored s !! key).

Definition scores_of (s : store) (key : str) : gmap str Z := default ∅ (szsets s !! key).
Definition hash_of (s : store) (key : str) : gmap str str := default ∅ (shashes s !! key).
Definition set_of (s : store) (key : str) : gset str := default ∅ (ssets s !! key).

Definition store_claim (key g c : str) (ms : Z) (ids : list str) (s : store) : store * (ItemStreamType + redis_error) :=
  (store_pel (<[(key, g) := foldr (λ id p,
      match p !! id with
      | Some it => if ms <=? idleTime it then <[id := mkPending id c 0 (deliveredTimes it + 1)]> p else p
      | None => p
      end) (entries_of s key g) ids]> (spel s)) s, inl []).

#[export] Instance store_redis : Redis store := {
  xadd key id kvs n s := (store_out (sout s ++ [(key, id, kvs)]) s, inl id);
  xreadgroup g c key id ms n s := (s, inl (match sinbox s !! key with Some es => {[ key := es ]} | None => ∅ end));
  xread key id ms n s := (s, inl ∅);
  xread_keys keys ms n s := (s, inl ∅);
  xgroup_create key g id s := (s, inl tt);
  xack key g id s :=
    (store_pel (<[(key, g) := delete id (entries_of s key g)]> (spel s)) s,
     inl (match entries_of s key g !! id with Some _ => 1 | None => 0 end));
  xpending key g n c s := (s, inl (map_to_list (entries_of s key g)).*2);
  xinfo_groups key s := (s, inl []);
  xinfo_consumers key g s := (s, inl []);
  xdel key ids s := (store_stored (<[key := messages_of s key ∖ list_to_set ids]> (sstored s)) s, inl 1);
  xclaim := store_claim;
  xrevrange key a b n s := (s, inl []);
  zadd key member score s :=
    (store_zsets (<[key := <[member := score]> (scores_of s key)]> (szsets s)) s,
     inl (match scores_of s key !! member with Some _ => 0 | None => 1 end));
  zrem key member s :=
    (store_zsets (<[key := delete member (scores_of s key)]> (szsets s)) s,
     inl (match scores_of s key !! member with Some _ => 1 | None => 0 end));
  zrangebyscore key s := (s, inl (merge_sort by_score (map_to_list (scores_of s key))));
  incr key s := (s, inl 1);
  sadd key member s := (store_sets (<[key := {[member]} ∪ set_of s key]> (ssets s)) s, inl 1);
  hset key fs s := (store_hashes (<[key := set_fields fs (hash_of s key)]> (shashes s)) s, inl 1);
  hget key f s := (s, inl (hash_of s key !! f));
  unlink key s := (store_hashes (delete key (shashes s)) s, inl 1);
  exists_key key s := (s, inl (if decide (hash_of s key = ∅) then 0 else 1));
  expire key secs s := if decide (hash_of s key = ∅) then (s, inl false)
                       else (store_ttl (<[key := secs]> (sttl s)) s, inl true);
  ttl key s := (s, inl (match sttl s !! key with Some t => Z.max (-2) (Z.min t (2 ^ 63 - 1)) | None => -2 end));
  set_key key v s := (s, inl true);
  smembers key s := (s, inl (elements (set_of s key)));
  srem key member s := (store_sets (<[key := set_of s key ∖ {[member]}]> (ssets s)) s, inl 1);
  publish channel msg s := (store_out (sout s ++ [(channel, msg, [])]) s, inl 0) }.

#[export, refine] Instance store_laws : StreamLaws store := {
  pel s key g := entries_of s key g;
  stored s key := messages_of s key }.
Proof.
  - intros key g id s. eexists. split; [done|]. unfold entries_of. cbn.
    split_and!; [by rewrite lookup_insert_eq|intros; rewrite lookup_insert_ne by congruence; done|done].
  - intros key ids s. eexists _, _. split; [done|]. unfold messages_of. cbn.
    split_and!; [done|by rewrite lookup_insert_eq|intros; by rewrite lookup_insert_ne by congruence].
  - intros key g c ms id it s Hs Hp Hi. eexists _, _. split; [done|]. unfold entries_of in *. cbn.
    rewrite Hp, (proj2 (Z.leb_le _ _)) by lia.
    split_and!; [by rewrite lookup_insert_eq|intros; rewrite lookup_insert_ne by congruence; done|done].
Defined.

#[export, refine] Instance store_sorted : SortedLaws store := { zset s key := scores_of s key }.
Proof.
  - intros key member score s. eexists. split; [done|]. unfold scores_of. cbn.
    split; [by rewrite lookup_insert_eq|intros; by rewrite lookup_insert_ne].
  - intros key member s. eexists. split; [done|]. unfold scores_of. cbn.
    split; [by rewrite lookup_insert_eq|intros; by rewrite lookup_insert_ne].
  - intros key s. eexists. split; [done|]. split; [apply merge_sort_Permutation|].
    apply StronglySorted_merge_sort; unfold by_score; [intros ???; lia|intros ??; lia].
Defined.

#[export, refine] Instance store_hash : HashLaws store := { hash s key := hash_of s key }.
Proof.
  - intros key fs s. eexists _, _. split; [done|]. unfold hash_of. cbn.
    split; [by rewrite lookup_insert_eq|intros; by rewrite lookup_insert_ne].
  - done.
  - intros key secs s _. cbn. case_decide as Hh.
    + eexists. split; [by rewrite bool_decide_eq_true_2|done].
    + eexists. split; [by rewrite bool_decide_eq_false_2|done].
Defined.

#[export, refine] Instance store_life : LifeLaws store := {
  life s key := match sttl s !! key with Some t => Z.max (-2) (Z.min t (2 ^ 63 - 1)) | None => -2 end }.
Proof. intros key s. split; [done|]. destruct (sttl s !! key); lia. Defined.

Definition demo_item (n : string) (idle delivered : Z) : PendingItem := mkPending (lit n) (lit "a") idle delivered.
Definition demo_items : list PendingItem := [demo_item "1" 9000 2; demo_item "2" 10 4; demo_item "3" 20000 1].
Definition demo_store : store :=
  mkStore {[ (lit "k", lit "g") := list_to_map ((λ it, (pid it, it)) <$> demo_items) ]}
    {[ lit "k" := list_to_set (pid <$> demo_items) ]} ∅ ∅.
Definition demo_manager : Manager :=
  set_siblings {[ lit "g" := [lit "a"; lit "b"] ]} newManager.

Lemma pending_pass_witness :
  ∃ d', handleItems (lit "k") (lit "g") demo_manager demo_items demo_store = Ok d' ∧
    (∀ it, it ∈ demo_items →
       pel d' (lit "k") (lit "g") !! pid it = entry_after (fate_of (lit "g") demo_manager it) it ∧
       (pid it ∈ stored d' (lit "k") ↔ fate_of (lit "g") demo_manager it ≠ Dead)) ∧
    (∀ id, id ∉ pid <$> demo_items →
       pel d' (lit "k") (lit "g") !! id = pel demo_store (lit "k") (lit "g") !! id ∧
       (id ∈ stored d' (lit "k") ↔ id ∈ stored demo_store (lit "k"))) ∧
    (∀ key' g', (key', g') ≠ (lit "k", lit "g") → pel d' key' g' = pel demo_store key' g').
Proof.
  apply pending_pass.
  - by apply (bool_decide_unpack _); vm_compute.
  - repeat constructor; by apply (bool_decide_unpack _); vm_compute.
Defined.

Lemma siblings_shared_witness :
  let cs1 := [mkConsumer (lit "a") 1 0 0] in
  let cs2 := [mkConsumer (lit "b") 0 0 0] in
  let m := set_siblings {[ lit "g" := [] ]} newManager in
  let m' := fold_left (push_consumer (lit "k2") (lit "g")) cs2 (fold_left (push_consumer (lit "k1") (lit "g")) cs1 m) in
  (getOneSibling (lit "g") (lit "a") m' = [] ↔ ∀ x, x ∈ consumer_name <$> cs1 ++ cs2 → x = lit "a") ∧
  (getOneSibling (lit "g") (lit "a") m' ≠ [] →
     getOneSibling (lit "g") (lit "a") m' ∈ consumer_name <$> cs1 ++ cs2 ∧
     getOneSibling (lit "g") (lit "a") m' ≠ lit "a").
Proof.
  intros cs1 cs2 m m'. apply (siblings_shared (D := store)).
  - reflexivity.
  - by apply (bool_decide_unpack _); vm_compute.
Defined.
