(* ===== verification/Dispatch.v ===== *)
(** * What the servers share: the common part of [LoginServer/], [GatewayServer/] and [GameServer/]

    The three [messageFunc]s begin with the same lines: take a frame, read its
    name, and let the handler object registered for this thread and that name
    deserialise it.  They answer heartbeats the same way, and their timers run
    the same check of the last time stamp. *)

From S2P Require Import Prelude BaseMessage Messages SafeHashmap IOBuffer TcpConnection Poller TcpServer.

Local Open Scope Z_scope.

(** [std::string::data] ends with a zero byte that is not counted. *)
Definition data_of (s : str) : str := s ++ [byte_of 0].

Section Dispatch.
(** The handler objects and their virtual [deserialize]. *)
Context {H : Type} (deserialize : str → H → res H).

(** [mMessageTypes]: by thread, by name. *)
Abbreviation handlers := (gmap Z (gmap str H)).

(** [mMessageTypes[tid].emplace(msgName, ..)] *)
Definition registerMessageType (tid : Z) (msgName : str) (h : H) (types : handlers) : handlers :=
  let hs := default ∅ (types !! tid) in
  <[tid := match hs !! msgName with Some _ => hs | None => <[msgName := h]> hs end]> types.

(** [messageFunc] up to the comparison of types; [now] is the clock when
    [baseMsg] is made. *)
Definition receive (tid now : Z) (c : TcpConnection) (types : handlers)
    : res (TcpConnection * handlers * option (str * H)) :=
  let '(c, msg) := frame c in
  match msg with
  | None => Ok (c, types, None)
  | Some msg =>
      baseMsg ← TimestampMessage.deserialize (data_of msg) (TimestampMessage.new now);
      let msgType := MSG_NAME (TimestampMessage.base baseMsg) in
      match types !! tid with
      | None => Ok (c, types, None)
      | Some hs =>
          match hs !! msgType with
          | None => Ok (c, types, None)
          | Some h =>
              h ← deserialize (data_of msg) h;
              Ok (c, <[tid := <[msgType := h]> hs]> types, Some (msg, h))
          end
      end
  end.

(** ** Facts *)

(** The name comes out of any message with eight bytes behind it, the zero
    byte counted. *)
Lemma base_name name ts vs now :
  total name ts vs < size_max → 7 <= strlen (encs ts vs) →
  ∃ m, TimestampMessage.deserialize (data_of (wire name ts vs)) (TimestampMessage.new now) = Ok m ∧
    MSG_NAME (TimestampMessage.base m) = name.
Proof.
  intros Ht He. unfold TimestampMessage.deserialize, data_of.
  pose proof (total_bounds name ts vs) as Htb.
  rewrite deserializeHelper_wire; [|done|done|]; cbn [ARRAY_LIKE_LENGHTS TimestampMessage.base TimestampMessage.new
    TimestampMessage.parent newBaseMessage length plus].
  - cbn [mbind res_bind popMembers TimestampMessage.types popMember]. unfold popScalar, popBytes, readBytes.
    set (b := after_header _ _ _ _).
    assert (mCursor b = total name ts vs - strlen (encs ts vs)) as Hc.
    { unfold b, after_header, after_sizes. cbn [mCursor].
      pose proof (strlen_wire name ts vs) as Hw. rewrite wire_sizes, app_assoc, strlen_app in Hw. lia. }
    rewrite strlen_app, strlen_wire, Hc. change (Z.of_nat (sizeof TTime)) with 8.
    assert (0 <= total name ts vs - strlen (encs ts vs)).
    { rewrite <- Hc. unfold b, after_header, after_sizes. cbn [mCursor]. apply strlen_nonneg. }
    change (strlen [byte_of 0]) with 1.
    rewrite (proj2 (Z.leb_le 0 (_ - _))), (proj2 (Z.leb_le (_ + 8) _)) by lia.
    cbn. by eexists.
  - unfold size_max in *. lia.
Qed.

Lemma frame_wire name ts vs (c : TcpConnection) :
  total name ts vs < size_max → ¬ lone c → content c = wire name ts vs →
  ∃ c', frame c = (c', Some (wire name ts vs)) ∧ content c' = [].
Proof.
  intros Ht Hl Hc. destruct (wire_is_frame name ts vs Ht) as [H8 Ha].
  pose proof (frame_spec c Hl) as Hs. cbv zeta in Hs. rewrite Hc, Ha in Hs.
  destruct (frame c) as [c' r]. rewrite (proj2 (Z.ltb_ge _ _)) in Hs by lia. cbn [orb] in Hs.
  rewrite Z.ltb_irrefl in Hs. destruct Hs as [-> Hc'].
  exists c'. rewrite Hc'. unfold strlen. rewrite Nat2Z.id, take_ge, drop_ge by lia. done.
Qed.

(** [frame] takes bytes from the input and touches nothing else. *)
Lemma tryGet_keeps len t c :
  let c' := (tryGet len t c).1 in
  mName c' = mName c ∧ mPeerIP c' = mPeerIP c ∧ mPeerPort c' = mPeerPort c ∧
  mOutputBuffer c' = mOutputBuffer c ∧ sent c' = sent c ∧ mCommunicationTimestamp c' = mCommunicationTimestamp c ∧
  mState c' = mState c ∧ open c' = open c ∧ writing c' = writing c ∧
  getFD (mInputBuffer c') = getFD (mInputBuffer c).
Proof.
  cbv zeta. unfold tryGet.
  destruct (mIncompleteMessage c) as [|x inc]; repeat case_match; simplify_eq; cbn; try done;
    match goal with Hg : get _ = _ |- _ => unfold get in Hg; destruct (mDataQueue (mInputBuffer c)); simplify_eq; done end.
Qed.

(** [send] leaves the input and the rest alone. *)
Lemma send_keeps data answer c :
  let c' := send data answer c in
  content c' = content c ∧ mName c' = mName c ∧ mPeerIP c' = mPeerIP c ∧ mPeerPort c' = mPeerPort c ∧
  getFD (mInputBuffer c') = getFD (mInputBuffer c) ∧ getLastTimetamp c' = getLastTimetamp c.
Proof.
  cbv zeta. unfold send, get. destruct (mDataQueue (mOutputBuffer c)); unfold write_out, write;
    repeat case_match; simplify_eq; done.
Qed.

(** Everything about a connection but its input. *)
Definition same_side (c c' : TcpConnection) : Prop :=
  mName c' = mName c ∧ mPeerIP c' = mPeerIP c ∧ mPeerPort c' = mPeerPort c ∧
  mOutputBuffer c' = mOutputBuffer c ∧ sent c' = sent c ∧ mCommunicationTimestamp c' = mCommunicationTimestamp c ∧
  mState c' = mState c ∧ open c' = open c ∧ writing c' = writing c ∧
  getFD (mInputBuffer c') = getFD (mInputBuffer c).

Lemma same_side_trans c1 c2 c3 : same_side c1 c2 → same_side c2 c3 → same_side c1 c3.
Proof. unfold same_side. intuition congruence. Qed.

Lemma frame_keeps c : same_side c (frame c).1.
Proof.
  unfold frame. pose proof (tryGet_keeps 8 false c) as H1. destruct (tryGet 8 false c) as [c1 msg].
  destruct msg as [|x msg]; [exact H1|]. destruct (8 <=? of_le (take 8 (x :: msg))); [|exact H1].
  pose proof (tryGet_keeps (of_le (take 8 (x :: msg))) true c1) as H2.
  destruct (tryGet _ true c1) as [c2 msg2]. destruct msg2; by eapply same_side_trans.
Qed.

(** A whole message waits for a handler that reads it. *)
Lemma receive_wire name ts vs tid now c types hs h h' :
  total name ts vs < size_max → 7 <= strlen (encs ts vs) → ¬ lone c → content c = wire name ts vs →
  types !! tid = Some hs → hs !! name = Some h → deserialize (data_of (wire name ts vs)) h = Ok h' →
  ∃ c', receive tid now c types = Ok (c', <[tid := <[name := h']> hs]> types, Some (wire name ts vs, h')) ∧
    content c' = [] ∧ same_side c c'.
Proof.
  intros Ht He Hl Hc Htid Hn Hd. unfold receive.
  destruct (frame_wire name ts vs c Ht Hl Hc) as (c' & Hf & Hc'). pose proof (frame_keeps c) as Hk.
  rewrite Hf in *. destruct (base_name name ts vs now Ht He) as (m & -> & Hm). cbn [mbind res_bind].
  rewrite Htid, Hm, Hn, Hd. cbn [mbind res_bind]. by exists c'.
Qed.

(** A whole message under a name nobody registered for the thread is taken
    off the input, and no handler and nothing else of the connection changes. *)
Theorem unknown_dropped (name : str) (ts : list ty) (vs : tuple ts) (tid now : Z) (c : TcpConnection) (types : handlers) :
  total name ts vs < size_max → 7 <= strlen (encs ts vs) → ¬ lone c → content c = wire name ts vs →
  default ∅ (types !! tid) !! name = None →
  ∃ c', receive tid now c types = Ok (c', types, None) ∧ content c' = [] ∧ same_side c c'.
Proof.
  intros Ht He Hl Hc Hn. unfold receive.
  destruct (frame_wire name ts vs c Ht Hl Hc) as (c' & Hf & Hc'). pose proof (frame_keeps c) as Hk.
  rewrite Hf in *. destruct (base_name name ts vs now Ht He) as (m & -> & Hm). cbn [mbind res_bind].
  rewrite Hm. exists c'. destruct (types !! tid) as [hs|]; [|done]. cbn in Hn. by rewrite Hn.
Qed.
End Dispatch.

(** ** Heartbeats *)

(** [repHBMsg], made at [now], in bytes. *)
Definition heartbeat_reply (msgName : str) (now : Z) : res str :=
  let repHBMsg := TimestampMessage.new now in
  let repHBMsg := TimestampMessage.set_base (set_name msgName (TimestampMessage.base repHBMsg)) repHBMsg in
  '(_, data) ← TimestampMessage.serialize (TimestampMessage.count repHBMsg);
  Ok data.

Definition heartbeat_wire (msgName : str) (millis : Z) : str := wire msgName TimestampMessage.types ⟪ millis ⟫.

Lemma heartbeat_total msgName millis :
  total msgName TimestampMessage.types ⟪ millis ⟫ = strlen msgName + 32.
Proof.
  unfold total, header_lens, TimestampMessage.types. cbn [lenss encs lens enc app fst snd length].
  rewrite app_nil_r, strlen_encode. change (Z.of_nat (sizeof TTime)) with 8.
  change (Z.of_nat 1) with 1. ring.
Qed.

(** The interface at the class, method by method. *)
Lemma heartbeat_serialize : @msg_serialize _ TimestampMessage.message = TimestampMessage.serialize.
Proof. done. Qed.
Lemma heartbeat_count : @msg_count _ TimestampMessage.message = TimestampMessage.count.
Proof. done. Qed.

Lemma heartbeat_reply_wire msgName now :
  in_range TTime now → strlen msgName < 2 ^ 32 → heartbeat_reply msgName now = Ok (heartbeat_wire msgName now).
Proof.
  intros Hn Hm. unfold heartbeat_reply. set (m := TimestampMessage.set_base _ _).
  assert (fresh_message m) as Hf.
  { split; [by split_and!|]. split; [by split|]. unfold m.
    cbn [msg_base msg_types msg_members TimestampMessage.message TimestampMessage.set_base TimestampMessage.base
      TimestampMessage.parent TimestampMessage.MILLISECONDS_SINCE_EPOCH TimestampMessage.new].
    rewrite heartbeat_total. cbn [MSG_NAME set_name]. unfold size_max. lia. }
  destruct (msg_serialize_wire m Hf) as [m' Hm']. rewrite heartbeat_serialize, heartbeat_count in Hm'.
  rewrite Hm'. done.
Qed.

(** [now - lastTimestamp] is signed, the product a [size_t], the comparison
    unsigned. *)
Definition heartbeat_expired (now last timeout : Z) : bool := u64 (timeout * 1000) <=? u64 (now - last).

Lemma heartbeat_expired_spec now last timeout :
  0 <= timeout < 2 ^ 32 → 0 <= now < 2 ^ 62 → 0 <= last < 2 ^ 62 →
  heartbeat_expired now last timeout = true ↔ now < last ∨ timeout * 1000 <= now - last.
Proof.
  intros Ht Hn Hl. unfold heartbeat_expired. rewrite (u64_small (timeout * 1000)) by (unfold size_max; lia).
  rewrite Z.leb_le. destruct (decide (now < last)) as [Hlt|Hge].
  - assert (u64 (now - last) = now - last + size_max) as ->; [|unfold size_max in *; lia].
    unfold u64, wrap. symmetry. apply (Z.mod_unique_pos _ _ (-1)); unfold size_max; lia.
  - rewrite u64_small by (unfold size_max; lia). lia.
Qed.

(** [activeClose] on a connection of a server: its close callback is
    [removeConnection]. *)
Section Heartbeat.
Context {R F : Type} (mHashFunc : str → Z).
Context (mCloseFunc : option (str → TcpServer (R := R) (F := F) → res (TcpServer (R := R) (F := F)))).

(** [checkHeartbeat]; [before] is what the server does before it closes. *)
Definition checkHeartbeat_with (before : str → TcpServer (R := R) (F := F) → res (TcpServer (R := R) (F := F)))
    (now timeout : Z) (mConnID : str) (s : TcpServer (R := R) (F := F)) : res (TcpServer (R := R) (F := F)) :=
  tcpConnPtr ← getConnPtrRef mHashFunc mConnID s;
  match tcpConnPtr with
  | None => Ok s
  | Some l =>
      '(c, _) ← of_option NullDeref (conns (registry s) !! l);
      if heartbeat_expired now (getLastTimetamp c) timeout then
        s ← before (getIPPort c) s;
        removeConnection mHashFunc mCloseFunc l s
      else Ok s
  end.

Lemma checkHeartbeat_spec before now timeout mConnID s m :
  quiet mCloseFunc → registry_ok mHashFunc s m →
  quiet (Some before) →
  match getConnPtrRef mHashFunc mConnID s with
  | Ok (Some l) => ∃ c i, conns (registry s) !! l = Some (c, i) ∧ getName c = mConnID ∧
      if heartbeat_expired now (getLastTimetamp c) timeout
      then ∃ s', checkHeartbeat_with before now timeout mConnID s = Ok s' ∧
        getConnPtrRef mHashFunc mConnID s' = Ok None ∧
        conns (registry s') = delete l (conns (registry s))
      else checkHeartbeat_with before now timeout mConnID s = Ok s
  | Ok None => checkHeartbeat_with before now timeout mConnID s = Ok s
  | Err _ => False
  end.
Proof.
  intros Hq Hok Hb. unfold checkHeartbeat_with. rewrite (getConn_denotes _ _ m) by apply Hok.
  cbn [mbind res_bind]. destruct (m !! mConnID) as [l|] eqn:Hm; [|done].
  destruct (rok_entry _ _ _ Hok _ _ Hm) as (c & i & Hc & Hn). exists c, i. split; [done|]. split; [done|].
  rewrite Hc. cbn [of_option mbind res_bind]. destruct (heartbeat_expired now (getLastTimetamp c) timeout); [|done].
  destruct (Hb (getIPPort c) s) as (s1 & Hb1 & Hr & Hs & Ht).
  cbn [call_opt] in Hb1. rewrite Hb1. cbn [mbind res_bind].
  pose proof (registry_ok_ext _ _ _ _ Hr Hs Ht Hok) as Hok1. rewrite <- Hr in Hc.
  destruct (close_step mHashFunc mCloseFunc Hq l c i s1 m Hok1 Hc) as (s2 & Hs2 & _ & Hok2 & Hcs & _).
  exists s2. split; [done|]. rewrite (getConn_denotes _ _ _ _ (rok_map _ _ _ Hok2)), Hn, lookup_delete_eq.
  by rewrite Hcs, Hr.
Qed.
End Heartbeat.

(** ** Witness *)

Lemma unknown_dropped_witness :
  let c := set_in (put (heartbeat_wire (lit "WHO") 1) (mInputBuffer demo_conn)) demo_conn in
  ∃ c', receive (H := unit) (λ _ h, Ok h) 1 0 c ∅ = Ok (c', ∅, None) ∧ content c' = [] ∧ same_side c c'.
Proof.
  intros c. apply (unknown_dropped _ (lit "WHO") TimestampMessage.types ⟪ 1 ⟫); by vm_compute.
Defined.
