(* ===== verification/LoginServer.v ===== *)
(** * The login server: [LoginServer/]

    Requests cross from a client's connection to the database server through a
    stream of the broker, and the answers come back through another; heartbeats
    are answered on the spot, and silent clients are closed by a timer task. *)

From S2P Require Import Prelude.
From S2P Require Import BaseMessage.
From S2P Require Import Messages.
From S2P Require Import Carrier.
From S2P Require Import SafeHashmap.
From S2P Require Import IOBuffer.
From S2P Require Import Timer.
From S2P Require Import TcpConnection.
From S2P Require Import Poller.
From S2P Require Import EventLoop.
From S2P Require Import TcpServer.
From S2P Require Import Broker.
From S2P Require Import Dispatch.

Local Open Scope Z_scope.

(** [LoginServConf.h], what the code below reads of it. *)
Record LoginServConf := mkConf {
  SERVER_IO_THREAD_NUM : Z;
  SERVER_SAFE_HASH_BUCKET_SIZE : Z;
  CONNECTION_BLACKLIST : list str;
  HEARTBEAT_TIMEOUT_IN_SECONDS : Z;
  MESSAGE_LOGIN_BASE_MSG : str;
  MESSAGE_LOGIN_HEARTBEAT_MSG : str;
  MESSAGE_LOGIN_LOGIN_MSG : str;
  MESSAGE_LOGIN_LOGIN_CHARACTER_MSG : str;
  BROKER_DB_KEY : str;
  BROKER_DB_GROUP : str;
  BROKER_LOGIN_KEY : str;
  BROKER_LOGIN_GROUP : str;
  STREAM_CUSTOMER_PULL_NAP_IN_MILLISECONDS : Z }.

Definition defaultConf : LoginServConf :=
  mkConf 4 1031 [] 3600 (lit "LOGIN_BASE_MSG") (lit "HEARTBEAT_MSG") (lit "LOGIN_LOGIN_MSG")
    (lit "LOGIN_LOGIN_CHARACTER_MSG") (lit "Warring:DBServ4LoginServ") (lit "Warring:DBServ:Group")
    (lit "Warring:LoginServ") (lit "Warring:LoginServ:Group") 100.

(** The objects [registerMessageType] makes, by their dynamic type. *)
Inductive handler :=
  | HTimestamp (m : TimestampMessage.t)
  | HHeartBeat (m : HeartBeatPacket)
  | HLogin (m : LoginRequestMessage.t)
  | HLoginCharacter (m : LoginCharacterRequestMessage.t).

Definition deserialize (data : str) (h : handler) : res handler :=
  match h with
  | HTimestamp m => HTimestamp <$> TimestampMessage.deserialize data m
  | HHeartBeat m => HHeartBeat <$> TimestampMessage.deserialize data m
  | HLogin m => HLogin <$> LoginRequestMessage.deserialize data m
  | HLoginCharacter m => HLoginCharacter <$> LoginCharacterRequestMessage.deserialize data m
  end.

Abbreviation handlers := (gmap Z (gmap str handler)).

(** New objects for the thread [tid], made at [now]. *)
Definition register_types (conf : LoginServConf) (now : Z) (types : handlers) (tid : Z) : handlers :=
  let ts := TimestampMessage.new now in
  let types := registerMessageType tid (MESSAGE_LOGIN_BASE_MSG conf) (HTimestamp ts) types in
  let types := registerMessageType tid (MESSAGE_LOGIN_HEARTBEAT_MSG conf) (HHeartBeat ts) types in
  let types := registerMessageType tid (MESSAGE_LOGIN_LOGIN_MSG conf)
    (HLogin (LoginRequestMessage.mk ts 0 [] [])) types in
  registerMessageType tid (MESSAGE_LOGIN_LOGIN_CHARACTER_MSG conf)
    (HLoginCharacter (LoginCharacterRequestMessage.mk (LoginRequestMessage.mk ts 0 [] []) [] 0 0 0)) types.

Section Login.
Context {R D : Type} `{Redis D} (mHashFunc : str → Z) (conf : LoginServConf).

(** A timer task of this server is a [checkHeartbeat] bound to an identifier. *)
Abbreviation Server := (TcpServer (R := R) (F := str)).

Record LoginServer := mkLogin {
  mTcpServer : Server;
  mMessageTypes : handlers;
  mRedis : D }.

(** The constructor: [tids] are those of the loops. *)
Definition newLoginServer (servName : str) (pool : EventLoopThreadpool (R := R)) (tids : list Z) (now : Z) (d : D)
    : LoginServer :=
  let s := newTcpServer servName (SERVER_SAFE_HASH_BUCKET_SIZE conf) pool in
  let types := fold_left (register_types conf now) tids ∅ in
  let '(d, _) := createGroup (BROKER_DB_KEY conf) (BROKER_DB_GROUP conf) (lit "$") d in
  let '(d, _) := createGroup (BROKER_LOGIN_KEY conf) (BROKER_LOGIN_GROUP conf) (lit "$") d in
  mkLogin s types d.

Definition initConnBlacklist (s : Server) : Server := addToBlacklist (CONNECTION_BLACKLIST conf) s.

Definition connFilterFunc (addr : SocketAddr) (s : Server) : bool := negb (isInBlacklist (addr_getIP addr) s).

Definition connNameFunc (now : Z) (connName : str) (s : Server) : res Server :=
  Ok (registerTimerTask now 0 0 (HEARTBEAT_TIMEOUT_IN_SECONDS conf) (-1) connName s).1.

(** [LoginHeartbeatOp]; no close function is set on the server. *)
Definition checkHeartbeat (now : Z) (mConnID : str) (s : Server) : res Server :=
  checkHeartbeat_with mHashFunc None (λ _ s, Ok s) now (HEARTBEAT_TIMEOUT_IN_SECONDS conf) mConnID s.

(** ** [LoginMessageOp::messageFunc] *)

(** The request [msg] named [name], in a carrier. *)
Definition request_carrier (name msg : str) (c : TcpConnection) : ClientCarrier :=
  {| TYPE := name; SERVICE := BROKER_LOGIN_KEY conf; NEXT_SERVICE := BROKER_DB_KEY conf; MESSAGE := msg;
     CLIENT_ID := getName c; CLIENT_ADDRESS := getIPPort c |}.

(** [answer] is what the kernel says to the write of a reply. *)
Definition messageFunc (tid now answer : Z) (c : TcpConnection) (types : handlers) (d : D)
    : res (TcpConnection * handlers * D) :=
  '(c, types, got) ← receive deserialize tid now c types;
  match got with
  | None => Ok (c, types, d)
  | Some (msg, HTimestamp m) => Ok (c, types, d)
  | Some (msg, HLogin m) =>
      let c := setCurrentTimestamp (TimestampMessage.GET_MILLISECONDS_SINCE_EPOCH (LoginRequestMessage.parent m)) c in
      let carrier := request_carrier (MSG_NAME (LoginRequestMessage.base m)) msg c in
      let '(d, _) := push (BROKER_DB_KEY conf) (LoginMessage.FILL_2_VEC carrier []) 5000 d in
      Ok (c, types, d)
  | Some (msg, HLoginCharacter m) =>
      let c := setCurrentTimestamp (TimestampMessage.GET_MILLISECONDS_SINCE_EPOCH
                 (LoginRequestMessage.parent (LoginCharacterRequestMessage.parent m))) c in
      let carrier := request_carrier (MSG_NAME (LoginCharacterRequestMessage.base m)) msg c in
      let '(d, _) := push (BROKER_DB_KEY conf) (LoginMessage.FILL_2_VEC carrier []) 5000 d in
      Ok (c, types, d)
  | Some (msg, HHeartBeat m) =>
      let c := setCurrentTimestamp (TimestampMessage.GET_MILLISECONDS_SINCE_EPOCH m) c in
      data ← heartbeat_reply (MESSAGE_LOGIN_HEARTBEAT_MSG conf) now;
      Ok (send data answer c, types, d)
  end.

(** A read event of connection [l] that left bytes to look at. *)
Definition on_message (tid now answer : Z) (l : loc) (s : LoginServer) : res LoginServer :=
  '(c, _) ← of_option NullDeref (conns (registry (mTcpServer s)) !! l);
  '(c, types, d) ← messageFunc tid now answer c (mMessageTypes s) (mRedis s);
  Ok (mkLogin (set_conn l c (mTcpServer s)) types d).

(** [start]: the timer and the blacklist, then the TCP server runs. *)
Definition start (t : option (Timer.TimeWheelTimer str)) (s : LoginServer) : LoginServer :=
  let tcp := TcpServer.start (initConnBlacklist (linkTimer t (mTcpServer s)).1) in
  mkLogin tcp (mMessageTypes s) (mRedis s).

(** ** [loginStreamConsumerFunc], one pass of its loop *)

Definition loginStreamConsumer (st : Server * D) : res (Server * D) :=
  let '(s, d) := st in
  let '(d, (pullResult, result)) :=
    pull_group (BROKER_LOGIN_KEY conf) (BROKER_LOGIN_GROUP conf) (lit "LoginStreamConsumer") (lit ">")
      (STREAM_CUSTOMER_PULL_NAP_IN_MILLISECONDS conf) 1 d in
  match pullResult with
  | Some 1 =>
      '(id, fields) ← of_option OutOfRange (default [] (result !! BROKER_LOGIN_KEY conf) !! 0%nat);
      fields ← of_option BadArgument fields;
      carrier ← LoginMessage.FILL_2_THIS fields (mkCarrier [] [] [] [] [] []);
      connPtr ← getConnPtrRef mHashFunc (CLIENT_ID carrier) s;
      match connPtr with
      | Some l =>
          '(c, _) ← of_option NullDeref (conns (registry s) !! l);
          let s := set_conn l (putToBuffer (MESSAGE carrier) c) s in
          '(d, _) ← ack (BROKER_LOGIN_KEY conf) (BROKER_LOGIN_GROUP conf) id d;
          Ok (s, d)
      | None =>
          '(d, _) ← del (BROKER_LOGIN_KEY conf) id d;
          Ok (s, d)
      end
  | _ => Ok (s, d)
  end.

(** ** Requests *)

Lemma login_methods : @msg_deserialize _ LoginRequestMessage.message = LoginRequestMessage.deserialize.
Proof. done. Qed.

Lemma heartbeat_methods : @msg_deserialize _ TimestampMessage.message = TimestampMessage.deserialize.
Proof. done. Qed.

(** The bytes of a login request wait on [c], and the handler that will read
    them is [r]. *)
Record login_waits (m r : LoginRequestMessage.t) (tid : Z) (hs : gmap str handler) (c : TcpConnection)
    (types : handlers) : Prop := {
  lw_fresh : fresh_message m;
  lw_content : content c = msg_wire m;
  lw_whole : ¬ lone c;
  lw_types : types !! tid = Some hs;
  lw_handler : hs !! MSG_NAME (LoginRequestMessage.base m) = Some (HLogin r);
  lw_synced : synced (LoginRequestMessage.base r);
  lw_room : Z.of_nat (length (ARRAY_LIKE_LENGHTS (LoginRequestMessage.base r)) + kept_lens [m]) < size_max }.

Lemma login_receive m r tid now hs c types :
  login_waits m r tid hs c types →
  ∃ c' types' r', receive deserialize tid now c types = Ok (c', types', Some (msg_wire m, HLogin r')) ∧
    content c' = [] ∧ same_side c c' ∧
    MSG_NAME (LoginRequestMessage.base r') = MSG_NAME (LoginRequestMessage.base m) ∧
    LoginRequestMessage.parent r' = TimestampMessage.set_base (LoginRequestMessage.base r') (LoginRequestMessage.parent r).
Proof.
  intros [Hf Hc Hl Ht Hh Hs Hr].
  pose proof (msg_read_one m r [byte_of 0] eq_refl Hs Hf Hr) as Hd. rewrite login_methods in Hd.
  set (b := after_message _ _ _ _) in Hd.
  set (r' := LoginRequestMessage.mk (TimestampMessage.set_base b (LoginRequestMessage.parent r))
    (LoginRequestMessage.REQUEST_CODE m) (LoginRequestMessage.ACCOUNT m) (LoginRequestMessage.PASSWORD m)).
  change (msg_rebuild b (msg_members m) r) with r' in Hd.
  destruct Hf as (_ & _ & Htot).
  destruct (receive_wire deserialize (MSG_NAME (LoginRequestMessage.base m)) msg_types (msg_members m) tid now c types
    hs (HLogin r) (HLogin r')) as (c' & Hrec & Hc' & Hside); try done.
  - unfold msg_types, msg_members. cbn [LoginRequestMessage.message encs LoginRequestMessage.types enc fst snd].
    rewrite strlen_app, strlen_encode. pose proof (strlen_nonneg (LoginRequestMessage.ACCOUNT m ++ LoginRequestMessage.PASSWORD m ++ [])).
    change (Z.of_nat (sizeof TSize)) with 8. lia.
  - cbn [deserialize]. unfold data_of. change (wire _ _ _) with (msg_wire m). by rewrite Hd.
  - eexists c', _, r'. split; [exact Hrec|]. by split_and!.
Qed.

Lemma heartbeat_receive millis r tid now hs c types :
  in_range TTime millis → strlen (MESSAGE_LOGIN_HEARTBEAT_MSG conf) < 2 ^ 32 →
  content c = heartbeat_wire (MESSAGE_LOGIN_HEARTBEAT_MSG conf) millis → ¬ lone c →
  types !! tid = Some hs → hs !! MESSAGE_LOGIN_HEARTBEAT_MSG conf = Some (HHeartBeat r) →
  synced (TimestampMessage.base r) → Z.of_nat (length (ARRAY_LIKE_LENGHTS (TimestampMessage.base r)) + 1) < size_max →
  ∃ c' types' r', receive deserialize tid now c types =
      Ok (c', types', Some (heartbeat_wire (MESSAGE_LOGIN_HEARTBEAT_MSG conf) millis, HHeartBeat r')) ∧
    content c' = [] ∧ same_side c c' ∧ TimestampMessage.GET_MILLISECONDS_SINCE_EPOCH r' = millis.
Proof.
  intros Hmi Hlen Hc Hl Htid Hh Hs Hr. set (name := MESSAGE_LOGIN_HEARTBEAT_MSG conf) in *.
  set (m := TimestampMessage.mk (set_name name newBaseMessage) millis).
  assert (total name TimestampMessage.types ⟪ millis ⟫ < size_max) as Htot.
  { rewrite heartbeat_total. unfold size_max. lia. }
  assert (fresh_message m) as Hf by (split; [by split_and!|]; split; [by split|]; exact Htot).
  pose proof (msg_read_one m r [byte_of 0] eq_refl Hs Hf Hr) as Hd. rewrite heartbeat_methods in Hd.
  destruct (receive_wire deserialize name TimestampMessage.types ⟪ millis ⟫ tid now c types
    hs (HHeartBeat r) (HHeartBeat (msg_rebuild (after_message (MSG_NAME (msg_base m)) msg_types (msg_members m) (msg_base r))
      (msg_members m) r))) as (c' & Hrec & Hc' & Hside); try done.
  - cbn [deserialize]. unfold data_of. change (wire _ _ _) with (msg_wire m). by rewrite Hd.
  - eexists c', _, _. split; [exact Hrec|]. by split_and!.
Qed.

Lemma login_forwards m r tid now answer hs c types (d : D) :
  login_waits m r tid hs c types →
  let t0 := TimestampMessage.GET_MILLISECONDS_SINCE_EPOCH (LoginRequestMessage.parent r) in
  ∃ c' types', messageFunc tid now answer c types d =
      Ok (c', types', (push (BROKER_DB_KEY conf)
        (fill_vec (request_carrier (MSG_NAME (LoginRequestMessage.base m)) (msg_wire m) c)) 5000 d).1) ∧
    content c' = [] ∧ same_side (setCurrentTimestamp t0 c) c'.
Proof.
  intros Hw t0. destruct (login_receive m r tid now hs c types Hw) as (c' & types' & r' & Hr & Hc' & Hs & Hn & Hp).
  unfold messageFunc. rewrite Hr. cbn [mbind res_bind]. rewrite Hn, Hp.
  set (c2 := setCurrentTimestamp _ c').
  assert (request_carrier (MSG_NAME (LoginRequestMessage.base m)) (msg_wire m) c2 =
    request_carrier (MSG_NAME (LoginRequestMessage.base m)) (msg_wire m) c) as ->.
  { unfold request_carrier, getName, getIPPort. destruct Hs as (E1 & E2 & E3 & _). cbn. by rewrite E1, E2, E3. }
  unfold LoginMessage.FILL_2_VEC. destruct (push _ _ _ d) as [d' id]. exists c2, types'. split; [done|].
  split; [exact Hc'|]. destruct Hs as (E1 & E2 & E3 & E4 & E5 & E6 & E7 & E8 & E9 & E10). by split_and!.
Qed.

(** ** Properties *)

(** A login request that has arrived whole leaves the connection empty and
    its bytes, unchanged, in the stream of the database server, with the
    identifier and address under which the answer will find the client; and the
    connection's time stamp is that of the handler object, made with the server,
    not that of the request. *)
Theorem login_request_forwarded m r tid now answer hs c types (d : D) :
  login_waits m r tid hs c types →
  ∃ c' types' d', messageFunc tid now answer c types d = Ok (c', types', d') ∧
    d' = (push (BROKER_DB_KEY conf) (fill_vec {|
      TYPE := MSG_NAME (LoginRequestMessage.base m); SERVICE := BROKER_LOGIN_KEY conf;
      NEXT_SERVICE := BROKER_DB_KEY conf; MESSAGE := msg_wire m;
      CLIENT_ID := getName c; CLIENT_ADDRESS := getIPPort c |}) 5000 d).1 ∧
    content c' = [] ∧ outgoing c' = outgoing c ∧
    getLastTimetamp c' = TimestampMessage.GET_MILLISECONDS_SINCE_EPOCH (LoginRequestMessage.parent r).
Proof.
  intros Hw. destruct (login_forwards m r tid now answer hs c types d Hw) as (c' & types' & Hm & Hc' & Hs).
  eexists c', types', _. split; [exact Hm|]. split; [done|]. split; [done|].
  destruct Hs as (_ & _ & _ & E4 & E5 & E6 & _). unfold outgoing. by rewrite E4, E5.
Qed.

(** C39: so a client that logs in is closed by the next check after the server
    has run for the time-out, however recent its request. *)
Theorem login_keeps_old_clock m r tid now answer hs c i l (s : LoginServer) names now2 :
  login_waits m r tid hs c (mMessageTypes s) →
  registry_ok mHashFunc (mTcpServer s) names → conns (registry (mTcpServer s)) !! l = Some (c, i) →
  0 <= HEARTBEAT_TIMEOUT_IN_SECONDS conf < 2 ^ 32 → 0 <= now2 < 2 ^ 62 →
  0 <= TimestampMessage.GET_MILLISECONDS_SINCE_EPOCH (LoginRequestMessage.parent r) →
  TimestampMessage.GET_MILLISECONDS_SINCE_EPOCH (LoginRequestMessage.parent r)
    + HEARTBEAT_TIMEOUT_IN_SECONDS conf * 1000 <= now2 →
  ∃ s1 s2, on_message tid now answer l s = Ok s1 ∧
    checkHeartbeat now2 (getName c) (mTcpServer s1) = Ok s2 ∧
    getConnPtrRef mHashFunc (getName c) (mTcpServer s1) = Ok (Some l) ∧
    getConnPtrRef mHashFunc (getName c) s2 = Ok None.
Proof.
  intros Hw Hok Hl Ht Hn2 Ht0 Hlate. set (t0 := TimestampMessage.GET_MILLISECONDS_SINCE_EPOCH _) in *.
  destruct (login_forwards m r tid now answer hs c _ (mRedis s) Hw) as (c' & types' & Hm & Hc' & Hs).
  unfold on_message. rewrite Hl. cbn [of_option mbind res_bind]. rewrite Hm. cbn [mbind res_bind].
  destruct Hs as (E1 & _ & _ & _ & _ & E6 & _ & _ & _ & E10).
  assert (registry_ok mHashFunc (set_conn l c' (mTcpServer s)) names) as Hok1.
  { eapply set_conn_ok; [done|exact Hl|exact E1|exact E10]. }
  destruct (rok_conn _ _ _ Hok _ _ _ Hl) as (Hname & _).
  assert (getConnPtrRef mHashFunc (getName c) (set_conn l c' (mTcpServer s)) = Ok (Some l)) as Hfind.
  { rewrite (getConn_denotes _ _ names) by apply Hok1. by rewrite Hname. }
  pose proof (checkHeartbeat_spec mHashFunc None (λ _ s, Ok s) now2 (HEARTBEAT_TIMEOUT_IN_SECONDS conf) (getName c)
    (set_conn l c' (mTcpServer s)) names) as Hspec.
  rewrite Hfind in Hspec. destruct Hspec as (c1 & j & Hc1 & _ & Hcheck); [by intros a x; exists x|done|by intros a x; exists x|].
  cbn in Hc1. rewrite lookup_alter_eq, Hl in Hc1. cbn in Hc1. injection Hc1 as <- <-.
  assert (heartbeat_expired now2 (getLastTimetamp c') (HEARTBEAT_TIMEOUT_IN_SECONDS conf) = true) as He.
  { unfold getLastTimetamp. rewrite E6. cbn. fold t0. apply heartbeat_expired_spec; lia. }
  rewrite He in Hcheck. destruct Hcheck as (s2 & Hs2 & Hgone & _).
  eexists _, s2. split; [done|]. by split_and!.
Qed.

(** A heartbeat of this server. *)
Abbreviation hb := (heartbeat_wire (MESSAGE_LOGIN_HEARTBEAT_MSG conf)).

(** A heartbeat that has arrived whole sets the time stamp to the time its
    sender put in and is answered with one of the server's own time. *)
Theorem heartbeat_answered millis r tid now answer hs c types (d : D) :
  in_range TTime millis → in_range TTime now → strlen (MESSAGE_LOGIN_HEARTBEAT_MSG conf) < 2 ^ 32 →
  content c = hb millis → ¬ lone c → mDataQueue (mOutputBuffer c) = [] → 0 <= answer <= strlen (hb now) →
  types !! tid = Some hs → hs !! MESSAGE_LOGIN_HEARTBEAT_MSG conf = Some (HHeartBeat r) →
  synced (TimestampMessage.base r) → Z.of_nat (length (ARRAY_LIKE_LENGHTS (TimestampMessage.base r)) + 1) < size_max →
  ∃ c' types', messageFunc tid now answer c types d = Ok (c', types', d) ∧
    content c' = [] ∧ outgoing c' = outgoing c ++ hb now ∧ getLastTimetamp c' = millis.
Proof.
  intros Hmi Hnow Hlen Hc Hl Hq Ha Htid Hh Hs Hr.
  destruct (heartbeat_receive millis r tid now hs c types) as (c' & types' & r' & Hrec & Hc' & Hside & Hr'); [done..|].
  unfold messageFunc. rewrite Hrec, heartbeat_reply_wire by done. cbn [mbind res_bind].
  eexists _, _. split; [done|]. destruct Hside as (_ & _ & _ & E4 & E5 & _).
  set (c1 := setCurrentTimestamp _ c').
  assert (strlen (hb now) < size_max) as Hwl.
  { unfold heartbeat_wire. rewrite strlen_wire, heartbeat_total. unfold size_max. lia. }
  assert (outgoing (send (hb now) answer c1) = outgoing c ++ hb now) as Hout.
  { rewrite outgoing_send; [|done|done|]; cbn [c1 mOutputBuffer setCurrentTimestamp sent].
    - rewrite E4, Hq, E5, take_drop. unfold outgoing. by rewrite Hq, app_nil_r.
    - rewrite E4, Hq. constructor. }
  destruct (send_keeps (hb now) answer c1) as (Hk1 & _ & _ & _ & _ & Hk6).
  rewrite Hout, Hk1, Hk6. by split_and!.
Qed.

(** What one pass makes of a carrier it is handed. *)
Lemma consumer_pass (s : Server) names (d d1 : D) id carrier :
  registry_ok mHashFunc s names →
  xreadgroup (BROKER_LOGIN_GROUP conf) (lit "LoginStreamConsumer") (BROKER_LOGIN_KEY conf) (lit ">")
    (STREAM_CUSTOMER_PULL_NAP_IN_MILLISECONDS conf) 1 d
    = (d1, inl {[ BROKER_LOGIN_KEY conf := [(id, Some (fill_vec carrier))] ]}) →
  loginStreamConsumer (s, d) =
    match names !! CLIENT_ID carrier with
    | Some l =>
        '(c, _) ← of_option NullDeref (conns (registry s) !! l);
        '(d, _) ← ack (BROKER_LOGIN_KEY conf) (BROKER_LOGIN_GROUP conf) id d1;
        Ok (set_conn l (putToBuffer (MESSAGE carrier) c) s, d)
    | None => '(d, _) ← del (BROKER_LOGIN_KEY conf) id d1; Ok (s, d)
    end.
Proof.
  intros Hok Hread. unfold loginStreamConsumer, pull_group, caught. rewrite Hread. unfold pulled_of.
  rewrite map_size_singleton. change (Z.of_nat 1) with 1. cbv iota beta. rewrite lookup_singleton_eq.
  change (of_option OutOfRange _) with (Ok (id, Some (fill_vec carrier))). cbn [of_option mbind res_bind].
  assert (LoginMessage.FILL_2_THIS (fill_vec carrier) (mkCarrier [] [] [] [] [] []) = Ok carrier) as ->.
  { by destruct carrier. }
  cbn [mbind res_bind]. rewrite (getConn_denotes _ _ names) by apply Hok. cbn [mbind res_bind].
  destruct (names !! CLIENT_ID carrier) as [l|]; [|done].
  by destruct (conns (registry s) !! l) as [[c i]|].
Qed.

(** An answer the broker hands over goes to the output of the connection it
    names, behind what waits there, and is acknowledged; when that client has gone
    the message is deleted but stays pending, unacknowledged. *)
Theorem response_delivered `{!StreamLaws D} (s : Server) names (d d1 : D) id carrier :
  registry_ok mHashFunc s names →
  xreadgroup (BROKER_LOGIN_GROUP conf) (lit "LoginStreamConsumer") (BROKER_LOGIN_KEY conf) (lit ">")
    (STREAM_CUSTOMER_PULL_NAP_IN_MILLISECONDS conf) 1 d
    = (d1, inl {[ BROKER_LOGIN_KEY conf := [(id, Some (fill_vec carrier))] ]}) →
  ∃ s2 d2, loginStreamConsumer (s, d) = Ok (s2, d2) ∧
    match getConnPtrRef mHashFunc (CLIENT_ID carrier) s with
    | Ok (Some l) => ∃ c i c2, conns (registry s) !! l = Some (c, i) ∧ conns (registry s2) !! l = Some (c2, i) ∧
        outgoing c2 = outgoing c ++ MESSAGE carrier ∧ writing c2 = true ∧
        pel d2 (BROKER_LOGIN_KEY conf) (BROKER_LOGIN_GROUP conf)
          = delete id (pel d1 (BROKER_LOGIN_KEY conf) (BROKER_LOGIN_GROUP conf))
    | _ => s2 = s ∧ id ∉ stored d2 (BROKER_LOGIN_KEY conf) ∧
        pel d2 (BROKER_LOGIN_KEY conf) (BROKER_LOGIN_GROUP conf)
          = pel d1 (BROKER_LOGIN_KEY conf) (BROKER_LOGIN_GROUP conf)
    end.
Proof.
  intros Hok Hread. rewrite (consumer_pass s names d d1 id carrier Hok Hread), (getConn_denotes _ _ names) by apply Hok.
  destruct (names !! CLIENT_ID carrier) as [l|] eqn:Hn.
  - destruct (rok_entry _ _ _ Hok _ _ Hn) as (c & i & Hc & _). rewrite Hc. cbn [of_option mbind res_bind].
    destruct (ack_law (BROKER_LOGIN_KEY conf) (BROKER_LOGIN_GROUP conf) id d1) as (d2 & Ha & Hp & _).
    unfold ack, uncaught. rewrite Ha. cbn [mbind res_bind]. eexists _, d2. split; [done|].
    exists c, i, (putToBuffer (MESSAGE carrier) c). rewrite Hp, outgoing_putToBuffer. split_and!; try done.
    cbn. by rewrite lookup_alter_eq, Hc.
  - destruct (del_law (BROKER_LOGIN_KEY conf) [id] d1) as (d2 & n & Hd & Hp & Hs & _).
    unfold del, uncaught. rewrite Hd. cbn [mbind res_bind]. exists s, d2. split; [done|].
    rewrite Hp, Hs. split_and!; [done|set_solver|done].
Qed.

(** A peer whose address is on the blacklist is shut out at the door: the
    acceptor closes its descriptor and the server is as it was; any other is
    passed on. *)
Theorem blacklist_enforced connfd (peer : SocketAddr) visitors f (s : Server) :
  0 < connfd →
  (host peer ∈ mConnBlacklist s →
     connFunc connfd peer visitors (Some connFilterFunc) (Some f) s
     = Ok (s, (λ q, q ++ [(connfd, peer)]) <$> visitors, Some connfd)) ∧
  (host peer ∉ mConnBlacklist s → ∀ s', f connfd peer s = Ok s' →
     connFunc connfd peer visitors (Some connFilterFunc) (Some f) s
     = Ok (s', (λ q, q ++ [(connfd, peer)]) <$> visitors, None)).
Proof.
  intros Hfd. unfold connFunc. rewrite (proj2 (Z.ltb_lt _ _)) by done. unfold connFilterFunc, isInBlacklist, addr_getIP.
  split; intros Hin.
  - by rewrite bool_decide_eq_true_2.
  - intros s' Hf. rewrite bool_decide_eq_false_2 by done. cbn [negb]. by rewrite Hf.
Qed.

(** The check closes a connection exactly when its time stamp is older than
    the time-out or lies in the future, as a client whose clock is ahead makes it,
    and leaves the others alone. *)
Theorem heartbeat_check now (s : Server) names l c i :
  registry_ok mHashFunc s names → conns (registry s) !! l = Some (c, i) →
  0 <= HEARTBEAT_TIMEOUT_IN_SECONDS conf < 2 ^ 32 → 0 <= now < 2 ^ 62 → 0 <= getLastTimetamp c < 2 ^ 62 →
  ∃ s', checkHeartbeat now (getName c) s = Ok s' ∧
    (getConnPtrRef mHashFunc (getName c) s' = Ok None ↔
       now < getLastTimetamp c ∨ HEARTBEAT_TIMEOUT_IN_SECONDS conf * 1000 <= now - getLastTimetamp c) ∧
    ∀ l', l' ≠ l → conns (registry s') !! l' = conns (registry s) !! l'.
Proof.
  intros Hok Hl Ht Hn Hc. destruct (rok_conn _ _ _ Hok _ _ _ Hl) as (Hname & _).
  assert (getConnPtrRef mHashFunc (getName c) s = Ok (Some l)) as Hfind.
  { rewrite (getConn_denotes _ _ names) by apply Hok. by rewrite Hname. }
  pose proof (checkHeartbeat_spec mHashFunc None (λ _ s, Ok s) now (HEARTBEAT_TIMEOUT_IN_SECONDS conf) (getName c) s names) as H1.
  rewrite Hfind in H1. destruct H1 as (c1 & j & Hc1 & _ & Hcheck); [by intros a x; exists x|done|by intros a x; exists x|].
  rewrite Hl in Hc1. injection Hc1 as <- <-.
  pose proof (heartbeat_expired_spec now (getLastTimetamp c) (HEARTBEAT_TIMEOUT_IN_SECONDS conf) Ht Hn Hc) as He.
  destruct (heartbeat_expired _ _ _).
  - destruct Hcheck as (s' & Hs' & Hgone & Hcs). exists s'. split; [done|]. split; [naive_solver|].
    intros l' Hne. rewrite Hcs. by apply lookup_delete_ne.
  - exists s. split; [done|]. split; [|done]. rewrite Hfind, <- He. naive_solver.
Qed.
End Login.

(** ** Witnesses *)

Definition demo_login : LoginRequestMessage.t :=
  LoginRequestMessage.mk
    (TimestampMessage.mk (set_name (MESSAGE_LOGIN_LOGIN_MSG defaultConf) newBaseMessage) 5000000) 20
    (lit "alice") (lit "secret").

Definition demo_reader : LoginRequestMessage.t := LoginRequestMessage.mk (TimestampMessage.new 1000) 0 [] [].

Definition demo_handlers : gmap str handler :=
  <[MESSAGE_LOGIN_LOGIN_MSG defaultConf := HLogin demo_reader]>
    {[ MESSAGE_LOGIN_HEARTBEAT_MSG defaultConf := HHeartBeat (TimestampMessage.new 1000) ]}.

Definition with_input (w : str) (c : TcpConnection) : TcpConnection := set_in (put w (mInputBuffer c)) c.

Lemma demo_login_waits c types :
  content c = msg_wire demo_login → ¬ lone c → types !! 1 = Some demo_handlers →
  login_waits demo_login demo_reader 1 demo_handlers c types.
Proof.
  intros Hc Hl Ht. split; [|done|done|done|apply lookup_insert_eq|done|by vm_compute].
  split; [by split_and!|split; by vm_compute].
Qed.

Lemma demo_heartbeat : demo_handlers !! MESSAGE_LOGIN_HEARTBEAT_MSG defaultConf = Some (HHeartBeat (TimestampMessage.new 1000)).
Proof. unfold demo_handlers. rewrite lookup_insert_ne by done. apply lookup_singleton_eq. Qed.

Lemma login_request_forwarded_witness :
  let c := with_input (msg_wire demo_login) demo_conn in
  ∃ c' types' d', messageFunc defaultConf 1 2000 0 c {[ 1 := demo_handlers ]} demo_store = Ok (c', types', d') ∧
    d' = (push (BROKER_DB_KEY defaultConf) (fill_vec {|
      TYPE := MSG_NAME (LoginRequestMessage.base demo_login); SERVICE := BROKER_LOGIN_KEY defaultConf;
      NEXT_SERVICE := BROKER_DB_KEY defaultConf; MESSAGE := msg_wire demo_login;
      CLIENT_ID := getName c; CLIENT_ADDRESS := getIPPort c |}) 5000 demo_store).1 ∧
    content c' = [] ∧ outgoing c' = outgoing c ∧
    getLastTimetamp c' = TimestampMessage.GET_MILLISECONDS_SINCE_EPOCH (LoginRequestMessage.parent demo_reader).
Proof. intros c. eapply login_request_forwarded. by apply demo_login_waits. Defined.

(** A server with one connection, which has just sent its login request. *)
Definition demo_id : str := generateConnID 9 demo_peer (demo_server).

Definition demo_client (w : str) : TcpConnection :=
  with_input w (newTcpConnection 9 (host demo_peer) (service demo_peer) demo_id).

Definition demo_accepted : TcpServer (R := Z) (F := str) :=
  match newConnectionFunc Z.gtb 1000 demo_hash None 9 demo_peer (newTcpServer (lit "Login") 7 demo_loops) with
  | Ok s => s
  | Err _ => newTcpServer (lit "Login") 7 demo_loops
  end.

Lemma demo_accepted_ok : registry_ok demo_hash demo_accepted {[ demo_id := 0%nat ]}.
Proof.
  set (s0 := newTcpServer (R := Z) (F := str) (lit "Login") 7 demo_loops).
  assert (registry_ok demo_hash s0 ∅) as H0 by (apply new_registry_ok; [lia|apply demo_loops_ok|done]).
  destruct (accept_step Z.gtb 1000 demo_hash None quiet_None 9 demo_peer s0 ∅ H0)
    as (s' & Hs' & _ & Hcase); [by split; [lia|]|].
  unfold demo_accepted. fold s0. rewrite Hs'.
  destruct Hcase as [(_ & _ & Hno)|(c & i & Hok & _)]; [|exact Hok].
  destruct (Hno 1); [by vm_compute|]. by eexists.
Qed.

Definition demo_conn_of (w : str) : TcpServer (R := Z) (F := str) := set_conn 0%nat (demo_client w) demo_accepted.

Lemma demo_conn_ok w : registry_ok demo_hash (demo_conn_of w) {[ demo_id := 0%nat ]}.
Proof. eapply set_conn_ok; [apply demo_accepted_ok|by vm_compute|by vm_compute|by vm_compute]. Qed.

Lemma login_keeps_old_clock_witness :
  let w := msg_wire demo_login in
  let s := mkLogin (demo_conn_of w) {[ 1 := demo_handlers ]} demo_store in
  ∃ s1 s2, on_message defaultConf 1 3600900 0 0%nat s = Ok s1 ∧
    checkHeartbeat demo_hash defaultConf 3601000 (getName (demo_client w)) (mTcpServer s1) = Ok s2 ∧
    getConnPtrRef demo_hash (getName (demo_client w)) (mTcpServer s1) = Ok (Some 0%nat) ∧
    getConnPtrRef demo_hash (getName (demo_client w)) s2 = Ok None.
Proof.
  intros w s. eapply (login_keeps_old_clock demo_hash defaultConf demo_login demo_reader 1 3600900 0 demo_handlers
    (demo_client w) 1 0%nat s {[ demo_id := 0%nat ]} 3601000).
  - apply demo_login_waits; [by vm_compute|by vm_compute|apply lookup_singleton_eq].
  - apply demo_conn_ok.
  - by vm_compute.
  - by vm_compute.
  - by vm_compute.
  - by vm_compute.
  - by vm_compute.
Defined.

Lemma heartbeat_answered_witness :
  let w := heartbeat_wire (MESSAGE_LOGIN_HEARTBEAT_MSG defaultConf) in
  let c := with_input (w 1234) demo_conn in
  ∃ c' types', messageFunc defaultConf 1 2000 5 c {[ 1 := demo_handlers ]} demo_store = Ok (c', types', demo_store) ∧
    content c' = [] ∧ outgoing c' = outgoing c ++ w 2000 ∧ getLastTimetamp c' = 1234.
Proof.
  intros w c. eapply (heartbeat_answered defaultConf 1234 (TimestampMessage.new 1000) 1 2000 5 demo_handlers c);
    [by vm_compute|by vm_compute|by vm_compute|by vm_compute|by vm_compute|done|by vm_compute
    |apply lookup_singleton_eq|apply demo_heartbeat|done|by vm_compute].
Defined.

Definition demo_answer : ClientCarrier :=
  {| TYPE := lit "LOGIN_LOGIN_MSG"; SERVICE := lit "db"; NEXT_SERVICE := lit "login"; MESSAGE := lit "answer";
     CLIENT_ID := demo_id; CLIENT_ADDRESS := lit "10.0.0.9:4000" |}.

Definition demo_mail : store :=
  mkStore ∅ ∅ ∅ {[ BROKER_LOGIN_KEY defaultConf := [(lit "1-0", Some (fill_vec demo_answer))] ]}.

Lemma response_delivered_witness :
  ∃ s2 d2, loginStreamConsumer demo_hash defaultConf (demo_accepted, demo_mail) = Ok (s2, d2) ∧
    match getConnPtrRef demo_hash (CLIENT_ID demo_answer) demo_accepted with
    | Ok (Some l) => ∃ c i c2, conns (registry demo_accepted) !! l = Some (c, i) ∧
        conns (registry s2) !! l = Some (c2, i) ∧
        outgoing c2 = outgoing c ++ MESSAGE demo_answer ∧ writing c2 = true ∧
        pel d2 (BROKER_LOGIN_KEY defaultConf) (BROKER_LOGIN_GROUP defaultConf)
          = delete (lit "1-0") (pel demo_mail (BROKER_LOGIN_KEY defaultConf) (BROKER_LOGIN_GROUP defaultConf))
    | _ => s2 = demo_accepted ∧ lit "1-0" ∉ stored d2 (BROKER_LOGIN_KEY defaultConf) ∧
        pel d2 (BROKER_LOGIN_KEY defaultConf) (BROKER_LOGIN_GROUP defaultConf)
          = pel demo_mail (BROKER_LOGIN_KEY defaultConf) (BROKER_LOGIN_GROUP defaultConf)
    end.
Proof.
  apply (response_delivered demo_hash defaultConf demo_accepted {[ demo_id := 0%nat ]} demo_mail demo_mail).
  - apply demo_accepted_ok.
  - unfold xreadgroup, store_redis, demo_mail, mkStore. cbn [sinbox]. by rewrite lookup_singleton_eq.
Defined.

Lemma blacklist_enforced_witness :
  let s := addToBlacklist [host demo_peer] demo_accepted in
  let f := λ _ _ s, Ok s in
  (host demo_peer ∈ mConnBlacklist s →
     connFunc 9 demo_peer None (Some connFilterFunc) (Some f) s = Ok (s, (λ q, q ++ [(9, demo_peer)]) <$> None, Some 9)) ∧
  (host demo_peer ∉ mConnBlacklist s → ∀ s', f 9 demo_peer s = Ok s' →
     connFunc 9 demo_peer None (Some connFilterFunc) (Some f) s = Ok (s', (λ q, q ++ [(9, demo_peer)]) <$> None, None)).
Proof. intros s f. apply blacklist_enforced. lia. Defined.

Lemma heartbeat_check_witness :
  let s := demo_conn_of [] in
  let c := demo_client [] in
  ∃ s', checkHeartbeat demo_hash defaultConf 5000 (getName c) s = Ok s' ∧
    (getConnPtrRef demo_hash (getName c) s' = Ok None ↔
       5000 < getLastTimetamp c ∨ HEARTBEAT_TIMEOUT_IN_SECONDS defaultConf * 1000 <= 5000 - getLastTimetamp c) ∧
    ∀ l', l' ≠ 0%nat → conns (registry s') !! l' = conns (registry s) !! l'.
Proof.
  intros s c. apply (heartbeat_check demo_hash defaultConf 5000 s {[ demo_id := 0%nat ]} 0%nat c 1);
    [apply demo_conn_ok|by vm_compute|by vm_compute..].
Defined.
