(* ===== verification/GameServer.v ===== *)
(** * The game server: [GameServer/]

    Dedicated servers (DS) run the scenes: they register with a load, update it
    and quit, and their characters are loaded from and uploaded to the database
    server through the broker.  [SceneManager] keeps the table of the scenes
    this server registered and the shared sorted sets of scenes by load. *)

From S2P Require Import Prelude.
From S2P Require Import BaseMessage.
From S2P Require Import Messages.
From S2P Require Import Carrier.
From S2P Require Import SafeHashmap.
From S2P Require Import IOBuffer.
From S2P Require Import Timer.
From S2P Require Import TcpConnection.
From S2P Require Import Poller.
From S2P Require Import EventLoop.
From S2P Require Import TcpServer.
From S2P Require Import Broker.
From S2P Require Import Dispatch.

Local Open Scope Z_scope.

(** [GameServConf.h], what the code below reads of it. *)
Record GameServConf := mkConf {
  SERVER_SAFE_HASH_BUCKET_SIZE : Z;
  CONNECTION_BLACKLIST : list str;
  HEARTBEAT_TIMEOUT_IN_SECONDS : Z;
  MESSAGE_GAME_BASE_MSG : str;
  MESSAGE_GAME_HEARTBEAT_MSG : str;
  MESSAGE_GAME_MSG : str;
  MESSAGE_GAME_CHARACTER_MSG : str;
  SERVICE_REGISTRY_ID_KEY : str;
  SERVICE_KEYS : str;
  GAME_KEYS : str;
  BROKER_DB_KEY : str;
  BROKER_GAME_KEY : str;
  BROKER_GAME_GROUP : str;
  BROKER_GAME_KEY_HEARTBEAT_IN_SECOND : Z;
  BROKER_GAME_KEY_HEARTBEAT_TOLERANCE : Z;
  BROKER_GAME_KEY_HEARTBEAT_MESSAGE : str;
  SERVICE_DS_PREFIX : str;
  STREAM_CUSTOMER_PULL_NAP_IN_MILLISECONDS : Z }.

Definition defaultConf : GameServConf :=
  mkConf 1031 [] 600 (lit "GAME_BASE_MSG") (lit "HEARTBEAT_MSG") (lit "GAME_MSG") (lit "GAME_CHARACTER_MSG")
    (lit "Warring:ServReg:IDSuffix") (lit "Warring:Service:KEYS") (lit "Warring:Service:GAMES")
    (lit "Warring:DBServ4GameServ") (lit "Warring:GameServ_") (lit "GameServ:Group") 5 3 (lit "SEND_HEARTBEAT")
    (lit "Warring:Scene:") 100.

Definition set_game_key (k : str) (c : GameServConf) : GameServConf :=
  mkConf (SERVER_SAFE_HASH_BUCKET_SIZE c) (CONNECTION_BLACKLIST c) (HEARTBEAT_TIMEOUT_IN_SECONDS c)
    (MESSAGE_GAME_BASE_MSG c) (MESSAGE_GAME_HEARTBEAT_MSG c) (MESSAGE_GAME_MSG c) (MESSAGE_GAME_CHARACTER_MSG c)
    (SERVICE_REGISTRY_ID_KEY c) (SERVICE_KEYS c) (GAME_KEYS c) (BROKER_DB_KEY c) k (BROKER_GAME_GROUP c)
    (BROKER_GAME_KEY_HEARTBEAT_IN_SECOND c) (BROKER_GAME_KEY_HEARTBEAT_TOLERANCE c)
    (BROKER_GAME_KEY_HEARTBEAT_MESSAGE c) (SERVICE_DS_PREFIX c) (STREAM_CUSTOMER_PULL_NAP_IN_MILLISECONDS c).

(** ** [SceneManager] *)

Section Scene.
Context {D : Type} `{Redis D}.

(** [mSceneAddresses]: the key of the scene at an address. *)
Abbreviation SceneManager := (gmap str str).

(** The results are [int]s made of [long]s. *)
Definition registerScene (ip sceneKey : str) (dsPort load : Z) (st : SceneManager * D)
    : SceneManager * D * Z :=
  let '(mSceneAddresses, d) := st in
  let address := ip ++ lit ":" ++ to_string dsPort in
  match mSceneAddresses !! address with
  | Some _ => (mSceneAddresses, d, -1)
  | None =>
      let '(d, n) := sortedAdd sceneKey address load d in
      (<[address := sceneKey]> mSceneAddresses, d, sint 32 n)
  end.

Definition removeScene (address : str) (st : SceneManager * D) : SceneManager * D * Z :=
  let '(mSceneAddresses, d) := st in
  match mSceneAddresses !! address with
  | None => (mSceneAddresses, d, -1)
  | Some sceneKey =>
      let '(d, n) := sortedRemove sceneKey address d in
      (delete address mSceneAddresses, d, sint 32 n)
  end.

Definition updateScene (address sceneKey : str) (load : Z) (st : SceneManager * D) : SceneManager * D * Z :=
  let '(mSceneAddresses, d) := st in
  let '(d, n) := sortedAdd sceneKey address load d in (mSceneAddresses, d, sint 32 n).

(** The empty string for none. *)
Definition getLowLoadScene (sceneKey : str) (d : D) : res (D * str) :=
  '(d, result) ← uncaught (zrangebyscore sceneKey) d;
  match result with
  | (address, _) :: _ => Ok (d, address)
  | [] => Ok (d, [])
  end.

Definition generateSceneIDKey (keyPrefix : str) (sceneID : Z) : str := keyPrefix ++ to_string sceneID.

(** ** The answer to a [DSMessage]

    The [switch] of [messageFunc]: the code of the reply. *)
Definition ds_switch (conf : GameServConf) (m : DSMessage.t) (c : TcpConnection) (st : SceneManager * D)
    : SceneManager * D * Z :=
  let sceneKey := generateSceneIDKey (SERVICE_DS_PREFIX conf) (DSMessage.SCENE_ID m) in
  let code := DSMessage.CODE m in
  if code =? code.game.GAME_DS_REGISTER_CODE then
    let '(st, result) := registerScene (getIP c) sceneKey (DSMessage.DS_PORT m) (DSMessage.LOAD m) st in
    (st, if 0 <=? result then code.game.GAME_DS_REGISTER_SUCCESS else code.game.GAME_DS_REGISTER_ERROR)
  else if code =? code.game.GAME_DS_UPDATE_CODE then
    let '(st, result) := updateScene (getIPPort c) sceneKey (DSMessage.LOAD m) st in
    (st, if 0 <=? result then code.game.GAME_DS_UPDATE_SUCCESS else code.game.GAME_DS_UPDATE_ERROR)
  else if code =? code.game.GAME_DS_QUIT_CODE then
    let '(st, result) := removeScene (getIPPort c) st in
    (st, if 0 <=? result then code.game.GAME_DS_QUIT_SUCCESS else code.game.GAME_DS_QUIT_ERROR)
  else (st, code.game.GAME_DS_UNKNOWN_ERROR).

(** [dsResMsg], made at [now], in bytes: its port and load are never set, and
    hold what the memory held, [junkPort] and [junkLoad]. *)
Definition ds_reply (now junkPort junkLoad code : Z) (m : DSMessage.t) : res str :=
  let b := set_name (MSG_NAME (DSMessage.base m)) newBaseMessage in
  let dsResMsg := DSMessage.mk (TimestampMessage.mk b now) code junkPort (DSMessage.SCENE_ID m) junkLoad [] in
  '(_, data) ← DSMessage.serialize (DSMessage.count dsResMsg);
  Ok data.
End Scene.

(** ** The handlers *)

Inductive handler :=
  | HTimestamp (m : TimestampMessage.t)
  | HHeartBeat (m : HeartBeatPacket)
  | HDS (m : DSMessage.t)
  | HCharacter (m : DSLoadOrUploadCharacterMessage.t).

Definition deserialize (data : str) (h : handler) : res handler :=
  match h with
  | HTimestamp m => HTimestamp <$> TimestampMessage.deserialize data m
  | HHeartBeat m => HHeartBeat <$> TimestampMessage.deserialize data m
  | HDS m => HDS <$> DSMessage.deserialize data m
  | HCharacter m => HCharacter <$> DSLoadOrUploadCharacterMessage.deserialize data m
  end.

Abbreviation handlers := (gmap Z (gmap str handler)).

(** New objects for the thread [tid], made at [now]; members without an
    initialiser are overwritten before they are read. *)
Definition register_types (conf : GameServConf) (now : Z) (types : handlers) (tid : Z) : handlers :=
  let ts := TimestampMessage.new now in
  let types := registerMessageType tid (MESSAGE_GAME_BASE_MSG conf) (HTimestamp ts) types in
  let types := registerMessageType tid (MESSAGE_GAME_HEARTBEAT_MSG conf) (HHeartBeat ts) types in
  let types := registerMessageType tid (MESSAGE_GAME_MSG conf) (HDS (DSMessage.mk ts 0 0 0 0 [])) types in
  registerMessageType tid (MESSAGE_GAME_CHARACTER_MSG conf)
    (HCharacter (DSLoadOrUploadCharacterMessage.mk ts 0 0 [] [] [])) types.

Section Game.
Context {R D : Type} `{Redis D} (mHashFunc : str → Z) (conf : GameServConf).

Abbreviation Server := (TcpServer (R := R) (F := str)).

(** [mBrokerRedis] and [mServRegRedis] are connections to one Redis. *)
Record GameServer := mkGame {
  mTcpServer : Server;
  mMessageTypes : handlers;
  mSceneAddresses : gmap str str;
  mRedis : D;
  keyWithAddress : str }.

(** The constructor, before [initKey]: [tids] are those of the loops. *)
Definition newGameServer (servName : str) (pool : EventLoopThreadpool (R := R)) (tids : list Z) (now : Z) (d : D) : GameServer :=
  mkGame (newTcpServer servName (SERVER_SAFE_HASH_BUCKET_SIZE conf) pool) (fold_left (register_types conf now) tids ∅) ∅ d [].

Definition initConnBlacklist (s : Server) : Server := addToBlacklist (CONNECTION_BLACKLIST conf) s.

Definition connFilterFunc (addr : SocketAddr) (s : Server) : bool := negb (isInBlacklist (addr_getIP addr) s).

Definition connNameFunc (now : Z) (connName : str) (s : Server) : res Server :=
  Ok (registerTimerTask now 0 0 (HEARTBEAT_TIMEOUT_IN_SECONDS conf) (-1) connName s).1.

(** [closeFunc]: what is set as the server's close function. *)
Definition closeFunc (address : str) (st : gmap str str * D) : gmap str str * D := (removeScene address st).1.

(** [GameHeartbeatOp::checkHeartbeat]: a scene goes before its connection. *)
Definition checkHeartbeat (now : Z) (mConnID : str) (s : GameServer) : res GameServer :=
  tcpConnPtr ← getConnPtrRef mHashFunc mConnID (mTcpServer s);
  match tcpConnPtr with
  | None => Ok s
  | Some l =>
      '(c, _) ← of_option NullDeref (conns (registry (mTcpServer s)) !! l);
      if heartbeat_expired now (getLastTimetamp c) (HEARTBEAT_TIMEOUT_IN_SECONDS conf) then
        let '(scenes, d, _) := removeScene (getIPPort c) (mSceneAddresses s, mRedis s) in
        let '(scenes, d) := closeFunc (getIPPort c) (scenes, d) in   (* by removeConnection *)
        tcp ← removeConnection mHashFunc None l (mTcpServer s);
        Ok (mkGame tcp (mMessageTypes s) scenes d (keyWithAddress s))
      else Ok s
  end.

(** ** [GameMessageOp::messageFunc] *)

Definition character_carrier (name msg : str) (c : TcpConnection) : ClientCarrier :=
  {| TYPE := name; SERVICE := BROKER_GAME_KEY conf; NEXT_SERVICE := BROKER_DB_KEY conf; MESSAGE := msg;
     CLIENT_ID := getName c; CLIENT_ADDRESS := getIPPort c |}.

Definition messageFunc (tid now answer junkPort junkLoad : Z) (c : TcpConnection) (types : handlers)
    (st : gmap str str * D) : res (TcpConnection * handlers * (gmap str str * D)) :=
  '(c, types, got) ← receive deserialize tid now c types;
  match got with
  | None => Ok (c, types, st)
  | Some (msg, HTimestamp m) => Ok (c, types, st)
  | Some (msg, HDS m) =>
      let c := setCurrentTimestamp (TimestampMessage.GET_MILLISECONDS_SINCE_EPOCH (DSMessage.parent m)) c in
      let '(st, code) := ds_switch conf m c st in
      data ← ds_reply now junkPort junkLoad code m;
      Ok (send data answer c, types, st)
  | Some (msg, HCharacter m) =>
      let c := setCurrentTimestamp
                 (TimestampMessage.GET_MILLISECONDS_SINCE_EPOCH (DSLoadOrUploadCharacterMessage.parent m)) c in
      let carrier := character_carrier (MSG_NAME (DSLoadOrUploadCharacterMessage.base m)) msg c in
      let '(d, _) := push (BROKER_DB_KEY conf) (GameMessage.FILL_2_VEC carrier []) 5000 st.2 in
      Ok (c, types, (st.1, d))
  | Some (msg, HHeartBeat m) =>
      let c := setCurrentTimestamp (TimestampMessage.GET_MILLISECONDS_SINCE_EPOCH m) c in
      data ← heartbeat_reply (MESSAGE_GAME_HEARTBEAT_MSG conf) now;
      Ok (send data answer c, types, st)
  end.

(** A read event of connection [l] that left bytes to look at. *)
Definition on_message (tid now answer junkPort junkLoad : Z) (l : loc) (s : GameServer) : res GameServer :=
  '(c, _) ← of_option NullDeref (conns (registry (mTcpServer s)) !! l);
  '(c, types, (scenes, d)) ← messageFunc tid now answer junkPort junkLoad c (mMessageTypes s) (mSceneAddresses s, mRedis s);
  Ok (mkGame (set_conn l c (mTcpServer s)) types scenes d (keyWithAddress s)).

(** ** [gameStreamConsumerFunc], one pass of its loop: nothing is acknowledged *)

Definition gameStreamConsumer (st : Server * D) : res (Server * D) :=
  let '(s, d) := st in
  let '(d, (pullResult, result)) :=
    pull_group (BROKER_GAME_KEY conf) (BROKER_GAME_GROUP conf) (lit "GameStreamConsumer") (lit ">")
      (STREAM_CUSTOMER_PULL_NAP_IN_MILLISECONDS conf) 1 d in
  match pullResult with
  | Some 1 =>
      '(_, fields) ← of_option OutOfRange (default [] (result !! BROKER_GAME_KEY conf) !! 0%nat);
      fields ← of_option BadArgument fields;
      carrier ← GameMessage.FILL_2_THIS fields (mkCarrier [] [] [] [] [] []);
      connPtr ← getConnPtrRef mHashFunc (CLIENT_ID carrier) s;
      match connPtr with
      | Some l =>
          '(c, _) ← of_option NullDeref (conns (registry s) !! l);
          Ok (set_conn l (putToBuffer (MESSAGE carrier) c) s, d)
      | None => Ok (s, d)
      end
  | _ => Ok (s, d)
  end.

(** ** The service registry *)

(** [GameServConf::intiKey]: the key of this server's stream gets a suffix. *)
Definition intiKey (d : D) : D * (GameServConf * bool) :=
  caught (incr (SERVICE_REGISTRY_ID_KEY conf)) (conf, false)
    (λ suffix, (set_game_key (BROKER_GAME_KEY conf ++ to_string suffix) conf, true)) d.

(** [GameServer::initKey]: the group of the new key. *)
Definition initKey (d : D) : D * (GameServConf * bool) :=
  let '(d, (conf, result)) := intiKey d in
  let '(d, _) := if result : bool then createGroup (BROKER_GAME_KEY conf) (BROKER_GAME_GROUP conf) (lit "$") d else (d, false) in
  (d, (conf, result)).

(** The seconds this server may be silent. *)
Definition ttl : Z :=
  u64 (BROKER_GAME_KEY_HEARTBEAT_IN_SECOND conf * BROKER_GAME_KEY_HEARTBEAT_TOLERANCE conf).

(** [registerService], up to the subscription. *)
Definition registerService (mIP : str) (mPort : Z) (s : GameServer) : res GameServer :=
  let key := BROKER_GAME_KEY conf ++ lit ":" ++ mIP ++ lit ":" ++ to_string mPort in
  '(d, _) ← uncaught (sadd (SERVICE_KEYS conf) key) (mRedis s);
  '(d, _) ← uncaught (hset key [(lit "address", mIP); (lit "port", to_string mPort)]) d;
  '(d, _) ← uncaught (expire key ttl) d;
  Ok (mkGame (mTcpServer s) (mMessageTypes s) (mSceneAddresses s) d key).

(** [front] of an empty message is undefined. *)
Definition onMessageFunc (msg : str) (s : GameServer) : res GameServer :=
  if decide (msg = BROKER_GAME_KEY_HEARTBEAT_MESSAGE conf) then
    activeNum ← getActiveConnectionNum (mTcpServer s);
    '(d, _) ← uncaught (expire (keyWithAddress s) ttl) (mRedis s);
    '(d, _) ← uncaught (zadd (GAME_KEYS conf) (keyWithAddress s) activeNum) d;
    Ok (mkGame (mTcpServer s) (mMessageTypes s) (mSceneAddresses s) d (keyWithAddress s))
  else match msg with [] => Err OutOfBounds | _ => Ok s end.
(** [start]: the timer and the blacklist, then the TCP server runs. *)
Definition start (t : option (Timer.TimeWheelTimer str)) (s : GameServer) : GameServer :=
  let tcp := TcpServer.start (initConnBlacklist (linkTimer t (mTcpServer s)).1) in
  mkGame tcp (mMessageTypes s) (mSceneAddresses s) (mRedis s) (keyWithAddress s).
End Game.

(** ** Scenes *)

Section Scenes.
Context {D : Type} `{SortedLaws D}.

Lemma sortedAdd_ok key member score (d : D) : ∃ d',
  sortedAdd key member score d = (d', match zset d key !! member with Some _ => 0 | None => 1 end) ∧
  zset d' key = <[member := score]> (zset d key) ∧ (∀ key', key' ≠ key → zset d' key' = zset d key').
Proof.
  destruct (zadd_law key member score d) as (d' & Hz & Hs & Ho). exists d'.
  unfold sortedAdd, caught. rewrite Hz. done.
Qed.

Lemma sortedRemove_ok key member (d : D) : ∃ d',
  sortedRemove key member d = (d', match zset d key !! member with Some _ => 1 | None => 0 end) ∧
  zset d' key = delete member (zset d key) ∧ (∀ key', key' ≠ key → zset d' key' = zset d key').
Proof.
  destruct (zrem_law key member d) as (d' & Hz & Hs & Ho). exists d'.
  unfold sortedRemove, caught. rewrite Hz. done.
Qed.

Lemma count_nonneg (o : option Z) : 0 <= sint 32 (match o with Some _ => 0 | None => 1 end).
Proof. by destruct o. Qed.

Lemma count_nonneg' (o : option Z) : 0 <= sint 32 (match o with Some _ => 1 | None => 0 end).
Proof. by destruct o. Qed.

(** Every scene of the table is offered under its key. *)
Definition offered (st : gmap str str * D) : Prop :=
  ∀ address key, st.1 !! address = Some key → is_Some (zset st.2 key !! address).

Lemma register_ok ip key port load st :
  offered st →
  let address := ip ++ lit ":" ++ to_string port in
  let '(st', n) := registerScene ip key port load st in
  offered st' ∧
  match st.1 !! address with
  | Some _ => st' = st ∧ n = -1
  | None => 0 <= n ∧ st'.1 = <[address := key]> st.1 ∧ zset st'.2 key = <[address := load]> (zset st.2 key)
  end.
Proof.
  intros Ho address. destruct st as [m d]. unfold registerScene. fold address. cbn [fst snd].
  destruct (m !! address) as [k|] eqn:Hm; [by split|].
  destruct (sortedAdd_ok key address load d) as (d' & -> & Hz & Hz'). split.
  - intros a k. cbn [fst snd]. intros [[<- <-]|[Hne Hk]]%lookup_insert_Some; [rewrite Hz, lookup_insert_eq; by eexists|].
    destruct (Ho a k Hk) as [x Hx]. cbn [snd] in Hx. destruct (decide (k = key)) as [->|].
    + rewrite Hz, lookup_insert_ne by done. by exists x.
    + rewrite Hz' by done. by exists x.
  - split_and!; [apply count_nonneg|done|done].
Qed.

(** ** Properties *)

(** [getLowLoadScene] returns an address of least load among those offered,
    and the empty string only when there is none. *)
Theorem lowest_load key (d : D) :
  [] ∉ dom (zset d key) →
  ∃ a, getLowLoadScene key d = Ok (d, a) ∧
    (a = [] ↔ zset d key = ∅) ∧
    (a ≠ [] → ∃ load, zset d key !! a = Some load ∧ ∀ b l, zset d key !! b = Some l → load <= l).
Proof.
  intros Hne. destruct (zrange_law key d) as (l & Hl & Hp & Hs). unfold getLowLoadScene, uncaught.
  rewrite Hl. cbn [mbind res_bind]. destruct l as [|[a load] l].
  - exists []. split; [done|]. apply Permutation_nil in Hp.
    apply map_to_list_empty_iff in Hp. split; [done|done].
  - exists a. split; [done|].
    assert (∀ x, x ∈ (a, load) :: l ↔ zset d key !! x.1 = Some x.2) as Hin.
    { intros [b y]. rewrite Hp. apply elem_of_map_to_list. }
    assert (zset d key !! a = Some load) as Ha by (apply (Hin (a, load)), elem_of_cons; by left).
    assert (a ≠ []) as Hna by (intros ->; apply Hne; by eapply elem_of_dom_2).
    split; [split; [done|intros E; by rewrite E in Ha]|]. intros _. exists load. split; [done|].
    intros b y Hb. apply (Hin (b, y)) in Hb. apply elem_of_cons in Hb as [[= -> ->]|Hb]; [done|].
    inversion Hs as [|? ? _ Hall]; subst. rewrite Forall_forall in Hall. apply (Hall (b, y) Hb).
Qed.

(** A scene is registered under the port it serves, but updates and quits
    under the port it connects from: when these differ the update offers a second
    address nobody serves, the quit is refused, and the scene that has quit is
    still offered and can not register again. *)
Theorem scene_never_quits (conf : GameServConf) (c : TcpConnection) (reg upd quit : DSMessage.t) (st : gmap str str * D) :
  let key := generateSceneIDKey (SERVICE_DS_PREFIX conf) (DSMessage.SCENE_ID reg) in
  let scene := getIP c ++ lit ":" ++ to_string (DSMessage.DS_PORT reg) in
  DSMessage.CODE reg = code.game.GAME_DS_REGISTER_CODE → DSMessage.CODE upd = code.game.GAME_DS_UPDATE_CODE →
  DSMessage.CODE quit = code.game.GAME_DS_QUIT_CODE → DSMessage.SCENE_ID upd = DSMessage.SCENE_ID reg →
  mPeerPort c ≠ to_string (DSMessage.DS_PORT reg) → offered st →
  st.1 !! scene = None → st.1 !! getIPPort c = None →
  ∃ st1 st2, ds_switch conf reg c st = (st1, code.game.GAME_DS_REGISTER_SUCCESS) ∧
    ds_switch conf upd c st1 = (st2, code.game.GAME_DS_UPDATE_SUCCESS) ∧
    ds_switch conf quit c st2 = (st2, code.game.GAME_DS_QUIT_ERROR) ∧
    zset st2.2 key !! scene = Some (DSMessage.LOAD reg) ∧
    zset st2.2 key !! getIPPort c = Some (DSMessage.LOAD upd) ∧
    (ds_switch conf reg c st2).2 = code.game.GAME_DS_REGISTER_ERROR.
Proof.
  intros key scene Hr Hu Hq Hid Hport Ho Hs Hp.
  assert (getIPPort c ≠ scene) as Hne.
  { unfold scene, getIPPort, getIP. intros E. by apply app_inv_head, app_inv_head in E. }
  pose proof (register_ok (getIP c) key (DSMessage.DS_PORT reg) (DSMessage.LOAD reg) st Ho) as Hreg.
  cbv zeta in Hreg. fold scene in Hreg. rewrite Hs in Hreg.
  unfold ds_switch. rewrite Hr, Hu, Hq, Hid. cbn -[registerScene updateScene removeScene]. fold key.
  destruct (registerScene (getIP c) key (DSMessage.DS_PORT reg) (DSMessage.LOAD reg) st) as [[m1 d1] n1].
  destruct Hreg as (_ & Hn1 & Hm1 & Hz1). cbn [fst snd] in *. rewrite (proj2 (Z.leb_le 0 n1)) by done.
  destruct (sortedAdd_ok key (getIPPort c) (DSMessage.LOAD upd) d1) as (d2 & Ha & Hz2 & _).
  assert (updateScene (getIPPort c) key (DSMessage.LOAD upd) (m1, d1)
    = (m1, d2, sint 32 (match zset d1 key !! getIPPort c with Some _ => 0 | None => 1 end))) as Hupd.
  { unfold updateScene. by rewrite Ha. }
  exists (m1, d1), (m1, d2). rewrite Hupd. rewrite (proj2 (Z.leb_le 0 (sint 32 _))) by apply count_nonneg.
  assert (removeScene (getIPPort c) (m1, d2) = (m1, d2, -1)) as Hrem.
  { unfold removeScene. rewrite Hm1, lookup_insert_ne by done. by rewrite Hp. }
  rewrite Hrem. split_and!; try done.
  - cbn [snd]. rewrite Hz2, lookup_insert_ne, Hz1 by done. apply lookup_insert_eq.
  - cbn [snd]. rewrite Hz2. apply lookup_insert_eq.
  - unfold registerScene. fold scene. by rewrite Hm1, lookup_insert_eq.
Qed.

(** When the registry calls for heartbeats, the load this server publishes
    under its key is the number of its live connections plus its loops. *)
Theorem load_published {R : Type} (mHashFunc : str → Z) conf (s : GameServer (R := R) (D := D)) names d1 n :
  registry_ok mHashFunc (mTcpServer s) names →
  expire (keyWithAddress s) (ttl conf) (mRedis s) = (d1, inl n) →
  let live := Z.of_nat (base.size (conns (registry (mTcpServer s)))) in
  ∃ s', onMessageFunc conf (BROKER_GAME_KEY_HEARTBEAT_MESSAGE conf) s = Ok s' ∧
    zset (mRedis s') (GAME_KEYS conf) !! keyWithAddress s = Some (u64 (mEventLoopThdNum (mTcpServer s) + live)).
Proof.
  intros Hok He live. unfold onMessageFunc. rewrite decide_True by done.
  rewrite active_spec by apply Hok. cbn [mbind res_bind]. unfold uncaught. rewrite He. cbn [mbind res_bind].
  destruct (zadd_law (GAME_KEYS conf) (keyWithAddress s)
    (u64 (events (mEventLoopThreadpool (registry (mTcpServer s))))) d1) as (d' & -> & Hz & _).
  cbn [mbind res_bind]. eexists. split; [done|]. cbn [mRedis]. rewrite Hz, lookup_insert_eq.
  by rewrite (rok_events _ _ _ Hok), (rok_num _ _ _ Hok).
Qed.

End Scenes.

(** ** Witnesses *)

Definition demo_board : store :=
  mkStore ∅ ∅ {[ lit "Warring:Scene:7" := list_to_map [(lit "10.0.0.9:7001", 40); (lit "10.0.0.8:7001", 5)] ]} ∅.

Lemma lowest_load_witness :
  ∃ a, getLowLoadScene (lit "Warring:Scene:7") demo_board = Ok (demo_board, a) ∧
    (a = [] ↔ zset demo_board (lit "Warring:Scene:7") = ∅) ∧
    (a ≠ [] → ∃ load, zset demo_board (lit "Warring:Scene:7") !! a = Some load ∧
       ∀ b l, zset demo_board (lit "Warring:Scene:7") !! b = Some l → load <= l).
Proof. apply lowest_load. apply not_elem_of_dom. by vm_compute. Defined.

Definition demo_ds (code load : Z) : DSMessage.t :=
  DSMessage.mk (TimestampMessage.new 1000) code 7001 7 load [].

Lemma scene_never_quits_witness :
  let reg := demo_ds code.game.GAME_DS_REGISTER_CODE 0 in
  let upd := demo_ds code.game.GAME_DS_UPDATE_CODE 12 in
  let quit := demo_ds code.game.GAME_DS_QUIT_CODE 0 in
  let key := generateSceneIDKey (SERVICE_DS_PREFIX defaultConf) (DSMessage.SCENE_ID reg) in
  let scene := getIP demo_conn ++ lit ":" ++ to_string (DSMessage.DS_PORT reg) in
  let st := (∅, demo_board) in
  ∃ st1 st2, ds_switch defaultConf reg demo_conn st = (st1, code.game.GAME_DS_REGISTER_SUCCESS) ∧
    ds_switch defaultConf upd demo_conn st1 = (st2, code.game.GAME_DS_UPDATE_SUCCESS) ∧
    ds_switch defaultConf quit demo_conn st2 = (st2, code.game.GAME_DS_QUIT_ERROR) ∧
    zset st2.2 key !! scene = Some (DSMessage.LOAD reg) ∧
    zset st2.2 key !! getIPPort demo_conn = Some (DSMessage.LOAD upd) ∧
    (ds_switch defaultConf reg demo_conn st2).2 = code.game.GAME_DS_REGISTER_ERROR.
Proof.
  intros reg upd quit key scene st. apply scene_never_quits; [done|done|done|done|by vm_compute| |done|done].
  intros a k. cbn. by rewrite lookup_empty.
Defined.

Definition demo_tcp : TcpServer (R := Z) (F := str) := newTcpServer (lit "Game") 7 demo_loops.

Lemma load_published_witness :
  let s := mkGame demo_tcp ∅ ∅ demo_board (lit "Warring:GameServ_1:10.0.0.1:8000") in
  let live := Z.of_nat (base.size (conns (registry (mTcpServer s)))) in
  ∃ s', onMessageFunc defaultConf (BROKER_GAME_KEY_HEARTBEAT_MESSAGE defaultConf) s = Ok s' ∧
    zset (mRedis s') (GAME_KEYS defaultConf) !! keyWithAddress s
      = Some (u64 (mEventLoopThdNum (mTcpServer s) + live)).
Proof.
  intros s live. apply (load_published demo_hash defaultConf s ∅ demo_board false); [|done].
  apply new_registry_ok; [lia|apply demo_loops_ok|done].
Defined.
