(* ===== verification/GatewayServer.v ===== *)
(** * The gateway: [GatewayServer/]

    Built like the login server, but its requests end here: the carriers it
    makes are not pushed, and its consumer makes one pass and stops. *)

From S2P Require Import Prelude.
From S2P Require Import BaseMessage.
From S2P Require Import Messages.
From S2P Require Import Carrier.
From S2P Require Import SafeHashmap.
From S2P Require Import IOBuffer.
From S2P Require Import Timer.
From S2P Require Import TcpConnection.
From S2P Require Import Poller.
From S2P Require Import EventLoop.
From S2P Require Import TcpServer.
From S2P Require Import Broker.
From S2P Require Import Dispatch.

Local Open Scope Z_scope.

(** [GatewayServConf.h], what the code below reads of it. *)
Record GatewayServConf := mkConf {
  SERVER_SAFE_HASH_BUCKET_SIZE : Z;
  CONNECTION_BLACKLIST : list str;
  HEARTBEAT_TIMEOUT_IN_SECONDS : Z;
  MESSAGE_GATEWAY_BASE_MSG : str;
  MESSAGE_GATEWAY_HEARTBEAT_MSG : str;
  MESSAGE_GATEWAY_ENTER_GANE_MSG : str;
  SERVICE_REGISTRY_ID_KEY : str;
  SERVICE_KEYS : str;
  GATEWAY_KEYS : str;
  BROKER_GATEWAY_KEY : str;
  BROKER_GATEWAY_GROUP : str;
  BROKER_GATEWAY_KEY_HEARTBEAT_IN_SECOND : Z;
  BROKER_GATEWAY_KEY_HEARTBEAT_TOLERANCE : Z;
  BROKER_GATEWAY_KEY_HEARTBEAT_MESSAGE : str;
  STREAM_CUSTOMER_PULL_NAP_IN_MILLISECONDS : Z }.

Definition defaultConf : GatewayServConf :=
  mkConf 1031 [] 60 (lit "GATEWAY_BASE_MSG") (lit "HEARTBEAT_MSG") (lit "GATEWAY_ENTER_GAME_MSG")
    (lit "Warring:ServReg:IDSuffix") (lit "Warring:Service:KEYS") (lit "Warring:Service:GATEWAYS")
    (lit "Warring:GatewayServ_") (lit "GatewayServ:Group") 5 3 (lit "SEND_HEARTBEAT") 100.

Definition set_gateway_key (k : str) (c : GatewayServConf) : GatewayServConf :=
  mkConf (SERVER_SAFE_HASH_BUCKET_SIZE c) (CONNECTION_BLACKLIST c) (HEARTBEAT_TIMEOUT_IN_SECONDS c) (MESSAGE_GATEWAY_BASE_MSG c)
    (MESSAGE_GATEWAY_HEARTBEAT_MSG c) (MESSAGE_GATEWAY_ENTER_GANE_MSG c) (SERVICE_REGISTRY_ID_KEY c)
    (SERVICE_KEYS c) (GATEWAY_KEYS c) k (BROKER_GATEWAY_GROUP c) (BROKER_GATEWAY_KEY_HEARTBEAT_IN_SECOND c)
    (BROKER_GATEWAY_KEY_HEARTBEAT_TOLERANCE c) (BROKER_GATEWAY_KEY_HEARTBEAT_MESSAGE c)
    (STREAM_CUSTOMER_PULL_NAP_IN_MILLISECONDS c).

Inductive handler :=
  | HTimestamp (m : TimestampMessage.t)
  | HHeartBeat (m : HeartBeatPacket)
  | HEnter (m : EnterGameRequestMessage.t)
  | HChat (m : ChatRequestMessage.t).

Definition deserialize (data : str) (h : handler) : res handler :=
  match h with
  | HTimestamp m => HTimestamp <$> TimestampMessage.deserialize data m
  | HHeartBeat m => HHeartBeat <$> TimestampMessage.deserialize data m
  | HEnter m => HEnter <$> EnterGameRequestMessage.deserialize data m
  | HChat m => HChat <$> ChatRequestMessage.deserialize data m
  end.

Abbreviation handlers := (gmap Z (gmap str handler)).

(** No [ChatRequestMessage] is registered. *)
Definition register_types (conf : GatewayServConf) (now : Z) (types : handlers) (tid : Z) : handlers :=
  let ts := TimestampMessage.new now in
  let types := registerMessageType tid (MESSAGE_GATEWAY_BASE_MSG conf) (HTimestamp ts) types in
  let types := registerMessageType tid (MESSAGE_GATEWAY_HEARTBEAT_MSG conf) (HHeartBeat ts) types in
  registerMessageType tid (MESSAGE_GATEWAY_ENTER_GANE_MSG conf)
    (HEnter (EnterGameRequestMessage.mk ts 0 [] [])) types.

Section Gateway.
Context {R D : Type} `{Redis D} (mHashFunc : str → Z) (conf : GatewayServConf).

Abbreviation Server := (TcpServer (R := R) (F := str)).

Record GatewayServer := mkGateway {
  mTcpServer : Server;
  mMessageTypes : handlers;
  mRedis : D;
  keyWithAddress : str }.

(** The constructor, before [initKey]: [tids] are those of the loops. *)
Definition newGatewayServer (servName : str) (pool : EventLoopThreadpool (R := R)) (tids : list Z) (now : Z) (d : D) : GatewayServer :=
  mkGateway (newTcpServer servName (SERVER_SAFE_HASH_BUCKET_SIZE conf) pool) (fold_left (register_types conf now) tids ∅) d [].

Definition initConnBlacklist (s : Server) : Server := addToBlacklist (CONNECTION_BLACKLIST conf) s.

Definition connFilterFunc (addr : SocketAddr) (s : Server) : bool := negb (isInBlacklist (addr_getIP addr) s).

Definition connNameFunc (now : Z) (connName : str) (s : Server) : res Server :=
  Ok (registerTimerTask now 0 0 (HEARTBEAT_TIMEOUT_IN_SECONDS conf) (-1) connName s).1.

(** [GatewayHeartbeatOp]. *)
Definition checkHeartbeat (now : Z) (mConnID : str) (s : Server) : res Server :=
  checkHeartbeat_with mHashFunc None (λ _ s, Ok s) now (HEARTBEAT_TIMEOUT_IN_SECONDS conf) mConnID s.

(** [GatewayMessageOp::messageFunc]: the carriers of the requests go nowhere. *)
Definition messageFunc (tid now answer : Z) (c : TcpConnection) (types : handlers)
    : res (TcpConnection * handlers) :=
  '(c, types, got) ← receive deserialize tid now c types;
  match got with
  | None => Ok (c, types)
  | Some (msg, HTimestamp m) => Ok (c, types)
  | Some (msg, HEnter m) =>
      Ok (setCurrentTimestamp (TimestampMessage.GET_MILLISECONDS_SINCE_EPOCH (EnterGameRequestMessage.parent m)) c, types)
  | Some (msg, HChat m) =>
      Ok (setCurrentTimestamp (TimestampMessage.GET_MILLISECONDS_SINCE_EPOCH (ChatRequestMessage.parent m)) c, types)
  | Some (msg, HHeartBeat m) =>
      let c := setCurrentTimestamp (TimestampMessage.GET_MILLISECONDS_SINCE_EPOCH m) c in
      data ← heartbeat_reply (MESSAGE_GATEWAY_HEARTBEAT_MSG conf) now;
      Ok (send data answer c, types)
  end.

(** A read event of connection [l] that left bytes to look at. *)
Definition on_message (tid now answer : Z) (l : loc) (s : GatewayServer) : res GatewayServer :=
  '(c, _) ← of_option NullDeref (conns (registry (mTcpServer s)) !! l);
  '(c, types) ← messageFunc tid now answer c (mMessageTypes s);
  Ok (mkGateway (set_conn l c (mTcpServer s)) types (mRedis s) (keyWithAddress s)).

(** [gatewayStreamConsumerFunc]: its [while] is commented out. *)
Definition gatewayStreamConsumerFunc (st : Server * D) : res (Server * D) :=
  let '(s, d) := st in
  let '(d, (pullResult, result)) :=
    pull_group (BROKER_GATEWAY_KEY conf) (BROKER_GATEWAY_GROUP conf) (lit "GatewayStreamConsumer") (lit ">")
      (STREAM_CUSTOMER_PULL_NAP_IN_MILLISECONDS conf) 1 d in
  match pullResult with
  | Some 1 =>
      '(_, fields) ← of_option OutOfRange (default [] (result !! BROKER_GATEWAY_KEY conf) !! 0%nat);
      fields ← of_option BadArgument fields;
      carrier ← GatewayMessage.FILL_2_THIS fields (mkCarrier [] [] [] [] [] []);
      connPtr ← getConnPtrRef mHashFunc (CLIENT_ID carrier) s;
      match connPtr with
      | Some l =>
          '(c, _) ← of_option NullDeref (conns (registry s) !! l);
          Ok (set_conn l (putToBuffer (MESSAGE carrier) c) s, d)
      | None => Ok (s, d)
      end
  | _ => Ok (s, d)
  end.

(** [GatewayServConf::intiKey] *)
Definition intiKey (d : D) : D * (GatewayServConf * bool) :=
  caught (incr (SERVICE_REGISTRY_ID_KEY conf)) (conf, false)
    (λ suffix, (set_gateway_key (BROKER_GATEWAY_KEY conf ++ to_string suffix) conf, true)) d.

(** [GatewayServer::initKey] *)
Definition initKey (d : D) : D * (GatewayServConf * bool) :=
  let '(d, (conf, result)) := intiKey d in
  let '(d, _) := if result : bool then createGroup (BROKER_GATEWAY_KEY conf) (BROKER_GATEWAY_GROUP conf) (lit "$") d else (d, false) in
  (d, (conf, result)).

Definition ttl : Z :=
  u64 (BROKER_GATEWAY_KEY_HEARTBEAT_IN_SECOND conf * BROKER_GATEWAY_KEY_HEARTBEAT_TOLERANCE conf).

(** [registerService], up to the subscription. *)
Definition registerService (mIP : str) (mPort : Z) (s : GatewayServer) : res GatewayServer :=
  let key := BROKER_GATEWAY_KEY conf ++ lit ":" ++ mIP ++ lit ":" ++ to_string mPort in
  '(d, _) ← uncaught (sadd (SERVICE_KEYS conf) key) (mRedis s);
  '(d, _) ← uncaught (hset key [(lit "address", mIP); (lit "port", to_string mPort)]) d;
  '(d, _) ← uncaught (expire key ttl) d;
  Ok (mkGateway (mTcpServer s) (mMessageTypes s) d key).

Definition onMessageFunc (msg : str) (s : GatewayServer) : res GatewayServer :=
  if decide (msg = BROKER_GATEWAY_KEY_HEARTBEAT_MESSAGE conf) then
    activeNum ← getActiveConnectionNum (mTcpServer s);
    '(d, _) ← uncaught (expire (keyWithAddress s) ttl) (mRedis s);
    '(d, _) ← uncaught (zadd (GATEWAY_KEYS conf) (keyWithAddress s) activeNum) d;
    Ok (mkGateway (mTcpServer s) (mMessageTypes s) d (keyWithAddress s))
  else match msg with [] => Err OutOfBounds | _ => Ok s end.
(** [start]: the timer and the blacklist, then the TCP server runs. *)
Definition start (t : option (Timer.TimeWheelTimer str)) (s : GatewayServer) : GatewayServer :=
  let tcp := TcpServer.start (initConnBlacklist (linkTimer t (mTcpServer s)).1) in
  mkGateway tcp (mMessageTypes s) (mRedis s) (keyWithAddress s).
End Gateway.
