(* ===== verification/Servers.v ===== *)
(** * The servers on the network: [LoginServer/], [GatewayServer/] and [GameServer/] over [Base/net/]

    The functions a server sets on its [TcpServer] are an instance of the owner's
    functions of [Network]: what the server keeps beside its [TcpServer] is the owner's
    part of the network.  The operations of a server, the messages of its connections,
    the checks of its timer and the passes of its consumer, are steps of the network
    it runs on. *)

From stdpp Require Import functions.
From S2P Require Import Prelude BaseMessage Messages SafeHashmap IOBuffer.
From S2P Require TcpConnection.
From S2P Require Import Socket Poller EventLoop TcpServer Acceptor Network Broker Dispatch.
From S2P Require LoginServer GatewayServer GameServer.

Local Open Scope Z_scope.

Abbreviation Server R := (@TcpServer.TcpServer R str).

(** ** What a server promises to the network *)

Record Service (R Ow Ev : Type) := {
  sv_name : Ev → str → Server R → res (Server R);
  sv_close : str → Ow → Ow;
  sv_message : Ev → Connection → Server R → Ow → res (Connection * Server R * Ow);
  sv_filter : SocketAddr → Server R → bool;
  sv_quiet e : quiet (Some (sv_name e));
  sv_obliging : obliging sv_message }.
Arguments sv_name {R Ow Ev}. Arguments sv_close {R Ow Ev}. Arguments sv_message {R Ow Ev}.
Arguments sv_filter {R Ow Ev}. Arguments sv_quiet {R Ow Ev}. Arguments sv_obliging {R Ow Ev}.

Section Service.
Context {R Ke Ks Ow Ev : Type} `{EpollKernel Ke} `{SocketLaws Ks}.
Context (gtb : R → R → bool) (rate_max : R) (mHashFunc : str → Z) (mNoDelay : bool).
Context (sv : Service R Ow Ev).

Abbreviation Net := (Network R str Ke Ks Ow).

Definition service_step : net_event → Net → res Net :=
  net_step gtb rate_max mHashFunc mNoDelay (λ e, Some (sv_name sv e)) None (sv_close sv) (Some (sv_message sv)) (Some (sv_filter sv)).
Definition service_run : Net → Net → Prop :=
  net_reachable gtb rate_max mHashFunc mNoDelay (λ e, Some (sv_name sv e)) None (sv_close sv) (Some (sv_message sv)) (Some (sv_filter sv)).
Definition service_message : loc → Ev → Connection → Net → res Net := Network.messageFunc (Some (sv_message sv)).
Definition service_fault (x : fault) : Prop := message_fault (Some (sv_message sv)) x.

Lemma sv_some f : Some (sv_message sv) = Some f → obliging f.
Proof. intros [= <-]. apply sv_obliging. Qed.
Lemma close_quiet {F} : quiet (R := R) (F := F) None.
Proof. intros a s. by exists s. Qed.

Lemma service_in_step (n0 n : Net) :
  new_network n0 → service_run n0 n → ∃ m, in_step mHashFunc (dom (table (the_kernel n0))) n m ∧ 0 ∈ dom (table (the_kernel n0)).
Proof.
  intros Hnew Hr. destruct (new_in_step mHashFunc n0 Hnew) as [H1 Ht0].
  destruct (net_reachable_ok _ _ mHashFunc _ _ _ _ _ _ (sv_quiet sv) close_quiet sv_some _ n0 n ∅ H1 Ht0 Hr) as [m Hn]. by exists m.
Qed.

(** Every step of a server's network. *)
Lemma service_runs (n0 n : Net) e : new_network n0 → service_run n0 n → net_legal e n →
  match service_step e n with Ok n' => parts_agree mHashFunc n0 n' | Err x => service_fault x end.
Proof.
  intros Hnew Hr Hl. unfold service_step.
  destruct (reachable_runs gtb rate_max mHashFunc mNoDelay _ _ _ _ _ (sv_quiet sv) close_quiet sv_some n0 n e Hnew Hr Hl)
    as [_ [(n' & -> & Hn')|(x & -> & Hx)]]; done.
Qed.

Lemma update_handler_server l w (n n' : Net) :
  update_handler l w n = Ok n' → the_server n' = the_server n ∧ the_owner n' = the_owner n.
Proof.
  unfold update_handler. intros Hu.
  destruct (live n !! l) as [[c i]|]; [|done]. cbn [of_option mbind res_bind] in Hu.
  destruct (mConnectionHandlerPtr n !! l) as [h|]; [|done]. cbn [of_option mbind res_bind] in Hu.
  destruct (update_writing h w _) as [lo|]; [|done]. by injection Hu as <-.
Qed.

(** A message on a connection does to the server and its owner what the message
    function does, and stores the connection it gives. *)
Lemma service_message_ok (n0 n : Net) l c i e :
  new_network n0 → service_run n0 n → live n !! l = Some (c, i) →
  match sv_message sv e c (the_server n) (the_owner n) with
  | Ok (c', s, o) => ∃ n', service_message l e c n = Ok n' ∧ the_server n' = set_conn l c' s ∧ the_owner n' = o
  | Err x => service_message l e c n = Err x
  end.
Proof.
  intros Hnew Hr Hl. destruct (service_in_step n0 n Hnew Hr) as (m & Hn & _).
  pose proof (messageFunc_ok mHashFunc (Some (sv_message sv)) sv_some _ n m l e c i Hn Hl) as Hm.
  unfold service_message in *. unfold Network.messageFunc in *. destruct (sv_message sv e c _ _) as [[[c' s] o]|x] eqn:Hf; [|done].
  cbn [mbind res_bind] in *. destruct (Bool.eqb _ _); [by eexists|].
  destruct Hm as [(n' & c2 & Hu & _)|(x & Hu & Hx)].
  - destruct (update_handler_server _ _ _ _ Hu) as [E1 E2]. by exists n'.
  - exfalso. destruct (sv_obliging sv _ _ _ _ _ _ _ (proj2 (proj2 (is_conn _ _ _ _ Hn l c i Hl))) Hf) as (Hc & R1 & R2 & R3).
    pose proof (in_step_server mHashFunc _ n m s o R1 R2 R3 Hn) as Hs.
    assert (live (set_owner o (set_server s n)) !! l = Some (c, i)) as Hl' by (unfold live; cbn; by rewrite R1).
    destruct (put_update mHashFunc _ l c c' i _ m Hs Hl' Hc) as (n' & Hu' & _). by rewrite Hu' in Hu.
Qed.

(** The other threads of a server. *)
Lemma service_outside (n0 n : Net) o : service_run n0 n → service_run n0 (set_owner o n).
Proof.
  intros Hr. eapply (net_went _ _ _ _ _ _ _ _ _ _ n (Outside (tasks (the_server n)) o)); [exact Hr|done|].
  cbn [net_step]. f_equal. destruct n as [s ? ? ? ? ?]. by destruct s.
Qed.

Lemma service_close (n0 n : Net) l c i :
  new_network n0 → service_run n0 n → live n !! l = Some (c, i) →
  ∃ n', service_run n0 n' ∧ removeConnection mHashFunc None l (the_server n) = Ok (the_server n') ∧
    the_owner n' = sv_close sv (TcpConnection.getIPPort c) (the_owner n).
Proof.
  intros Hnew Hr Hl. destruct (service_in_step n0 n Hnew Hr) as (m & Hn & _).
  destruct (closed_ok mHashFunc None (sv_close sv) close_quiet _ n m l c i Hn Hl) as (n' & Hc & _).
  exists n'. split; [by eapply (net_went _ _ _ _ _ _ _ _ _ _ n (Closed l)); [exact Hr|eexists|exact Hc]|].
  unfold closeConnection in Hc. rewrite Hl in Hc. cbn [of_option mbind res_bind] in Hc.
  destruct (removeConnection _ _ _ _) as [s|]; [|done]. cbn [mbind res_bind] in Hc.
  destruct (live (set_owner _ _) !! l); [by injection Hc as <-|]. unfold destroyConnection in Hc. cbn [set_server set_owner mConnectionHandlerPtr] in Hc.
  destruct (mConnectionHandlerPtr n !! l); [|done]. cbn [of_option mbind res_bind] in Hc.
  destruct (loop_remove _ _); [|done]. by injection Hc as <-.
Qed.

Lemma service_sent (n0 n : Net) l c i data :
  new_network n0 → service_run n0 n → live n !! l = Some (c, i) →
  ∃ n', service_run n0 n' ∧ the_server n' = set_conn l (TcpConnection.putToBuffer data c) (the_server n) ∧ the_owner n' = the_owner n.
Proof.
  intros Hnew Hr Hl. destruct (service_in_step n0 n Hnew Hr) as (m & Hn & _).
  destruct (putToBuffer_ok mHashFunc _ n m l c i data Hn Hl) as (n' & m' & Hp & _).
  exists n'. split; [by eapply (net_went _ _ _ _ _ _ _ _ _ _ n (Sent l data)); [exact Hr|eexists|exact Hp]|].
  unfold Network.putToBuffer in Hp. rewrite Hl in Hp. exact (update_handler_server _ _ _ _ Hp).
Qed.

(** What the registry finds is live. *)
Lemma service_found (n0 n : Net) id :
  new_network n0 → service_run n0 n →
  match getConnPtrRef mHashFunc id (the_server n) with
  | Ok (Some l) => ∃ c i, live n !! l = Some (c, i)
  | Ok None => True
  | Err _ => False
  end.
Proof.
  intros Hnew Hr. destruct (service_in_step n0 n Hnew Hr) as (m & Hn & _). pose proof (is_registry _ _ _ _ Hn) as Hreg.
  rewrite (getConn_denotes _ _ m) by apply Hreg. destruct (m !! id) as [l|] eqn:Hm; [|done].
  destruct (rok_entry _ _ _ Hreg _ _ Hm) as (c & i & Hc & _). by exists c, i.
Qed.
End Service.

(** ** What a message function may do to its connection *)

Lemma same_conn_trans c1 c2 c3 : same_conn c1 c2 → same_conn c2 c3 → same_conn c1 c3.
Proof. intros (A1 & A2 & _) (B1 & B2 & B3). split; [by rewrite B1|split; [by rewrite B2|done]]. Qed.

Lemma tryGet_buffer len t c :
  IOBuffer.ok (TcpConnection.mInputBuffer c) → IOBuffer.ok (TcpConnection.mInputBuffer (TcpConnection.tryGet len t c).1).
Proof.
  intros []. unfold TcpConnection.tryGet.
  destruct (TcpConnection.mIncompleteMessage c) as [|x inc]; repeat case_match; simplify_eq; cbn; try (by split);
    match goal with Hg : get _ = _ |- _ => unfold get in Hg; destruct (mDataQueue (TcpConnection.mInputBuffer c)); simplify_eq; by split end.
Qed.

Lemma frame_same c : IOBuffer.ok (TcpConnection.mInputBuffer c) → same_conn c (TcpConnection.frame c).1.
Proof.
  intros Hb. destruct (frame_keeps c) as (H1 & _ & _ & _ & _ & _ & _ & _ & _ & H2). split; [exact H1|split; [exact H2|]].
  unfold TcpConnection.frame. pose proof (tryGet_buffer 8 false c Hb) as Hb1. destruct (TcpConnection.tryGet 8 false c) as [c1 msg].
  destruct msg as [|x msg]; [done|]. destruct (8 <=? _); [|done].
  pose proof (tryGet_buffer (of_le (take 8 (x :: msg))) true c1 Hb1) as Hb2.
  destruct (TcpConnection.tryGet _ true c1) as [c2 msg2]. by destruct msg2.
Qed.

(** Whatever the handler objects do, [receive] only takes a frame off the input. *)
Lemma receive_same {H} (deser : str → H → res H) tid now c types c' types' got :
  IOBuffer.ok (TcpConnection.mInputBuffer c) → receive deser tid now c types = Ok (c', types', got) → same_conn c c'.
Proof.
  intros Hb Hr. pose proof (frame_same c Hb) as Hf. unfold receive in Hr. destruct (TcpConnection.frame c) as [c1 msg].
  destruct msg as [msg|]; [|by injection Hr as <- _ _]. destruct (TimestampMessage.deserialize _ _) as [m|]; [|done].
  cbn [mbind res_bind] in Hr. destruct (types !! tid) as [hs|]; [|by injection Hr as <- _ _].
  destruct (hs !! _) as [h|]; [|by injection Hr as <- _ _]. destruct (deser _ h); [|done]. by injection Hr as <- _ _.
Qed.

Lemma stamp_same t c : IOBuffer.ok (TcpConnection.mInputBuffer c) → same_conn c (TcpConnection.setCurrentTimestamp t c).
Proof. by split. Qed.

Lemma send_buffer data answer c : TcpConnection.mInputBuffer (TcpConnection.send data answer c) = TcpConnection.mInputBuffer c.
Proof.
  unfold TcpConnection.send, get. destruct (mDataQueue (TcpConnection.mOutputBuffer c)); unfold TcpConnection.write_out, write;
    repeat case_match; simplify_eq; done.
Qed.

Lemma send_same data answer c : IOBuffer.ok (TcpConnection.mInputBuffer c) → same_conn c (TcpConnection.send data answer c).
Proof.
  intros Hb. destruct (send_keeps data answer c) as (_ & H1 & _). split; [exact H1|]. unfold fd_of. by rewrite send_buffer.
Qed.

(** The reply to a request that has stamped its connection. *)
Lemma reply_same c1 c2 t data answer : same_conn c1 c2 → same_conn c1 (TcpConnection.send data answer (TcpConnection.setCurrentTimestamp t c2)).
Proof.
  intros Hc. pose proof Hc as (_ & _ & Hb). eapply same_conn_trans; [exact Hc|]. eapply same_conn_trans; [by apply (stamp_same t)|by apply send_same].
Qed.

(** A new connection's task. *)
Lemma register_quiet {R} now hours minutes seconds cyc :
  quiet (Some (λ name (s : Server R), Ok (registerTimerTask now hours minutes seconds cyc name s).1)).
Proof. intros name s. eexists. split; [done|]. unfold registerTimerTask. repeat case_match; by split_and!. Qed.

(** A pass of a consumer leaves the server as it is, or puts a message to the buffer of
    a connection. *)
Definition consumed {R} (s s' : Server R) : Prop :=
  s' = s ∨ ∃ l c i data, conns (registry s) !! l = Some (c, i) ∧ s' = set_conn l (TcpConnection.putToBuffer data c) s.

Section Passes.
Context {R Ke Ks Ow Ev : Type} `{EpollKernel Ke} `{SocketLaws Ks}.
Context (gtb : R → R → bool) (rate_max : R) (mHashFunc : str → Z) (mNoDelay : bool).
Context (sv : Service R Ow Ev).

Abbreviation Net := (Network R str Ke Ks Ow).
Abbreviation run := (service_run gtb rate_max mHashFunc mNoDelay sv).

Lemma service_consumed (n0 n : Net) s o :
  new_network n0 → run n0 n → consumed (the_server n) s → ∃ n', run n0 n' ∧ the_server n' = s ∧ the_owner n' = o.
Proof.
  intros Hnew Hr [->|(l & c & i & data & Hl & ->)].
  - exists (set_owner o n). split; [by apply service_outside|done].
  - destruct (service_sent gtb rate_max mHashFunc mNoDelay sv n0 n l c i data Hnew Hr Hl) as (n' & Hr' & Hs & _).
    exists (set_owner o n'). split; [by apply service_outside|done].
Qed.

(** The check of a heartbeat, where nothing is done before it closes. *)
Lemma service_check (n0 n : Net) now timeout id :
  new_network n0 → run n0 n →
  ∃ n', run n0 n' ∧ checkHeartbeat_with mHashFunc None (λ _ s, Ok s) now timeout id (the_server n) = Ok (the_server n') ∧
    (the_owner n' = the_owner n ∨ ∃ addr, the_owner n' = sv_close sv addr (the_owner n)).
Proof.
  intros Hnew Hr. unfold checkHeartbeat_with.
  pose proof (service_found gtb rate_max mHashFunc mNoDelay sv n0 n id Hnew Hr) as Hf.
  destruct (getConnPtrRef mHashFunc id (the_server n)) as [[l|]|]; [|by exists n; split; [done|split; [done|left]]|done].
  destruct Hf as (c & i & Hl). pose proof Hl as Hl'. unfold live in Hl'. cbn [mbind res_bind]. rewrite Hl'. cbn [of_option mbind res_bind].
  destruct (heartbeat_expired _ _ _); [|by exists n; split; [done|split; [done|left]]].
  destruct (service_close gtb rate_max mHashFunc mNoDelay sv n0 n l c i Hnew Hr Hl) as (n' & Hr' & Hc & Ho).
  exists n'. split; [done|]. split; [done|]. right. by eexists.
Qed.
End Passes.

(** The ways through a pass of a consumer. *)
Ltac follow_pass := repeat first [progress inv_ok | case_match].
Ltac consumed_one := cbn [fst]; first [by left | right; do 4 eexists; split; [eassumption|reflexivity]].

(** ** The login server *)

Section Login.
Context {R D : Type} `{Redis D} (conf : LoginServer.LoginServConf).

(** The message function is told the thread, the clock and the answer to the write of a
    reply. *)
Definition login_message (e : Z * Z * Z) (c : Connection) (s : Server R) (o : LoginServer.handlers * D)
    : res (Connection * Server R * (LoginServer.handlers * D)) :=
  let '(tid, now, answer) := e in
  '(c, types, d) ← LoginServer.messageFunc conf tid now answer c o.1 o.2;
  Ok (c, s, (types, d)).

Lemma login_obliging : obliging login_message.
Proof.
  intros [[tid now] answer] c s [types d] c' s' o' Hb Hm. unfold login_message, LoginServer.messageFunc in Hm. cbn [fst snd] in Hm.
  destruct (receive _ tid now c types) as [[[c1 types1] got]|] eqn:Hr; [|done]. cbn [mbind res_bind] in Hm.
  pose proof (receive_same _ _ _ _ _ _ _ _ Hb Hr) as Hc. pose proof Hc as (_ & _ & Hb1).
  destruct got as [[msg [m|m|m|m]]|]; cbn [mbind res_bind] in Hm.
  - injection Hm as <- <- _. by split.
  - destruct (heartbeat_reply _ now); [|done]. injection Hm as <- <- _. split; [by apply reply_same|done].
  - destruct (push _ _ _ d). injection Hm as <- <- _. split; [|done]. by eapply same_conn_trans, stamp_same.
  - destruct (push _ _ _ d). injection Hm as <- <- _. split; [|done]. by eapply same_conn_trans, stamp_same.
  - injection Hm as <- <- _. by split.
Qed.

Definition login_service : Service R (LoginServer.handlers * D) (Z * Z * Z) := {|
  sv_name e := LoginServer.connNameFunc conf e.1.2;
  sv_close _ o := o;
  sv_message := login_message;
  sv_filter := LoginServer.connFilterFunc;
  sv_quiet e := register_quiet e.1.2 0 0 (LoginServer.HEARTBEAT_TIMEOUT_IN_SECONDS conf) (-1);
  sv_obliging := login_obliging |}.

Context {Ke Ks : Type} `{EpollKernel Ke} `{SocketLaws Ks}.
Context (gtb : R → R → bool) (rate_max : R) (mHashFunc : str → Z) (mNoDelay : bool).

Abbreviation Net := (Network R str Ke Ks (LoginServer.handlers * D)).

(** The login server on a network. *)
Definition login_of (n : Net) : LoginServer.LoginServer := LoginServer.mkLogin (the_server n) (the_owner n).1 (the_owner n).2.

Abbreviation step := (service_step gtb rate_max mHashFunc mNoDelay login_service).
Abbreviation run := (service_run gtb rate_max mHashFunc mNoDelay login_service).

Lemma login_consumed (st : Server R * D) s d : LoginServer.loginStreamConsumer mHashFunc conf st = Ok (s, d) → consumed st.1 s.
Proof. destruct st as [s0 d0]. unfold LoginServer.loginStreamConsumer. intros Hc. follow_pass; consumed_one. Qed.

(** What stops the message function: a handler object that cannot read the message, or
    a reply that cannot be written. *)
Definition login_fault (x : fault) : Prop := ∃ tid now c types,
  receive LoginServer.deserialize tid now c types = Err x ∨ heartbeat_reply (LoginServer.MESSAGE_LOGIN_HEARTBEAT_MSG conf) now = Err x.

Lemma login_faults x : service_fault (R := R) login_service x → login_fault x.
Proof.
  intros (f & [[tid now] answer] & c & s & [types d] & [= <-] & Hf). exists tid, now, c, types.
  cbn [login_service sv_message] in Hf. unfold login_message, LoginServer.messageFunc in Hf. cbn [fst snd] in Hf.
  destruct (receive _ tid now c types) as [[[c1 types1] got]|y]; cbn [mbind res_bind] in Hf; [right|by injection Hf as ->; left].
  destruct got as [[msg [m|m|m|m]]|]; cbn [mbind res_bind] in Hf; [done| | | |done].
  - destruct (heartbeat_reply _ now); [done|by injection Hf as ->].
  - by destruct (push _ _ _ d).
  - by destruct (push _ _ _ d).
Qed.

(** A login server that has been made and started, on new loops. *)
Record login_starts (n : Net) : Prop := {
  ls_server : ∃ t name pool tids now d,
    login_of n = LoginServer.start conf t (LoginServer.newLoginServer conf name pool tids now d) ∧
    0 < LoginServer.SERVER_SAFE_HASH_BUCKET_SIZE conf ∧ pool_ok pool ∧ events pool = mThreadNum pool;
  ls_loop i : ∃ evtfd k, makeLoop evtfd k = Ok (the_loops n i) ∧ interest k = ∅ ∧ is_Some (table (the_kernel n) !! evtfd);
  ls_stdin : is_Some (table (the_kernel n) !! 0) }.

Lemma login_starts_new (n : Net) : login_starts n → new_network n.
Proof.
  intros [(t & name & pool & tids & now & d & Hs & Hb & Hp & He) Hl H00]. split; [|done|done].
  exists name, (LoginServer.SERVER_SAFE_HASH_BUCKET_SIZE conf), pool.
  assert (the_server n = LoginServer.mTcpServer (login_of n)) as -> by done. rewrite Hs.
  unfold LoginServer.newLoginServer. destruct (createGroup _ _ _ d) as [d1 b1]. destruct (createGroup _ _ _ d1) as [d2 b2]. by split_and!.
Qed.

(** ** Properties *)

End Login.

(** ** The gateway server *)

Section Gateway.
Context {R D : Type} `{Redis D} (conf : GatewayServer.GatewayServConf).

Definition gateway_owner : Type := GatewayServer.handlers * D * str.

Definition gateway_message (e : Z * Z * Z) (c : Connection) (s : Server R) (o : gateway_owner) : res (Connection * Server R * gateway_owner) :=
  let '(tid, now, answer) := e in let '(types, d, key) := o in
  '(c, types) ← GatewayServer.messageFunc conf tid now answer c types;
  Ok (c, s, (types, d, key)).

Lemma gateway_obliging : obliging gateway_message.
Proof.
  intros [[tid now] answer] c s [[types d] key] c' s' o' Hb Hm. unfold gateway_message, GatewayServer.messageFunc in Hm.
  destruct (receive _ tid now c types) as [[[c1 types1] got]|] eqn:Hr; [|done]. cbn [mbind res_bind] in Hm.
  pose proof (receive_same _ _ _ _ _ _ _ _ Hb Hr) as Hc. pose proof Hc as (_ & _ & Hb1).
  destruct got as [[msg [m|m|m|m]]|]; cbn [mbind res_bind] in Hm.
  2: { destruct (heartbeat_reply _ now); [|done]. injection Hm as <- <- _. split; [by apply reply_same|done]. }
  all: injection Hm as <- <- _; split; [|done]; (done || by eapply same_conn_trans, stamp_same).
Qed.

Definition gateway_service : Service R gateway_owner (Z * Z * Z) := {|
  sv_name e := GatewayServer.connNameFunc conf e.1.2;
  sv_close _ o := o;
  sv_message := gateway_message;
  sv_filter := GatewayServer.connFilterFunc;
  sv_quiet e := register_quiet e.1.2 0 0 (GatewayServer.HEARTBEAT_TIMEOUT_IN_SECONDS conf) (-1);
  sv_obliging := gateway_obliging |}.

Context {Ke Ks : Type} `{EpollKernel Ke} `{SocketLaws Ks}.
Context (gtb : R → R → bool) (rate_max : R) (mHashFunc : str → Z) (mNoDelay : bool).

Abbreviation Net := (Network R str Ke Ks gateway_owner).

Definition gateway_of (n : Net) : GatewayServer.GatewayServer :=
  let '(types, d, key) := the_owner n in GatewayServer.mkGateway (the_server n) types d key.

Abbreviation step := (service_step gtb rate_max mHashFunc mNoDelay gateway_service).
Abbreviation run := (service_run gtb rate_max mHashFunc mNoDelay gateway_service).

Lemma gateway_consumed (st : Server R * D) s d : GatewayServer.gatewayStreamConsumerFunc mHashFunc conf st = Ok (s, d) → consumed st.1 s.
Proof. destruct st as [s0 d0]. unfold GatewayServer.gatewayStreamConsumerFunc. intros Hc. follow_pass; consumed_one. Qed.

(** The gateway server on its network, as the login server on its own. *)
Theorem gateway_on_network (n0 n : Net) types d key :
  new_network n0 → run n0 n → the_owner n = (types, d, key) →
  (∀ e, net_legal e n → match step e n with Ok n' => parts_agree mHashFunc n0 n' | Err x => service_fault (R := R) gateway_service x end) ∧
  (∀ l c i tid now answer, live n !! l = Some (c, i) →
     GatewayServer.on_message conf tid now answer l (gateway_of n) = gateway_of <$> service_message gateway_service l (tid, now, answer) c n) ∧
  (∀ now id, ∃ n', run n0 n' ∧ the_owner n' = the_owner n ∧
     GatewayServer.checkHeartbeat mHashFunc conf now id (the_server n) = Ok (the_server n')) ∧
  (∀ s d', GatewayServer.gatewayStreamConsumerFunc mHashFunc conf (the_server n, d) = Ok (s, d') →
     ∃ n', run n0 n' ∧ gateway_of n' = GatewayServer.mkGateway s types d' key).
Proof.
  intros Hnew Hr Ho. split_and!.
  - intros e. by apply service_runs.
  - intros l c i tid now answer Hl.
    pose proof (service_message_ok gtb rate_max mHashFunc mNoDelay gateway_service n0 n l c i (tid, now, answer) Hnew Hr Hl) as Hm.
    assert (gateway_of n = GatewayServer.mkGateway (the_server n) types d key) as -> by (unfold gateway_of; by rewrite Ho). rewrite Ho in Hm.
    unfold GatewayServer.on_message. cbn [GatewayServer.mMessageTypes GatewayServer.mTcpServer GatewayServer.mRedis GatewayServer.keyWithAddress].
    change (conns (registry (the_server n))) with (live n). rewrite Hl. cbn [of_option mbind res_bind].
    cbn [gateway_service sv_message gateway_message] in Hm.
    destruct (GatewayServer.messageFunc conf tid now answer c _) as [[c' types']|x]; cbn [mbind res_bind] in *; [|by rewrite Hm].
    destruct Hm as (n' & -> & Hs & Ho'). cbn. unfold gateway_of. by rewrite Hs, Ho'.
  - intros now id. destruct (service_check gtb rate_max mHashFunc mNoDelay gateway_service n0 n now
      (GatewayServer.HEARTBEAT_TIMEOUT_IN_SECONDS conf) id Hnew Hr) as (n' & Hr' & Hc & Ho').
    exists n'. split; [done|]. split; [by destruct Ho' as [|(addr & ?)]|done].
  - intros s d' Hc%gateway_consumed.
    destruct (service_consumed gtb rate_max mHashFunc mNoDelay gateway_service n0 n s (types, d', key) Hnew Hr Hc) as (n' & Hr' & Hs & Ho').
    exists n'. split; [done|]. unfold gateway_of. by rewrite Hs, Ho'.
Qed.
End Gateway.

(** ** The game server *)

Section Game.
Context {R D : Type} `{Redis D} (conf : GameServer.GameServConf).

Definition game_owner : Type := GameServer.handlers * (gmap str str * D) * str.

(** It is told, besides, what was in the members of a reply that nobody wrote. *)
Definition game_message (e : Z * Z * Z * Z * Z) (c : Connection) (s : Server R) (o : game_owner) : res (Connection * Server R * game_owner) :=
  let '(tid, now, answer, junkPort, junkLoad) := e in let '(types, st, key) := o in
  '(c, types, st) ← GameServer.messageFunc conf tid now answer junkPort junkLoad c types st;
  Ok (c, s, (types, st, key)).

Definition game_close (address : str) (o : game_owner) : game_owner :=
  let '(types, st, key) := o in (types, GameServer.closeFunc address st, key).

Lemma game_obliging : obliging game_message.
Proof.
  intros [[[[tid now] answer] p] ld] c s [[types st] key] c' s' o' Hb Hm. unfold game_message, GameServer.messageFunc in Hm.
  destruct (receive _ tid now c types) as [[[c1 types1] got]|] eqn:Hr; [|done]. cbn [mbind res_bind] in Hm.
  pose proof (receive_same _ _ _ _ _ _ _ _ Hb Hr) as Hc. pose proof Hc as (_ & _ & Hb1).
  destruct got as [[msg h]|]; [|by injection Hm as <- <- _].
  destruct h; cbn [mbind res_bind] in Hm; follow_pass; (split; [|done]); first [done | by apply reply_same | by eapply same_conn_trans, stamp_same].
Qed.

Definition game_service : Service R game_owner (Z * Z * Z * Z * Z) := {|
  sv_name e := GameServer.connNameFunc conf e.1.1.1.2;
  sv_close := game_close;
  sv_message := game_message;
  sv_filter := GameServer.connFilterFunc;
  sv_quiet e := register_quiet e.1.1.1.2 0 0 (GameServer.HEARTBEAT_TIMEOUT_IN_SECONDS conf) (-1);
  sv_obliging := game_obliging |}.

Context {Ke Ks : Type} `{EpollKernel Ke} `{SocketLaws Ks}.
Context (gtb : R → R → bool) (rate_max : R) (mHashFunc : str → Z) (mNoDelay : bool).

Abbreviation Net := (Network R str Ke Ks game_owner).

Definition game_of (n : Net) : GameServer.GameServer :=
  let '(types, (scenes, d), key) := the_owner n in GameServer.mkGame (the_server n) types scenes d key.

Abbreviation step := (service_step gtb rate_max mHashFunc mNoDelay game_service).
Abbreviation run := (service_run gtb rate_max mHashFunc mNoDelay game_service).

Lemma game_of_owner (n : Net) types scenes d key :
  the_owner n = (types, (scenes, d), key) → game_of n = GameServer.mkGame (the_server n) types scenes d key.
Proof. unfold game_of. by intros ->. Qed.

Lemma game_consumed (st : Server R * D) s d : GameServer.gameStreamConsumer mHashFunc conf st = Ok (s, d) → consumed st.1 s.
Proof. destruct st as [s0 d0]. unfold GameServer.gameStreamConsumer. intros Hc. follow_pass; consumed_one. Qed.

(** The game server on its network: a connection that goes takes its scene with it,
    whether its peer has closed or its heartbeat is late. *)
Theorem game_on_network (n0 n : Net) types scenes d key :
  new_network n0 → run n0 n → the_owner n = (types, (scenes, d), key) →
  (∀ e, net_legal e n → match step e n with Ok n' => parts_agree mHashFunc n0 n' | Err x => service_fault (R := R) game_service x end) ∧
  (∀ l c i tid now answer p ld, live n !! l = Some (c, i) →
     GameServer.on_message conf tid now answer p ld l (game_of n) = game_of <$> service_message game_service l (tid, now, answer, p, ld) c n) ∧
  (∀ now id, ∃ n', run n0 n' ∧ GameServer.checkHeartbeat mHashFunc conf now id (game_of n) = Ok (game_of n')) ∧
  (∀ s d', GameServer.gameStreamConsumer mHashFunc conf (the_server n, d) = Ok (s, d') →
     ∃ n', run n0 n' ∧ game_of n' = GameServer.mkGame s types scenes d' key).
Proof.
  intros Hnew Hr Ho. split_and!.
  - intros e. by apply service_runs.
  - intros l c i tid now answer p ld Hl.
    pose proof (service_message_ok gtb rate_max mHashFunc mNoDelay game_service n0 n l c i (tid, now, answer, p, ld) Hnew Hr Hl) as Hm.
    rewrite (game_of_owner n _ _ _ _ Ho). rewrite Ho in Hm.
    unfold GameServer.on_message. cbn [GameServer.mMessageTypes GameServer.mTcpServer GameServer.mRedis GameServer.mSceneAddresses GameServer.keyWithAddress].
    change (conns (registry (the_server n))) with (live n). rewrite Hl. cbn [of_option mbind res_bind].
    cbn [game_service sv_message game_message] in Hm.
    destruct (GameServer.messageFunc conf tid now answer p ld c _ _) as [[[c' types'] [scenes' d']]|x]; cbn [mbind res_bind] in *; [|by rewrite Hm].
    destruct Hm as (n' & -> & Hs & Ho'). cbn. by rewrite (game_of_owner n' _ _ _ _ Ho'), Hs.
  - intros now id. pose proof (service_found gtb rate_max mHashFunc mNoDelay game_service n0 n id Hnew Hr) as Hf.
    rewrite (game_of_owner n _ _ _ _ Ho). unfold GameServer.checkHeartbeat.
    cbn [GameServer.mMessageTypes GameServer.mTcpServer GameServer.mRedis GameServer.mSceneAddresses GameServer.keyWithAddress].
    destruct (getConnPtrRef mHashFunc id (the_server n)) as [[l|]|]; cbn [mbind res_bind]; [| |done].
    2: { exists n. split; [done|]. by rewrite (game_of_owner n _ _ _ _ Ho). }
    destruct Hf as (c & i & Hl). change (conns (registry (the_server n))) with (live n). rewrite Hl. cbn [of_option mbind res_bind].
    destruct (heartbeat_expired _ _ _); [|exists n; split; [done|]; by rewrite (game_of_owner n _ _ _ _ Ho)].
    destruct (GameServer.removeScene _ (scenes, d)) as [[scenes1 d1] k1].
    pose proof (service_outside gtb rate_max mHashFunc mNoDelay game_service n0 n (types, (scenes1, d1), key) Hr) as Hr1.
    destruct (service_close gtb rate_max mHashFunc mNoDelay game_service n0 _ l c i Hnew Hr1 Hl) as (n' & Hr' & Hc & Ho').
    cbn [set_owner the_server the_owner game_service sv_close game_close] in Hc, Ho'.
    destruct (GameServer.closeFunc _ (scenes1, d1)) as [scenes2 d2]. rewrite Hc. cbn [mbind res_bind].
    exists n'. split; [done|]. rewrite (game_of_owner n' types scenes2 d2 key); [done|exact Ho'].
  - intros s d' Hc%game_consumed.
    destruct (service_consumed gtb rate_max mHashFunc mNoDelay game_service n0 n s (types, (scenes, d'), key) Hnew Hr Hc) as (n' & Hr' & Hs & Ho').
    exists n'. split; [done|]. by rewrite (game_of_owner n' _ _ _ _ Ho'), Hs.
Qed.
End Game.

(** ** Witness *)

Definition demo_conf : LoginServer.LoginServConf := LoginServer.defaultConf.

(** A started login server with the types of thread 1, a listening socket and the
    descriptor 9 of the loops. *)
Definition demo_login_net : Network Z str (gmap Z Z) Socket.kernel (LoginServer.handlers * store) :=
  let s := LoginServer.start demo_conf None (LoginServer.newLoginServer demo_conf (lit "Login") demo_loops [1] 1000 demo_store) in
  mkNetwork (LoginServer.mTcpServer s) (λ _, demo_loop) ∅ ∅
    (set_tab (<[9 := new_descr true false false]> (tab (system demo_accepting))) (system demo_accepting))
    (LoginServer.mMessageTypes s, LoginServer.mRedis s).

Definition demo_login_step := service_step (Ke := gmap Z Z) (Ks := Socket.kernel) Z.gtb 1000 demo_hash true (login_service (D := store) demo_conf).
Definition demo_login_after (es : list net_event) :=
  foldl (λ n e, match demo_login_step e n with Ok n => n | Err _ => n end) demo_login_net es.

(** A client comes, and the bytes of its login request with it. *)
Definition demo_client_comes : net_event (F := str) (Ow := LoginServer.handlers * store) := Accepted (mkSocket 3) (1, 1500, 0).
Definition demo_request_comes : net_event (F := str) (Ow := LoginServer.handlers * store) :=
  Turned 1 [(4, POLLIN)] 0 (λ _, (Received (msg_wire LoginServer.demo_login), 0, (1, 2000, 0))).

Lemma demo_login_starts : login_starts demo_conf demo_login_net.
Proof.
  split; [|intros i|by eexists].
  - exists None, (lit "Login"), demo_loops, [1], 1000, demo_store. split_and!; [done|by vm_compute|apply demo_loops_ok|done].
  - exists 9, ∅. split; [by vm_compute|]. split; [done|by eexists].
Qed.

Abbreviation demo_login_run := (service_run Z.gtb 1000 demo_hash true (login_service (D := store) demo_conf) demo_login_net).

Lemma demo_login_next es e : demo_login_run (demo_login_after es) → net_legal e (demo_login_after es) →
  is_ok (demo_login_step e (demo_login_after es)) = true → demo_login_run (demo_login_after (es ++ [e])).
Proof.
  intros Hr Hl Hok. eapply net_went; [exact Hr|exact Hl|]. unfold demo_login_after at 2. rewrite foldl_app. cbn [foldl].
  fold (demo_login_after es). unfold demo_login_step, service_step in *. by destruct (net_step _ _ _ _ _ _ _ _ _ e (demo_login_after es)).
Qed.

Lemma demo_login_came : demo_login_run (demo_login_after [demo_client_comes]).
Proof. apply (demo_login_next [] demo_client_comes); [apply net_start|exists 0; split; [by vm_compute|by eexists]|by vm_compute]. Qed.

Lemma demo_request_legal : net_legal demo_request_comes (demo_login_after [demo_client_comes]).
Proof.
  split; [apply NoDup_singleton|]. constructor; [|done]. split; [vm_compute; by eexists|]. split; [exists (msg_wire LoginServer.demo_login); by split|].
  left. vm_compute. right; right; left.
Qed.

