(* ===== verification/DBServer.v ===== *)
(** * The database server: [DBServer/]

    Readers pull requests from the streams of the login and game servers, run
    [QueryTask] on them and push the answers to the stream of the service that
    asked.  [RCache] keeps characters in Redis hashes in front of the database.
    The database is a class of the operations of [db::Database] that [QueryTask]
    calls. *)

From S2P Require Import Prelude.
From S2P Require Import BaseMessage.
From S2P Require Import Messages.
From S2P Require Import Carrier.
From S2P Require Import Broker.
From S2P Require Import Dispatch.

Local Open Scope Z_scope.

(** [DBServConf.h], what the code below reads of it. *)
Record DBServConf := mkConf {
  MESSAGE_LOGIN_LOGIN_MSG : str;
  MESSAGE_LOGIN_LOGIN_CHARACTER_MSG : str;
  MESSAGE_LOGIN_LOGIN_RESPONSE_MSG : str;
  MESSAGE_LOGIN_ERROR_MSG : str;
  MESSAGE_GAME_MSG : str;
  MESSAGE_GAME_CHARACTER_MSG : str;
  MESSAGE_GAME_RESPONSE_MSG : str;
  MESSAGE_GAME_ERROR_MSG : str;
  BROKER_DB_4_LOGIN_KEY : str;
  BROKER_DB_4_GATEWAY_KEY : str;
  BROKER_DB_4_GAME_KEY : str;
  BROKER_DB_GROUP : str;
  SERVICE_LOSE_THRESHOLD_IN_SECONDS : Z;
  GATEWAY_KEYS : str;
  LOGIN_SERVICE_READER_THREAD_NUM : Z;
  GAME_SERVICE_READER_THREAD_NUM : Z;
  SERVICE_DS_PREFIX : str;
  STREAM_CUSTOMER_PULL_NAP_IN_MILLISECONDS : Z;
  MONGODB_DB_NAME : str;
  MONGODB_COLLECTION_ACCOUNT_NAME : str;
  MONGODB_COLLECTION_CHARACTER_NAME : str }.

Definition defaultConf : DBServConf :=
  mkConf (lit "LOGIN_LOGIN_MSG") (lit "LOGIN_LOGIN_CHARACTER_MSG") (lit "LOGIN_LOGIN_RESPONSE_MSG")
    (lit "LOGIN_ERROR_MSG") (lit "GAME_MSG") (lit "GAME_CHARACTER_MSG") (lit "GAME_RESPONSE_MSG")
    (lit "GAME_ERROR_MSG") (lit "Warring:DBServ4LoginServ") (lit "Warring:DBServ4GatewayServ")
    (lit "Warring:DBServ4GameServ") (lit "Warring:DBServ:Group") 15 (lit "Warring:Service:GATEWAYS") 4 4
    (lit "Warring:Scene:") 100 (lit "warring") (lit "accounts") (lit "characters").

(** ** The database, as [QueryTask] sees it

    The numbers are the result codes: 1 done, 0 no such or such exists already,
    2 already on line, -1 an exception of the driver that was caught.  The others
    end the program. *)
Class Database (B : Type) := {
  addNewAccount : str → str → str → B → res (B * Z);
  matchAccountAndUpdateLoginState : str → str → B → res (B * Z);
  getAllCharacterBaseInfoFill2Message : str → B → res (B * option (list CharacterBaseInfo.t));
  addNewCharacter : LoginCharacterRequestMessage.t → B → res (B * Z);
  removeCharacter : str → str → B → res (B * Z);
  getOneCharacterInfoFill2Message : str → str → B → res (B * option CharacterInfo.t);
  updateCharacter : CharacterInfo.t → bool → B → res B }.   (* its result is never looked at *)

(** ** [RCache] *)

(** [game::field_name] of [GameDataTable/GameDataCode.h]. *)
Definition FIELD_ACCOUNT := lit "account".
Definition FIELD_CHARACTER_NAME := lit "name".
Definition FIELD_CHARACTER_LEVEL := lit "level".
Definition FIELD_CHARACTER_GENDER := lit "gender".
Definition FIELD_CHARACTER_OCCUPTION := lit "occuption".
Definition FIELD_CHARACTER_STATE := lit "state".
Definition FIELD_EXP := lit "exp".
Definition FIELD_HEALTH := lit "health".
Definition FIELD_MANA := lit "mana".
Definition FIELD_ARMOR := lit "armor".
Definition FIELD_STAMINA := lit "stamina".
Definition FIELD_STRENGTH := lit "strength".
Definition FIELD_AGILITY := lit "agility".
Definition FIELD_INTELLECT := lit "intellect".
Definition FIELD_SCENE_ID := lit "scene_id".
Definition FIELD_SCENE_X := lit "scene_x".
Definition FIELD_SCENE_Y := lit "scene_y".
Definition FIELD_SCENE_Z := lit "scene_z".
Definition FIELD_CHARACTER_DATA := lit "character_data".

Section RCache.
Context {D : Type} `{Redis D}.

Definition generateCharacterKey (accountName characterName : str) : str :=
  accountName ++ lit ":" ++ characterName.

(** The results are [int]s made of [long long]s. *)
Definition addCharacter (characterKey : str) (characterInfo : fields) (d : D) : D * Z :=
  caught (hset characterKey characterInfo) (-1) (sint 32) d.
Definition deleteCharacter (characterKey : str) (d : D) : D * Z :=
  caught (unlink characterKey) (-1) (sint 32) d.
Definition characterExisted (characterKey : str) (d : D) : D * Z :=
  caught (exists_key characterKey) (-1) (sint 32) d.

Definition setTTL (characterKey : str) (secs : Z) (d : D) : D * option bool :=
  caught (expire characterKey secs) None Some d.

(** The result and the new contents of [characterData]. *)
Definition getCharacterData (characterKey characterData : str) (d : D) : D * (Z * str) :=
  caught (hget characterKey FIELD_CHARACTER_DATA) (-1, characterData)
    (λ data, let characterData := default [] data in
             (match characterData with [] => 0 | _ => 1 end, characterData)) d.
End RCache.

(** ** Numbers and addresses *)

(** [std::to_string(double)], of the 64 bits: six decimals, rounded to nearest, ties
    to even. *)
Definition double_to_string (bits : Z) : str :=
  let sign := if Z.testbit bits 63 then lit "-" else [] in
  let e := Z.land (Z.shiftr bits 52) 2047 in
  let frac := Z.land bits (2 ^ 52 - 1) in
  if e =? 2047 then sign ++ (if frac =? 0 then lit "inf" else lit "nan") else
  let m := (if e =? 0 then frac else frac + 2 ^ 52) * 10 ^ 6 in
  let k := Z.max e 1 - 1075 in
  let n := if 0 <=? k then m * 2 ^ k else
           let q := m / 2 ^ (- k) in
           let r := 2 * (m mod 2 ^ (- k)) in
           if (2 ^ (- k) <? r) || ((r =? 2 ^ (- k)) && Z.odd q) then q + 1 else q in
  let decimals := to_string (n mod 10 ^ 6) in
  sign ++ to_string (n / 10 ^ 6) ++ lit "." ++ replicate (6 - length decimals) (byte_of 48) ++ decimals.

Example double_2000 : double_to_string 0x409F400000000000 = lit "2000.000000".
Proof. by vm_compute. Qed.
Example double_tenth : double_to_string 0xBFB999999999999A = lit "-0.100000".
Proof. by vm_compute. Qed.

(** The tokens between the matches of the expression ":", the last one only if it
    is not empty: [std::regex_token_iterator] with -1. *)
Fixpoint split_colon (token s : str) : list str :=
  match s with
  | [] => match token with [] => [] | _ => [token] end
  | a :: s => if byte_val a =? 58 then token :: split_colon [] s else split_colon (token ++ [a]) s
  end.

Definition getServiceAddress (serviceKey : str) : res (option (str * Z)) :=
  match serviceKey with
  | [] => Ok None
  | _ =>
      let vec := split_colon [] serviceKey in
      if negb (2 <=? length vec)%nat then Err AssertFailed else
      host ← of_option OutOfRange (vec !! (length vec - 2)%nat);
      back ← of_option OutOfBounds (last vec);
      port ← stoi back;
      Ok (Some (host, port))
  end.

Example address_gateway :
  getServiceAddress (lit "Warring:GatewayServ_3:10.0.0.1:9000") = Ok (Some (lit "10.0.0.1", 9000)).
Proof. by vm_compute. Qed.

(** ** [QueryTask] *)

Definition carry_type (t : str) (c : ClientCarrier) : ClientCarrier :=
  mkCarrier t (SERVICE c) (NEXT_SERVICE c) (MESSAGE c) (CLIENT_ID c) (CLIENT_ADDRESS c).
Definition carry_route (service next : str) (c : ClientCarrier) : ClientCarrier :=
  mkCarrier (TYPE c) service next (MESSAGE c) (CLIENT_ID c) (CLIENT_ADDRESS c).
Definition carry_message (m : str) (c : ClientCarrier) : ClientCarrier :=
  mkCarrier (TYPE c) (SERVICE c) (NEXT_SERVICE c) m (CLIENT_ID c) (CLIENT_ADDRESS c).

(** Ports of the response that no branch has set are never initialised: their
    bytes are an argument. *)
Record Junk := mkJunk { junkGateway : Z; junkDS : Z }.

Definition newLoginResponse (name : str) (now : Z) (j : Junk) : LoginResponseMessage.t :=
  LoginResponseMessage.mk (TimestampMessage.mk (set_name name newBaseMessage) now)
    code.NONE [] [] (junkGateway j) [] (junkDS j) [].

Definition set_code (c : Z) (m : LoginResponseMessage.t) : LoginResponseMessage.t :=
  LoginResponseMessage.mk (LoginResponseMessage.parent m) c (LoginResponseMessage.TOKEN m)
    (LoginResponseMessage.GAME_GATEWAY_IP m) (LoginResponseMessage.GAME_GATEWAY_PORT m)
    (LoginResponseMessage.GAME_DS_IP m) (LoginResponseMessage.GAME_DS_PORT m)
    (LoginResponseMessage.CHARACTER_BASE_INFO_MESSAGES m).

Definition set_infos (l : list str) (m : LoginResponseMessage.t) : LoginResponseMessage.t :=
  LoginResponseMessage.mk (LoginResponseMessage.parent m) (LoginResponseMessage.RESPONSE_CODE m)
    (LoginResponseMessage.TOKEN m)
    (LoginResponseMessage.GAME_GATEWAY_IP m) (LoginResponseMessage.GAME_GATEWAY_PORT m)
    (LoginResponseMessage.GAME_DS_IP m) (LoginResponseMessage.GAME_DS_PORT m) l.

Definition set_addresses (gateway ds : str * Z) (m : LoginResponseMessage.t) : LoginResponseMessage.t :=
  LoginResponseMessage.mk (LoginResponseMessage.parent m) (LoginResponseMessage.RESPONSE_CODE m)
    (LoginResponseMessage.TOKEN m) gateway.1 gateway.2 ds.1 ds.2
    (LoginResponseMessage.CHARACTER_BASE_INFO_MESSAGES m).

(** What a default constructed request holds is overwritten or never read. *)
Definition newLoginRequest (now : Z) : LoginRequestMessage.t :=
  LoginRequestMessage.mk (TimestampMessage.new now) code.NONE [] [].
Definition newCharacterRequest (now : Z) : LoginCharacterRequestMessage.t :=
  LoginCharacterRequestMessage.mk (newLoginRequest now) [] 0 0 0.
Definition newDSMessage (now : Z) : DSMessage.t := DSMessage.mk (TimestampMessage.new now) 0 0 0 0 [].
Definition newLoadMessage (now : Z) : DSLoadOrUploadCharacterMessage.t :=
  DSLoadOrUploadCharacterMessage.mk (TimestampMessage.new now) 0 0 [] [] [].
Definition newCharacterInfo : CharacterInfo.t :=
  CharacterInfo.mk newBaseMessage [] [] 0 0 0 0 0 0 0 0 0 0 0 0 0 0 0 0.

(** The last lines of both login handlers. *)
Definition write_answer {W : Type} (resp : LoginResponseMessage.t) (c : ClientCarrier) (st : W) : res (ClientCarrier * W) :=
  '(_, data) ← LoginResponseMessage.serialize (LoginResponseMessage.count resp);
  Ok (carry_message data c, st).

Section QueryTask.
Context {D B : Type} `{Redis D} `{Database B}.
Context (conf : DBServConf) (j : Junk) (now : Z).

Fixpoint first_lasting (services : list (str * Z)) (d : D) : res (D * str) :=
  match services with
  | [] => Ok (d, [])
  | (service, _) :: services =>
      '(d, secs) ← uncaught (ttl service) d;
      (* a long long and a size_t are compared as size_t's *)
      if SERVICE_LOSE_THRESHOLD_IN_SECONDS conf / 2 <=? u64 secs then Ok (d, service)
      else first_lasting services d
  end.

Definition getLowLoadService (serviceKey : str) (d : D) : res (D * str) :=
  '(d, result) ← uncaught (zrangebyscore serviceKey) d;
  first_lasting result d.

Definition getLowDS (dsKey : str) (d : D) : res (D * str) :=
  '(d, result) ← uncaught (zrangebyscore dsKey) d;
  Ok (d, match result with (ds, _) :: _ => ds | [] => [] end).

(** ** [getLoginResponseMsg] *)

Definition register_account (m : LoginRequestMessage.t) (address : str) (resp : LoginResponseMessage.t) (b : B)
    : res (B * LoginResponseMessage.t) :=
  '(b, result) ← addNewAccount (LoginRequestMessage.ACCOUNT m) (LoginRequestMessage.PASSWORD m) address b;
  Ok (b, set_code (if result =? 1 then code.login.LOGIN_REGISTER_RESULT_SUCCESS
                else if result =? 0 then code.login.LOGIN_REGISTER_ERROR_ACCOUNT_EXISTED
                else code.login.LOGIN_ERROR_FROM_DB) resp).

Fixpoint serialize_infos (infos : list CharacterBaseInfo.t) : res (list str) :=
  match infos with
  | [] => Ok []
  | info :: infos =>
      '(_, data) ← CharacterBaseInfo.serialize (CharacterBaseInfo.count info);
      rest ← serialize_infos infos;
      Ok (data :: rest)
  end.

Definition login_account (m : LoginRequestMessage.t) (resp : LoginResponseMessage.t) (b : B)
    : res (B * LoginResponseMessage.t) :=
  '(b, result) ← matchAccountAndUpdateLoginState (LoginRequestMessage.ACCOUNT m) (LoginRequestMessage.PASSWORD m) b;
  if result =? 1 then
    '(b, infos) ← getAllCharacterBaseInfoFill2Message (LoginRequestMessage.ACCOUNT m) b;
    datas ← serialize_infos (default [] infos);
    Ok (b, set_infos datas (set_code code.login.LOGIN_LOGIN_RESULT_SUCCESS resp))
  else Ok (b, set_code
    (if result =? 0 then code.login.LOGIN_LOGIN_ERROR_ACCOUNT_PASSWORD_MISMATCH
     else if result =? 2 then code.login.LOGIN_LOGIN_ERROR_ACCOUNT_ALREADY_ON
     else code.login.LOGIN_ERROR_FROM_DB) resp).

Definition getLoginResponseMsg (c : ClientCarrier) (st : D * B) : res (ClientCarrier * (D * B)) :=
  if negb (bool_decide (TYPE c = MESSAGE_LOGIN_LOGIN_MSG conf))
  then Ok (carry_type (MESSAGE_LOGIN_ERROR_MSG conf) c, st) else
  m ← LoginRequestMessage.deserialize (data_of (MESSAGE c)) (newLoginRequest now);
  let c := carry_route (BROKER_DB_4_LOGIN_KEY conf) (SERVICE c) c in
  let resp := newLoginResponse (MESSAGE_LOGIN_LOGIN_RESPONSE_MSG conf) now j in
  '(b, resp) ←
    (if LoginRequestMessage.REQUEST_CODE m =? code.login.LOGIN_REGISTER_REQUEST_CODE then
       register_account m (CLIENT_ADDRESS c) resp st.2
     else if LoginRequestMessage.REQUEST_CODE m =? code.login.LOGIN_LOGIN_REQUEST_CODE then
       login_account m resp st.2
     else Ok (st.2, resp));
  write_answer resp c (st.1, b).

(** ** [getLoginCharacterResponseMsg] *)

Definition create_character (m : LoginCharacterRequestMessage.t) (resp : LoginResponseMessage.t) (b : B)
    : res (B * LoginResponseMessage.t) :=
  '(b, result) ← addNewCharacter m b;
  Ok (b, set_code (if result =? 1 then code.login.LOGIN_CREATE_CHARACTER_RESULT_SUCCESS
                else if result =? 0 then code.login.LOGIN_CREATE_CHARACTER_ERROR_EXISTED
                else code.login.LOGIN_ERROR_FROM_DB) resp).

Definition delete_character (account character : str) (resp : LoginResponseMessage.t) (b : B)
    : res (B * LoginResponseMessage.t) :=
  '(b, result) ← removeCharacter account character b;
  Ok (b, set_code (if result =? 1 then code.login.LOGIN_DELETE_CHARACTER_RESULT_SUCCESS
                else if result =? 0 then code.login.LOGIN_DELETE_CHARACTER_ERROR_NO_EXISTED
                else code.login.LOGIN_ERROR_FROM_DB) resp).

(** The lines both branches on the life of the cached character end with. *)
Definition offer_services (sceneKey : str) (resp : LoginResponseMessage.t) (d : D)
    : res (D * LoginResponseMessage.t) :=
  '(d, lowGatewayAddress) ← getLowLoadService (GATEWAY_KEYS conf) d;
  '(d, lowSceneAddress) ← getLowLoadService sceneKey d;
  none ← (if bool_decide (lowGatewayAddress = []) || bool_decide (lowSceneAddress = []) then Ok true else
          gateway ← getServiceAddress lowGatewayAddress;
          match gateway with
          | None => Ok true
          | Some _ => scene ← getServiceAddress sceneKey;
                      Ok (match scene with None => true | Some _ => false end)
          end);
  if none : bool then Ok (d, set_code code.login.LOGIN_ERROR_NO_SUCH_SERVICE resp) else
  gateway ← getServiceAddress lowGatewayAddress;
  gateway ← of_option BadArgument gateway;
  ds ← getServiceAddress lowSceneAddress;
  ds ← of_option BadArgument ds;
  Ok (d, set_addresses gateway ds (set_code code.login.LOGIN_CHARACTER_ENTERING resp)).

(** The hash of a character; its fields are distinct, so their order does not matter. *)
Definition character_fields (info : CharacterInfo.t) : fields :=
  [(FIELD_ACCOUNT, CharacterInfo.ACCOUNT info);
   (FIELD_CHARACTER_NAME, CharacterInfo.NAME info);
   (FIELD_CHARACTER_LEVEL, to_string (CharacterInfo.LEVEL info));
   (FIELD_CHARACTER_GENDER, if CharacterInfo.GENDER info =? 0 then lit "false" else lit "true");
   (FIELD_CHARACTER_OCCUPTION, to_string (CharacterInfo.OCCUPTION info));
   (FIELD_CHARACTER_STATE, to_string (CharacterInfo.STATE info));
   (FIELD_EXP, to_string (CharacterInfo.EXP info));
   (FIELD_HEALTH, to_string (CharacterInfo.HEALTH info));
   (FIELD_MANA, to_string (CharacterInfo.MANA info));
   (FIELD_ARMOR, to_string (CharacterInfo.ARMOR info));
   (FIELD_STAMINA, to_string (CharacterInfo.STAMINA info));
   (FIELD_STRENGTH, to_string (CharacterInfo.STRENGTH info));
   (FIELD_AGILITY, to_string (CharacterInfo.AGILITY info));
   (FIELD_INTELLECT, to_string (CharacterInfo.INTELLECT info));
   (FIELD_SCENE_ID, to_string (CharacterInfo.SCENE_ID info));
   (FIELD_SCENE_X, double_to_string (CharacterInfo.SCENE_X info));
   (FIELD_SCENE_Y, double_to_string (CharacterInfo.SCENE_Y info));
   (FIELD_SCENE_Z, double_to_string (CharacterInfo.SCENE_Z info))].

Definition enter_game (account character : str) (resp : LoginResponseMessage.t) (st : D * B)
    : res (D * B * LoginResponseMessage.t) :=
  let '(d, b) := st in
  '(b, result) ← getOneCharacterInfoFill2Message account character b;
  match result with
  | None => Ok (d, b, set_code code.login.LOGIN_CHARACTER_ERROR_ACCOUNT_MISMATCH resp)
  | Some info =>
      let characterKey := generateCharacterKey account character in
      let sceneKey := SERVICE_DS_PREFIX conf ++ to_string (CharacterInfo.SCENE_ID info) in
      let '(d, ttlResult) := setTTL characterKey 300 d in
      match ttlResult with
      | Some true => '(d, resp) ← offer_services sceneKey resp d; Ok (d, b, resp)
      | Some false =>
          '(_, characterData) ← CharacterInfo.serialize (CharacterInfo.count info);
          let '(d, _) := addCharacter characterKey
                           (character_fields info ++ [(FIELD_CHARACTER_DATA, characterData)]) d in
          let '(d, _) := setTTL characterKey 300 d in
          '(d, resp) ← offer_services sceneKey resp d; Ok (d, b, resp)
      | None => Ok (d, b, set_code code.login.LOGIN_ERROR_FROM_DB resp)
      end
  end.

Definition getLoginCharacterResponseMsg (c : ClientCarrier) (st : D * B) : res (ClientCarrier * (D * B)) :=
  if negb (bool_decide (TYPE c = MESSAGE_LOGIN_LOGIN_CHARACTER_MSG conf))
  then Ok (carry_type (MESSAGE_LOGIN_ERROR_MSG conf) c, st) else
  m ← LoginCharacterRequestMessage.deserialize (data_of (MESSAGE c)) (newCharacterRequest now);
  let c := carry_route (BROKER_DB_4_LOGIN_KEY conf) (SERVICE c) c in
  let resp := newLoginResponse (MESSAGE_LOGIN_LOGIN_RESPONSE_MSG conf) now j in
  let request := LoginRequestMessage.REQUEST_CODE (LoginCharacterRequestMessage.parent m) in
  let account := LoginRequestMessage.ACCOUNT (LoginCharacterRequestMessage.parent m) in
  let character := LoginCharacterRequestMessage.CHARACTER_NAME m in
  '(d, b, resp) ←
    (if request =? code.login.LOGIN_CREATE_CHARACTER_CODE then
       '(b, resp) ← create_character m resp st.2; Ok (st.1, b, resp)
     else if request =? code.login.LOGIN_DELETE_CHARACTER_CODE then
       '(b, resp) ← delete_character account character resp st.2; Ok (st.1, b, resp)
     else if request =? code.login.LOGIN_CHARACTER_ENTER_GAME_CODE then
       enter_game account character resp st
     else Ok (st.1, st.2, resp));
  write_answer resp c (d, b).

(** ** The game messages *)

(** The message is read and logged, nothing else. *)
Definition getGameResponseMsg (c : ClientCarrier) (st : D * B) : res (ClientCarrier * (D * B)) :=
  if negb (bool_decide (TYPE c = MESSAGE_GAME_MSG conf))
  then Ok (carry_type (MESSAGE_GAME_ERROR_MSG conf) c, st) else
  _ ← DSMessage.deserialize (data_of (MESSAGE c)) (newDSMessage now);
  Ok (c, st).

Definition load_reply (name : str) (code scene : Z) (account character data : str)
    : res str :=
  snd <$> DSLoadOrUploadCharacterMessage.serialize (DSLoadOrUploadCharacterMessage.count
    (DSLoadOrUploadCharacterMessage.mk (TimestampMessage.mk (set_name name newBaseMessage) now)
       code scene account character data)).

(** [junkScene]: SCENE_ID is set only when the database answers. *)
Definition load_character (junkScene : Z) (m : DSLoadOrUploadCharacterMessage.t) (c : ClientCarrier) (st : D * B)
    : res (ClientCarrier * (D * B)) :=
  let '(d, b) := st in
  let c := carry_route (BROKER_DB_4_GAME_KEY conf) (SERVICE c) c in
  let name := MESSAGE_GAME_CHARACTER_MSG conf in
  let account := DSLoadOrUploadCharacterMessage.ACCOUNT m in
  let character := DSLoadOrUploadCharacterMessage.CHARACTER_NAME m in
  let '(d, (result, characterData)) := getCharacterData (generateCharacterKey account character) [] d in
  if 0 <? result then
    data ← load_reply name code.game.GAME_LOAD_CHARACTER_SUCCESS junkScene account character characterData;
    Ok (carry_message data c, (d, b))
  else
    '(b, info) ← getOneCharacterInfoFill2Message account character b;
    match info with
    | Some info =>
        '(_, characterData) ← CharacterInfo.serialize (CharacterInfo.count info);
        data ← load_reply name code.game.GAME_LOAD_CHARACTER_SUCCESS (CharacterInfo.SCENE_ID info)
                 account character characterData;
        Ok (carry_message data c, (d, b))
    | None =>
        data ← load_reply name code.game.GAME_LOAD_CHARACTER_ERROR junkScene [] [] [];
        Ok (carry_message data c, (d, b))
    end.

(** [lastUpload]: the character leaves the game. *)
Definition upload_character (lastUpload : bool) (m : DSLoadOrUploadCharacterMessage.t) (c : ClientCarrier)
    (st : D * B) : res (ClientCarrier * (D * B)) :=
  let '(d, b) := st in
  let c := carry_route (BROKER_DB_4_GAME_KEY conf) [] c in
  let characterKey := generateCharacterKey (DSLoadOrUploadCharacterMessage.ACCOUNT m)
                        (DSLoadOrUploadCharacterMessage.CHARACTER_NAME m) in
  let data := DSLoadOrUploadCharacterMessage.CHARACTER_DATA m in
  let '(d, _) := addCharacter characterKey [(FIELD_CHARACTER_DATA, data)] d in
  let '(d, _) := if lastUpload then setTTL characterKey 300 d else (d, None) in
  info ← CharacterInfo.deserialize (data_of data) newCharacterInfo;
  b ← updateCharacter info lastUpload b;
  Ok (c, (d, b)).

Definition getGameCharacterResponseMsg (junkScene : Z) (c : ClientCarrier) (st : D * B)
    : res (ClientCarrier * (D * B)) :=
  if negb (bool_decide (TYPE c = MESSAGE_GAME_CHARACTER_MSG conf))
  then Ok (carry_type (MESSAGE_GAME_ERROR_MSG conf) c, st) else
  m ← DSLoadOrUploadCharacterMessage.deserialize (data_of (MESSAGE c)) (newLoadMessage now);
  let code := DSLoadOrUploadCharacterMessage.CODE m in
  if code =? code.game.GAME_LOAD_CHARACTER_CODE then load_character junkScene m c st
  else if code =? code.game.GAME_UPLOAD_CHARACTER_CODE then upload_character false m c st
  else if code =? code.game.GAME_LAST_UPLOAD_CHARACTER_CODE then upload_character true m c st
  else Ok (c, st).

(** ** [DBServGateman] *)

Abbreviation handle_func := (ClientCarrier → D * B → res (ClientCarrier * (D * B))).

(** One pass of [reader]; [FILL_2_THIS] is that of the carrier it is made for. *)
Definition reader (FILL_2_THIS : tags → ClientCarrier → res ClientCarrier) (mHandleFuncs : gmap str handle_func)
    (mReadKey mGroup mConsumer : str) (st : D * B) : res (D * B) :=
  let '(d, b) := st in
  let '(d, (pullResult, result)) :=
    pull_group mReadKey mGroup mConsumer (lit ">") (STREAM_CUSTOMER_PULL_NAP_IN_MILLISECONDS conf) 1 d in
  match pullResult with
  | Some 1 =>
      '(id, fields) ← of_option OutOfRange (default [] (result !! mReadKey) !! 0%nat);
      fields ← of_option BadArgument fields;
      msg ← FILL_2_THIS fields (mkCarrier [] [] [] [] [] []);
      '(msg, (d, b)) ← (match mHandleFuncs !! TYPE msg with
                        | Some func => func msg (d, b)
                        | None => Ok (msg, (d, b))
                        end);
      d ← (if bool_decide (TYPE msg = lit "LOGIN_ERROR_MSG") then fst <$> del mReadKey id d else Ok d);
      '(d, acked) ← ack mReadKey mGroup id d;
      if (acked =? 1) && negb (bool_decide (NEXT_SERVICE msg = []))
      then Ok ((push (NEXT_SERVICE msg) (fill_vec msg) 5000 d).1, b)
      else Ok (d, b)
  | _ => Ok (d, b)
  end.

(** What the constructor of [DBServGateway] registers. *)
Definition loginFuncs : gmap str handle_func :=
  <[MESSAGE_LOGIN_LOGIN_MSG conf := getLoginResponseMsg]>
    {[ MESSAGE_LOGIN_LOGIN_CHARACTER_MSG conf := getLoginCharacterResponseMsg ]}.
Definition gameFuncs (junkScene : Z) : gmap str handle_func :=
  <[MESSAGE_GAME_MSG conf := getGameResponseMsg]>
    {[ MESSAGE_GAME_CHARACTER_MSG conf := getGameCharacterResponseMsg junkScene ]}.

Definition mConsumerPrefix : str := lit "CONSUMER_".

Definition login_reader : D * B → res (D * B) :=
  reader LoginMessage.FILL_2_THIS loginFuncs (BROKER_DB_4_LOGIN_KEY conf) (BROKER_DB_GROUP conf)
    (mConsumerPrefix ++ to_string 1).
Definition game_reader (junkScene : Z) : D * B → res (D * B) :=
  reader GameMessage.FILL_2_THIS (gameFuncs junkScene) (BROKER_DB_4_GAME_KEY conf) (BROKER_DB_GROUP conf)
    (mConsumerPrefix ++ to_string 2).

(** The groups [start] creates, before the readers run. *)
Definition start (d : D) : D :=
  let '(d, _) := createGroup (BROKER_DB_4_LOGIN_KEY conf) (BROKER_DB_GROUP conf) (lit "$") d in
  let '(d, _) := createGroup (BROKER_DB_4_GATEWAY_KEY conf) (BROKER_DB_GROUP conf) (lit "$") d in
  (createGroup (BROKER_DB_4_GAME_KEY conf) (BROKER_DB_GROUP conf) (lit "$") d).1.
End QueryTask.

(** ** Requests and answers *)

(** A fresh object reads a whole message of a class of scalars and strings. *)
Lemma read_request {M : Type} `{MessageLaws M} (m r : M) :
  flat msg_types = true → synced (msg_base r) → ARRAY_LIKE_LENGHTS (msg_base r) = [] → fresh_message m →
  msg_deserialize (data_of (msg_wire m)) r = Ok (msg_rebuild
    (after_message (MSG_NAME (msg_base m)) msg_types (msg_members m) (msg_base r)) (msg_members m) r).
Proof.
  intros Hf Hs Hl Hm. apply msg_read_one; [done..|]. rewrite Hl. cbn [kept_lens length].
  destruct Hm as (_ & _ & Ht). unfold total in Ht.
  pose proof (strlen_nonneg (MSG_NAME (msg_base m))). pose proof (strlen_nonneg (encs msg_types (msg_members m))). lia.
Qed.

(** The methods of a class, by name. *)
Lemma login_read : @msg_deserialize _ LoginRequestMessage.message = LoginRequestMessage.deserialize.
Proof. done. Qed.
Lemma load_read : @msg_deserialize _ DSLoadOrUploadCharacterMessage.message = DSLoadOrUploadCharacterMessage.deserialize.
Proof. done. Qed.

Lemma response_methods : @msg_serialize _ LoginResponseMessage.message = LoginResponseMessage.serialize ∧
  @msg_count _ LoginResponseMessage.message = LoginResponseMessage.count.
Proof. done. Qed.

Lemma response_written (m : LoginResponseMessage.t) : fresh_message m →
  ∃ m', LoginResponseMessage.serialize (LoginResponseMessage.count m) = Ok (m', msg_wire m).
Proof.
  intros Hm. destruct (msg_serialize_wire m Hm) as [m' Hm']. destruct response_methods as [E1 E2].
  rewrite E1, E2 in Hm'. exists m'. exact Hm'.
Qed.

Lemma info_methods : @msg_serialize _ CharacterBaseInfo.message = CharacterBaseInfo.serialize ∧
  @msg_count _ CharacterBaseInfo.message = CharacterBaseInfo.count.
Proof. done. Qed.

Lemma info_written (m : CharacterBaseInfo.t) : fresh_message m →
  ∃ m', CharacterBaseInfo.serialize (CharacterBaseInfo.count m) = Ok (m', msg_wire m).
Proof.
  intros Hm. destruct (msg_serialize_wire m Hm) as [m' Hm']. destruct info_methods as [E1 E2].
  rewrite E1, E2 in Hm'. exists m'. exact Hm'.
Qed.

Lemma load_methods : @msg_serialize _ DSLoadOrUploadCharacterMessage.message = DSLoadOrUploadCharacterMessage.serialize ∧
  @msg_count _ DSLoadOrUploadCharacterMessage.message = DSLoadOrUploadCharacterMessage.count.
Proof. done. Qed.

Lemma load_written (m : DSLoadOrUploadCharacterMessage.t) : fresh_message m →
  ∃ m', DSLoadOrUploadCharacterMessage.serialize (DSLoadOrUploadCharacterMessage.count m) = Ok (m', msg_wire m).
Proof.
  intros Hm. destruct (msg_serialize_wire m Hm) as [m' Hm']. destruct load_methods as [E1 E2].
  rewrite E1, E2 in Hm'. exists m'. exact Hm'.
Qed.

Lemma serialize_infos_wire infos : Forall fresh_message infos → serialize_infos infos = Ok (msg_wire <$> infos).
Proof.
  induction 1 as [|info infos Hi _ IH]; cbn [serialize_infos]; [done|].
  destruct (info_written info Hi) as [m' ->]. cbn [mbind res_bind]. by rewrite IH.
Qed.

Section Answers.
Context {D B : Type} `{StreamLaws D} `{Database B}.
Context (conf : DBServConf) (j : Junk) (now : Z).

(** One pass of a reader that finds a carrier of a registered type. *)
Lemma reader_handles fill funcs key group consumer (func : ClientCarrier → D * B → res (ClientCarrier * (D * B)))
    c c' id d d1 d2 b b' :
  xreadgroup group consumer key (lit ">") (STREAM_CUSTOMER_PULL_NAP_IN_MILLISECONDS conf) 1 d
    = (d1, inl {[ key := [(id, Some (fill_vec c))] ]}) →
  (∀ c0, fill (fill_vec c) c0 = Ok c) → funcs !! TYPE c = Some func →
  func c (d1, b) = Ok (c', (d2, b')) → TYPE c' ≠ lit "LOGIN_ERROR_MSG" → is_Some (pel d2 key group !! id) →
  ∃ d3 n, reader conf fill funcs key group consumer (d, b)
      = Ok (if bool_decide (NEXT_SERVICE c' = []) then d3 else (push (NEXT_SERVICE c') (fill_vec c') 5000 d3).1, b') ∧
    ack key group id d2 = Ok (d3, n) ∧ pel d3 key group = delete id (pel d2 key group).
Proof.
  intros Hx Hfill Hf Hrun Ht [it Hp]. unfold reader, pull_group, caught. rewrite Hx. cbv zeta beta iota.
  unfold pulled_of. rewrite map_size_singleton. change (Z.of_nat 1) with 1. cbv iota beta.
  rewrite lookup_singleton_eq. change (of_option OutOfRange _) with (Ok (id, Some (fill_vec c))).
  cbn [of_option mbind res_bind]. rewrite Hfill. cbn [mbind res_bind]. rewrite Hf, Hrun. cbn [mbind res_bind].
  rewrite (bool_decide_eq_false_2 (TYPE c' = _)) by exact Ht. cbn [mbind res_bind].
  destruct (ack_law key group id d2) as (d3 & Ha & Hp3 & _). rewrite Hp in Ha.
  unfold ack, uncaught. rewrite Ha. cbn [mbind res_bind]. exists d3, 1. split_and!; [|done|done].
  by destruct (bool_decide (NEXT_SERVICE c' = [])).
Qed.

(** What an account request asks of the database, and what it deserves: the
    response code and the characters to list. *)
Definition account_answer (m : LoginRequestMessage.t) (address : str) (b : B)
    : res (B * Z * list CharacterBaseInfo.t) :=
  let account := LoginRequestMessage.ACCOUNT m in
  let password := LoginRequestMessage.PASSWORD m in
  match LoginRequestMessage.REQUEST_CODE m with
  | 10 =>
      '(b, result) ← addNewAccount account password address b;
      Ok (b, match result with
             | 1 => code.login.LOGIN_REGISTER_RESULT_SUCCESS
             | 0 => code.login.LOGIN_REGISTER_ERROR_ACCOUNT_EXISTED
             | _ => code.login.LOGIN_ERROR_FROM_DB
             end, [])
  | 20 =>
      '(b, result) ← matchAccountAndUpdateLoginState account password b;
      match result with
      | 1 => '(b, infos) ← getAllCharacterBaseInfoFill2Message account b;
             Ok (b, code.login.LOGIN_LOGIN_RESULT_SUCCESS, default [] infos)
      | 0 => Ok (b, code.login.LOGIN_LOGIN_ERROR_ACCOUNT_PASSWORD_MISMATCH, [])
      | 2 => Ok (b, code.login.LOGIN_LOGIN_ERROR_ACCOUNT_ALREADY_ON, [])
      | _ => Ok (b, code.login.LOGIN_ERROR_FROM_DB, [])
      end
  | _ => Ok (b, code.NONE, [])
  end.

Definition account_response (code : Z) (infos : list CharacterBaseInfo.t) : LoginResponseMessage.t :=
  set_infos (msg_wire <$> infos) (set_code code (newLoginResponse (MESSAGE_LOGIN_LOGIN_RESPONSE_MSG conf) now j)).

(** The carrier of an answer: back to the service that asked. *)
Definition answer_carrier (key data : str) (c : ClientCarrier) : ClientCarrier :=
  mkCarrier (TYPE c) key (SERVICE c) data (CLIENT_ID c) (CLIENT_ADDRESS c).

Lemma carry_answer key data c : carry_message data (carry_route key (SERVICE c) c) = answer_carrier key data c.
Proof. done. Qed.

Lemma write_answer_wire {W : Type} resp c (st : W) : fresh_message resp →
  write_answer resp c st = Ok (carry_message (msg_wire resp) c, st).
Proof. intros Hr. unfold write_answer. destruct (response_written _ Hr) as [r' ->]. done. Qed.

(** The branches of the code on the request come to [account_answer]. *)
Definition account_branches (m : LoginRequestMessage.t) (address : str) (resp : LoginResponseMessage.t) (b : B)
    : res (B * LoginResponseMessage.t) :=
  if LoginRequestMessage.REQUEST_CODE m =? code.login.LOGIN_REGISTER_REQUEST_CODE then
    register_account m address resp b
  else if LoginRequestMessage.REQUEST_CODE m =? code.login.LOGIN_LOGIN_REQUEST_CODE then
    login_account m resp b
  else Ok (b, resp).

Lemma account_branches_ok (m : LoginRequestMessage.t) address (b b' : B) code infos :
  account_answer m address b = Ok (b', code, infos) → Forall fresh_message infos →
  account_branches m address (newLoginResponse (MESSAGE_LOGIN_LOGIN_RESPONSE_MSG conf) now j) b
  = Ok (b', account_response code infos).
Proof.
  unfold account_answer, account_branches, account_response, register_account, login_account. intros Ha Hi.
  set (resp := newLoginResponse _ _ _).
  destruct (decide (LoginRequestMessage.REQUEST_CODE m = 10)) as [Hc|Hc].
  { rewrite Hc in *. cbn [Z.eqb code.login.LOGIN_REGISTER_REQUEST_CODE Pos.eqb].
    destruct (addNewAccount _ _ _ b) as [[b1 r]|]; [|done]. cbn [mbind res_bind] in *. injection Ha as <- <- <-.
    by destruct r as [|[p|p|]|p]. }
  destruct (decide (LoginRequestMessage.REQUEST_CODE m = 20)) as [Hc'|Hc'].
  { rewrite Hc' in *. cbn [Z.eqb code.login.LOGIN_REGISTER_REQUEST_CODE code.login.LOGIN_LOGIN_REQUEST_CODE Pos.eqb].
    destruct (matchAccountAndUpdateLoginState _ _ b) as [[b1 r]|]; [|done]. cbn [mbind res_bind] in *.
    destruct r as [|[p|[p|p|]|]|p]; try (injection Ha as <- <- <-; done).
    cbn [Z.eqb Pos.eqb]. destruct (getAllCharacterBaseInfoFill2Message _ b1) as [[b2 l]|]; [|done]. cbn [mbind res_bind] in *.
    injection Ha as <- <- <-. by rewrite serialize_infos_wire. }
  rewrite (proj2 (Z.eqb_neq _ _)) by done. rewrite (proj2 (Z.eqb_neq _ _)) by done.
  destruct (LoginRequestMessage.REQUEST_CODE m) as [|p|p]; try (injection Ha as <- <- <-; done).
  repeat (destruct p as [p|p|]; try (injection Ha as <- <- <-; done); try done).
Qed.

(** What a fresh object reads of a request. *)
Lemma login_request_read (m : LoginRequestMessage.t) : fresh_message m →
  ∃ b, LoginRequestMessage.deserialize (data_of (msg_wire m)) (newLoginRequest now) =
    Ok (LoginRequestMessage.mk b (LoginRequestMessage.REQUEST_CODE m) (LoginRequestMessage.ACCOUNT m)
          (LoginRequestMessage.PASSWORD m)).
Proof.
  intros Hf. pose proof (read_request m (newLoginRequest now) eq_refl eq_refl eq_refl Hf) as Hd.
  rewrite login_read in Hd. rewrite Hd. by eexists.
Qed.

Lemma getLoginResponseMsg_ok (m : LoginRequestMessage.t) c (d : D) (b b' : B) code infos :
  TYPE c = MESSAGE_LOGIN_LOGIN_MSG conf → MESSAGE c = msg_wire m → fresh_message m →
  account_answer m (CLIENT_ADDRESS c) b = Ok (b', code, infos) →
  Forall fresh_message infos → fresh_message (account_response code infos) →
  getLoginResponseMsg conf j now c (d, b)
  = Ok (answer_carrier (BROKER_DB_4_LOGIN_KEY conf) (msg_wire (account_response code infos)) c, (d, b')).
Proof.
  intros Ht Hm Hf Ha Hi Hr. unfold getLoginResponseMsg. rewrite bool_decide_eq_true_2 by done. cbn [negb].
  destruct (login_request_read m Hf) as [p Hd]. rewrite Hm, Hd. cbn [mbind res_bind].
  pose proof (account_branches_ok (LoginRequestMessage.mk p (LoginRequestMessage.REQUEST_CODE m)
    (LoginRequestMessage.ACCOUNT m) (LoginRequestMessage.PASSWORD m)) (CLIENT_ADDRESS c) b b' code infos Ha Hi) as Hcase.
  unfold account_branches in Hcase. cbn [snd CLIENT_ADDRESS carry_route]. rewrite Hcase. cbn [mbind res_bind].
  cbn [fst]. by rewrite write_answer_wire, carry_answer.
Qed.

(** What a request about a character asks of the database, unless it is to enter
    the game. *)
Definition character_answer (m : LoginCharacterRequestMessage.t) (b : B) : res (B * Z) :=
  let request := LoginRequestMessage.REQUEST_CODE (LoginCharacterRequestMessage.parent m) in
  let account := LoginRequestMessage.ACCOUNT (LoginCharacterRequestMessage.parent m) in
  if request =? code.login.LOGIN_CREATE_CHARACTER_CODE then
    '(b, result) ← addNewCharacter m b;
    Ok (b, if result =? 1 then code.login.LOGIN_CREATE_CHARACTER_RESULT_SUCCESS
           else if result =? 0 then code.login.LOGIN_CREATE_CHARACTER_ERROR_EXISTED
           else code.login.LOGIN_ERROR_FROM_DB)
  else if request =? code.login.LOGIN_DELETE_CHARACTER_CODE then
    '(b, result) ← removeCharacter account (LoginCharacterRequestMessage.CHARACTER_NAME m) b;
    Ok (b, if result =? 1 then code.login.LOGIN_DELETE_CHARACTER_RESULT_SUCCESS
           else if result =? 0 then code.login.LOGIN_DELETE_CHARACTER_ERROR_NO_EXISTED
           else code.login.LOGIN_ERROR_FROM_DB)
  else Ok (b, code.NONE).

(** The request with another base is the same request. *)
Definition rebased (p : BaseMessage) (m : LoginCharacterRequestMessage.t) : LoginCharacterRequestMessage.t :=
  LoginCharacterRequestMessage.mk
    (LoginRequestMessage.mk (TimestampMessage.set_base p (TimestampMessage.new now))
      (LoginRequestMessage.REQUEST_CODE (LoginCharacterRequestMessage.parent m))
      (LoginRequestMessage.ACCOUNT (LoginCharacterRequestMessage.parent m))
      (LoginRequestMessage.PASSWORD (LoginCharacterRequestMessage.parent m)))
    (LoginCharacterRequestMessage.CHARACTER_NAME m) (LoginCharacterRequestMessage.CHARACTER_GENDER m)
    (LoginCharacterRequestMessage.CHARACTER_OCCUPTION m) (LoginCharacterRequestMessage.CHARACTER_STATE m).

Lemma character_decoded : @msg_deserialize _ LoginCharacterRequestMessage.message = LoginCharacterRequestMessage.deserialize.
Proof. done. Qed.

Lemma character_request_read (m : LoginCharacterRequestMessage.t) : fresh_message m →
  ∃ p, LoginCharacterRequestMessage.deserialize (data_of (msg_wire m)) (newCharacterRequest now) = Ok (rebased p m).
Proof.
  intros Hf. pose proof (read_request m (newCharacterRequest now) eq_refl eq_refl eq_refl Hf) as Hd.
  rewrite character_decoded in Hd. rewrite Hd. by eexists.
Qed.

Lemma getLoginCharacterResponseMsg_ok (m : LoginCharacterRequestMessage.t) c (d : D) (b b' : B) code :
  TYPE c = MESSAGE_LOGIN_LOGIN_CHARACTER_MSG conf → MESSAGE c = msg_wire m → fresh_message m →
  LoginRequestMessage.REQUEST_CODE (LoginCharacterRequestMessage.parent m) ≠ code.login.LOGIN_CHARACTER_ENTER_GAME_CODE →
  (∀ p, character_answer (rebased p m) b = Ok (b', code)) → fresh_message (account_response code []) →
  getLoginCharacterResponseMsg conf j now c (d, b)
  = Ok (answer_carrier (BROKER_DB_4_LOGIN_KEY conf) (msg_wire (account_response code [])) c, (d, b')).
Proof.
  intros Ht Hm Hf He Ha Hr. unfold getLoginCharacterResponseMsg. rewrite bool_decide_eq_true_2 by done. cbn [negb].
  destruct (character_request_read m Hf) as [p Hd]. rewrite Hm, Hd. cbn [mbind res_bind]. specialize (Ha p).
  unfold character_answer in Ha. set (m' := rebased p m) in *.
  change (LoginRequestMessage.REQUEST_CODE (LoginCharacterRequestMessage.parent m))
    with (LoginRequestMessage.REQUEST_CODE (LoginCharacterRequestMessage.parent m')) in He.
  rewrite (proj2 (Z.eqb_neq _ _) He). cbn [fst snd] in *.
  assert (∀ n resp, resp = set_code n (newLoginResponse (MESSAGE_LOGIN_LOGIN_RESPONSE_MSG conf) now j) → n = code →
    write_answer resp (carry_route (BROKER_DB_4_LOGIN_KEY conf) (SERVICE c) c) (d, b')
    = Ok (answer_carrier (BROKER_DB_4_LOGIN_KEY conf) (msg_wire (account_response code [])) c, (d, b'))) as Hw.
  { intros n resp -> ->. rewrite <- carry_answer. exact (write_answer_wire (account_response code []) _ _ Hr). }
  destruct (_ =? code.login.LOGIN_CREATE_CHARACTER_CODE); [|destruct (_ =? code.login.LOGIN_DELETE_CHARACTER_CODE)].
  - unfold create_character. destruct (addNewCharacter m' b) as [[b1 n]|]; [|done]. cbn [mbind res_bind] in *.
    injection Ha as -> Hn. by eapply Hw.
  - unfold delete_character. destruct (removeCharacter _ _ b) as [[b1 n]|]; [|done]. cbn [mbind res_bind] in *.
    injection Ha as -> Hn. by eapply Hw.
  - injection Ha as -> Hn. by apply (Hw code.NONE).
Qed.

(** ** The character cache *)

Lemma hset_one key f v (d : D) `{!HashLaws D} : ∃ d' n, addCharacter key [(f, v)] d = (d', n) ∧
  hash d' key = <[f := v]> (hash d key) ∧ ∀ key', key' ≠ key → hash d' key' = hash d key'.
Proof.
  destruct (hset_law key [(f, v)] d) as (d' & n & Hs & Hk & Ho). exists d', (sint 32 n).
  unfold addCharacter, caught. rewrite Hs. by split_and!.
Qed.

Lemma setTTL_ok key secs (d : D) `{!HashLaws D} : 0 < secs → ∃ d',
  setTTL key secs d = (d', Some (negb (bool_decide (hash d key = ∅)))) ∧ ∀ key', hash d' key' = hash d key'.
Proof.
  intros Hs. destruct (expire_law key secs d Hs) as (d' & He & Hh). exists d'.
  unfold setTTL, caught. by rewrite He.
Qed.

(** What the cache holds of a character. *)
Definition cached `{!HashLaws D} (account character : str) (d : D) : option str :=
  hash d (generateCharacterKey account character) !! FIELD_CHARACTER_DATA.

Lemma upload_ok `{!HashLaws D} lastUpload m c (d : D) (b b' : B) info :
  CharacterInfo.deserialize (data_of (DSLoadOrUploadCharacterMessage.CHARACTER_DATA m)) newCharacterInfo = Ok info →
  updateCharacter info lastUpload b = Ok b' →
  ∃ d', upload_character conf lastUpload m c (d, b)
      = Ok (carry_route (BROKER_DB_4_GAME_KEY conf) [] c, (d', b')) ∧
    ∀ account character, cached account character d' =
      if decide (generateCharacterKey account character = generateCharacterKey
           (DSLoadOrUploadCharacterMessage.ACCOUNT m) (DSLoadOrUploadCharacterMessage.CHARACTER_NAME m))
      then Some (DSLoadOrUploadCharacterMessage.CHARACTER_DATA m) else cached account character d.
Proof.
  intros Hi Hu. unfold upload_character. set (key := generateCharacterKey (DSLoadOrUploadCharacterMessage.ACCOUNT m) _).
  destruct (hset_one key FIELD_CHARACTER_DATA (DSLoadOrUploadCharacterMessage.CHARACTER_DATA m) d)
    as (d1 & n & Hadd & Hk & Ho). rewrite Hadd.
  assert (∃ d2 o, (if lastUpload then setTTL key 300 d1 else (d1, None)) = (d2, o) ∧ ∀ k, hash d2 k = hash d1 k)
    as (d2 & o & Hl & Hh).
  { destruct lastUpload; [|by eexists _, _]. destruct (setTTL_ok key 300 d1) as (d2 & Ht & Hh); [lia|].
    by eexists _, _. }
  rewrite Hl, Hi. cbn [mbind res_bind]. rewrite Hu. cbn [mbind res_bind]. exists d2. split; [done|]. intros account character.
  unfold cached. rewrite Hh. case_decide as Hkey; [|by rewrite Ho].
  rewrite Hkey. fold key. by rewrite Hk, lookup_insert_eq.
Qed.

Lemma load_ok `{!HashLaws D} junkScene m c (d : D) (b : B) data :
  cached (DSLoadOrUploadCharacterMessage.ACCOUNT m) (DSLoadOrUploadCharacterMessage.CHARACTER_NAME m) d = Some data →
  data ≠ [] →
  let resp := DSLoadOrUploadCharacterMessage.mk
    (TimestampMessage.mk (set_name (MESSAGE_GAME_CHARACTER_MSG conf) newBaseMessage) now)
    code.game.GAME_LOAD_CHARACTER_SUCCESS junkScene (DSLoadOrUploadCharacterMessage.ACCOUNT m)
    (DSLoadOrUploadCharacterMessage.CHARACTER_NAME m) data in
  fresh_message resp →
  load_character conf now junkScene m c (d, b)
  = Ok (answer_carrier (BROKER_DB_4_GAME_KEY conf) (msg_wire resp) c, (d, b)).
Proof.
  intros Hc Hne resp Hf. unfold load_character, getCharacterData, caught.
  rewrite hget_law. unfold cached in Hc. rewrite Hc. destruct data as [|x data]; [done|].
  unfold default, id. cbv iota beta. change (0 <? 1) with true. cbv iota. unfold load_reply. fold resp.
  destruct (load_written resp Hf) as [r' Hw]. rewrite Hw. cbn [fmap res_fmap snd mbind res_bind].
  by rewrite carry_answer.
Qed.

End Answers.

(** ** Services by load *)

(** The services of a key that the comparison of [size_t]s lets pass: those with
    half the threshold left, and those whose time is negative, because they do not
    expire or are gone. *)
Definition lets_pass (conf : DBServConf) (left_ : Z) : Prop :=
  left_ < 0 ∨ SERVICE_LOSE_THRESHOLD_IN_SECONDS conf / 2 <= left_.

Section Services.
Context {D : Type} `{SortedLaws D} `{!LifeLaws D}.
Context (conf : DBServConf).

Lemma lets_pass_spec left_ :
  0 <= SERVICE_LOSE_THRESHOLD_IN_SECONDS conf < 2 ^ 63 → -2 <= left_ < 2 ^ 63 →
  (SERVICE_LOSE_THRESHOLD_IN_SECONDS conf / 2 <=? u64 left_) = true ↔ lets_pass conf left_.
Proof.
  intros Ht Hl. unfold lets_pass.
  assert (0 <= SERVICE_LOSE_THRESHOLD_IN_SECONDS conf / 2 < 2 ^ 62) as Hh
    by (split; [apply Z.div_pos; lia|apply Z.div_lt_upper_bound; lia]).
  rewrite Z.leb_le. destruct (decide (left_ < 0)) as [Hn|Hn].
  - assert (u64 left_ = left_ + 2 ^ 64) as ->.
    { unfold u64, wrap. rewrite <- (Z.mod_add _ 1), Z.mod_small by lia. lia. }
    lia.
  - rewrite u64_small by (unfold size_max; lia). lia.
Qed.

Lemma first_lasting_ok l (d : D) :
  0 <= SERVICE_LOSE_THRESHOLD_IN_SECONDS conf < 2 ^ 63 →
  first_lasting conf l d = Ok (d,
    match list_find (λ x, (SERVICE_LOSE_THRESHOLD_IN_SECONDS conf / 2 <=? u64 (life d x.1)) = true) l with
    | Some (_, x) => x.1
    | None => []
    end).
Proof.
  intros Ht. induction l as [|[a load] l IH]; cbn [first_lasting list_find]; [done|].
  unfold uncaught. destruct (ttl_law a d) as [-> _]. cbn [mbind res_bind fst].
  destruct (SERVICE_LOSE_THRESHOLD_IN_SECONDS conf / 2 <=? u64 (life d a)) eqn:Hp.
  - by rewrite decide_True by done.
  - rewrite decide_False by done. rewrite IH. by destruct (list_find _ l) as [[]|].
Qed.

(** [getLowLoadService] returns a service of least load among those it lets
    pass, and none only when there is none; and it lets a service pass whose key
    has gone as readily as one with half the threshold left, because the time
    left, negative then, is compared as a [size_t]. *)
Theorem low_load_service key (d : D) :
  0 <= SERVICE_LOSE_THRESHOLD_IN_SECONDS conf < 2 ^ 63 → [] ∉ dom (zset d key) →
  ∃ a, getLowLoadService conf key d = Ok (d, a) ∧
    (a = [] ↔ ∀ x, x ∈ dom (zset d key) → ¬ lets_pass conf (life d x)) ∧
    (a ≠ [] → lets_pass conf (life d a) ∧ ∃ load, zset d key !! a = Some load ∧
       ∀ x l, zset d key !! x = Some l → lets_pass conf (life d x) → load <= l).
Proof.
  intros Ht Hne. destruct (zrange_law key d) as (l & Hl & Hp & Hs). unfold getLowLoadService, uncaught.
  rewrite Hl. cbn [mbind res_bind]. rewrite first_lasting_ok by done.
  assert (∀ x, x ∈ l ↔ zset d key !! x.1 = Some x.2) as Hin.
  { intros [x y]. rewrite Hp. apply elem_of_map_to_list. }
  assert (∀ x, (SERVICE_LOSE_THRESHOLD_IN_SECONDS conf / 2 <=? u64 (life d x)) = true ↔ lets_pass conf (life d x)) as Hpass.
  { intros x. apply lets_pass_spec; [done|]. apply ttl_law. }
  destruct (list_find _ l) as [[i [a load]]|] eqn:Hf; eexists; (split; [done|]); cbn [fst].
  - apply list_find_Some in Hf as (Hi & Ha & Hmin). cbn in Ha. apply Hpass in Ha.
    pose proof (proj1 (Hin (a, load)) (list_elem_of_lookup_2 _ _ _ Hi)) as Hza. cbn in Hza.
    split; [split|].
    + intros ->. destruct Hne. by eapply elem_of_dom_2.
    + intros Hall. destruct (Hall a); [by eapply elem_of_dom_2|done].
    + intros _. split; [done|]. exists load. split; [done|]. intros x y Hx Hlx.
      pose proof (proj2 (Hin (x, y)) Hx) as Hxl. apply list_elem_of_lookup in Hxl as [k Hk].
      destruct (decide (k < i)%nat) as [Hki|Hki].
      { destruct (Hmin k _ Hk Hki). by apply Hpass. }
      apply (by_score_lookup l i k (a, load) (x, y) Hs Hi Hk). lia.
  - rewrite list_find_None, Forall_forall in Hf. split; [split; [|done]|done].
    intros _ x [y Hx]%elem_of_dom Hlx. apply (Hf (x, y)); [by apply Hin|]. by apply Hpass.
Qed.
End Services.

(** ** Addresses *)

Definition colon : ascii := byte_of 58.
Definition no_colon (s : str) : Prop := Forall (λ a, byte_val a ≠ 58) s.

(** All tokens, an empty last one too. *)
Fixpoint pieces (token s : str) : list str :=
  match s with
  | [] => [token]
  | a :: s => if byte_val a =? 58 then token :: pieces [] s else pieces (token ++ [a]) s
  end.

Lemma split_colon_app token s w : split_colon token (s ++ colon :: w) = pieces token s ++ split_colon [] w.
Proof.
  revert token. induction s as [|a s IH]; intros token; cbn [app split_colon pieces]; [done|].
  destruct (byte_val a =? 58); cbn [app]; by rewrite IH.
Qed.

Lemma pieces_plain token s : no_colon s → pieces token s = [token ++ s].
Proof.
  intros Hs. revert token. induction Hs as [|a s Ha _ IH]; intros token; cbn [pieces]; [by rewrite app_nil_r|].
  rewrite (proj2 (Z.eqb_neq _ _) Ha), IH. by rewrite <- app_assoc.
Qed.

Lemma split_plain token s : no_colon s → s ≠ [] → split_colon token s = [token ++ s].
Proof.
  intros Hs Hne. revert token. induction Hs as [|a s Ha Hs IH]; intros token; [done|]. cbn [split_colon].
  rewrite (proj2 (Z.eqb_neq _ _) Ha). destruct s as [|b s]; [by destruct token|].
  rewrite IH by done. by rewrite <- app_assoc.
Qed.

Lemma go_no_colon n s : no_colon (lit s) → no_colon (lit (pretty_N_go n s)).
Proof.
  revert s. induction (N.lt_wf_0 n) as [n _ IH]. intros s Hs.
  destruct (decide (n = 0%N)) as [->|Hn]; [by rewrite pretty_N_go_0|].
  rewrite pretty_N_go_step by lia. apply IH; [by apply N.div_lt; lia|]. constructor; [|exact Hs].
  destruct (pretty_char_val (n `mod` 10)%N) as [_ ->]; [by apply N.mod_lt|].
  pose proof (N.mod_lt n 10 ltac:(lia)). lia.
Qed.

Lemma to_string_no_colon z : 0 <= z → no_colon (to_string z).
Proof.
  intros Hz. rewrite to_string_nonneg by done. unfold pretty, pretty_N.
  case_decide; [by repeat constructor|]. apply go_no_colon. constructor.
Qed.

(** The address a server registers itself under, its key, its host and its
    port with colons between them, is read back as that host and that port,
    whatever colons the key holds. *)
Theorem service_address_roundtrip key host port :
  no_colon host → 0 <= port < 2 ^ 31 →
  getServiceAddress (key ++ lit ":" ++ host ++ lit ":" ++ to_string port) = Ok (Some (host, port)).
Proof.
  intros Hh Hp. unfold getServiceAddress. change (lit ":") with [colon]. cbn [app].
  destruct (key ++ colon :: host ++ colon :: to_string port) as [|x l] eqn:E; [by destruct key|].
  rewrite <- E. destruct (to_string_head port ltac:(lia)) as (c & cs & Hs & _).
  assert (split_colon [] (key ++ colon :: host ++ colon :: to_string port)
    = (pieces [] key ++ [host]) ++ [to_string port]) as ->.
  { rewrite split_colon_app, split_colon_app, (pieces_plain [] host) by done.
    rewrite split_plain; [|apply to_string_no_colon; lia|by rewrite Hs]. by rewrite app_assoc. }
  rewrite last_snoc, !length_app. cbn [length]. rewrite (proj2 (Nat.leb_le _ _)) by lia. cbn [negb].
  rewrite lookup_app_l by (rewrite length_app; cbn; lia).
  rewrite lookup_app_r by lia.
  replace (length (pieces [] key) + 1 + 1 - 2 - length (pieces [] key))%nat with 0%nat by lia.
  cbn [lookup list_lookup of_option mbind res_bind]. rewrite stoi_to_string by lia. done.
Qed.

(** ** Properties of the readers *)

Section Requests.
Context {D B : Type} `{StreamLaws D} `{Database B}.
Context (conf : DBServConf) (j : Junk) (now : Z).

(** An account request found in the stream of the login server is answered as
    the database decides: the answer goes to the stream of the service that asked,
    for the same client, and the request is no longer pending. *)
Theorem account_request_answered (m : LoginRequestMessage.t) c id (d d1 : D) (b b' : B) code infos :
  xreadgroup (BROKER_DB_GROUP conf) (mConsumerPrefix ++ to_string 1) (BROKER_DB_4_LOGIN_KEY conf) (lit ">")
    (STREAM_CUSTOMER_PULL_NAP_IN_MILLISECONDS conf) 1 d
    = (d1, inl {[ BROKER_DB_4_LOGIN_KEY conf := [(id, Some (fill_vec c))] ]}) →
  is_Some (pel d1 (BROKER_DB_4_LOGIN_KEY conf) (BROKER_DB_GROUP conf) !! id) →
  TYPE c = MESSAGE_LOGIN_LOGIN_MSG conf → TYPE c ≠ lit "LOGIN_ERROR_MSG" → SERVICE c ≠ [] →
  MESSAGE c = msg_wire m → fresh_message m →
  account_answer m (CLIENT_ADDRESS c) b = Ok (b', code, infos) →
  Forall fresh_message infos → fresh_message (account_response conf j now code infos) →
  ∃ d2, login_reader conf j now (d, b) = Ok ((push (SERVICE c) (fill_vec (answer_carrier
      (BROKER_DB_4_LOGIN_KEY conf) (msg_wire (account_response conf j now code infos)) c)) 5000 d2).1, b') ∧
    pel d2 (BROKER_DB_4_LOGIN_KEY conf) (BROKER_DB_GROUP conf)
      = delete id (pel d1 (BROKER_DB_4_LOGIN_KEY conf) (BROKER_DB_GROUP conf)).
Proof.
  intros Hx Hp Ht He Hs Hm Hf Ha Hi Hr.
  destruct (reader_handles conf LoginMessage.FILL_2_THIS (loginFuncs conf j now) (BROKER_DB_4_LOGIN_KEY conf)
    (BROKER_DB_GROUP conf) _ (getLoginResponseMsg conf j now) c (answer_carrier (BROKER_DB_4_LOGIN_KEY conf)
      (msg_wire (account_response conf j now code infos)) c) id d d1 d1 b b' Hx) as (d2 & n & Hd & _ & Hpel).
  - intros c0. by destruct c.
  - unfold loginFuncs. by rewrite Ht, lookup_insert_eq.
  - by eapply getLoginResponseMsg_ok.
  - exact He.
  - exact Hp.
  - exists d2. split; [|exact Hpel]. unfold login_reader. rewrite Hd.
    unfold answer_carrier at 1. cbn [NEXT_SERVICE]. by rewrite bool_decide_eq_false_2 by exact Hs.
Qed.

(** The message of a dedicated server, and the carrier it came in. *)
Record game_request (m : DSLoadOrUploadCharacterMessage.t) (c : ClientCarrier) : Prop := {
  gr_type : TYPE c = MESSAGE_GAME_CHARACTER_MSG conf;
  gr_message : MESSAGE c = msg_wire m;
  gr_fresh : fresh_message m }.

Lemma game_request_read junkScene m c (d : D) (b : B) :
  game_request m c → ∃ m', getGameCharacterResponseMsg conf now junkScene c (d, b) =
    (let code := DSLoadOrUploadCharacterMessage.CODE m in
     if code =? code.game.GAME_LOAD_CHARACTER_CODE then load_character conf now junkScene m' c (d, b)
     else if code =? code.game.GAME_UPLOAD_CHARACTER_CODE then upload_character conf false m' c (d, b)
     else if code =? code.game.GAME_LAST_UPLOAD_CHARACTER_CODE then upload_character conf true m' c (d, b)
     else Ok (c, (d, b))) ∧
    DSLoadOrUploadCharacterMessage.ACCOUNT m' = DSLoadOrUploadCharacterMessage.ACCOUNT m ∧
    DSLoadOrUploadCharacterMessage.CHARACTER_NAME m' = DSLoadOrUploadCharacterMessage.CHARACTER_NAME m ∧
    DSLoadOrUploadCharacterMessage.CHARACTER_DATA m' = DSLoadOrUploadCharacterMessage.CHARACTER_DATA m.
Proof.
  intros [Ht Hm Hf]. unfold getGameCharacterResponseMsg. rewrite bool_decide_eq_true_2 by done. cbn [negb].
  pose proof (read_request m (newLoadMessage now) eq_refl eq_refl eq_refl Hf) as Hd.
  rewrite load_read in Hd. rewrite Hm, Hd. cbn [mbind res_bind]. set (m' := msg_rebuild _ _ _).
  exists m'. by split_and!.
Qed.

(** A dedicated server's message with a code nobody knows is acknowledged and
    put back whole in the stream its carrier names next.  The game server names the
    very stream the reader reads, so the reader takes the same message again. *)
Theorem unknown_code_requeued junkScene (m : DSLoadOrUploadCharacterMessage.t) c id (d d1 : D) (b : B) :
  xreadgroup (BROKER_DB_GROUP conf) (mConsumerPrefix ++ to_string 2) (BROKER_DB_4_GAME_KEY conf) (lit ">")
    (STREAM_CUSTOMER_PULL_NAP_IN_MILLISECONDS conf) 1 d
    = (d1, inl {[ BROKER_DB_4_GAME_KEY conf := [(id, Some (fill_vec c))] ]}) →
  is_Some (pel d1 (BROKER_DB_4_GAME_KEY conf) (BROKER_DB_GROUP conf) !! id) →
  game_request m c → TYPE c ≠ lit "LOGIN_ERROR_MSG" → MESSAGE_GAME_MSG conf ≠ MESSAGE_GAME_CHARACTER_MSG conf →
  DSLoadOrUploadCharacterMessage.CODE m ∉
    [code.game.GAME_LOAD_CHARACTER_CODE; code.game.GAME_UPLOAD_CHARACTER_CODE;
     code.game.GAME_LAST_UPLOAD_CHARACTER_CODE] →
  NEXT_SERVICE c = BROKER_DB_4_GAME_KEY conf → BROKER_DB_4_GAME_KEY conf ≠ [] →
  ∃ d2, game_reader conf now junkScene (d, b)
      = Ok ((push (BROKER_DB_4_GAME_KEY conf) (fill_vec c) 5000 d2).1, b) ∧
    pel d2 (BROKER_DB_4_GAME_KEY conf) (BROKER_DB_GROUP conf)
      = delete id (pel d1 (BROKER_DB_4_GAME_KEY conf) (BROKER_DB_GROUP conf)).
Proof.
  intros Hx Hp Hg He Hne Hc Hn Hk.
  destruct (game_request_read junkScene m c d1 b Hg) as (m' & Hm' & _).
  rewrite !not_elem_of_cons in Hc. destruct Hc as (Hc1 & Hc2 & Hc3 & _). cbv zeta in Hm'.
  rewrite (proj2 (Z.eqb_neq _ _) Hc1), (proj2 (Z.eqb_neq _ _) Hc2), (proj2 (Z.eqb_neq _ _) Hc3) in Hm'.
  destruct (reader_handles conf GameMessage.FILL_2_THIS (gameFuncs conf now junkScene) (BROKER_DB_4_GAME_KEY conf)
    (BROKER_DB_GROUP conf) _ (getGameCharacterResponseMsg conf now junkScene) c c id d d1 d1 b b Hx) as (d2 & n & Hd & _ & Hpel).
  - intros c0. by destruct c.
  - unfold gameFuncs. rewrite (gr_type _ _ Hg), lookup_insert_ne by done. apply lookup_singleton_eq.
  - exact Hm'.
  - exact He.
  - exact Hp.
  - exists d2. split; [|exact Hpel]. unfold game_reader. rewrite Hd, Hn.
    by rewrite bool_decide_eq_false_2 by exact Hk.
Qed.

(** The answer to a load that found the character. *)
Definition loaded (junkScene : Z) (m : DSLoadOrUploadCharacterMessage.t) (data : str) :=
  DSLoadOrUploadCharacterMessage.mk
    (TimestampMessage.mk (set_name (MESSAGE_GAME_CHARACTER_MSG conf) newBaseMessage) now)
    code.game.GAME_LOAD_CHARACTER_SUCCESS junkScene (DSLoadOrUploadCharacterMessage.ACCOUNT m)
    (DSLoadOrUploadCharacterMessage.CHARACTER_NAME m) data.

End Requests.

(** ** Witnesses: a database of passwords *)

Record ledger := mkLedger { passwords : gmap str str; online : gset str }.

#[export] Instance ledger_db : Database ledger := {
  addNewAccount account password address b := Ok
    match passwords b !! account with
    | Some _ => (b, 0)
    | None => (mkLedger (<[account := password]> (passwords b)) (online b), 1)
    end;
  matchAccountAndUpdateLoginState account password b := Ok
    (if decide (passwords b !! account = Some password) then
       (mkLedger (passwords b) ({[account]} ∪ online b), if decide (account ∈ online b) then 2 else 1)
     else (b, 0));
  getAllCharacterBaseInfoFill2Message account b := Ok
    (b, Some [CharacterBaseInfo.mk newBaseMessage (lit "Meng") 1 0 100111 100011]);
  addNewCharacter m b := Ok (b, 1);
  removeCharacter account character b := Ok (b, 0);
  getOneCharacterInfoFill2Message account character b := Ok (b, None);
  updateCharacter info lastUpload b := Ok b }.

Definition demo_ledger : ledger := mkLedger {[ lit "alice" := lit "secret" ]} ∅.
Definition demo_junk : Junk := mkJunk 0 0.

Definition demo_request : LoginRequestMessage.t :=
  LoginRequestMessage.mk (TimestampMessage.mk (set_name (lit "LOGIN_LOGIN_MSG") newBaseMessage) 0)
    code.login.LOGIN_LOGIN_REQUEST_CODE (lit "alice") (lit "secret").

Definition demo_inbox (key : str) (c : ClientCarrier) : store :=
  mkStore {[ (key, BROKER_DB_GROUP defaultConf) := {[ lit "1-0" := mkPending (lit "1-0") (lit "CONSUMER_1") 0 1 ]} ]}
    ∅ ∅ {[ key := [(lit "1-0", Some (fill_vec c))] ]}.

Lemma demo_pending key c :
  is_Some (pel (demo_inbox key c) key (BROKER_DB_GROUP defaultConf) !! lit "1-0").
Proof.
  exists (mkPending (lit "1-0") (lit "CONSUMER_1") 0 1). unfold pel, store_laws, entries_of, demo_inbox, mkStore.
  cbn [spel]. rewrite lookup_singleton_eq. cbn [default]. apply lookup_singleton_eq.
Qed.

Lemma demo_read key c group consumer ms :
  xreadgroup group consumer key (lit ">") ms 1 (demo_inbox key c)
  = (demo_inbox key c, inl {[ key := [(lit "1-0", Some (fill_vec c))] ]}).
Proof.
  unfold xreadgroup, store_redis, demo_inbox, mkStore. cbn [sinbox]. by rewrite lookup_singleton_eq.
Qed.

Definition demo_login_carrier : ClientCarrier :=
  {| TYPE := lit "LOGIN_LOGIN_MSG"; SERVICE := lit "Warring:LoginServ"; NEXT_SERVICE := lit "Warring:DBServ4LoginServ";
     MESSAGE := msg_wire demo_request; CLIENT_ID := lit "10.0.0.9:4000_7"; CLIENT_ADDRESS := lit "10.0.0.9:4000" |}.

Lemma account_request_answered_witness :
  let key := BROKER_DB_4_LOGIN_KEY defaultConf in
  let d := demo_inbox key demo_login_carrier in
  let resp := account_response defaultConf demo_junk 5000 code.login.LOGIN_LOGIN_RESULT_SUCCESS
                [CharacterBaseInfo.mk newBaseMessage (lit "Meng") 1 0 100111 100011] in
  ∃ d2, login_reader defaultConf demo_junk 5000 (d, demo_ledger)
      = Ok ((push (SERVICE demo_login_carrier) (fill_vec (answer_carrier key (msg_wire resp) demo_login_carrier)) 5000 d2).1,
            mkLedger (passwords demo_ledger) {[ lit "alice" ]}) ∧
    pel d2 key (BROKER_DB_GROUP defaultConf) = delete (lit "1-0") (pel d key (BROKER_DB_GROUP defaultConf)).
Proof.
  intros key d resp. apply (account_request_answered defaultConf demo_junk 5000 demo_request).
  - apply demo_read.
  - apply demo_pending.
  - reflexivity.
  - done.
  - done.
  - reflexivity.
  - split; [done|]. split; [|by vm_compute]. repeat constructor; by vm_compute.
  - vm_compute. reflexivity.
  - constructor; [|constructor]. split; [done|]. split; [|by vm_compute]. repeat constructor; by vm_compute.
  - split; [done|]. split; [|by vm_compute]. repeat constructor; by vm_compute.
Defined.

Definition demo_game (code : Z) (data : str) : DSLoadOrUploadCharacterMessage.t :=
  DSLoadOrUploadCharacterMessage.mk (TimestampMessage.mk (set_name (lit "GAME_CHARACTER_MSG") newBaseMessage) 0)
    code 200001 (lit "alice") (lit "Meng") data.

Definition demo_game_carrier (m : DSLoadOrUploadCharacterMessage.t) : ClientCarrier :=
  {| TYPE := lit "GAME_CHARACTER_MSG"; SERVICE := lit "Warring:GameServ_1"; NEXT_SERVICE := lit "Warring:DBServ4GameServ";
     MESSAGE := msg_wire m; CLIENT_ID := lit "10.0.0.9:7001_8"; CLIENT_ADDRESS := lit "10.0.0.9:7001" |}.

Lemma unknown_code_requeued_witness :
  let key := BROKER_DB_4_GAME_KEY defaultConf in
  let c := demo_game_carrier (demo_game 77 []) in
  ∃ d2, game_reader defaultConf 5000 0 (demo_inbox key c, demo_ledger)
      = Ok ((push key (fill_vec c) 5000 d2).1, demo_ledger) ∧
    pel d2 key (BROKER_DB_GROUP defaultConf)
      = delete (lit "1-0") (pel (demo_inbox key c) key (BROKER_DB_GROUP defaultConf)).
Proof.
  intros key c. apply (unknown_code_requeued defaultConf 5000 0 (demo_game 77 [])).
  - apply demo_read.
  - apply demo_pending.
  - split; [done|done|]. split; [done|]. split; [|by vm_compute]. repeat constructor; by vm_compute.
  - done.
  - done.
  - by apply (bool_decide_unpack _); vm_compute.
  - reflexivity.
  - done.
Defined.

Definition demo_character : CharacterInfo.t :=
  CharacterInfo.mk newBaseMessage (lit "alice") (lit "Meng") 3 1 100111 100011 250 90 50 10 100 10 10 10 200001
    0x409F400000000000 0x409F400000000000 0.


Definition demo_services : store :=
  store_ttl {[ lit "Warring:GatewayServ_2:10.0.0.2:9000" := 12 ]}
    (mkStore ∅ ∅ {[ GATEWAY_KEYS defaultConf := list_to_map
       [(lit "Warring:GatewayServ_1:10.0.0.1:9000", 3); (lit "Warring:GatewayServ_2:10.0.0.2:9000", 40)] ]} ∅).

Lemma low_load_service_witness :
  ∃ a, getLowLoadService defaultConf (GATEWAY_KEYS defaultConf) demo_services = Ok (demo_services, a) ∧
    (a = [] ↔ ∀ x, x ∈ dom (zset demo_services (GATEWAY_KEYS defaultConf)) →
       ¬ lets_pass defaultConf (life demo_services x)) ∧
    (a ≠ [] → lets_pass defaultConf (life demo_services a) ∧
       ∃ load, zset demo_services (GATEWAY_KEYS defaultConf) !! a = Some load ∧
       ∀ x l, zset demo_services (GATEWAY_KEYS defaultConf) !! x = Some l →
         lets_pass defaultConf (life demo_services x) → load <= l).
Proof.
  apply low_load_service; [by vm_compute|]. apply not_elem_of_dom. by vm_compute.
Defined.

Lemma service_address_roundtrip_witness :
  getServiceAddress (lit "Warring:GatewayServ_3" ++ lit ":" ++ lit "10.0.0.1" ++ lit ":" ++ to_string 9000)
  = Ok (Some (lit "10.0.0.1", 9000)).
Proof. apply service_address_roundtrip; [|done]. repeat constructor; by vm_compute. Defined.
