(* ===== verification/CenterServer.v ===== *)
(** * The service registry: [CenterServer/]

    Servers put their key in a set and keep a hash alive under it.  Every five
    seconds the registry looks which keys still exist, announces those it meets
    for the first time, drops those it has missed three times in a row, and asks
    the others for a heartbeat. *)

From S2P Require Import Prelude.
From S2P Require Import Carrier.
From S2P Require Import Broker.

Local Open Scope Z_scope.

(** [CenterServConf.h], what the code below reads of it. *)
Record CenterServConf := mkConf {
  SERVICE_REGISTRY_ID_KEY : str;
  SERVICE_KEYS : str;
  GATEWAY_KEYS : str;
  GAME_KEYS : str;
  KEY_HEARTBEAT_MESSAGE : str;
  SERVICE_REGISTRY_CHANNEL : str }.

Definition defaultConf : CenterServConf :=
  mkConf (lit "Warring:ServReg:IDSuffix") (lit "Warring:Service:KEYS") (lit "Warring:Service:GATEWAYS")
    (lit "Warring:Service:GAMES") (lit "SEND_HEARTBEAT") (lit "Warring:ServReg:Channel").

(** ** [RegHeartbeatMessage] *)

Module RegHeartbeatMessage.

Record t := mk { LOAD_NUM : Z }.

Definition TAG_NUM : nat := 1.

Definition FILL_2_VEC (m : t) (destVector : tags) : tags := [] ++ [(lit "LOAD_NUM", to_string (LOAD_NUM m))].

Definition FILL_2_THIS (sourceVector : tags) (m : t) : res t :=
  if negb (TAG_NUM =? length sourceVector)%nat then Err AssertFailed else
  load ← at_second 0 sourceVector;
  load ← stoul load;
  Ok (mk load).

End RegHeartbeatMessage.

(** ** [ServiceRegistry] *)

Section Registry.
Context {D : Type} `{Redis D}.
Context (conf : CenterServConf).

Definition mIDSuffix : str := lit "0".

Definition initKeys (d : D) : res (D * bool) := uncaught (set_key (SERVICE_REGISTRY_ID_KEY conf) mIDSuffix) d.

(** [mServiceKeys]: the heartbeats each service has missed. *)
Abbreviation state := (D * gmap str Z)%type.

(** The body of the loop over the keys. *)
Definition check_service (serviceKey : str) (st : state) : res state :=
  let '(d, mServiceKeys) := st in
  '(d, existed) ← uncaught (exists_key serviceKey) d;
  if existed =? 1 then
    match mServiceKeys !! serviceKey with
    | None =>
        '(d, _) ← uncaught (publish (SERVICE_REGISTRY_CHANNEL conf) (lit "+" ++ serviceKey)) d;
        Ok (d, <[serviceKey := 0]> mServiceKeys)
    | Some _ => Ok (d, <[serviceKey := 0]> mServiceKeys)
    end
  else
    let missed := u64 (default 0 (mServiceKeys !! serviceKey) + 1) in
    let mServiceKeys := <[serviceKey := missed]> mServiceKeys in
    if 3 <=? missed then
      '(d, _) ← uncaught (srem (SERVICE_KEYS conf) serviceKey) d;
      '(d, _) ← uncaught (zrem (GATEWAY_KEYS conf) serviceKey) d;
      '(d, _) ← uncaught (zrem (GAME_KEYS conf) serviceKey) d;
      '(d, _) ← uncaught (publish (SERVICE_REGISTRY_CHANNEL conf) (lit "-" ++ serviceKey)) d;
      Ok (d, delete serviceKey mServiceKeys)
    else Ok (d, mServiceKeys).

Fixpoint check_services (keys : list str) (st : state) : res state :=
  match keys with
  | [] => Ok st
  | key :: keys => st ← check_service key st; check_services keys st
  end.

(** One turn of the loop of [run].  The keys are those of an unordered set: the
    order in which [smembers] lists them stands for its order. *)
Definition run_pass (st : state) : res state :=
  '(d, serviceKeys) ← uncaught (smembers (SERVICE_KEYS conf)) st.1;
  '(d, mServiceKeys) ← check_services serviceKeys (d, st.2);
  '(d, _) ← uncaught (publish (SERVICE_REGISTRY_CHANNEL conf) (KEY_HEARTBEAT_MESSAGE conf)) d;
  Ok (d, mServiceKeys).
End Registry.

(** ** Redis while the connection holds

    Sets of strings, the existence of keys, and channels.  A command on one key
    leaves the other keys alone. *)
Class RegistryLaws (D : Type) `{SortedLaws D} := {
  rset : D → str → gset str;
  present : D → str → bool;
  published : D → list (str * str);
  smembers_law key d : ∃ l, smembers key d = (d, inl l) ∧ NoDup l ∧ ∀ x, x ∈ l ↔ x ∈ rset d key;
  exists_law key d : exists_key key d = (d, inl (if present d key then 1 else 0));
  srem_law key x d : ∃ d' n, srem key x d = (d', inl n) ∧
    rset d' key = rset d key ∖ {[x]} ∧ (∀ k, k ≠ key → rset d' k = rset d k) ∧
    (∀ k, k ≠ key → present d' k = present d k) ∧
    (∀ k, zset d' k = zset d k) ∧ published d' = published d;
  zrem_frame key x d d' r : zrem key x d = (d', r) →
    (∀ k, rset d' k = rset d k) ∧ (∀ k, k ≠ key → present d' k = present d k) ∧ published d' = published d;
  publish_law channel msg d : ∃ d' n, publish channel msg d = (d', inl n) ∧
    published d' = published d ++ [(channel, msg)] ∧ (∀ k, rset d' k = rset d k) ∧
    (∀ k, present d' k = present d k) ∧ (∀ k, zset d' k = zset d k) }.

Section Laws.
Context {D : Type} `{RegistryLaws D}.
Context (conf : CenterServConf).

(** A key of a service is none of the registry's own. *)
Definition service_key (k : str) : Prop :=
  k ≠ SERVICE_KEYS conf ∧ k ≠ GATEWAY_KEYS conf ∧ k ≠ GAME_KEYS conf.

Record keys_distinct : Prop := {
  kd_gateway : GATEWAY_KEYS conf ≠ SERVICE_KEYS conf;
  kd_game : GAME_KEYS conf ≠ SERVICE_KEYS conf;
  kd_both : GAME_KEYS conf ≠ GATEWAY_KEYS conf }.

(** What a pass that finds [k] present or not makes of its count: [None] when it is
    dropped. *)
Definition count_after (here : bool) (o : option Z) : option Z :=
  if here then Some 0 else let missed := default 0 o + 1 in if 3 <=? missed then None else Some missed.

Definition dropped (here : bool) (o : option Z) : bool := negb here && (3 <=? default 0 o + 1).

Definition announced (k : str) (here : bool) (o : option Z) : list (str * str) :=
  if here then match o with None => [(SERVICE_REGISTRY_CHANNEL conf, lit "+" ++ k)] | Some _ => [] end
  else if dropped here o then [(SERVICE_REGISTRY_CHANNEL conf, lit "-" ++ k)] else [].

(** What a step leaves alone, and the set and sorted sets without the dropped. *)
Record pruned (gone : str → bool) (d d' : D) : Prop := {
  pr_set : ∀ x, x ∈ rset d' (SERVICE_KEYS conf) ↔ x ∈ rset d (SERVICE_KEYS conf) ∧ gone x = false;
  pr_gateway : ∀ x, zset d' (GATEWAY_KEYS conf) !! x = if gone x then None else zset d (GATEWAY_KEYS conf) !! x;
  pr_game : ∀ x, zset d' (GAME_KEYS conf) !! x = if gone x then None else zset d (GAME_KEYS conf) !! x;
  pr_present : ∀ x, service_key x → present d' x = present d x }.

Lemma pruned_none d : pruned (λ _, false) d d.
Proof. split; naive_solver. Qed.

Lemma pruned_ext g g' d d' : (∀ x, g x = g' x) → pruned g d d' → pruned g' d d'.
Proof. intros E [H1' H2' H3' H4']. split; intros x; rewrite <- ?E; auto. Qed.

Lemma pruned_trans g1 g2 d d1 d2 : pruned g1 d d1 → pruned g2 d1 d2 → pruned (λ x, g1 x || g2 x) d d2.
Proof.
  intros [A1 A2 A3 A4] [B1 B2 B3 B4]. split; intros x; rewrite ?B1, ?B2, ?B3, ?A1, ?A2, ?A3.
  - destruct (g1 x), (g2 x); naive_solver.
  - by destruct (g1 x), (g2 x).
  - by destruct (g1 x), (g2 x).
  - intros Hx. by rewrite B4, A4.
Qed.

Lemma check_service_ok (k : str) (d : D) (m : gmap str Z) :
  keys_distinct → service_key k → (∀ n, m !! k = Some n → 0 <= n < 3) →
  ∃ d', check_service conf k (d, m)
      = Ok (d', match count_after (present d k) (m !! k) with Some n => <[k := n]> m | None => delete k m end) ∧
    pruned (λ x, bool_decide (x = k) && dropped (present d k) (m !! k)) d d' ∧
    published d' = published d ++ announced k (present d k) (m !! k).
Proof.
  intros [Kg Ka Kb] (Hk1 & Hk2 & Hk3) Hm. unfold check_service, uncaught. rewrite exists_law. cbn [mbind res_bind].
  unfold count_after, announced, dropped.
  destruct (present d k) eqn:Hhere; cbn [Z.eqb Pos.eqb negb andb].
  - destruct (m !! k) as [n|] eqn:Hn.
    + exists d. split; [done|]. rewrite app_nil_r. split; [|done].
      apply (pruned_ext (λ _, false)); [intros x; by rewrite andb_false_r|apply pruned_none].
    + destruct (publish_law (SERVICE_REGISTRY_CHANNEL conf) (lit "+" ++ k) d) as (d1 & n1 & -> & Hp & Hs & He & Hz).
      cbn [mbind res_bind]. exists d1. split; [done|]. split; [|done].
      apply (pruned_ext (λ _, false)); [intros x; by rewrite andb_false_r|].
      split; intros; rewrite ?Hs, ?Hz, ?He; naive_solver.
  - assert (0 <= default 0 (m !! k) < 3) as Hb by (destruct (m !! k) eqn:E; cbn; [by apply Hm|lia]).
    rewrite u64_small by (unfold size_max; lia).
    destruct (3 <=? default 0 (m !! k) + 1) eqn:H3.
    + destruct (srem_law (SERVICE_KEYS conf) k d) as (d1 & n1 & -> & Hs1 & Hf1 & He1 & Hz1 & Hp1). cbn [mbind res_bind].
      destruct (zrem_law (GATEWAY_KEYS conf) k d1) as (d2 & Hr2 & Hz2 & Hf2). rewrite Hr2.
      destruct (zrem_frame _ _ _ _ _ Hr2) as (Hs2 & He2 & Hp2). cbn [mbind res_bind].
      destruct (zrem_law (GAME_KEYS conf) k d2) as (d3 & Hr3 & Hz3 & Hf3). rewrite Hr3.
      destruct (zrem_frame _ _ _ _ _ Hr3) as (Hs3 & He3 & Hp3). cbn [mbind res_bind].
      destruct (publish_law (SERVICE_REGISTRY_CHANNEL conf) (lit "-" ++ k) d3) as (d4 & n4 & -> & Hp4 & Hs4 & He4 & Hz4).
      cbn [mbind res_bind]. exists d4. rewrite delete_insert_eq. split; [done|]. split.
      * split; intros x; rewrite ?andb_true_r.
        -- rewrite Hs4, Hs3, Hs2, Hs1, bool_decide_eq_false. set_solver.
        -- rewrite Hz4, Hf3, Hz2, Hz1 by done. case_bool_decide as Hx; [by rewrite Hx, lookup_delete_eq|by rewrite lookup_delete_ne].
        -- rewrite Hz4, Hz3, Hf2, Hz1 by done. case_bool_decide as Hx; [by rewrite Hx, lookup_delete_eq|by rewrite lookup_delete_ne].
        -- intros (Hx1 & Hx2 & Hx3). by rewrite He4, He3, He2, He1.
      * by rewrite Hp4, Hp3, Hp2, Hp1.
    + exists d. split; [done|]. rewrite app_nil_r. split; [|done].
      apply (pruned_ext (λ _, false)); [intros x; by rewrite andb_false_r|apply pruned_none].
Qed.

(** The counts a registry holds: a service at three is dropped. *)
Definition counts_ok (m : gmap str Z) : Prop := ∀ k n, m !! k = Some n → 0 <= n < 3.

Lemma count_after_ok (here : bool) (o : option Z) n : (∀ n, o = Some n → 0 <= n < 3) → count_after here o = Some n → 0 <= n < 3.
Proof.
  intros Ho. unfold count_after. destruct here; [intros [= <-]; lia|].
  case_if; [done|]. to_prop. intros [= <-]. destruct o as [x|]; cbn in *; [specialize (Ho x eq_refl)|]; lia.
Qed.

Lemma counts_step (k : str) (here : bool) (m : gmap str Z) (x : str) :
  (match count_after here (m !! k) with Some n => <[k := n]> m | None => delete k m end) !! x
  = if decide (x = k) then count_after here (m !! k) else m !! x.
Proof.
  destruct (count_after here (m !! k)); case_decide as Hx;
    rewrite ?Hx, ?lookup_insert_eq, ?lookup_delete_eq, ?lookup_insert_ne, ?lookup_delete_ne by done; done.
Qed.

Lemma check_services_ok (l : list str) (d : D) (m : gmap str Z) :
  keys_distinct → NoDup l → Forall service_key l → counts_ok m →
  ∃ d' m', check_services conf l (d, m) = Ok (d', m') ∧
    (∀ k, m' !! k = if decide (k ∈ l) then count_after (present d k) (m !! k) else m !! k) ∧
    pruned (λ k, bool_decide (k ∈ l) && dropped (present d k) (m !! k)) d d' ∧
    published d' = published d ++ mjoin ((λ k, announced k (present d k) (m !! k)) <$> l).
Proof.
  intros Hkd. revert d m. induction l as [|k l IH]; intros d m Hn Hl Hm; cbn [check_services].
  { exists d, m. split_and!; [done|done| |by rewrite app_nil_r]. apply pruned_none. }
  apply NoDup_cons in Hn as [Hnew Hn]. apply Forall_cons in Hl as [Hk Hl].
  destruct (check_service_ok k d m Hkd Hk (Hm k)) as (d1 & -> & Hp1 & Ha1). cbn [mbind res_bind].
  set (m1 := match count_after _ _ with Some _ => _ | None => _ end).
  assert (∀ x, x ∈ l → m1 !! x = m !! x ∧ present d1 x = present d x) as Hsame.
  { intros x Hx. unfold m1. rewrite counts_step, decide_False by (intros ->; done). split; [done|].
    apply (pr_present _ _ _ Hp1). by eapply (proj1 (Forall_forall _ _) Hl). }
  destruct (IH d1 m1 Hn Hl) as (d2 & m2 & -> & Hc2 & Hp2 & Ha2).
  { intros x n. unfold m1. rewrite counts_step. case_decide; [|by apply Hm]. apply count_after_ok, Hm. }
  exists d2, m2. split; [done|]. split; [|split].
  - intros x. rewrite Hc2. destruct (decide (x ∈ l)) as [Hx|Hx].
    + rewrite decide_True by (by right). destruct (Hsame x Hx) as [-> ->]. done.
    + unfold m1. rewrite counts_step. destruct (decide (x = k)) as [->|Hxk].
      * by rewrite decide_True by (by left).
      * rewrite decide_False; [done|]. by intros [|]%elem_of_cons.
  - eapply pruned_ext; [|exact (pruned_trans _ _ _ _ _ Hp1 Hp2)]. intros x. cbn beta.
    destruct (decide (x = k)) as [->|Hxk].
    + rewrite (bool_decide_eq_true_2 (k = k)), (bool_decide_eq_false_2 (k ∈ l)), (bool_decide_eq_true_2 (k ∈ k :: l))
        by (done || by left). by rewrite orb_false_r.
    + rewrite (bool_decide_eq_false_2 (x = k)) by done. cbn [andb orb].
      destruct (decide (x ∈ l)) as [Hx|Hx].
      * destruct (Hsame x Hx) as [-> ->].
        by rewrite !bool_decide_eq_true_2 by (done || by right).
      * rewrite !bool_decide_eq_false_2; [done|by intros [|]%elem_of_cons|done].
  - rewrite Ha2, Ha1, fmap_cons, mjoin_cons, app_assoc. do 2 f_equal. apply list_fmap_ext.
    intros i x Hx. apply list_elem_of_lookup_2 in Hx. by destruct (Hsame x Hx) as [-> ->].
Qed.

Lemma run_pass_ok (d : D) (m : gmap str Z) :
  keys_distinct → (∀ k, k ∈ rset d (SERVICE_KEYS conf) → service_key k) → counts_ok m →
  ∃ d' m' l, run_pass conf (d, m) = Ok (d', m') ∧ NoDup l ∧ (∀ k, k ∈ l ↔ k ∈ rset d (SERVICE_KEYS conf)) ∧
    (∀ k, m' !! k = if decide (k ∈ rset d (SERVICE_KEYS conf)) then count_after (present d k) (m !! k) else m !! k) ∧
    pruned (λ k, bool_decide (k ∈ rset d (SERVICE_KEYS conf)) && dropped (present d k) (m !! k)) d d' ∧
    published d' = published d ++ mjoin ((λ k, announced k (present d k) (m !! k)) <$> l)
      ++ [(SERVICE_REGISTRY_CHANNEL conf, KEY_HEARTBEAT_MESSAGE conf)].
Proof.
  intros Hkd Hs Hm. unfold run_pass, uncaught. cbn [fst snd].
  destruct (smembers_law (SERVICE_KEYS conf) d) as (l & -> & Hn & Hl). cbn [mbind res_bind].
  destruct (check_services_ok l d m Hkd Hn) as (d1 & m1 & -> & Hc & Hp & Ha); [|done|].
  { apply Forall_forall. intros k Hk. by apply Hs, Hl. }
  cbn [mbind res_bind].
  destruct (publish_law (SERVICE_REGISTRY_CHANNEL conf) (KEY_HEARTBEAT_MESSAGE conf) d1) as (d2 & n2 & -> & Hp2 & Hs2 & He2 & Hz2).
  cbn [mbind res_bind]. exists d2, m1, l. split; [done|]. split; [done|]. split; [done|]. split; [|split].
  - intros k. rewrite Hc. by rewrite (decide_ext _ _ _ _ (Hl k)).
  - destruct Hp as [A1 A2 A3 A4]. split; intros x; rewrite ?Hs2, ?Hz2, ?He2, ?A1, ?A2, ?A3;
      rewrite <- ?(bool_decide_ext _ _ (Hl x)); [done|done|done|by apply A4].
  - by rewrite Hp2, Ha, <- app_assoc.
Qed.

(** ** Histories

    [history k hs st]: from a registry that has just started, passes found the key
    [k] of a service present or not as in [hs], the last one first; between passes
    the servers change the store as they please, but [k] is listed whenever a pass
    begins, and everything listed is the key of a service. *)
Inductive history (k : str) : list bool → D * gmap str Z → Prop :=
  | history_start d : history k [] (d, ∅)
  | history_pass hs d m d1 st :
      history k hs (d, m) → k ∈ rset d1 (SERVICE_KEYS conf) →
      (∀ x, x ∈ rset d1 (SERVICE_KEYS conf) → service_key x) →
      run_pass conf (d1, m) = Ok st → history k (present d1 k :: hs) st.

Lemma history_counts k hs st : keys_distinct → history k hs st → counts_ok st.2.
Proof.
  intros Hkd. induction 1 as [d|hs d m d1 st _ IH _ Hs Hr]; [done|]. cbn in IH.
  destruct (run_pass_ok d1 m Hkd Hs IH) as (d2 & m2 & l & Hr' & _ & _ & Hc & _). rewrite Hr in Hr'.
  injection Hr' as ->. intros x n. cbn. rewrite Hc. case_decide; [|by apply IH]. apply count_after_ok, IH.
Qed.

(** Passes since the last one that found the service, or dropped it. *)
Fixpoint missed (hs : list bool) : Z :=
  match hs with
  | false :: hs => if missed hs =? 2 then 0 else missed hs + 1
  | _ => 0
  end.

Lemma missed_bound hs : 0 <= missed hs < 3.
Proof. induction hs as [|[] hs IH]; cbn [missed]; [lia|lia|]. case_if; to_prop; lia. Qed.

Lemma history_missed k hs st : keys_distinct → history k hs st → default 0 (st.2 !! k) = missed hs.
Proof.
  intros Hkd. induction 1 as [d|hs d m d1 st Hh IH Hk Hs Hr]; [done|]. cbn in IH.
  pose proof (history_counts _ _ _ Hkd Hh) as Hm. cbn in Hm.
  destruct (run_pass_ok d1 m Hkd Hs Hm) as (d2 & m2 & l & Hr' & _ & _ & Hc & _). rewrite Hr in Hr'.
  injection Hr' as ->. cbn. rewrite Hc, decide_True by done. unfold count_after. rewrite IH.
  pose proof (missed_bound hs). destruct (present d1 k); cbn [missed]; [done|].
  case_if; case_if; to_prop; cbn; lia.
Qed.

Lemma history_step k here hs st : keys_distinct → history k (here :: hs) st →
  let gone := negb here && (3 <=? missed hs + 1) in
  st.2 !! k = (if gone then None else Some (missed (here :: hs))) ∧
  (k ∈ rset st.1 (SERVICE_KEYS conf) ↔ gone = false) ∧
  (gone = true → zset st.1 (GATEWAY_KEYS conf) !! k = None ∧ zset st.1 (GAME_KEYS conf) !! k = None).
Proof.
  intros Hkd Hh. inversion Hh as [|hs' d m d1 st' Hh' Hk Hs Hr]; subst.
  pose proof (history_counts _ _ _ Hkd Hh') as Hm. cbn in Hm.
  pose proof (history_missed _ _ _ Hkd Hh') as Hmis. cbn in Hmis. pose proof (missed_bound hs) as Hb.
  destruct (run_pass_ok d1 m Hkd Hs Hm) as (d2 & m2 & l & Hr' & _ & _ & Hc & [A1 A2 A3 _] & _). rewrite Hr in Hr'.
  injection Hr' as ->. cbn [fst snd]. rewrite Hc, decide_True, A1, A2, A3, bool_decide_eq_true_2 by done.
  unfold dropped, count_after. rewrite Hmis. cbn [andb missed].
  split; [|split; [by split; [intros []|]|by intros ->]].
  destruct (present d1 k); cbn [negb andb]; [done|].
  case_if; [done|]. case_if; to_prop; [lia|done].
Qed.

Lemma missed_run j hs : (hs = [] ∨ ∃ hs', hs = true :: hs') → (j < 3)%nat →
  missed (replicate j false ++ hs) = Z.of_nat j.
Proof.
  intros Hhs Hj. assert (missed hs = 0) as Hz by (by destruct Hhs as [->|[? ->]]).
  destruct j as [|[|[|j]]]; [| | |lia]; cbn [replicate app missed Z.of_nat]; rewrite Hz; done.
Qed.
End Laws.

(** ** Properties *)

(** C18: Three passes drop a silent service, and no fewer: after [j] passes in a row
    that missed a service listed all along, and were the first or came after a pass
    that found it, the service is still listed, with [j] misses counted, when
    [j < 3]; after three it is in none of the registry's three collections and its
    count is forgotten. *)
Theorem silent_service_dropped {D : Type} `{RegistryLaws D} (conf : CenterServConf) (k : str) (j : nat) (hs : list bool) st :
  keys_distinct conf → (hs = [] ∨ ∃ hs', hs = true :: hs') → (1 <= j <= 3)%nat →
  history conf k (replicate j false ++ hs) st →
  if (j <? 3)%nat then k ∈ rset st.1 (SERVICE_KEYS conf) ∧ st.2 !! k = Some (Z.of_nat j)
  else k ∉ rset st.1 (SERVICE_KEYS conf) ∧ zset st.1 (GATEWAY_KEYS conf) !! k = None ∧
       zset st.1 (GAME_KEYS conf) !! k = None ∧ st.2 !! k = None.
Proof.
  intros Hkd Hhs Hj Hh. destruct j as [|j]; [lia|]. cbn [replicate app] in Hh.
  destruct (history_step conf k false _ st Hkd Hh) as (Hc & Hl & Hz). cbn [negb andb] in *.
  rewrite (missed_run j hs Hhs) in Hc, Hl, Hz by lia.
  pose proof (missed_run j hs Hhs ltac:(lia)) as Hr. pose proof (missed_run (S j) hs Hhs) as Hr'. cbn [replicate app] in Hr'.
  destruct (S j <? 3)%nat eqn:E; to_prop.
  - rewrite (proj2 (Z.leb_gt _ _)) in Hc, Hl by lia. rewrite Hc, Hr' by lia. by rewrite Hl.
  - rewrite (proj2 (Z.leb_le _ _)) in Hc, Hl, Hz by lia. rewrite Hl, Hc.
    destruct (Hz eq_refl) as [-> ->]. by split_and!.
Qed.

(** One pass of the registry, on a connection that holds: it always ends; the
    count of every listed service becomes zero when its key is there and one more
    when not, the services that reach three are removed from the set and from both
    sorted sets and nothing else is, and the channel gets a plus for each service
    first met, a minus for each one dropped, then the request for a heartbeat. *)
Theorem registry_pass {D : Type} `{RegistryLaws D} (conf : CenterServConf) (d : D) (m : gmap str Z) :
  keys_distinct conf → (∀ k, k ∈ rset d (SERVICE_KEYS conf) → service_key conf k) → counts_ok m →
  ∃ d' m' l, run_pass conf (d, m) = Ok (d', m') ∧ counts_ok m' ∧
    NoDup l ∧ (∀ k, k ∈ l ↔ k ∈ rset d (SERVICE_KEYS conf)) ∧
    (∀ k, m' !! k = if decide (k ∈ rset d (SERVICE_KEYS conf)) then count_after (present d k) (m !! k) else m !! k) ∧
    pruned conf (λ k, bool_decide (k ∈ rset d (SERVICE_KEYS conf)) && dropped (present d k) (m !! k)) d d' ∧
    published d' = published d ++ mjoin ((λ k, announced conf k (present d k) (m !! k)) <$> l)
      ++ [(SERVICE_REGISTRY_CHANNEL conf, KEY_HEARTBEAT_MESSAGE conf)].
Proof.
  intros Hkd Hs Hm. destruct (run_pass_ok conf d m Hkd Hs Hm) as (d' & m' & l & Hr & Hn & Hl & Hc & Hp & Ha).
  exists d', m', l. split_and!; [done| |done|done|done|done|done].
  intros k n. rewrite Hc. case_decide; [|by apply Hm]. apply count_after_ok, Hm.
Qed.

(** The heartbeat message reads back any load it wrote. *)
Theorem heartbeat_roundtrip (m m0 : RegHeartbeatMessage.t) (v : tags) :
  0 <= RegHeartbeatMessage.LOAD_NUM m < size_max →
  RegHeartbeatMessage.FILL_2_THIS (RegHeartbeatMessage.FILL_2_VEC m v) m0 = Ok m.
Proof.
  intros Hm. unfold RegHeartbeatMessage.FILL_2_THIS, RegHeartbeatMessage.FILL_2_VEC. cbn.
  rewrite stoul_to_string by done. by destruct m.
Qed.

(** ** Witnesses *)

#[export, refine] Instance store_registry : RegistryLaws store := {
  rset s key := set_of s key;
  present s key := negb (bool_decide (hash_of s key = ∅));
  published s := fst <$> sout s }.
Proof.
  - intros key s. eexists. split; [done|]. split; [apply NoDup_elements|]. intros x. apply elem_of_elements.
  - intros key s. cbn. by case_decide; case_bool_decide.
  - intros key x s. eexists _, _. split; [done|]. unfold set_of. cbn.
    split_and!; [by rewrite lookup_insert_eq|intros; by rewrite lookup_insert_ne|done|done|done].
  - intros key x s s' r [= <- <-]. by split_and!.
  - intros channel msg s. eexists _, _. split; [done|]. cbn. by rewrite fmap_app.
Defined.

(** A gateway that registered and never sent a heartbeat. *)
Definition gateway_key : str := lit "127.0.0.1:8000".
Definition quiet_store : store :=
  mkStoreWith ∅ ∅ {[ GATEWAY_KEYS defaultConf := {[ gateway_key := 0 ]} ]} ∅ ∅ ∅
    {[ SERVICE_KEYS defaultConf := {[ gateway_key ]} ]} [].

Lemma default_distinct : keys_distinct defaultConf.
Proof. by split. Qed.

Lemma quiet_listed : set_of quiet_store (SERVICE_KEYS defaultConf) = {[ gateway_key ]}.
Proof. unfold set_of, quiet_store. cbn [ssets]. by rewrite lookup_singleton_eq. Qed.


Definition quiet (d : store) : Prop :=
  rset d (SERVICE_KEYS defaultConf) = {[ gateway_key ]} ∧ present d gateway_key = false.

Lemma quiet_start : quiet quiet_store.
Proof. split; [exact quiet_listed|done]. Qed.

Lemma quiet_services d k : quiet d → k ∈ rset d (SERVICE_KEYS defaultConf) → service_key defaultConf k.
Proof. intros [-> _] ->%elem_of_singleton. by split_and!. Qed.

Lemma quiet_turn hs d m :
  history defaultConf gateway_key hs (d, m) → quiet d →
  ∃ d' m', history defaultConf gateway_key (false :: hs) (d', m') ∧ (missed hs < 2 → quiet d').
Proof.
  intros Hh [Hq Hp]. pose proof (history_counts _ _ _ _ default_distinct Hh) as Hm.
  destruct (run_pass_ok defaultConf d m default_distinct (λ k, quiet_services d k (conj Hq Hp)) Hm)
    as (d' & m' & l & Hr & _).
  assert (history defaultConf gateway_key (false :: hs) (d', m')) as Hh'.
  { rewrite <- Hp. eapply history_pass; [exact Hh| | |exact Hr]; [rewrite Hq; set_solver|].
    intros x. by apply (quiet_services d x). }
  exists d', m'. split; [done|]. intros Hlt.
  destruct (history_step _ _ _ _ _ default_distinct Hh') as (_ & Hl & _). cbn [negb andb fst] in Hl.
  destruct (run_pass_ok defaultConf d m default_distinct (λ k, quiet_services d k (conj Hq Hp)) Hm)
    as (d2 & m2 & l2 & Hr2 & _ & _ & _ & Hpr & _). rewrite Hr in Hr2. injection Hr2 as <- <-.
  rewrite (proj2 (Z.leb_gt _ _)) in Hl by lia. split.
  - apply set_eq. intros x. rewrite elem_of_singleton. split; [|by intros ->; apply Hl].
    intros Hx. apply (pr_set _ _ _ _ Hpr) in Hx as [Hx _]. rewrite Hq in Hx. by apply elem_of_singleton in Hx.
  - rewrite (pr_present _ _ _ _ Hpr); [done|by split_and!].
Qed.

Lemma quiet_thrice : ∃ st, history defaultConf gateway_key [false; false; false] st.
Proof.
  destruct (quiet_turn [] quiet_store ∅) as (d1 & m1 & Hh1 & Hq1); [apply history_start|exact quiet_start|].
  destruct (quiet_turn _ _ _ Hh1) as (d2 & m2 & Hh2 & Hq2); [by apply Hq1|].
  destruct (quiet_turn _ _ _ Hh2) as (d3 & m3 & Hh3 & _); [by apply Hq2|]. by eexists.
Qed.

Lemma silent_service_dropped_witness :
  ∃ st, history defaultConf gateway_key [false; false; false] st ∧
    gateway_key ∉ rset st.1 (SERVICE_KEYS defaultConf) ∧ zset st.1 (GATEWAY_KEYS defaultConf) !! gateway_key = None ∧
    zset st.1 (GAME_KEYS defaultConf) !! gateway_key = None ∧ st.2 !! gateway_key = None.
Proof.
  destruct quiet_thrice as (st & Hh). exists st. split; [exact Hh|].
  apply (silent_service_dropped defaultConf gateway_key 3 [] st default_distinct); [by left|lia|exact Hh].
Defined.

Lemma registry_pass_witness :
  ∃ d' m', run_pass defaultConf (quiet_store, ∅) = Ok (d', m') ∧ m' !! gateway_key = Some 1 ∧
    gateway_key ∈ rset d' (SERVICE_KEYS defaultConf).
Proof.
  destruct (registry_pass defaultConf quiet_store ∅ default_distinct)
    as (d' & m' & l & Hr & _ & _ & _ & Hc & Hp & _); [by intros k; apply quiet_services, quiet_start|done|].
  destruct quiet_start as [Hl Hn].
  exists d', m'. split; [exact Hr|]. rewrite Hc, Hl, decide_True, Hn by set_solver. split; [done|].
  apply (pr_set _ _ _ _ Hp). rewrite Hl, Hn. split; [set_solver|by rewrite andb_comm].
Defined.

Lemma heartbeat_roundtrip_witness :
  RegHeartbeatMessage.FILL_2_THIS [(lit "LOAD_NUM", lit "42")] (RegHeartbeatMessage.mk 0) = Ok (RegHeartbeatMessage.mk 42).
Proof. apply (heartbeat_roundtrip (RegHeartbeatMessage.mk 42) (RegHeartbeatMessage.mk 0) []). done. Defined.
