(* ===== verification/Mongo.v ===== *)
(** * The driver of the database, as [DBServer/db/] uses it

    BSON documents and a class of the commands of mongocxx and bsoncxx that the
    code calls.  [MongoLaws] says what the documentation of MongoDB promises of
    them, for the shapes of filters, updates and stages the code builds. *)

From S2P Require Import Prelude.

Local Open Scope Z_scope.

(** ** Documents *)

Inductive bson :=
  | BString (s : str)
  | BInt32 (n : Z)
  | BDouble (bits : Z)
  | BBool (b : bool)
  | BDate (ms : Z)
  | BDoc (fs : list (str * bson))
  | BArray (l : list bson).

Abbreviation document := (list (str * bson)).

(** [bsoncxx::builder::basic::kvp] *)
Definition kvp (key : string) (v : bson) : str * bson := (lit key, v).

Fixpoint lookup_field (key : str) (fs : document) : option bson :=
  match fs with
  | [] => None
  | (k, v) :: fs => if bool_decide (k = key) then Some v else lookup_field key fs
  end.

(** [element["key"]]: [None] for the invalid element of a missing field, of which
    every getter throws, as it does on a value of another type. *)
Definition field (key : str) (v : option bson) : option bson :=
  match v with Some (BDoc fs) => lookup_field key fs | _ => None end.

Definition get_string (v : option bson) : res str := match v with Some (BString s) => Ok s | _ => Err Uncaught end.
Definition get_int32 (v : option bson) : res Z := match v with Some (BInt32 n) => Ok n | _ => Err Uncaught end.
Definition get_double (v : option bson) : res Z := match v with Some (BDouble d) => Ok d | _ => Err Uncaught end.
Definition get_bool (v : option bson) : res bool := match v with Some (BBool b) => Ok b | _ => Err Uncaught end.
Definition get_array (v : option bson) : res (list bson) := match v with Some (BArray l) => Ok l | _ => Err Uncaught end.

(** ** Commands *)

(** A [mongocxx::exception] of code 11000, or of another. *)
Inductive mongo_error := DuplicateKey | OtherMongoError.

Definition mcmd (M A : Type) : Type := M → M * (A + mongo_error).

#[export] Instance mcmd_ret {M} : MRet (mcmd M) := λ A a m, (m, inl a).
#[export] Instance mcmd_bind {M} : MBind (mcmd M) := λ A B f c m,
  match c m with (m, inl a) => f a m | (m, inr e) => (m, inr e) end.

(** A database and a collection in it. *)
Abbreviation coll := (str * str)%type.

(** [session]: whether the command is given the session of a transaction. *)
Class Mongo (M : Type) := {
  acquire : M → bool;
  create_index : coll → document → bool → mcmd M unit;
  insert_one : bool → coll → document → mcmd M Z;                      (* how many were inserted *)
  find_one : coll → document → document → mcmd M (option document);    (* filter, projection *)
  find_one_and_update : coll → document → document → mcmd M (option document);
  update_one : bool → coll → document → document → mcmd M Z;           (* how many were modified *)
  delete_one : coll → document → mcmd M Z;
  aggregate : coll → document → document → mcmd M (list document);     (* match, project *)
  with_transaction {A} : mcmd M A → mcmd M A }.                        (* with what the callback leaves in its captures *)

(** Commands of a transaction. *)
Inductive in_session {M} `{Mongo M} : ∀ {A}, mcmd M A → Prop :=
  | session_insert c d : in_session (insert_one true c d)
  | session_update c f u : in_session (update_one true c f u)
  | session_ret {A} (a : A) : in_session (mret a)
  | session_bind {A B} (m : mcmd M A) (k : A → mcmd M B) :
      in_session m → (∀ a, in_session (k a)) → in_session (m ≫= k).

(** ** What filters and updates mean *)

(** The keys of a dotted path. *)
Fixpoint split_dots (token s : str) : list str :=
  match s with
  | [] => [token]
  | a :: s => if byte_val a =? 46 then token :: split_dots [] s else split_dots (token ++ [a]) s
  end.
Definition keys_of (path : str) : list str := split_dots [] path.

(** The values a path reaches; arrays on the way stand for their elements. *)
Fixpoint values_at (path : list str) (v : bson) : list bson :=
  match path with
  | [] => [v]
  | key :: path =>
      match v with
      | BDoc fs => match lookup_field key fs with Some v => values_at path v | None => [] end
      | BArray l => l ≫= λ e, match e with
                             | BDoc fs => match lookup_field key fs with Some v => values_at path v | None => [] end
                             | _ => []
                             end
      | _ => []
      end
  end.

(** Equality of strings, the only values the filters hold. *)
Definition same_string (v w : bson) : bool := match v, w with BString s, BString t => bool_decide (s = t) | _, _ => false end.

Definition matches (filter : document) (d : bson) : bool :=
  forallb (λ f, existsb (same_string f.2) (values_at (keys_of f.1) d)) filter.

Fixpoint set_field (key : str) (f : option bson → bson) (fs : document) : document :=
  match fs with
  | [] => [(key, f None)]
  | (k, v) :: fs => if bool_decide (k = key) then (k, f (Some v)) :: fs else (k, v) :: set_field key f fs
  end.

(** The first element of an array that a filter on its elements finds, changed. *)
Fixpoint set_first (p : bson → bool) (f : bson → bson) (l : list bson) : list bson :=
  match l with
  | [] => []
  | e :: l => if p e then f e :: l else e :: set_first p f l
  end.

(** [$set] of one path; [p] is what the filter asks of the element that [$] names. *)
Fixpoint set_at (p : bson → bool) (path : list str) (w : bson) (v : option bson) : bson :=
  match path with
  | [] => w
  | key :: path =>
      match v with
      | Some (BArray l) =>
          if bool_decide (key = lit "$") then BArray (set_first p (λ e, set_at p path w (Some e)) l) else BArray l
      | Some (BDoc fs) => BDoc (set_field key (set_at p path w) fs)
      | _ => BDoc [(key, set_at p path w None)]
      end
  end.

Fixpoint set_all (p : bson → bool) (us : document) (d : bson) : bson :=
  match us with
  | [] => d
  | (path, w) :: us => set_all p us (set_at p (keys_of path) w (Some d))
  end.

Definition push_to (key : str) (w : bson) (d : bson) : bson :=
  match d with
  | BDoc fs => BDoc (set_field key (λ v, match v with Some (BArray l) => BArray (l ++ [w]) | _ => BArray [w] end) fs)
  | d => d
  end.

Definition pull_from (key : str) (cond : document) (d : bson) : bson :=
  match d with
  | BDoc fs => BDoc (set_field key (λ v, match v with
                 | Some (BArray l) => BArray (filter (λ e, matches cond e = false) l)
                 | Some v => v
                 | None => BArray []
                 end) fs)
  | d => d
  end.

(** What the filter asks of the elements of the array at a path of one key. *)
Definition element_filter (filter : document) (e : bson) : bool :=
  forallb (λ f, match keys_of f.1 with
                | [_; key] => existsb (same_string f.2) (values_at [key] e)
                | _ => true
                end) filter.

(** The operators the updates use. *)
Fixpoint apply_update (filter u : document) (d : bson) : bson :=
  match u with
  | [] => d
  | (op, BDoc args) :: u =>
      apply_update filter u
        (if bool_decide (op = lit "$set") then set_all (element_filter filter) args d
         else if bool_decide (op = lit "$push") then
           match args with [(key, w)] => push_to key w d | _ => d end
         else if bool_decide (op = lit "$pull") then
           match args with [(key, BDoc cond)] => pull_from key cond d | _ => d end
         else d)
  | _ :: u => apply_update filter u d
  end.

(** [$elemMatch] of a projection: the field with the first element that matches, or
    no field. *)
Definition project_found (p d : document) : document :=
  match p with
  | [(key, BDoc [(_, BDoc cond)])] =>
      match lookup_field key d with
      | Some (BArray l) => match list_find (λ e, matches cond e = true) l with Some (_, e) => [(key, BArray [e])] | None => [] end
      | _ => []
      end
  | _ => d
  end.

(** [$size] and [$slice] of a field, in a stage of projection. *)
Definition project_stage (p d : document) : document :=
  match p with
  | [(name, BDoc [(op, e)])] =>
      match e with
      | BString (_ :: key) =>
          match lookup_field key d with Some (BArray l) => [(name, BInt32 (Z.of_nat (length l)))] | _ => [] end
      | BArray [BString (_ :: key); BInt32 a; BInt32 n] =>
          match lookup_field key d with
          | Some (BArray l) => [(name, BArray (take (Z.to_nat n) (drop (Z.to_nat a) l)))]
          | _ => []
          end
      | _ => []
      end
  | _ => []
  end.

(** Two documents that a unique index on one of these paths does not let stand
    together. *)
Definition clash (paths : list str) (d e : document) : bool :=
  existsb (λ path, existsb (λ v, existsb (same_string v) (values_at (keys_of path) (BDoc e)))
                     (values_at (keys_of path) (BDoc d))) paths.

(** The documents but the [i]-th. *)
Definition others {A} (i : nat) (l : list A) : list A := take i l ++ drop (S i) l.

Definition first_match (f : document) (l : list document) : option (nat * document) := list_find (λ d, matches f (BDoc d) = true) l.

Definition updated (f u d : document) : document := match apply_update f u (BDoc d) with BDoc d' => d' | _ => d end.

(** ** What MongoDB promises, while the connection holds *)
Class MongoLaws (M : Type) `{Mongo M} := {
  docs : M → coll → list document;
  unique : M → coll → list str;
  acquire_law m : acquire m = true;
  create_index_law c keys b m :
    (b = true → docs m c = [] ∧ ∃ k v, keys = [(k, v)] ∧ k ∉ unique m c) →
    ∃ m', create_index c keys b m = (m', inl tt) ∧ (∀ c', docs m' c' = docs m c') ∧
      unique m' c = unique m c ++ (if b : bool then keys.*1 else []) ∧ ∀ c', c' ≠ c → unique m' c' = unique m c';
  insert_law s c d m :
    if existsb (clash (unique m c) d) (docs m c) then insert_one s c d m = (m, inr DuplicateKey)
    else ∃ m', insert_one s c d m = (m', inl 1) ∧ docs m' c = docs m c ++ [d] ∧
      (∀ c', c' ≠ c → docs m' c' = docs m c') ∧ ∀ c', unique m' c' = unique m c';
  find_law c f p m : find_one c f p m
    = (m, inl (project_found p ∘ snd <$> first_match f (docs m c)));
  update_law s c f u m :
    match first_match f (docs m c) with
    | None => update_one s c f u m = (m, inl 0)
    | Some (i, d) =>
        if existsb (clash (unique m c) (updated f u d)) (others i (docs m c))
        then update_one s c f u m = (m, inr DuplicateKey)
        else ∃ m' n, update_one s c f u m = (m', inl n) ∧ (n = 1 ↔ updated f u d ≠ d) ∧
          docs m' c = <[i := updated f u d]> (docs m c) ∧
          (∀ c', c' ≠ c → docs m' c' = docs m c') ∧ ∀ c', unique m' c' = unique m c'
    end;
  find_update_law c f u m :
    match first_match f (docs m c) with
    | None => find_one_and_update c f u m = (m, inl None)
    | Some (i, d) =>
        existsb (clash (unique m c) (updated f u d)) (others i (docs m c)) = false →
        ∃ m', find_one_and_update c f u m = (m', inl (Some d)) ∧
          docs m' c = <[i := updated f u d]> (docs m c) ∧
          (∀ c', c' ≠ c → docs m' c' = docs m c') ∧ ∀ c', unique m' c' = unique m c'
    end;
  delete_law c f m :
    match first_match f (docs m c) with
    | None => delete_one c f m = (m, inl 0)
    | Some (i, _) => ∃ m', delete_one c f m = (m', inl 1) ∧ docs m' c = others i (docs m c) ∧
        (∀ c', c' ≠ c → docs m' c' = docs m c') ∧ ∀ c', unique m' c' = unique m c'
    end;
  aggregate_law c f p m :
    aggregate c f p m = (m, inl (project_stage p <$> filter (λ d, matches f (BDoc d) = true) (docs m c)));
  commit_law {A} (t : mcmd M A) m m' a : t m = (m', inl a) → ∃ m2, with_transaction t m = (m2, inl a) ∧
    (∀ c, docs m2 c = docs m' c) ∧ ∀ c, unique m2 c = unique m' c;
  abort_law {A} (t : mcmd M A) m m' e : in_session t → t m = (m', inr e) → ∃ m2, with_transaction t m = (m2, inr e) ∧
    (∀ c, docs m2 c = docs m c) ∧ ∀ c, unique m2 c = unique m c }.


(** ** A store in memory that keeps the promises *)

Definition bson_eq_dec : ∀ v w : bson, {v = w} + {v ≠ w}.
Proof.
  fix F 1. intros [s|n|b|b|t|fs|l] [s'|n'|b'|b'|t'|fs'|l']; try (right; congruence).
  - destruct (decide (s = s')); [left|right]; congruence.
  - destruct (decide (n = n')); [left|right]; congruence.
  - destruct (decide (b = b')); [left|right]; congruence.
  - destruct (decide (b = b')); [left|right]; congruence.
  - destruct (decide (t = t')); [left|right]; congruence.
  - assert ({fs = fs'} + {fs ≠ fs'}) as [|]; [|left; congruence|right; congruence]. revert fs'.
    induction fs as [|[k v] fs IH]; intros [|[k' v'] fs']; [by left|by right|by right|].
    destruct (decide (k = k')); [|right; congruence]. destruct (F v v'); [|right; congruence].
    destruct (IH fs'); [left|right]; congruence.
  - assert ({l = l'} + {l ≠ l'}) as [|]; [|left; congruence|right; congruence]. revert l'.
    induction l as [|v l IH]; intros [|v' l']; [by left|by right|by right|].
    destruct (F v v'); [|right; congruence]. destruct (IH l'); [left|right]; congruence.
Defined.
#[export] Instance bson_eq : EqDecision bson := bson_eq_dec.

Record memory := mkMemory { held : coll → list document; indexed : coll → list str }.

Definition hold (c : coll) (l : list document) (m : memory) : memory :=
  mkMemory (λ c', if decide (c' = c) then l else held m c') (indexed m).

#[export] Instance memory_mongo : Mongo memory := {|
  acquire m := true;
  create_index c keys is_unique m :=
    (mkMemory (held m) (λ c', if decide (c' = c) then indexed m c ++ (if is_unique : bool then keys.*1 else []) else indexed m c'), inl tt);
  insert_one s c d m :=
    if existsb (clash (indexed m c) d) (held m c) then (m, inr DuplicateKey) else (hold c (held m c ++ [d]) m, inl 1);
  find_one c f p m := (m, inl (project_found p ∘ snd <$> first_match f (held m c)));
  find_one_and_update c f u m :=
    match first_match f (held m c) with
    | None => (m, inl None)
    | Some (i, d) =>
        if existsb (clash (indexed m c) (updated f u d)) (others i (held m c)) then (m, inr DuplicateKey)
        else (hold c (<[i := updated f u d]> (held m c)) m, inl (Some d))
    end;
  update_one s c f u m :=
    match first_match f (held m c) with
    | None => (m, inl 0)
    | Some (i, d) =>
        if existsb (clash (indexed m c) (updated f u d)) (others i (held m c)) then (m, inr DuplicateKey)
        else (hold c (<[i := updated f u d]> (held m c)) m, inl (if decide (updated f u d = d) then 0 else 1))
    end;
  delete_one c f m :=
    match first_match f (held m c) with
    | None => (m, inl 0)
    | Some (i, _) => (hold c (others i (held m c)) m, inl 1)
    end;
  aggregate c f p m := (m, inl (project_stage p <$> filter (λ d, matches f (BDoc d) = true) (held m c)));
  with_transaction A t m := match t m with (m', inl a) => (m', inl a) | (_, inr e) => (m, inr e) end |}.

Lemma hold_eq c l m : held (hold c l m) c = l.
Proof. cbn. by rewrite decide_True. Qed.
Lemma hold_ne c l m c' : c' ≠ c → held (hold c l m) c' = held m c'.
Proof. intros Hc. cbn. by rewrite decide_False. Qed.

#[export] Instance memory_laws : MongoLaws memory.
Proof.
  refine {| docs := held; unique := indexed |}; try done; cbn [create_index insert_one update_one find_one_and_update delete_one with_transaction memory_mongo].
  - intros c keys b m _. eexists. split_and!; [done|done|by cbn; rewrite decide_True|by intros c' Hc; cbn; rewrite decide_False].
  - intros s c d m. destruct (existsb _ _); [done|]. eexists. split_and!; [done|by rewrite hold_eq|by intros; apply hold_ne|done].
  - intros s c f u m. destruct (first_match f _) as [[i d]|]; [|done]. destruct (existsb _ _); [done|].
    eexists _, _. split_and!; [done|by case_decide|by rewrite hold_eq|by intros; apply hold_ne|done].
  - intros c f u m. destruct (first_match f _) as [[i d]|]; [|done]. intros Hc. rewrite Hc.
    eexists. split_and!; [done|by rewrite hold_eq|by intros; apply hold_ne|done].
  - intros c f m. destruct (first_match f _) as [[i d]|]; [|done].
    eexists. split_and!; [done|by rewrite hold_eq|by intros; apply hold_ne|done].
  - intros A t m m' a Ht. rewrite Ht. by exists m'.
  - intros A t m m' e _ Ht. rewrite Ht. by exists m.
Defined.
