(* ===== verification/AccountOp.v ===== *)
(** * Accounts and characters in the database: [DBServer/db/], [GameDataTable/]

    [Document.cpp] builds the documents, [AccountOp.cpp] and [CharacterOp.cpp] run
    the commands, [Database.cpp] hands the calls on.  An account holds the base
    data of its characters in an array that begins with a placeholder of the
    account's own name, for a unique index on the names; the whole character is a
    document of a collection of its own. *)

From S2P Require Import Prelude.
From S2P Require Import BaseMessage.
From S2P Require Import Messages.
From S2P Require Import Mongo.
From S2P Require Import DBServer.

Local Open Scope Z_scope.

(** ** [GameDataCode.h], [GameDataCharacterAttribute.h] *)

Definition FIELD_CHARACTER_BASE_INFO := lit "base_info".
Definition FIELD_ATTRIBUTE := lit "attribute".
Definition FIELD_LOCATION := lit "location".

Definition GAME_DATA_CODE_STATE_QI : Z := 100011.
Definition GAME_DATA_CODE_STATE_CHU : Z := 100012.
Definition GAME_DATA_CODE_STATE_YAN : Z := 100013.
Definition GAME_DATA_CODE_STATE_QIN : Z := 100014.
Definition GAME_DATA_CODE_STATE_ZHAO : Z := 100015.
Definition GAME_DATA_CODE_STATE_WEI : Z := 100016.
Definition GAME_DATA_CODE_STATE_HAN : Z := 100017.
Definition GAME_DATA_SCENE_QI_1 : Z := 200001.
Definition GAME_DATA_SCENE_CHU_1 : Z := 200101.
Definition GAME_DATA_SCENE_YAN_1 : Z := 200201.
Definition GAME_DATA_SCENE_QIN_1 : Z := 200301.
Definition GAME_DATA_SCENE_ZHAO_1 : Z := 200401.
Definition GAME_DATA_SCENE_WEI_1 : Z := 200501.
Definition GAME_DATA_SCENE_HAN_1 : Z := 200601.

(** The bits of the [double]s 2000.0 and 90.0. *)
Definition d2000 : Z := 0x409F400000000000.
Definition d90 : Z := 0x4056800000000000.

Definition newerSpawnLocation (state occuption : Z) : Z * Z * Z * Z :=
  match state with
  | 100011 => (GAME_DATA_SCENE_QI_1, d2000, d2000, d90)
  | 100012 => (GAME_DATA_SCENE_CHU_1, d2000, d2000, d90)
  | 100013 => (GAME_DATA_SCENE_YAN_1, d2000, d2000, d90)
  | 100014 => (GAME_DATA_SCENE_QIN_1, d2000, d2000, d90)
  | 100015 => (GAME_DATA_SCENE_ZHAO_1, d2000, d2000, d90)
  | 100016 => (GAME_DATA_SCENE_WEI_1, d2000, d2000, d90)
  | 100017 => (GAME_DATA_SCENE_HAN_1, d2000, d2000, d90)
  | _ => (-1, 0, 0, 0)
  end.

Definition newerAttribute (state occuption : Z) : gmap str Z :=
  list_to_map [(FIELD_EXP, 0); (FIELD_HEALTH, 100); (FIELD_MANA, 50); (FIELD_ARMOR, 10); (FIELD_STAMINA, 100);
               (FIELD_STRENGTH, 10); (FIELD_AGILITY, 10); (FIELD_INTELLECT, 10)].

(** [operator[]] of the map. *)
Definition attribute_of (attributes : gmap str Z) (key : str) : bson := BInt32 (default 0 (attributes !! key)).

(** ** [schema::player::CharacterBaseInfo] *)
Module schema.
Record CharacterBaseInfo := mkInfo { mName : str; mLevel : Z; mGender : bool; mOccuption : Z; mState : Z }.
End schema.

(** A [bool] member of a message is 0 or 1. *)
Definition of_bool (b : bool) : Z := if b then 1 else 0.
Definition to_bool (z : Z) : bool := negb (z =? 0).

(** ** [MakeDocHelper] *)

Definition makeDocNewAccount (accountName password address : str) (now : Z) : document :=
  [kvp "account" (BString accountName);
   kvp "password" (BString password);
   kvp "characters" (BArray [BDoc [kvp "character_name" (BString accountName);
                                   kvp "character_level" (BInt32 0);
                                   kvp "character_gender" (BBool true);
                                   kvp "character_occuption" (BInt32 0);
                                   kvp "character_state" (BInt32 0)]]);
   kvp "last_login_time" (BDate now);
   kvp "last_logout_time" (BString []);
   kvp "last_login_address" (BString address);
   kvp "on_off" (BBool false)].

Definition makeDocAccountAndCharacter (accountName characterName : str) : document :=
  [kvp "account" (BString accountName); kvp "characters.character_name" (BString characterName)].

Definition makeDocAccountInsertNewCharacter_schema (newCharacter : schema.CharacterBaseInfo) : document :=
  [kvp "$push" (BDoc [kvp "characters" (BDoc
     [kvp "character_name" (BString (schema.mName newCharacter));
      kvp "character_level" (BInt32 (schema.mLevel newCharacter));
      kvp "character_gender" (BBool (schema.mGender newCharacter));
      kvp "character_occuption" (BInt32 (schema.mOccuption newCharacter));
      kvp "character_state" (BInt32 (schema.mState newCharacter))])])].

Definition makeDocAccountInsertNewCharacter (newCharacter : LoginCharacterRequestMessage.t) : document :=
  [kvp "$push" (BDoc [kvp "characters" (BDoc
     [kvp "character_name" (BString (LoginCharacterRequestMessage.CHARACTER_NAME newCharacter));
      kvp "character_level" (BInt32 1);
      kvp "character_gender" (BBool (to_bool (LoginCharacterRequestMessage.CHARACTER_GENDER newCharacter)));
      kvp "character_occuption" (BInt32 (LoginCharacterRequestMessage.CHARACTER_OCCUPTION newCharacter));
      kvp "character_state" (BInt32 (LoginCharacterRequestMessage.CHARACTER_STATE newCharacter))])])].

Definition makeDocAccountUpdateCharacter (characterBaseInfo : CharacterBaseInfo.t) : document :=
  [kvp "$set" (BDoc [kvp "characters.$.character_level" (BInt32 (CharacterBaseInfo.CHARACTER_LEVEL characterBaseInfo))])].

Definition makeDocAccountLogout (now : Z) : document :=
  [kvp "$set" (BDoc [kvp "last_logout_time" (BDate now); kvp "on_off" (BBool false)])].

Definition makeDocAccountRemoveCharacter (characterName : str) : document :=
  [kvp "$pull" (BDoc [kvp "characters" (BDoc [kvp "character_name" (BString characterName)])])].

Definition makeDocNewCharacter_schema (accountName : str) (newCharacter : schema.CharacterBaseInfo) : document :=
  [kvp "account" (BString accountName);
   kvp "base_info" (BDoc
     [kvp "name" (BString (schema.mName newCharacter));
      kvp "level" (BInt32 (schema.mLevel newCharacter));
      kvp "gender" (BBool (schema.mGender newCharacter));
      kvp "occuption" (BInt32 (schema.mOccuption newCharacter));
      kvp "state" (BInt32 (schema.mState newCharacter))])].

Definition makeDocNewCharacter (newCharacter : LoginCharacterRequestMessage.t) : document :=
  let state := LoginCharacterRequestMessage.CHARACTER_STATE newCharacter in
  let occuption := LoginCharacterRequestMessage.CHARACTER_OCCUPTION newCharacter in
  let '(scene, x, y, z) := newerSpawnLocation state occuption in
  let attributes := newerAttribute state occuption in
  [kvp "account" (BString (LoginRequestMessage.ACCOUNT (LoginCharacterRequestMessage.parent newCharacter)));
   kvp "base_info" (BDoc
     [kvp "name" (BString (LoginCharacterRequestMessage.CHARACTER_NAME newCharacter));
      kvp "level" (BInt32 1);
      kvp "gender" (BBool (to_bool (LoginCharacterRequestMessage.CHARACTER_GENDER newCharacter)));
      kvp "occuption" (BInt32 occuption);
      kvp "state" (BInt32 state)]);
   kvp "attribute" (BDoc
     [(FIELD_EXP, attribute_of attributes FIELD_EXP);
      (FIELD_HEALTH, attribute_of attributes FIELD_HEALTH);
      (FIELD_MANA, attribute_of attributes FIELD_MANA);
      (FIELD_ARMOR, attribute_of attributes FIELD_ARMOR);
      (FIELD_STAMINA, attribute_of attributes FIELD_STAMINA);
      (FIELD_STRENGTH, attribute_of attributes FIELD_STRENGTH);
      (FIELD_AGILITY, attribute_of attributes FIELD_AGILITY);
      (FIELD_INTELLECT, attribute_of attributes FIELD_INTELLECT)]);
   kvp "location" (BDoc
     [(FIELD_SCENE_ID, BInt32 scene);
      (FIELD_SCENE_X, BDouble x);
      (FIELD_SCENE_Y, BDouble y);
      (FIELD_SCENE_Z, BDouble z)])].

Definition makeDocUpdateCharacter (characterInfo : CharacterInfo.t) : document :=
  [kvp "$set" (BDoc
     [kvp "base_info.level" (BInt32 (CharacterInfo.LEVEL characterInfo));
      kvp "attribute.exp" (BInt32 (CharacterInfo.EXP characterInfo));
      kvp "attribute.health" (BInt32 (CharacterInfo.HEALTH characterInfo));
      kvp "attribute.mana" (BInt32 (CharacterInfo.MANA characterInfo));
      kvp "attribute.armor" (BInt32 (CharacterInfo.ARMOR characterInfo));
      kvp "attribute.stamina" (BInt32 (CharacterInfo.STAMINA characterInfo));
      kvp "attribute.strength" (BInt32 (CharacterInfo.STRENGTH characterInfo));
      kvp "attribute.agility" (BInt32 (CharacterInfo.AGILITY characterInfo));
      kvp "attribute.intellect" (BInt32 (CharacterInfo.INTELLECT characterInfo));
      kvp "location.scene_id" (BInt32 (CharacterInfo.SCENE_ID characterInfo));
      kvp "location.scene_x" (BDouble (CharacterInfo.SCENE_X characterInfo));
      kvp "location.scene_y" (BDouble (CharacterInfo.SCENE_Y characterInfo));
      kvp "location.scene_z" (BDouble (CharacterInfo.SCENE_Z characterInfo))])].

(** ** [AccountOp] *)

(** The names of the database and its collections, the same in [AccountOp] and
    [CharacterOp]. *)
Record AccountOp := mkOp { mDBName : str; mAccountCollectionName : str; mCharacterCollectionName : str }.

Definition initDBCollName (dbName accountCollName characterCollName : str) : res AccountOp :=
  if bool_decide (dbName = []) || bool_decide (accountCollName = []) || bool_decide (characterCollName = [])
  then Err AssertFailed else Ok (mkOp dbName accountCollName characterCollName).

Section AccountOp.
Context {M : Type} `{Mongo M}.
Context (op : AccountOp) (now : Z).

Definition accounts : coll := (mDBName op, mAccountCollectionName op).
Definition characters : coll := (mDBName op, mCharacterCollectionName op).

(** An exception outside a [try]. *)
Definition thrown {A} (c : mcmd M A) (m : M) : res (M * A) :=
  let '(m, r) := c m in match r with inl a => Ok (m, a) | inr _ => Err Uncaught end.

(** [try { return f(..); } catch (const mongocxx::exception &) { return dflt; }]; what
    the getters of bsoncxx throw is no [mongocxx::exception]. *)
Definition guarded {A B} (c : mcmd M A) (dflt : B) (f : A → res B) (m : M) : res (M * B) :=
  let '(m, r) := c m in match r with inl a => b ← f a; Ok (m, b) | inr _ => Ok (m, dflt) end.

(** The same, where a duplicate key is told apart. *)
Definition guarded_key {A} (c : mcmd M A) (f : A → Z) (m : M) : res (M * Z) :=
  let '(m, r) := c m in
  Ok (m, match r with inl a => f a | inr DuplicateKey => 0 | inr OtherMongoError => -1 end).

Definition createIndex (m : M) : M * bool :=
  let '(m, r) := (create_index accounts [kvp "account" (BInt32 1)] true ≫= λ _,
                  create_index accounts [kvp "characters.character_name" (BInt32 1)] true) m in
  (m, match r with inl _ => true | inr _ => false end).

Definition addNewAccount (accountName password address : str) (m : M) : res (M * Z) :=
  if negb (acquire m) then Ok (m, -1) else
  guarded_key (insert_one false accounts (makeDocNewAccount accountName password address now)) id m.

(** What both [addNewCharacter] do in their transaction. *)
Definition insert_character (accountName : str) (push doc : document) : mcmd M unit :=
  update_one true accounts [kvp "account" (BString accountName)] push ≫= λ _,
  insert_one true characters doc ≫= λ _, mret tt.

Definition addNewCharacter_schema (accountName : str) (newCharacter : schema.CharacterBaseInfo) (m : M) : res (M * Z) :=
  if negb (acquire m) || bool_decide (accountName = schema.mName newCharacter) then Ok (m, -1) else
  '(m, findResult) ← thrown (find_one accounts (makeDocAccountAndCharacter accountName (schema.mName newCharacter)) []) m;
  match findResult with
  | Some _ => Ok (m, 0)
  | None => guarded_key (with_transaction (insert_character accountName (makeDocAccountInsertNewCharacter_schema newCharacter)
                           (makeDocNewCharacter_schema accountName newCharacter))) (λ _, 1) m
  end.

Definition addNewCharacter (newCharacter : LoginCharacterRequestMessage.t) (m : M) : res (M * Z) :=
  let account := LoginRequestMessage.ACCOUNT (LoginCharacterRequestMessage.parent newCharacter) in
  '(m, findResult) ← thrown (find_one accounts (makeDocAccountAndCharacter account
                       (LoginCharacterRequestMessage.CHARACTER_NAME newCharacter)) []) m;
  match findResult with
  | Some _ => Ok (m, 0)
  | None => guarded_key (with_transaction (insert_character account (makeDocAccountInsertNewCharacter newCharacter)
                           (makeDocNewCharacter newCharacter))) (λ _, 1) m
  end.

(** The commands are not given the session.  [removeResultCode], which the callback
    captures, is what the transaction leaves. *)
Definition pull_character (accountName characterName : str) : mcmd M Z :=
  update_one false accounts [kvp "account" (BString accountName)] (makeDocAccountRemoveCharacter characterName) ≫= λ modified,
  if modified =? 1 then
    delete_one characters [kvp "account" (BString accountName); kvp "base_info.name" (BString characterName)]
  else mret 0.

Definition removeCharacter (accountName characterName : str) (m : M) : res (M * Z) :=
  if negb (acquire m) || bool_decide (accountName = characterName) then Ok (m, -1) else
  guarded (with_transaction (pull_character accountName characterName)) (-1) Ok m.

Definition base_of (characterInfo : CharacterInfo.t) : CharacterBaseInfo.t :=
  CharacterBaseInfo.mk newBaseMessage (CharacterInfo.NAME characterInfo) (CharacterInfo.LEVEL characterInfo)
    (CharacterInfo.GENDER characterInfo) (CharacterInfo.OCCUPTION characterInfo) (CharacterInfo.STATE characterInfo).

Definition update_commands (characterInfo : CharacterInfo.t) (last : bool) : mcmd M unit :=
  let account := CharacterInfo.ACCOUNT characterInfo in
  let name := CharacterInfo.NAME characterInfo in
  (if last then update_one true accounts [kvp "account" (BString account)] (makeDocAccountLogout now) else mret 0) ≫= λ _,
  update_one true accounts (makeDocAccountAndCharacter account name) (makeDocAccountUpdateCharacter (base_of characterInfo)) ≫= λ _,
  update_one true characters [kvp "account" (BString account); kvp "base_info.name" (BString name)]
    (makeDocUpdateCharacter characterInfo) ≫= λ _, mret tt.

Definition updateCharacter (characterInfo : CharacterInfo.t) (last : bool) (m : M) : res (M * Z) :=
  '(m, findResult) ← thrown (find_one accounts (makeDocAccountAndCharacter (CharacterInfo.ACCOUNT characterInfo)
                       (CharacterInfo.NAME characterInfo)) []) m;
  match findResult with
  | None => Ok (m, 0)
  | Some _ => guarded (with_transaction (update_commands characterInfo last)) (-1) (λ _, Ok 1) m
  end.

(** The placeholder is not counted. *)
Definition getCharacterNum (accountName : str) (m : M) : res (M * Z) :=
  if negb (acquire m) then Ok (m, -1) else
  guarded (aggregate accounts [kvp "account" (BString accountName)]
             [kvp "character num" (BDoc [kvp "$size" (BString (lit "$characters"))])]) (-1)
    (λ result, match result with
               | d :: _ => n ← get_int32 (field (lit "character num") (Some (BDoc d))); Ok (sint 32 (n - 1))
               | [] => Ok 0
               end) m.

(** The stage all three listings share, and the array it yields. *)
Definition member_stage : document :=
  [kvp "character member" (BDoc [kvp "$slice" (BArray [BString (lit "$characters"); BInt32 1; BInt32 100])])].

Definition for_each {A} (f : bson → res A) : list bson → res (list A) :=
  fix go l := match l with [] => Ok [] | x :: l => a ← f x; rest ← go l; Ok (a :: rest) end.

Definition list_characters {A} (accountName : str) (f : bson → res A) (m : M) : res (M * option (list A)) :=
  if negb (acquire m) then Ok (m, None) else
  guarded (aggregate accounts [kvp "account" (BString accountName)] member_stage) None
    (λ result, match result with
               | d :: _ => l ← get_array (field (lit "character member") (Some (BDoc d))); Some <$> for_each f l
               | [] => Ok (Some [])
               end) m.

Definition getAllCharacterName (accountName : str) : M → res (M * option (list str)) :=
  list_characters accountName (λ character, get_string (field (lit "character_name") (Some character))).

(** [mGender] is not read: it stays as it was. *)
Definition getAllCharacterBaseInfo (junkGender : bool) (accountName : str) : M → res (M * option (list schema.CharacterBaseInfo)) :=
  list_characters accountName (λ character,
    name ← get_string (field (lit "character_name") (Some character));
    level ← get_int32 (field (lit "character_level") (Some character));
    occuption ← get_int32 (field (lit "character_occuption") (Some character));
    state ← get_int32 (field (lit "character_state") (Some character));
    Ok (schema.mkInfo name level junkGender occuption state)).

Definition getAllCharacterBaseInfoFill2Message (accountName : str) : M → res (M * option (list CharacterBaseInfo.t)) :=
  list_characters accountName (λ character,
    name ← get_string (field (lit "character_name") (Some character));
    level ← get_int32 (field (lit "character_level") (Some character));
    gender ← get_bool (field (lit "character_gender") (Some character));
    occuption ← get_int32 (field (lit "character_occuption") (Some character));
    state ← get_int32 (field (lit "character_state") (Some character));
    Ok (CharacterBaseInfo.mk newBaseMessage name level (of_bool gender) occuption state)).

(** Where [std::exception] is caught: the getters' exceptions too. *)
Definition guarded_all {A B} (c : mcmd M A) (dflt : B) (f : A → res B) (m : M) : M * B :=
  let '(m, r) := c m in
  (m, match r with inl a => match f a with Ok b => b | Err _ => dflt end | inr _ => dflt end).

(** [*array.begin()] of an empty array is the invalid element. *)
Definition getOneCharacterBaseInfoFill2Message (accountName characterName : str) (m : M) : M * option CharacterBaseInfo.t :=
  if negb (acquire m) then (m, None) else
  guarded_all (find_one accounts [kvp "account" (BString accountName)]
                 [kvp "characters" (BDoc [kvp "$elemMatch" (BDoc [kvp "character_name" (BString characterName)])])]) None
    (λ findResult, match findResult with
       | Some d =>
           array ← get_array (field (lit "characters") (Some (BDoc d)));
           level ← get_int32 (field (lit "character_level") (head array));
           gender ← get_bool (field (lit "character_gender") (head array));
           occuption ← get_int32 (field (lit "character_occuption") (head array));
           state ← get_int32 (field (lit "character_state") (head array));
           Ok (Some (CharacterBaseInfo.mk newBaseMessage characterName level (of_bool gender) occuption state))
       | None => Ok None
       end) m.

Definition matchAccount (accountName password : str) (m : M) : res (M * Z) :=
  if negb (acquire m) then Ok (m, -1) else
  guarded (find_one accounts [kvp "account" (BString accountName); kvp "password" (BString password)] []) (-1)
    (λ findResult, Ok (match findResult with Some _ => 1 | None => 0 end)) m.

Definition matchAccountAndUpdateLoginState (accountName password : str) (tryLogin : bool) (m : M) : res (M * Z) :=
  if negb (acquire m) then Ok (m, -1) else
  guarded (find_one_and_update accounts [kvp "account" (BString accountName); kvp "password" (BString password)]
             [kvp "$set" (BDoc [kvp "on_off" (BBool tryLogin)]); kvp "$set" (BDoc [kvp "last_login_time" (BDate now)])]) (-1)
    (λ findResult, match findResult with
       | Some d => oldState ← get_bool (field (lit "on_off") (Some (BDoc d))); Ok (if oldState : bool then 2 else 1)
       | None => Ok 0
       end) m.

Definition matchAccountAndCharacter (accountName characterName : str) (m : M) : res (M * Z) :=
  if negb (acquire m) then Ok (m, -1) else
  guarded (find_one accounts (makeDocAccountAndCharacter accountName characterName) []) (-1)
    (λ findResult, Ok (match findResult with Some _ => 1 | None => 0 end)) m.

(** ** [CharacterOp] *)

Definition createCharacterIndex (m : M) : M * bool :=
  let '(m, r) := create_index characters [kvp "account" (BInt32 1); kvp "base_info.name" (BInt32 1)] false m in
  (m, match r with inl _ => true | inr _ => false end).

(** The members of a character from its document. *)
Definition read_character (accountName characterName : str) (d : document) : res CharacterInfo.t :=
  let base key := field key (field FIELD_CHARACTER_BASE_INFO (Some (BDoc d))) in
  let attribute key := field key (field FIELD_ATTRIBUTE (Some (BDoc d))) in
  let location key := field key (field FIELD_LOCATION (Some (BDoc d))) in
  level ← get_int32 (base FIELD_CHARACTER_LEVEL);
  gender ← get_bool (base FIELD_CHARACTER_GENDER);
  occuption ← get_int32 (base FIELD_CHARACTER_OCCUPTION);
  state ← get_int32 (base FIELD_CHARACTER_STATE);
  exp ← get_int32 (attribute FIELD_EXP);
  health ← get_int32 (attribute FIELD_HEALTH);
  mana ← get_int32 (attribute FIELD_MANA);
  armor ← get_int32 (attribute FIELD_ARMOR);
  stamina ← get_int32 (attribute FIELD_STAMINA);
  strength ← get_int32 (attribute FIELD_STRENGTH);
  agility ← get_int32 (attribute FIELD_AGILITY);
  intellect ← get_int32 (attribute FIELD_INTELLECT);
  scene ← get_int32 (location FIELD_SCENE_ID);
  x ← get_double (location FIELD_SCENE_X);
  y ← get_double (location FIELD_SCENE_Y);
  z ← get_double (location FIELD_SCENE_Z);
  Ok (CharacterInfo.mk newBaseMessage accountName characterName level (of_bool gender) occuption state exp health mana
        armor stamina strength agility intellect scene x y z).

Definition getOneCharacterInfoFill2Message (accountName characterName : str) (m : M) : M * option CharacterInfo.t :=
  if negb (acquire m) then (m, None) else
  guarded_all (find_one characters [kvp "account" (BString accountName); kvp "base_info.name" (BString characterName)] []) None
    (λ findResult, match findResult with Some d => Some <$> read_character accountName characterName d | None => Ok None end) m.

Definition getOneCharacterInfoFill2Data (accountName characterName : str) (m : M) : res (M * str) :=
  let '(m, data) := getOneCharacterInfoFill2Message accountName characterName m in
  match data with
  | Some info => '(_, bytes) ← CharacterInfo.serialize (CharacterInfo.count info); Ok (m, bytes)
  | None => Ok (m, [])
  end.

(** ** [Database] *)

Definition check (m : M) : res unit :=
  if bool_decide (mDBName op = []) || bool_decide (mAccountCollectionName op = [])
     || bool_decide (mCharacterCollectionName op = []) || negb (acquire m) then Err AssertFailed else Ok tt.

Definition createIndexes (m : M) : M * bool :=
  let '(m, created) := createIndex m in if created : bool then createCharacterIndex m else (m, false).

(** [db::Database] is what [QueryTask] asks for. *)
Definition mongo_database : Database M := {|
  DBServer.addNewAccount := addNewAccount;
  DBServer.matchAccountAndUpdateLoginState := λ account password, matchAccountAndUpdateLoginState account password true;
  DBServer.getAllCharacterBaseInfoFill2Message := getAllCharacterBaseInfoFill2Message;
  DBServer.addNewCharacter := addNewCharacter;
  DBServer.removeCharacter := removeCharacter;
  DBServer.getOneCharacterInfoFill2Message := λ account character m, Ok (getOneCharacterInfoFill2Message account character m);
  DBServer.updateCharacter := λ info last m, fst <$> updateCharacter info last m |}.
End AccountOp.

(** ** What the operations come to

    Accounts and characters as records, without documents. *)

Record player := mkPlayer { p_name : str; p_level : Z; p_gender : bool; p_occuption : Z; p_state : Z }.

(** [a_level] is the level of the placeholder. *)
Record account := mkAccount {
  a_name : str; a_password : str; a_level : Z; a_players : list player;
  a_login : Z; a_logout : option Z; a_address : str; a_on : bool }.

Definition names (a : account) : list str := a_name a :: (p_name <$> a_players a).
Definition all_names (l : list account) : list str := l ≫= names.

Definition set_players ps (a : account) : account :=
  mkAccount (a_name a) (a_password a) (a_level a) ps (a_login a) (a_logout a) (a_address a) (a_on a).
Definition set_level n (a : account) : account :=
  mkAccount (a_name a) (a_password a) n (a_players a) (a_login a) (a_logout a) (a_address a) (a_on a).
Definition logged_in (now : Z) (a : account) : account :=
  mkAccount (a_name a) (a_password a) (a_level a) (a_players a) now (a_logout a) (a_address a) true.
Definition logged_out (now : Z) (a : account) : account :=
  mkAccount (a_name a) (a_password a) (a_level a) (a_players a) (a_login a) (Some now) (a_address a) false.

Definition player_message (p : player) : CharacterBaseInfo.t :=
  CharacterBaseInfo.mk newBaseMessage (p_name p) (p_level p) (of_bool (p_gender p)) (p_occuption p) (p_state p).

Definition new_player (m : LoginCharacterRequestMessage.t) : player :=
  mkPlayer (LoginCharacterRequestMessage.CHARACTER_NAME m) 1 (to_bool (LoginCharacterRequestMessage.CHARACTER_GENDER m))
    (LoginCharacterRequestMessage.CHARACTER_OCCUPTION m) (LoginCharacterRequestMessage.CHARACTER_STATE m).

Definition new_character (m : LoginCharacterRequestMessage.t) : CharacterInfo.t :=
  let state := LoginCharacterRequestMessage.CHARACTER_STATE m in
  let occuption := LoginCharacterRequestMessage.CHARACTER_OCCUPTION m in
  let '(scene, x, y, z) := newerSpawnLocation state occuption in
  CharacterInfo.mk newBaseMessage (LoginRequestMessage.ACCOUNT (LoginCharacterRequestMessage.parent m))
    (LoginCharacterRequestMessage.CHARACTER_NAME m) 1 (of_bool (to_bool (LoginCharacterRequestMessage.CHARACTER_GENDER m)))
    occuption state 0 100 50 10 100 10 10 10 scene x y z.

(** What an update keeps of a character, and what it takes from [info]. *)
Definition update_info (info c : CharacterInfo.t) : CharacterInfo.t :=
  CharacterInfo.mk newBaseMessage (CharacterInfo.ACCOUNT c) (CharacterInfo.NAME c) (CharacterInfo.LEVEL info)
    (CharacterInfo.GENDER c) (CharacterInfo.OCCUPTION c) (CharacterInfo.STATE c) (CharacterInfo.EXP info)
    (CharacterInfo.HEALTH info) (CharacterInfo.MANA info) (CharacterInfo.ARMOR info) (CharacterInfo.STAMINA info)
    (CharacterInfo.STRENGTH info) (CharacterInfo.AGILITY info) (CharacterInfo.INTELLECT info)
    (CharacterInfo.SCENE_ID info) (CharacterInfo.SCENE_X info) (CharacterInfo.SCENE_Y info) (CharacterInfo.SCENE_Z info).

Fixpoint level_first (name : str) (n : Z) (ps : list player) : list player :=
  match ps with
  | [] => []
  | p :: ps => if bool_decide (p_name p = name)
               then mkPlayer (p_name p) n (p_gender p) (p_occuption p) (p_state p) :: ps
               else p :: level_first name n ps
  end.

Definition level_up (name : str) (n : Z) (a : account) : account :=
  if bool_decide (a_name a = name) then set_level n a else set_players (level_first name n (a_players a)) a.

Definition of_account (name : str) (a : account) : bool := bool_decide (a_name a = name).
Definition of_character (account name : str) (c : CharacterInfo.t) : bool :=
  bool_decide (CharacterInfo.ACCOUNT c = account) && bool_decide (CharacterInfo.NAME c = name).

Definition change {A} (p : A → bool) (f : A → A) (l : list A) : list A :=
  match list_find (λ a, p a = true) l with Some (i, a) => <[i := f a]> l | None => l end.

Abbreviation players_db := (list account * list CharacterInfo.t)%type.

Section Spec.
Context (now : Z).

Definition spec_register (name password address : str) (st : players_db) : players_db * Z :=
  if decide (name ∈ all_names st.1) then (st, 0)
  else ((st.1 ++ [mkAccount name password 0 [] now None address false], st.2), 1).

Definition spec_login (name password : str) (st : players_db) : players_db * Z :=
  match list_find (λ a, of_account name a && bool_decide (a_password a = password) = true) st.1 with
  | Some (i, a) => ((<[i := logged_in now a]> st.1, st.2), if a_on a then 2 else 1)
  | None => (st, 0)
  end.

Definition spec_list (name : str) (st : players_db) : option (list CharacterBaseInfo.t) :=
  Some (match list_find (λ a, of_account name a = true) st.1 with
        | Some (_, a) => player_message <$> take 100 (a_players a)
        | None => []
        end).

(** A character of an account that does not exist is added to the characters, and
    its name to none. *)
Definition spec_add (m : LoginCharacterRequestMessage.t) (st : players_db) : players_db * Z :=
  let name := LoginRequestMessage.ACCOUNT (LoginCharacterRequestMessage.parent m) in
  match list_find (λ a, of_account name a = true) st.1 with
  | Some (i, a) =>
      if decide (LoginCharacterRequestMessage.CHARACTER_NAME m ∈ all_names st.1) then (st, 0)
      else ((<[i := set_players (a_players a ++ [new_player m]) a]> st.1, st.2 ++ [new_character m]), 1)
  | None => ((st.1, st.2 ++ [new_character m]), 1)
  end.

Definition spec_remove (name character : str) (st : players_db) : players_db * Z :=
  if decide (name = character) then (st, -1) else
  match list_find (λ a, of_account name a = true) st.1 with
  | Some (i, a) =>
      if decide (character ∈ p_name <$> a_players a) then
        let l := <[i := set_players (filter (λ p, p_name p ≠ character) (a_players a)) a]> st.1 in
        match list_find (λ c, of_character name character c = true) st.2 with
        | Some (k, _) => ((l, others k st.2), 1)
        | None => ((l, st.2), 0)
        end
      else (st, 0)
  | None => (st, 0)
  end.

Definition spec_get (name character : str) (st : players_db) : option CharacterInfo.t :=
  snd <$> list_find (λ c, of_character name character c = true) st.2.

Definition spec_update (info : CharacterInfo.t) (last : bool) (st : players_db) : players_db :=
  let name := CharacterInfo.ACCOUNT info in
  let character := CharacterInfo.NAME info in
  match list_find (λ a, of_account name a && bool_decide (character ∈ names a) = true) st.1 with
  | None => st
  | Some _ =>
      (change (of_account name) (level_up character (CharacterInfo.LEVEL info) ∘ (if last then logged_out now else id)) st.1,
       change (of_character name character) (update_info info) st.2)
  end.

(** The specification is a database too. *)
Definition spec_database : Database players_db := {|
  DBServer.addNewAccount := λ name password address st, Ok (spec_register name password address st);
  DBServer.matchAccountAndUpdateLoginState := λ name password st, Ok (spec_login name password st);
  DBServer.getAllCharacterBaseInfoFill2Message := λ name st, Ok (st, spec_list name st);
  DBServer.addNewCharacter := λ m st, Ok (spec_add m st);
  DBServer.removeCharacter := λ name character st, Ok (spec_remove name character st);
  DBServer.getOneCharacterInfoFill2Message := λ name character st, Ok (st, spec_get name character st);
  DBServer.updateCharacter := λ info last st, Ok (spec_update info last st) |}.
End Spec.

(** ** Their documents *)

Definition encode_player (p : player) : bson :=
  BDoc [kvp "character_name" (BString (p_name p));
        kvp "character_level" (BInt32 (p_level p));
        kvp "character_gender" (BBool (p_gender p));
        kvp "character_occuption" (BInt32 (p_occuption p));
        kvp "character_state" (BInt32 (p_state p))].

Definition placeholder (a : account) : player := mkPlayer (a_name a) (a_level a) true 0 0.

Definition account_doc (a : account) (array : list bson) : document :=
  [kvp "account" (BString (a_name a));
   kvp "password" (BString (a_password a));
   kvp "characters" (BArray array);
   kvp "last_login_time" (BDate (a_login a));
   kvp "last_logout_time" (match a_logout a with Some t => BDate t | None => BString [] end);
   kvp "last_login_address" (BString (a_address a));
   kvp "on_off" (BBool (a_on a))].

Definition encode_account (a : account) : document := account_doc a (encode_player <$> placeholder a :: a_players a).

Definition encode_character (c : CharacterInfo.t) : document :=
  [kvp "account" (BString (CharacterInfo.ACCOUNT c));
   kvp "base_info" (BDoc
     [kvp "name" (BString (CharacterInfo.NAME c));
      kvp "level" (BInt32 (CharacterInfo.LEVEL c));
      kvp "gender" (BBool (to_bool (CharacterInfo.GENDER c)));
      kvp "occuption" (BInt32 (CharacterInfo.OCCUPTION c));
      kvp "state" (BInt32 (CharacterInfo.STATE c))]);
   kvp "attribute" (BDoc
     [kvp "exp" (BInt32 (CharacterInfo.EXP c));
      kvp "health" (BInt32 (CharacterInfo.HEALTH c));
      kvp "mana" (BInt32 (CharacterInfo.MANA c));
      kvp "armor" (BInt32 (CharacterInfo.ARMOR c));
      kvp "stamina" (BInt32 (CharacterInfo.STAMINA c));
      kvp "strength" (BInt32 (CharacterInfo.STRENGTH c));
      kvp "agility" (BInt32 (CharacterInfo.AGILITY c));
      kvp "intellect" (BInt32 (CharacterInfo.INTELLECT c))]);
   kvp "location" (BDoc
     [kvp "scene_id" (BInt32 (CharacterInfo.SCENE_ID c));
      kvp "scene_x" (BDouble (CharacterInfo.SCENE_X c));
      kvp "scene_y" (BDouble (CharacterInfo.SCENE_Y c));
      kvp "scene_z" (BDouble (CharacterInfo.SCENE_Z c))])].

(** A stored character is as it is read. *)
Definition plain (c : CharacterInfo.t) : Prop :=
  CharacterInfo.parent c = newBaseMessage ∧ of_bool (to_bool (CharacterInfo.GENDER c)) = CharacterInfo.GENDER c.

Definition unique_paths : list str := [lit "account"; lit "characters.character_name"].

(** The store holds these accounts and characters. *)
Record represents {M} `{MongoLaws M} (op : AccountOp) (m : M) (st : players_db) : Prop := {
  rep_accounts : docs m (accounts op) = encode_account <$> st.1;
  rep_characters : docs m (characters op) = encode_character <$> st.2;
  rep_unique : unique m (accounts op) = unique_paths;
  rep_free : unique m (characters op) = [];
  rep_names : NoDup (all_names st.1);
  rep_plain : Forall plain st.2 }.

(** *** What the paths reach *)

Lemma at_account a : values_at (keys_of (lit "account")) (BDoc (encode_account a)) = [BString (a_name a)].
Proof. reflexivity. Qed.
Lemma at_password a : values_at (keys_of (lit "password")) (BDoc (encode_account a)) = [BString (a_password a)].
Proof. reflexivity. Qed.
Lemma at_names a : values_at (keys_of (lit "characters.character_name")) (BDoc (encode_account a)) = BString <$> names a.
Proof.
  change (values_at (keys_of (lit "characters.character_name")) (BDoc (encode_account a)))
    with ((encode_player <$> placeholder a :: a_players a) ≫= λ e, match e with
            | BDoc fs => match lookup_field (lit "character_name") fs with Some v => [v] | None => [] end
            | _ => [] end).
  unfold names. rewrite !fmap_cons, bind_cons.
  change (match encode_player (placeholder a) with
          | BDoc fs => match lookup_field (lit "character_name") fs with Some v => [v] | None => [] end
          | _ => [] end) with [BString (a_name a)].
  cbn [app]. f_equal. induction (a_players a) as [|p ps IH]; [done|].
  rewrite !fmap_cons, bind_cons, IH. reflexivity.
Qed.
Lemma at_character_account c : values_at (keys_of (lit "account")) (BDoc (encode_character c)) = [BString (CharacterInfo.ACCOUNT c)].
Proof. reflexivity. Qed.
Lemma at_character_name c : values_at (keys_of (lit "base_info.name")) (BDoc (encode_character c)) = [BString (CharacterInfo.NAME c)].
Proof. reflexivity. Qed.

Lemma same_string_eq s t : same_string (BString s) (BString t) = bool_decide (s = t).
Proof. done. Qed.

Lemma existsb_strings s (l : list str) : existsb (same_string (BString s)) (BString <$> l) = bool_decide (s ∈ l).
Proof.
  induction l as [|x l IH]; [done|]. rewrite fmap_cons. cbn [existsb]. rewrite IH, same_string_eq.
  symmetry. rewrite <- bool_decide_or. apply bool_decide_ext. apply elem_of_cons.
Qed.

Lemma matches_account a x : matches [kvp "account" (BString x)] (BDoc (encode_account a)) = of_account x a.
Proof.
  unfold matches, kvp, of_account. cbn [forallb fst snd]. rewrite at_account. cbn [existsb].
  rewrite same_string_eq, orb_false_r, andb_true_r. apply bool_decide_ext. by split.
Qed.

Lemma matches_password a x y : matches [kvp "account" (BString x); kvp "password" (BString y)] (BDoc (encode_account a))
  = of_account x a && bool_decide (a_password a = y).
Proof.
  unfold matches, kvp, of_account. cbn [forallb fst snd]. rewrite at_account, at_password. cbn [existsb].
  rewrite !same_string_eq, !orb_false_r, andb_true_r. f_equal; apply bool_decide_ext; by split.
Qed.

Lemma matches_named a x y : matches (makeDocAccountAndCharacter x y) (BDoc (encode_account a))
  = of_account x a && bool_decide (y ∈ names a).
Proof.
  unfold makeDocAccountAndCharacter, matches, kvp, of_account. cbn [forallb fst snd]. rewrite at_account, at_names.
  rewrite existsb_strings. cbn [existsb]. rewrite same_string_eq, orb_false_r, andb_true_r. f_equal. apply bool_decide_ext. by split.
Qed.

Lemma matches_character c x y : matches [kvp "account" (BString x); kvp "base_info.name" (BString y)] (BDoc (encode_character c))
  = of_character x y c.
Proof.
  unfold matches, kvp, of_character. cbn [forallb fst snd]. rewrite at_character_account, at_character_name. cbn [existsb].
  rewrite !same_string_eq, !orb_false_r, andb_true_r. f_equal; apply bool_decide_ext; by split.
Qed.

(** *** Finding among encoded records *)

Lemma first_match_encode {A} (encode : A → document) (p : A → bool) f (l : list A) :
  (∀ a, matches f (BDoc (encode a)) = p a) →
  first_match f (encode <$> l) = prod_map id encode <$> list_find (λ a, p a = true) l.
Proof.
  intros Hp. unfold first_match. induction l as [|a l IH]; [done|]. rewrite fmap_cons. cbn [list_find]. rewrite Hp.
  destruct (p a) eqn:E.
  - rewrite !decide_True by done. done.
  - rewrite !decide_False by congruence. rewrite IH. by destruct (list_find _ l) as [[]|].
Qed.

Lemma filter_encode {A} (encode : A → document) (p : A → bool) f (l : list A) :
  (∀ a, matches f (BDoc (encode a)) = p a) →
  head (filter (λ d, matches f (BDoc d) = true) (encode <$> l)) = encode ∘ snd <$> list_find (λ a, p a = true) l.
Proof.
  intros Hp. induction l as [|a l IH]; [done|]. rewrite fmap_cons, filter_cons. cbn [list_find]. rewrite Hp.
  destruct (p a) eqn:E.
  - by rewrite !decide_True by done.
  - rewrite !decide_False by congruence. rewrite IH. by destruct (list_find _ l) as [[]|].
Qed.

(** *** Names *)

Lemma clash_names a b : clash unique_paths (encode_account a) (encode_account b) = true ↔ ∃ x, x ∈ names a ∧ x ∈ names b.
Proof.
  unfold clash, unique_paths. cbn [existsb]. rewrite !at_account, !at_names. cbn [existsb].
  rewrite same_string_eq, !orb_false_r. rewrite orb_true_iff, bool_decide_eq_true, existsb_exists. split.
  - intros [E|(v & Hv & Hw)].
    + exists (a_name a). split; [by left|]. rewrite E. by left.
    + apply list_elem_of_In, list_elem_of_fmap in Hv as (x & -> & Hx). rewrite existsb_strings in Hw. to_prop. by exists x.
  - intros (x & Ha & Hb). right. exists (BString x). rewrite existsb_strings, bool_decide_eq_true_2 by done.
    split; [|done]. apply list_elem_of_In, list_elem_of_fmap. by exists x.
Qed.

Lemma elem_of_all_names x l : x ∈ all_names l ↔ ∃ a, a ∈ l ∧ x ∈ names a.
Proof. unfold all_names. rewrite list_elem_of_bind. naive_solver. Qed.

Lemma existsb_clash a l : existsb (clash unique_paths (encode_account a)) (encode_account <$> l) = true
  ↔ ∃ x, x ∈ names a ∧ x ∈ all_names l.
Proof.
  rewrite existsb_exists. split.
  - intros (d & Hd & Hc). apply list_elem_of_In, list_elem_of_fmap in Hd as (b & -> & Hb). apply clash_names in Hc.
    destruct Hc as (x & Ha & Hx). exists x. split; [done|]. apply elem_of_all_names. by exists b.
  - intros (x & Ha & (b & Hb & Hx)%elem_of_all_names). exists (encode_account b). rewrite clash_names.
    split; [|by exists x]. apply list_elem_of_In, list_elem_of_fmap. by exists b.
Qed.

Lemma others_fmap {A B} (f : A → B) i l : others i (f <$> l) = f <$> others i l.
Proof. unfold others. by rewrite fmap_app, fmap_take, fmap_drop. Qed.

Lemma all_names_split i a l : l !! i = Some a → all_names l ≡ₚ names a ++ all_names (others i l).
Proof.
  intros Ha. unfold all_names, others. rewrite <- (take_drop_middle l i a Ha) at 1. rewrite !bind_app, bind_cons.
  by rewrite !(assoc_L (++)), (Permutation_app_comm (take i l ≫= names)).
Qed.

Lemma all_names_insert i a b l : l !! i = Some a → all_names (<[i := b]> l) ≡ₚ names b ++ all_names (others i l).
Proof.
  intros Ha. unfold all_names, others. rewrite insert_take_drop by (by eapply lookup_lt_Some). rewrite !bind_app, bind_cons.
  by rewrite !(assoc_L (++)), (Permutation_app_comm (take i l ≫= names)).
Qed.

(** A change that adds no name clashes with nobody. *)
Lemma no_clash i a b l : NoDup (all_names l) → l !! i = Some a → names b ⊆ names a →
  existsb (clash unique_paths (encode_account b)) (others i (encode_account <$> l)) = false.
Proof.
  intros Hn Ha Hs. rewrite others_fmap. apply not_true_is_false. rewrite existsb_clash. intros (x & Hb & Ho).
  rewrite (all_names_split i a l Ha), NoDup_app in Hn. destruct Hn as (_ & Hn & _). apply (Hn x); [by apply Hs|done].
Qed.

Lemma names_kept i a b l : NoDup (all_names l) → l !! i = Some a → names b = names a → NoDup (all_names (<[i := b]> l)).
Proof. intros Hn Ha Hs. by rewrite (all_names_insert i a b l Ha), Hs, <- (all_names_split i a l Ha). Qed.

(** *** What the updates make of the documents *)

Lemma update_login x y b now a :
  updated [kvp "account" (BString x); kvp "password" (BString y)]
    [kvp "$set" (BDoc [kvp "on_off" (BBool b)]); kvp "$set" (BDoc [kvp "last_login_time" (BDate now)])] (encode_account a)
  = encode_account (mkAccount (a_name a) (a_password a) (a_level a) (a_players a) now (a_logout a) (a_address a) b).
Proof. reflexivity. Qed.

Lemma update_logout f now a : updated f (makeDocAccountLogout now) (encode_account a) = encode_account (logged_out now a).
Proof. reflexivity. Qed.

Lemma update_push f m a : updated f (makeDocAccountInsertNewCharacter m) (encode_account a)
  = encode_account (set_players (a_players a ++ [new_player m]) a).
Proof.
  change (encode_account (set_players ?ps a)) with (account_doc a (encode_player <$> placeholder a :: ps)).
  rewrite app_comm_cons, fmap_app. reflexivity.
Qed.

Lemma update_character_doc f info c : updated f (makeDocUpdateCharacter info) (encode_character c) = encode_character (update_info info c).
Proof. reflexivity. Qed.

Lemma new_character_doc m : makeDocNewCharacter m = encode_character (new_character m).
Proof.
  unfold makeDocNewCharacter, new_character. destruct (newerSpawnLocation _ _) as [[[scene x] y] z].
  assert (∀ b, to_bool (of_bool b) = b) as E by (by intros []).
  unfold encode_character. cbn [CharacterInfo.ACCOUNT CharacterInfo.NAME CharacterInfo.LEVEL CharacterInfo.GENDER
    CharacterInfo.OCCUPTION CharacterInfo.STATE CharacterInfo.SCENE_ID CharacterInfo.SCENE_X CharacterInfo.SCENE_Y CharacterInfo.SCENE_Z].
  rewrite E. by do 3 f_equal.
Qed.

Lemma pull_players (x : str) (ps : list player) : filter (λ e, matches [kvp "character_name" (BString x)] e = false) (encode_player <$> ps)
  = encode_player <$> filter (λ p, p_name p ≠ x) ps.
Proof.
  assert (∀ p, matches [kvp "character_name" (BString x)] (encode_player p) = bool_decide (x = p_name p)) as E.
  { intros p. change (existsb (same_string (BString x)) [BString (p_name p)] && true = bool_decide (x = p_name p)).
    cbn [existsb]. by rewrite same_string_eq, orb_false_r, andb_true_r. }
  induction ps as [|p ps IH]; [done|]. rewrite fmap_cons, !filter_cons, E. case_bool_decide as Hx.
  - rewrite decide_False by done. rewrite decide_False by congruence. done.
  - rewrite decide_True by done. rewrite decide_True by congruence. by rewrite fmap_cons, IH.
Qed.

Lemma update_pull f x a : x ≠ a_name a →
  updated f (makeDocAccountRemoveCharacter x) (encode_account a)
  = encode_account (set_players (filter (λ p, p_name p ≠ x) (a_players a)) a).
Proof.
  intros Hx.
  change (encode_account (set_players ?ps a)) with (account_doc a (encode_player <$> placeholder a :: ps)).
  assert (filter (λ p, p_name p ≠ x) (placeholder a :: a_players a) = placeholder a :: filter (λ p, p_name p ≠ x) (a_players a)) as E
    by (by rewrite filter_cons, decide_True by (cbn; congruence)).
  rewrite <- E, <- pull_players. reflexivity.
Qed.

(** The element that [$] names is the first of that name. *)
Lemma set_first_players x n (ps : list player) :
  set_first (element_filter (makeDocAccountAndCharacter (lit "") x))
    (λ e, set_at (element_filter (makeDocAccountAndCharacter (lit "") x)) [lit "character_level"] (BInt32 n) (Some e)) (encode_player <$> ps)
  = encode_player <$> level_first x n ps.
Proof.
  assert (∀ p, element_filter (makeDocAccountAndCharacter (lit "") x) (encode_player p) = bool_decide (p_name p = x)) as E.
  { intros p. change (true && (existsb (same_string (BString x)) [BString (p_name p)] && true) = bool_decide (p_name p = x)).
    cbn [existsb]. rewrite same_string_eq, orb_false_r, andb_true_r. apply bool_decide_ext. by split. }
  induction ps as [|p ps IH]; [done|]. rewrite fmap_cons. cbn [set_first level_first]. rewrite E. case_bool_decide; [done|].
  by rewrite fmap_cons, IH.
Qed.

Lemma update_level x y info a : CharacterInfo.NAME info = y →
  updated (makeDocAccountAndCharacter x y) (makeDocAccountUpdateCharacter (base_of info)) (encode_account a)
  = encode_account (level_up y (CharacterInfo.LEVEL info) a).
Proof.
  intros Hy. assert (encode_account (level_up y (CharacterInfo.LEVEL info) a)
    = account_doc a (encode_player <$> level_first y (CharacterInfo.LEVEL info) (placeholder a :: a_players a))) as ->.
  { unfold level_up. cbn [level_first]. change (p_name (placeholder a)) with (a_name a). by case_bool_decide. }
  rewrite <- set_first_players. reflexivity.
Qed.

Lemma level_first_names y n (ps : list player) : p_name <$> level_first y n ps = p_name <$> ps.
Proof. induction ps as [|p ps IH]; [done|]. cbn [level_first]. case_bool_decide; [done|]. by rewrite !fmap_cons, IH. Qed.

Lemma level_up_names y n a : names (level_up y n a) = names a.
Proof. unfold level_up. case_bool_decide; [done|]. unfold names. cbn. by rewrite level_first_names. Qed.

Lemma list_find_some {A} (p : A → bool) (l : list A) i a : list_find (λ a, p a = true) l = Some (i, a) → l !! i = Some a ∧ p a = true.
Proof. intros (? & ? & _)%list_find_Some. done. Qed.

(** ** The operations do that *)

Section Simulation.
Context {M : Type} `{MongoLaws M}.
Context (op : AccountOp) (now : Z).
Hypothesis collections_differ : mAccountCollectionName op ≠ mCharacterCollectionName op.

Abbreviation R := (represents op).

Lemma accounts_characters : characters op ≠ accounts op.
Proof. intros E. injection E as E. done. Qed.

(** A step that changes the accounts alone. *)
Lemma represents_accounts (m m' : M) st l : R m st → docs m' (accounts op) = encode_account <$> l →
  (∀ c, c ≠ accounts op → docs m' c = docs m c) → (∀ c, unique m' c = unique m c) → NoDup (all_names l) → R m' (l, st.2).
Proof.
  intros [R1 R2 R3 R4 R5 R6] Hd Ho Hu Hn. split; cbn [fst snd]; [done| | | |done|done].
  - by rewrite Ho by apply accounts_characters.
  - by rewrite Hu.
  - by rewrite Hu.
Qed.

Lemma register_sim name password address (m : M) st : R m st →
  ∃ m', addNewAccount op now name password address m = Ok (m', (spec_register now name password address st).2) ∧
    R m' (spec_register now name password address st).1.
Proof.
  intros Hr. unfold addNewAccount, spec_register. rewrite acquire_law. cbn [negb]. unfold guarded_key.
  set (a := mkAccount name password 0 [] now None address false).
  change (makeDocNewAccount name password address now) with (encode_account a).
  pose proof (insert_law false (accounts op) (encode_account a) m) as Hi.
  rewrite (rep_unique _ _ _ Hr), (rep_accounts _ _ _ Hr) in Hi.
  destruct (existsb (clash unique_paths (encode_account a)) (encode_account <$> st.1)) eqn:E.
  - apply existsb_clash in E as (x & [->|Hx]%elem_of_cons & Hin); [|by apply elem_of_nil in Hx].
    rewrite Hi, decide_True by done. by exists m.
  - rewrite decide_False.
    2: { intros Hin. apply not_true_iff_false in E. apply E, existsb_clash. exists name. split; [by left|done]. }
    destruct Hi as (m' & -> & Hd & Ho & Hu). exists m'. split; [done|].
    apply (represents_accounts m m' st); [done|by rewrite Hd, fmap_app|done|done|].
    unfold all_names. rewrite bind_app. cbn. apply NoDup_app. split_and!; [apply Hr| |apply NoDup_singleton].
    intros x Hx ->%list_elem_of_singleton. apply not_true_iff_false in E. apply E, existsb_clash. exists name. split; [by left|done].
Qed.

Lemma login_sim name password (m : M) st : R m st →
  ∃ m', matchAccountAndUpdateLoginState op now name password true m = Ok (m', (spec_login now name password st).2) ∧
    R m' (spec_login now name password st).1.
Proof.
  intros Hr. unfold matchAccountAndUpdateLoginState, spec_login. rewrite acquire_law. cbn [negb]. unfold guarded.
  set (f := [kvp "account" _; kvp "password" _]). set (u := [kvp "$set" _; _]).
  pose proof (find_update_law (accounts op) f u m) as Hf.
  rewrite (rep_accounts _ _ _ Hr), (first_match_encode encode_account _ f st.1 (λ a, matches_password a name password)) in Hf.
  destruct (list_find _ st.1) as [[i a]|] eqn:Hl; cbn [fmap option_fmap option_map prod_map fst snd id] in Hf.
  - apply list_find_some in Hl as [Hi _]. rewrite (rep_unique _ _ _ Hr) in Hf.
    change (updated f u (encode_account a)) with (encode_account (logged_in now a)) in Hf.
    destruct Hf as (m' & -> & Hd & Ho & Hu); [by apply (no_clash i a); [apply Hr| |]|].
    exists m'. cbv beta iota. change (get_bool (field (lit "on_off") (Some (BDoc (encode_account a))))) with (Ok (a_on a)).
    split; [done|].
    apply (represents_accounts m m' st); [done| |done|done|by eapply names_kept; [apply Hr|done|]].
    by rewrite Hd, list_fmap_insert.
  - rewrite Hf. by exists m.
Qed.

Lemma for_each_ok {A B} (f : bson → res B) (g : A → bson) (h : A → B) (l : list A) :
  (∀ a, f (g a) = Ok (h a)) → for_each f (g <$> l) = Ok (h <$> l).
Proof. intros Hf. induction l as [|a l IH]; [done|]. rewrite !fmap_cons. cbn. by rewrite Hf, IH. Qed.

Lemma list_sim name (m : M) st : R m st →
  getAllCharacterBaseInfoFill2Message op name m = Ok (m, spec_list name st).
Proof.
  intros Hr. unfold getAllCharacterBaseInfoFill2Message, list_characters, spec_list. rewrite acquire_law. cbn [negb]. unfold guarded.
  rewrite aggregate_law, (rep_accounts _ _ _ Hr).
  pose proof (filter_encode encode_account _ _ st.1 (λ a, matches_account a name)) as Hh.
  destruct (filter _ (encode_account <$> st.1)) as [|d l]; destruct (list_find _ st.1) as [[i a]|]; try done.
  injection Hh as ->. rewrite fmap_cons.
  change (project_stage member_stage (encode_account a))
    with [kvp "character member" (BArray (take 100 (encode_player <$> a_players a)))].
  cbv iota. cbn [lookup_field field fst snd kvp]. rewrite bool_decide_eq_true_2 by done. cbn [get_array mbind res_bind].
  by rewrite <- fmap_take, (for_each_ok _ encode_player player_message).
Qed.

Lemma get_sim name character (m : M) st : R m st →
  getOneCharacterInfoFill2Message op name character m = (m, spec_get name character st).
Proof.
  intros Hr. unfold getOneCharacterInfoFill2Message, spec_get. rewrite acquire_law. cbn [negb]. unfold guarded_all.
  rewrite find_law, (rep_characters _ _ _ Hr), (first_match_encode encode_character _ _ st.2 (λ c, matches_character c name character)).
  destruct (list_find _ st.2) as [[i c]|] eqn:Hl; [|done]. cbn [fmap option_fmap option_map prod_map fst snd compose].
  apply list_find_some in Hl as [Hi Hc]. unfold of_character in Hc. to_prop.
  assert (plain c) as [Hp Hg] by (eapply Forall_lookup_1; [apply Hr|done]).
  change (project_found [] (encode_character c)) with (encode_character c).
  assert (read_character name character (encode_character c) = Ok c) as ->; [|done].
  change (read_character name character (encode_character c)) with (Ok (CharacterInfo.mk newBaseMessage name character
    (CharacterInfo.LEVEL c) (of_bool (to_bool (CharacterInfo.GENDER c))) (CharacterInfo.OCCUPTION c) (CharacterInfo.STATE c)
    (CharacterInfo.EXP c) (CharacterInfo.HEALTH c) (CharacterInfo.MANA c) (CharacterInfo.ARMOR c) (CharacterInfo.STAMINA c)
    (CharacterInfo.STRENGTH c) (CharacterInfo.AGILITY c) (CharacterInfo.INTELLECT c) (CharacterInfo.SCENE_ID c)
    (CharacterInfo.SCENE_X c) (CharacterInfo.SCENE_Y c) (CharacterInfo.SCENE_Z c))).
  rewrite Hg, <- Hp, <- H1, <- H2. by destruct c.
Qed.

(** A name that an account of this name has. *)
Lemma named_account name x (m : M) st : R m st →
  list_find (λ a, of_account name a && bool_decide (x ∈ names a) = true) st.1 = None →
  ∀ i a, list_find (λ a, of_account name a = true) st.1 = Some (i, a) → x ∉ names a.
Proof.
  intros Hr Hn i a Hl. apply list_find_some in Hl as [Hi Ha]. intros Hx. rewrite list_find_None, Forall_lookup in Hn.
  apply (Hn i a Hi). by rewrite Ha, bool_decide_eq_true_2.
Qed.

Lemma in_session_insert account push doc : in_session (insert_character op account push doc).
Proof. unfold insert_character. repeat first [apply session_bind; [|intros ?]|constructor]. Qed.

Lemma new_character_plain r : plain (new_character r).
Proof.
  assert (∀ b, of_bool (to_bool (of_bool b)) = of_bool b) as E by (by intros []).
  unfold new_character. destruct (newerSpawnLocation _ _) as [[[scene x] y] z]. split; [done|apply E].
Qed.

Abbreviation inserting name r := (insert_character op name (makeDocAccountInsertNewCharacter r) (makeDocNewCharacter r)).

(** The transaction once the account is updated, or is not there. *)
Lemma insert_commits name r (m m1 : M) n :
  update_one true (accounts op) [kvp "account" (BString name)] (makeDocAccountInsertNewCharacter r) m = (m1, inl n) →
  unique m1 (characters op) = [] →
  ∃ m3, with_transaction (inserting name r) m = (m3, inl tt) ∧ docs m3 (accounts op) = docs m1 (accounts op) ∧
    docs m3 (characters op) = docs m1 (characters op) ++ [encode_character (new_character r)] ∧ ∀ c, unique m3 c = unique m1 c.
Proof.
  intros Hu Hf. pose proof (insert_law true (characters op) (makeDocNewCharacter r) m1) as Hins. rewrite Hf in Hins.
  assert (∀ d l, existsb (clash [] d) l = false) as Hnone by (intros d l; by induction l).
  rewrite Hnone in Hins. destruct Hins as (m2 & Hins & Hd2 & Ho2 & Hu2).
  destruct (commit_law (inserting name r) m m2 tt) as (m3 & Hw & Hd3 & Hu3).
  { unfold insert_character, mbind, mcmd_bind. by rewrite Hu, Hins. }
  exists m3. split_and!; [done| |by rewrite Hd3, Hd2, new_character_doc|by intros c; rewrite Hu3, Hu2].
  by rewrite Hd3, Ho2 by (intros E'; by apply accounts_characters).
Qed.

(** The name is free: it goes to the account and to a character. *)
Lemma insert_new r i a (m : M) st : R m st → st.1 !! i = Some a →
  let name := LoginRequestMessage.ACCOUNT (LoginCharacterRequestMessage.parent r) in
  let a' := set_players (a_players a ++ [new_player r]) a in
  first_match [kvp "account" (BString name)] (encode_account <$> st.1) = Some (i, encode_account a) →
  LoginCharacterRequestMessage.CHARACTER_NAME r ∉ names a →
  if decide (LoginCharacterRequestMessage.CHARACTER_NAME r ∈ all_names st.1)
  then ∃ m', with_transaction (inserting name r) m = (m', inr DuplicateKey) ∧ R m' st
  else ∃ m', with_transaction (inserting name r) m = (m', inl tt) ∧ R m' (<[i := a']> st.1, st.2 ++ [new_character r]).
Proof.
  intros Hr Hi name a' Hl Hxa. set (x := LoginCharacterRequestMessage.CHARACTER_NAME r) in *.
  pose proof (update_law true (accounts op) [kvp "account" (BString name)] (makeDocAccountInsertNewCharacter r) m) as Hu.
  rewrite (rep_accounts _ _ _ Hr), Hl, (rep_unique _ _ _ Hr), update_push, others_fmap in Hu. fold a' in Hu.
  assert (names a' = names a ++ [x]) as Hna by (unfold a', names; cbn [a_name a_players set_players]; by rewrite fmap_app).
  pose proof (rep_names _ _ _ Hr) as Hnd. rewrite (all_names_split i a st.1 Hi), NoDup_app in Hnd. destruct Hnd as (Hnd1 & Hnd2 & Hnd3).
  assert (existsb (clash unique_paths (encode_account a')) (encode_account <$> others i st.1) = true ↔ x ∈ all_names st.1) as Hc.
  { rewrite existsb_clash, Hna, (all_names_split i a st.1 Hi), elem_of_app. split.
    - intros (y & [Hy| ->%list_elem_of_singleton]%elem_of_app & Ho); [by destruct (Hnd2 y)|by right].
    - intros [Hx|Hx]; [done|]. exists x. split; [|done]. apply elem_of_app. right. by apply list_elem_of_singleton. }
  case_decide as Hx.
  - rewrite (proj2 Hc Hx) in Hu. destruct (abort_law (inserting name r) m m DuplicateKey) as (m2 & Hw & Hd2 & Hu2).
    { apply in_session_insert. }
    { unfold insert_character, mbind, mcmd_bind. by rewrite Hu. }
    exists m2. split; [done|]. destruct Hr. by split; rewrite ?Hd2, ?Hu2.
  - rewrite (not_true_is_false _ (λ E, Hx (proj1 Hc E))) in Hu. destruct Hu as (m1 & n & Hu & _ & Hd1 & Ho1 & Hu1).
    destruct (insert_commits name r m m1 n Hu) as (m3 & Hw & Ha3 & Hc3 & Hu3); [by rewrite Hu1, (rep_free _ _ _ Hr)|].
    exists m3. split; [done|]. split; cbn [fst snd].
    + by rewrite Ha3, Hd1, list_fmap_insert.
    + by rewrite Hc3, Ho1, (rep_characters _ _ _ Hr), fmap_app by apply accounts_characters.
    + by rewrite Hu3, Hu1, (rep_unique _ _ _ Hr).
    + by rewrite Hu3, Hu1, (rep_free _ _ _ Hr).
    + rewrite (all_names_insert i a a' st.1 Hi), Hna, <- app_assoc, (Permutation_app_comm [x]), app_assoc.
      rewrite <- (all_names_split i a st.1 Hi). apply NoDup_app. split_and!; [apply Hr| |apply NoDup_singleton].
      by intros y Hy ->%list_elem_of_singleton.
    + apply Forall_app. split; [apply Hr|]. repeat constructor; apply new_character_plain.
Qed.

(** There is no such account: only the character is added. *)
Lemma insert_orphan r (m : M) st : R m st →
  let name := LoginRequestMessage.ACCOUNT (LoginCharacterRequestMessage.parent r) in
  first_match [kvp "account" (BString name)] (encode_account <$> st.1) = None →
  ∃ m', with_transaction (inserting name r) m = (m', inl tt) ∧ R m' (st.1, st.2 ++ [new_character r]).
Proof.
  intros Hr name Hl.
  pose proof (update_law true (accounts op) [kvp "account" (BString name)] (makeDocAccountInsertNewCharacter r) m) as Hu.
  rewrite (rep_accounts _ _ _ Hr), Hl in Hu.
  destruct (insert_commits name r m m 0 Hu) as (m3 & Hw & Ha3 & Hc3 & Hu3); [apply Hr|].
  exists m3. split; [done|]. destruct Hr as [R1 R2 R3 R4 R5 R6]. split; cbn [fst snd]; try done.
  - by rewrite Ha3.
  - by rewrite Hc3, R2, fmap_app.
  - by rewrite Hu3.
  - by rewrite Hu3.
  - apply Forall_app. split; [done|]. repeat constructor; apply new_character_plain.
Qed.

Lemma add_sim (r : LoginCharacterRequestMessage.t) (m : M) st : R m st →
  ∃ m', addNewCharacter op r m = Ok (m', (spec_add r st).2) ∧ R m' (spec_add r st).1.
Proof.
  intros Hr. unfold addNewCharacter, spec_add, thrown, guarded_key.
  set (name := LoginRequestMessage.ACCOUNT _). set (x := LoginCharacterRequestMessage.CHARACTER_NAME r).
  rewrite find_law, (rep_accounts _ _ _ Hr), (first_match_encode encode_account _ _ st.1 (λ a, matches_named a name x)).
  pose proof (first_match_encode encode_account _ _ st.1 (λ a, matches_account a name)) as Hm.
  destruct (list_find (λ a, of_account name a && _ = true) st.1) as [[k b]|] eqn:Hn; cbn [fmap option_fmap option_map mbind res_bind].
  - apply list_find_some in Hn as [Hk Hb]. to_prop.
    destruct (list_find (λ a, of_account name a = true) st.1) as [[i a]|] eqn:Hl.
    + rewrite decide_True by (apply elem_of_all_names; exists b; split; [by eapply list_elem_of_lookup_2|done]). by exists m.
    + rewrite list_find_None, Forall_lookup in Hl. by destruct (Hl k b).
  - destruct (list_find (λ a, of_account name a = true) st.1) as [[i a]|] eqn:Hl; cbn [fmap option_fmap option_map prod_map id] in Hm.
    + pose proof (named_account name x m st Hr Hn i a Hl) as Hxa. apply list_find_some in Hl as [Hi _].
      pose proof (insert_new r i a m st Hr Hi Hm Hxa) as Hins. fold x name in Hins.
      case_decide; destruct Hins as (m' & -> & Hr'); by exists m'.
    + destruct (insert_orphan r m st Hr Hm) as (m' & Hins & Hr'). fold name in Hins. rewrite Hins. by exists m'.
Qed.

(** *** Removal *)

Lemma filter_all {A} (P : A → Prop) `{∀ x, Decision (P x)} (l : list A) : (∀ x, x ∈ l → P x) → filter P l = l.
Proof.
  induction l as [|x l IH]; [done|]. intros Hl. rewrite filter_cons, decide_True by (apply Hl; by left).
  f_equal. apply IH. intros y Hy. apply Hl. by right.
Qed.

Abbreviation without x a := (set_players (filter (λ p, p_name p ≠ x) (a_players a)) a).

Lemma without_same x a : x ∉ p_name <$> a_players a → without x a = a.
Proof.
  intros Hx. rewrite filter_all; [by destruct a|]. intros p Hp <-. apply Hx, list_elem_of_fmap. by exists p.
Qed.

Lemma without_changes x a : encode_account (without x a) ≠ encode_account a ↔ x ∈ p_name <$> a_players a.
Proof.
  split; [intros Hne; destruct (decide (x ∈ p_name <$> a_players a)) as [|Hn]; [done|]; by rewrite without_same in Hne|].
  intros (p & -> & Hp)%list_elem_of_fmap E. injection E as E. apply (f_equal length) in E. rewrite !length_fmap in E.
  pose proof (length_filter_lt (λ q, p_name q ≠ p_name p) (a_players a) p Hp (λ Hne, Hne eq_refl)). lia.
Qed.

Lemma without_names x a : names (without x a) ⊆ names a.
Proof.
  intros y. unfold names. cbn [a_name a_players set_players]. rewrite !elem_of_cons, !list_elem_of_fmap.
  intros [?|(p & ? & Hp)]; [by left|]. right. exists p. apply list_elem_of_filter in Hp. naive_solver.
Qed.

Lemma without_NoDup x i a l : NoDup (all_names l) → l !! i = Some a → NoDup (all_names (<[i := without x a]> l)).
Proof.
  intros Hnd Hi. rewrite (all_names_split i a l Hi) in Hnd. rewrite (all_names_insert i a _ l Hi).
  apply NoDup_app in Hnd as (N1 & N2 & N3). apply NoDup_app. split_and!; [|by intros y Hy; eapply N2, without_names|done].
  unfold names in *. cbn [a_name a_players set_players]. apply NoDup_cons in N1 as [N0 N1]. apply NoDup_cons. split.
  - intros (p & Hp & Hin)%list_elem_of_fmap. apply N0, list_elem_of_fmap. exists p. by apply list_elem_of_filter in Hin as [_ ?].
  - eapply sublist_NoDup; [exact N1|]. apply fmap_sublist, sublist_filter.
Qed.

Lemma represents_same (m m' : M) st : R m st → (∀ c, docs m' c = docs m c) → (∀ c, unique m' c = unique m c) → R m' st.
Proof. intros [R1 R2 R3 R4 R5 R6] Hd Hu. by split; rewrite ?Hd, ?Hu. Qed.

Lemma represents_characters (m m' : M) st l : R m st → docs m' (characters op) = encode_character <$> l →
  (∀ c, c ≠ characters op → docs m' c = docs m c) → (∀ c, unique m' c = unique m c) → Forall plain l → R m' (st.1, l).
Proof.
  intros [R1 R2 R3 R4 R5 R6] Hd Ho Hu Hp. split; cbn [fst snd]; rewrite ?Hu; [|done..].
  by rewrite Ho by (intros E; by apply accounts_characters).
Qed.

(** A transaction that goes through leaves what its commands do. *)
Lemma commits {A} (t : mcmd M A) (m m' : M) a st : t m = (m', inl a) → R m' st →
  ∃ m2, with_transaction t m = (m2, inl a) ∧ R m2 st.
Proof.
  intros Ht Hr. destruct (commit_law t m m' a Ht) as (m2 & Hw & Hd & Hu). exists m2. split; [done|].
  by apply (represents_same m').
Qed.

Lemma pull_sim x i a (m : M) st : R m st → st.1 !! i = Some a → x ≠ a_name a →
  first_match [kvp "account" (BString (a_name a))] (encode_account <$> st.1) = Some (i, encode_account a) →
  ∃ m1 n, update_one false (accounts op) [kvp "account" (BString (a_name a))] (makeDocAccountRemoveCharacter x) m = (m1, inl n) ∧
    (n = 1 ↔ x ∈ p_name <$> a_players a) ∧ R m1 (<[i := without x a]> st.1, st.2).
Proof.
  intros Hr Hi Hne Hf.
  pose proof (update_law false (accounts op) [kvp "account" (BString (a_name a))] (makeDocAccountRemoveCharacter x) m) as Hu.
  rewrite (rep_accounts _ _ _ Hr), Hf, (rep_unique _ _ _ Hr), (update_pull _ _ _ Hne) in Hu.
  rewrite (no_clash i a _ st.1 (rep_names _ _ _ Hr) Hi (without_names x a)) in Hu.
  destruct Hu as (m1 & n & Hu & Hn & Hd1 & Ho1 & Hu1). exists m1, n. split_and!; [done|by rewrite Hn, without_changes|].
  apply (represents_accounts m m1 st); [done|by rewrite Hd1, list_fmap_insert|done|done|].
  apply without_NoDup; [apply Hr|done].
Qed.

Lemma delete_sim name x (m : M) st : R m st →
  let found := list_find (λ c, of_character name x c = true) st.2 in
  ∃ m', delete_one (characters op) [kvp "account" (BString name); kvp "base_info.name" (BString x)] m
      = (m', inl (match found with Some _ => 1 | None => 0 end)) ∧
    R m' (st.1, match found with Some (k, _) => others k st.2 | None => st.2 end).
Proof.
  intros Hr. pose proof (delete_law (characters op) [kvp "account" (BString name); kvp "base_info.name" (BString x)] m) as Hd.
  rewrite (rep_characters _ _ _ Hr), (first_match_encode encode_character _ _ _ (λ c, matches_character c name x)) in Hd.
  destruct (list_find (λ c, of_character name x c = true) st.2) as [[k c]|] eqn:Hk;
    cbn [fmap option_fmap option_map prod_map fst snd id] in Hd |- *; [|exists m; by destruct st].
  destruct Hd as (m2 & Hd & Hd2 & Ho2 & Hu2). exists m2. split; [done|].
  apply (represents_characters m m2 st); [done|by rewrite Hd2, others_fmap|done|done|].
  unfold others. pose proof (rep_plain _ _ _ Hr). apply Forall_app. split; [by apply Forall_take|by apply Forall_drop].
Qed.

Lemma remove_sim name x (m : M) st : R m st →
  ∃ m', removeCharacter op name x m = Ok (m', (spec_remove name x st).2) ∧ R m' (spec_remove name x st).1.
Proof.
  intros Hr. unfold removeCharacter, spec_remove. rewrite acquire_law. cbn [negb orb].
  case_decide as Hne; [rewrite bool_decide_eq_true_2 by done; by exists m|]. rewrite bool_decide_eq_false_2 by done.
  pose proof (first_match_encode encode_account _ _ st.1 (λ a, matches_account a name)) as Hf. unfold guarded.
  assert (∀ m1 n st', pull_character op name x m = (m1, inl n) → R m1 st' →
    ∃ m', (let '(m0, r) := with_transaction (pull_character op name x) m in
           match r with inl a => b ← Ok a; Ok (m0, b) | inr _ => Ok (m0, -1) end) = Ok (m', n) ∧ R m' st') as Hc.
  { intros m1 n st' Ht Hr'. destruct (commits _ _ _ _ st' Ht Hr') as (m2 & -> & Hr2). by exists m2. }
  destruct (list_find (λ a, of_account name a = true) st.1) as [[i a]|] eqn:Hl; cbn [fmap option_fmap option_map prod_map fst snd id] in Hf.
  2: { apply (Hc m 0 st); [|done]. unfold pull_character, mbind, mcmd_bind.
       pose proof (update_law false (accounts op) [kvp "account" (BString name)] (makeDocAccountRemoveCharacter x) m) as Hu.
       rewrite (rep_accounts _ _ _ Hr), Hf in Hu. by rewrite Hu. }
  apply list_find_some in Hl as [Hi Ha]. unfold of_account in Ha. to_prop. subst name.
  destruct (pull_sim x i a m st Hr Hi ltac:(congruence) Hf) as (m1 & n & Hu & Hn & Hr1).
  case_decide as Hx.
  - destruct (delete_sim (a_name a) x m1 _ Hr1) as (m2 & Hd & Hr2). cbn [fst snd] in Hd, Hr2.
    assert (pull_character op (a_name a) x m
      = (m2, inl (match list_find (λ c, of_character (a_name a) x c = true) st.2 with Some _ => 1 | None => 0 end))) as Ht.
    { unfold pull_character, mbind, mcmd_bind. rewrite Hu, (proj2 Hn Hx). exact Hd. }
    destruct (list_find _ st.2) as [[k c]|]; by apply (Hc _ _ _ Ht).
  - rewrite (without_same x a Hx), list_insert_id in Hr1 by done. destruct st as [l1 l2]. apply (Hc m1 0 _); [|done].
    unfold pull_character, mbind, mcmd_bind. rewrite Hu. rewrite (proj2 (Z.eqb_neq n 1)); [done|]. by intros ->; apply Hx, Hn.
Qed.

(** *** Update *)

Lemma change_accounts (p : account → bool) (g : account → account) s f u (m : M) st :
  R m st → (∀ a, matches f (BDoc (encode_account a)) = p a) →
  (∀ a, updated f u (encode_account a) = encode_account (g a)) → (∀ a, names (g a) = names a) →
  ∃ m' n, update_one s (accounts op) f u m = (m', inl n) ∧ R m' (change p g st.1, st.2).
Proof.
  intros Hr Hp Hg Hn. pose proof (update_law s (accounts op) f u m) as Hu. unfold change.
  rewrite (rep_accounts _ _ _ Hr), (first_match_encode encode_account _ f st.1 Hp), (rep_unique _ _ _ Hr) in Hu.
  destruct (list_find (λ a, p a = true) st.1) as [[i a]|] eqn:Hl; cbn [fmap option_fmap option_map prod_map fst snd id] in Hu.
  - apply list_find_some in Hl as [Hi _]. rewrite Hg in Hu.
    rewrite (no_clash i a (g a) st.1 (rep_names _ _ _ Hr) Hi) in Hu by (by rewrite Hn).
    destruct Hu as (m' & n & Hu & _ & Hd & Ho & Hu'). exists m', n. split; [done|].
    apply (represents_accounts m m' st); [done|by rewrite Hd, list_fmap_insert|done|done|].
    eapply names_kept; [apply Hr|done|apply Hn].
  - exists m, 0. by destruct st.
Qed.

Lemma change_characters (p : CharacterInfo.t → bool) (g : CharacterInfo.t → CharacterInfo.t) s f u (m : M) st :
  R m st → (∀ c, matches f (BDoc (encode_character c)) = p c) →
  (∀ c, updated f u (encode_character c) = encode_character (g c)) → (∀ c, plain c → plain (g c)) →
  ∃ m' n, update_one s (characters op) f u m = (m', inl n) ∧ R m' (st.1, change p g st.2).
Proof.
  intros Hr Hp Hg Hn. pose proof (update_law s (characters op) f u m) as Hu. unfold change.
  rewrite (rep_characters _ _ _ Hr), (first_match_encode encode_character _ f st.2 Hp), (rep_free _ _ _ Hr) in Hu.
  destruct (list_find (λ a, p a = true) st.2) as [[i a]|] eqn:Hl; cbn [fmap option_fmap option_map prod_map fst snd id] in Hu.
  - apply list_find_some in Hl as [Hi _]. rewrite Hg in Hu.
    assert (∀ d l, existsb (clash [] d) l = false) as Hnone by (intros d l; by induction l). rewrite Hnone in Hu.
    destruct Hu as (m' & n & Hu & _ & Hd & Ho & Hu'). exists m', n. split; [done|].
    apply (represents_characters m m' st); [done|by rewrite Hd, list_fmap_insert|done|done|].
    apply Forall_insert; [apply Hr|]. apply Hn. eapply Forall_lookup_1; [apply Hr|done].
  - exists m, 0. by destruct st.
Qed.

(** An account that has the name is the account of its name. *)
Lemma find_account name x l i a : NoDup (all_names l) →
  list_find (λ a, of_account name a && bool_decide (x ∈ names a) = true) l = Some (i, a) →
  list_find (λ a, of_account name a = true) l = Some (i, a).
Proof.
  intros Hnd (Hi & Ha & Hf)%list_find_Some. unfold of_account in *. to_prop. apply list_find_Some.
  split_and!; [done|by rewrite bool_decide_eq_true_2|]. intros j b Hj Hlt Hb. to_prop.
  rewrite (all_names_split i a l Hi), NoDup_app in Hnd. destruct Hnd as (_ & Hnd & _).
  apply (Hnd name); [subst name; by left|]. apply elem_of_all_names. exists b. split; [|subst name; rewrite <- Hb; by left].
  unfold others. apply elem_of_app. left. apply list_elem_of_lookup. exists j. by rewrite lookup_take_lt.
Qed.

Lemma find_changed {A} (p : A → bool) (l : list A) i a b :
  list_find (λ a, p a = true) l = Some (i, a) → p b = true → list_find (λ a, p a = true) (<[i := b]> l) = Some (i, b).
Proof.
  intros (Hi & Ha & Hf)%list_find_Some Hb. apply list_find_Some. split_and!; [|done|].
  - apply list_lookup_insert_eq. by eapply lookup_lt_Some.
  - intros j y Hj Hlt. rewrite list_lookup_insert_ne in Hj by lia. by eapply Hf.
Qed.

Lemma change_change name x g h l i a : NoDup (all_names l) →
  list_find (λ a, of_account name a && bool_decide (x ∈ names a) = true) l = Some (i, a) →
  (∀ a, names (h a) = names a) →
  change (λ a, of_account name a && bool_decide (x ∈ names a)) g (change (of_account name) h l) = change (of_account name) (g ∘ h) l.
Proof.
  intros Hnd Hl Hh. unfold change at 2 3. rewrite (find_account name x l i a Hnd Hl). unfold change.
  rewrite (find_changed _ l i a (h a) Hl).
  - unfold compose. by rewrite list_insert_insert_eq.
  - apply list_find_some in Hl as [_ Ha]. unfold of_account in *. rewrite Hh.
    assert (a_name (h a) = a_name a) as -> by (pose proof (Hh a) as E; by injection E). done.
Qed.

Lemma update_commits info (last : bool) (m : M) st i a : R m st →
  list_find (λ a, of_account (CharacterInfo.ACCOUNT info) a && bool_decide (CharacterInfo.NAME info ∈ names a) = true) st.1 = Some (i, a) →
  ∃ m', update_commands op now info last m = (m', inl tt) ∧ R m' (spec_update now info last st).
Proof.
  intros Hr Hl. unfold update_commands, spec_update. rewrite Hl.
  set (name := CharacterInfo.ACCOUNT info) in *. set (x := CharacterInfo.NAME info) in *.
  assert (∃ m1 n, (if last then update_one true (accounts op) [kvp "account" (BString name)] (makeDocAccountLogout now) else mret 0) m
      = (m1, inl n) ∧ R m1 (change (of_account name) (if last then logged_out now else id) st.1, st.2)) as (m1 & n1 & Hu1 & Hr1).
  { destruct last.
    - apply (change_accounts _ (logged_out now)); [done|intros b; apply matches_account|intros b; apply update_logout|done].
    - exists m, 0. split; [done|]. unfold change, id. destruct (list_find (λ a, of_account name a = true) st.1) as [[j b]|] eqn:Hj; [|by destruct st].
      apply list_find_some in Hj as [Hj _].
      rewrite (list_insert_id st.1 j b Hj). by destruct st. }
  unfold mbind, mcmd_bind. rewrite Hu1.
  destruct (change_accounts _ (level_up x (CharacterInfo.LEVEL info)) true (makeDocAccountAndCharacter name x)
    (makeDocAccountUpdateCharacter (base_of info)) m1 _ Hr1 (λ b, matches_named b name x) (λ b, update_level name x info b eq_refl)
    (level_up_names x _)) as (m2 & n2 & Hu2 & Hr2). rewrite Hu2. cbn [fst snd] in Hr2.
  rewrite (change_change name x _ _ _ i a (rep_names _ _ _ Hr) Hl) in Hr2 by (by destruct last).
  destruct (change_characters _ (update_info info) true _ (makeDocUpdateCharacter info) m2 _ Hr2
    (λ c, matches_character c name x) (update_character_doc _ info)) as (m3 & n3 & Hu3 & Hr3).
  { intros c [_ Hg]. by split. }
  rewrite Hu3. by exists m3.
Qed.

Lemma update_sim info (last : bool) (m : M) st : R m st →
  ∃ m', fst <$> updateCharacter op now info last m = Ok m' ∧ R m' (spec_update now info last st).
Proof.
  intros Hr. unfold updateCharacter, thrown. rewrite find_law, (rep_accounts _ _ _ Hr).
  rewrite (first_match_encode encode_account _ _ st.1 (λ a, matches_named a (CharacterInfo.ACCOUNT info) (CharacterInfo.NAME info))).
  destruct (list_find _ st.1) as [[i a]|] eqn:Hl; cbn [fmap option_fmap option_map mbind res_bind].
  - destruct (update_commits info last m st i a Hr Hl) as (m1 & Hu & Hr1). destruct (commits _ _ _ _ _ Hu Hr1) as (m2 & Hw & Hr2).
    unfold guarded. rewrite Hw. by exists m2.
  - exists m. split; [done|]. unfold spec_update. by rewrite Hl.
Qed.
End Simulation.

(** ** Properties *)

Section Properties.
Context {M : Type} `{MongoLaws M}.
Context (op : AccountOp) (now : Z).
Hypothesis collections_differ : mAccountCollectionName op ≠ mCharacterCollectionName op.

(** The database of the code does as the specification says, from a store that
    represents the state of it: the same answer, and a store that represents the
    next state. *)
Definition does_as {A} (run : M → res (M * A)) (spec : players_db → players_db * A) : Prop :=
  ∀ m st, represents op m st → ∃ m', run m = Ok (m', (spec st).2) ∧ represents op m' (spec st).1.

(** The indexes of an empty database. *)
Lemma indexes_created (m : M) :
  (∀ c, docs m c = []) → (∀ c, unique m c = []) →
  ∃ m', createIndexes op m = (m', true) ∧ represents op m' ([], []).
Proof.
  intros Hd Hu. unfold createIndexes, createIndex, createCharacterIndex, mbind, mcmd_bind.
  destruct (create_index_law (accounts op) [kvp "account" (BInt32 1)] true m) as (m1 & -> & Hd1 & Hu1 & Ho1).
  { intros _. split; [apply Hd|]. eexists _, _. split; [done|]. rewrite Hu. by apply not_elem_of_nil. }
  destruct (create_index_law (accounts op) [kvp "characters.character_name" (BInt32 1)] true m1) as (m2 & -> & Hd2 & Hu2 & Ho2).
  { intros _. split; [by rewrite Hd1|]. eexists _, _. split; [done|]. rewrite Hu1, Hu. intros E%list_elem_of_singleton. done. }
  destruct (create_index_law (characters op) [kvp "account" (BInt32 1); kvp "base_info.name" (BInt32 1)] false m2)
    as (m3 & -> & Hd3 & Hu3 & Ho3); [done|].
  exists m3. split; [done|]. pose proof (accounts_characters op collections_differ) as Hne. split; cbn [fst snd].
  - by rewrite Hd3, Hd2, Hd1.
  - by rewrite Hd3, Hd2, Hd1.
  - by rewrite Ho3, Hu2, Hu1, Hu by done.
  - by rewrite Hu3, Ho2, Ho1, Hu by done.
  - by apply NoDup_nil.
  - done.
Qed.


(** What the specification makes of a character it has. *)
Lemma spec_get_updated info last st i a k c :
  list_find (λ a, of_account (CharacterInfo.ACCOUNT info) a && bool_decide (CharacterInfo.NAME info ∈ names a) = true) st.1
    = Some (i, a) →
  list_find (λ c, of_character (CharacterInfo.ACCOUNT info) (CharacterInfo.NAME info) c = true) st.2 = Some (k, c) →
  spec_get (CharacterInfo.ACCOUNT info) (CharacterInfo.NAME info) (spec_update now info last st) = Some (update_info info c).
Proof.
  intros Ha Hc. unfold spec_get, spec_update. rewrite Ha. cbn [snd]. unfold change at 1. rewrite Hc.
  rewrite (find_changed _ st.2 k c (update_info info c) Hc); [done|]. by apply list_find_some in Hc as [_ ?].
Qed.

(** Whether the owner may log in after that. *)
Lemma spec_login_updated info last st i a : NoDup (all_names st.1) →
  list_find (λ a, of_account (CharacterInfo.ACCOUNT info) a && bool_decide (CharacterInfo.NAME info ∈ names a) = true) st.1
    = Some (i, a) →
  (spec_login now (CharacterInfo.ACCOUNT info) (a_password a) (spec_update now info last st)).2
  = if negb last && a_on a then 2 else 1.
Proof.
  intros Hn Ha. unfold spec_login, spec_update. rewrite Ha. cbn [fst]. unfold change.
  pose proof (find_account _ _ _ _ _ Hn Ha) as (Hi & Hp & Hf)%list_find_Some. rewrite (find_account _ _ _ _ _ Hn Ha).
  set (b := (level_up _ _ ∘ _) a).
  assert (a_name b = a_name a ∧ a_password b = a_password a ∧ a_on b = negb last && a_on a) as (E1 & E2 & E3).
  { unfold b, compose, level_up. case_bool_decide; by destruct last. }
  rewrite (proj2 (list_find_Some _ _ i b)).
  - rewrite E3. by destruct last, (a_on a).
  - split_and!.
    + apply list_lookup_insert_eq. by eapply lookup_lt_Some.
    + unfold of_account in *. rewrite E1, E2, Hp. by rewrite bool_decide_eq_true_2.
    + intros j y Hj Hlt Hy. rewrite list_lookup_insert_ne in Hj by lia. apply (Hf j y Hj Hlt). by apply andb_true_iff in Hy as [? _].
Qed.

(** C22: what the game server saves of a character is what the database hands out
    when the character is asked for again, and the last save logs its owner out: the
    account may log in again exactly then, or if it was not in. *)
Theorem character_saved info (last : bool) m st i a k c : represents op m st →
  list_find (λ a, of_account (CharacterInfo.ACCOUNT info) a && bool_decide (CharacterInfo.NAME info ∈ names a) = true) st.1
    = Some (i, a) →
  list_find (λ c, of_character (CharacterInfo.ACCOUNT info) (CharacterInfo.NAME info) c = true) st.2 = Some (k, c) →
  ∃ m' m2, fst <$> updateCharacter op now info last m = Ok m' ∧
    getOneCharacterInfoFill2Message op (CharacterInfo.ACCOUNT info) (CharacterInfo.NAME info) m'
      = (m', Some (update_info info c)) ∧
    matchAccountAndUpdateLoginState op now (CharacterInfo.ACCOUNT info) (a_password a) true m'
      = Ok (m2, if negb last && a_on a then 2 else 1).
Proof.
  intros Hr Ha Hc. destruct (update_sim op now collections_differ info last m st Hr) as (m' & Hu & Hr').
  destruct (login_sim op now collections_differ (CharacterInfo.ACCOUNT info) (a_password a) m' _ Hr') as (m2 & Hl & _).
  exists m', m2. split_and!; [done| |].
  - rewrite (get_sim op _ _ m' _ Hr'). f_equal. by eapply spec_get_updated.
  - rewrite Hl. do 2 f_equal. eapply spec_login_updated; [apply Hr|done].
Qed.

(** A character may be created for an account that does not exist: the answer
    is that of success, the character is found afterwards, and no account lists it. *)
Theorem orphan_character (r : LoginCharacterRequestMessage.t) m st :
  let name := LoginRequestMessage.ACCOUNT (LoginCharacterRequestMessage.parent r) in
  let character := LoginCharacterRequestMessage.CHARACTER_NAME r in
  represents op m st → list_find (λ a, of_account name a = true) st.1 = None →
  ∃ m' c, addNewCharacter op r m = Ok (m', 1) ∧
    getOneCharacterInfoFill2Message op name character m' = (m', Some c) ∧
    getAllCharacterBaseInfoFill2Message op name m' = Ok (m', Some []) ∧
    docs m' (accounts op) = docs m (accounts op).
Proof.
  intros name character Hr Hn. destruct (add_sim op collections_differ r m st Hr) as (m' & Ha & Hr').
  unfold spec_add in Ha, Hr'. fold name in Ha, Hr'. rewrite Hn in Ha, Hr'. cbn [fst snd] in Ha, Hr'.
  assert (∃ c, spec_get name character (st.1, st.2 ++ [new_character r]) = Some c) as [c Hc].
  { unfold spec_get. cbn [snd]. destruct (list_find _ (st.2 ++ _)) as [[k c]|] eqn:E; [by exists c|].
    rewrite list_find_None, Forall_app, Forall_singleton in E. destruct E as [_ E]. destruct E.
    unfold of_character, new_character. destruct (newerSpawnLocation _ _) as [[[s x] y] z]. cbn.
    by rewrite !bool_decide_eq_true_2. }
  exists m', c. split_and!; [done| | |].
  - by rewrite (get_sim op _ _ m' _ Hr'), Hc.
  - rewrite (list_sim op name m' _ Hr'). unfold spec_list. cbn [fst]. by rewrite Hn.
  - by rewrite (rep_accounts _ _ _ Hr'), (rep_accounts _ _ _ Hr).
Qed.
End Properties.

(** ** Witnesses *)

Definition stored_memory (op : AccountOp) (st : players_db) : memory :=
  mkMemory (λ c, if decide (c = accounts op) then encode_account <$> st.1
                 else if decide (c = characters op) then encode_character <$> st.2 else [])
           (λ c, if decide (c = accounts op) then unique_paths else []).

Lemma stored_represents op st : mAccountCollectionName op ≠ mCharacterCollectionName op →
  NoDup (all_names st.1) → Forall plain st.2 → represents op (stored_memory op st) st.
Proof.
  intros Hne Hn Hp. assert (characters op ≠ accounts op) by by apply accounts_characters.
  split; [| | | |done|done]; unfold stored_memory; cbn [docs unique memory_laws held indexed].
  - by rewrite decide_True.
  - by rewrite decide_False, decide_True.
  - by rewrite decide_True.
  - by rewrite decide_False.
Qed.

Definition demo_op : AccountOp := mkOp (lit "warring") (lit "accounts") (lit "characters").
Definition demo_player : player := mkPlayer (lit "Meng") 1 true 100111 100011.
Definition demo_account : account := mkAccount (lit "alice") (lit "secret") 0 [demo_player] 0 None (lit "10.0.0.9:7001") true.
Definition demo_players : players_db := ([demo_account], [demo_character]).

Lemma demo_represents : represents demo_op (stored_memory demo_op demo_players) demo_players.
Proof.
  apply stored_represents; [done| |].
  - by apply (bool_decide_unpack _); vm_compute.
  - by repeat constructor.
Qed.


Lemma character_saved_witness :
  ∃ m' m2, fst <$> updateCharacter demo_op 5000 demo_character true (stored_memory demo_op demo_players) = Ok m' ∧
    getOneCharacterInfoFill2Message demo_op (lit "alice") (lit "Meng") m' = (m', Some (update_info demo_character demo_character)) ∧
    matchAccountAndUpdateLoginState demo_op 5000 (lit "alice") (lit "secret") true m' = Ok (m2, 1).
Proof.
  apply (character_saved (M := memory) demo_op 5000 (ltac:(done)) demo_character true _ demo_players 0 demo_account 0 demo_character);
    [apply demo_represents|by vm_compute|by vm_compute].
Defined.

Definition demo_creation : LoginCharacterRequestMessage.t :=
  LoginCharacterRequestMessage.mk (LoginRequestMessage.mk (TimestampMessage.new 0) code.login.LOGIN_CREATE_CHARACTER_CODE
    (lit "nobody") (lit "x")) (lit "Ghost") 1 100111 100011.

Lemma orphan_character_witness :
  let m := stored_memory demo_op demo_players in
  ∃ m' c, addNewCharacter demo_op demo_creation m = Ok (m', 1) ∧
    getOneCharacterInfoFill2Message demo_op (lit "nobody") (lit "Ghost") m' = (m', Some c) ∧
    getAllCharacterBaseInfoFill2Message demo_op (lit "nobody") m' = Ok (m', Some []) ∧
    docs m' (accounts demo_op) = docs m (accounts demo_op).
Proof.
  intros m. apply (orphan_character (M := memory) demo_op (ltac:(done)) demo_creation m demo_players);
    [apply demo_represents|by vm_compute].
Defined.
