(* ===== verification/GameData.v ===== *)
(** * The tables of the game: [GameDataTable/]

    The occupations, the scenes of each state, and where a new character is put.
    The codes that the documents need, the attributes and [newerSpawnLocation] are
    in [AccountOp]. *)

From S2P Require Import Prelude.
From S2P Require Import BaseMessage.
From S2P Require Import Messages.
From S2P Require Import DBServer.
From S2P Require Import Mongo.
From S2P Require Import AccountOp.

Local Open Scope Z_scope.

(** ** The codes *)

Definition GAME_DATA_CODE_OCCUPTION_FARMER : Z := 100111.
Definition GAME_DATA_CODE_OCCUPTION_HANDICRAFTSMAN : Z := 100112.
Definition GAME_DATA_CODE_OCCUPTION_HUNTER : Z := 100113.
Definition GAME_DATA_CODE_OCCUPTION_EXPLORER : Z := 100114.
Definition GAME_DATA_CODE_OCCUPTION_SOLDIER : Z := 100115.
Definition GAME_DATA_CODE_OCCUPTION_VENDOR : Z := 100116.
Definition GAME_DATA_CODE_OCCUPTION_SCHOLAR : Z := 100117.
Definition GAME_DATA_CODE_OCCUPTION_DOCTOR : Z := 100118.
Definition GAME_DATA_CODE_OCCUPTION_WIZARD : Z := 100119.

Definition GAME_DATA_SCENE_QI_2 : Z := 200002.
Definition GAME_DATA_SCENE_QI_3 : Z := 200003.
Definition GAME_DATA_SCENE_QI_4 : Z := 200004.
Definition GAME_DATA_SCENE_QI_5 : Z := 200005.
Definition GAME_DATA_SCENE_QI_6 : Z := 200006.
Definition GAME_DATA_SCENE_QI_7 : Z := 200007.
Definition GAME_DATA_SCENE_QI_8 : Z := 200008.
Definition GAME_DATA_SCENE_QI_9 : Z := 200009.
Definition GAME_DATA_SCENE_QI_10 : Z := 200010.
Definition GAME_DATA_SCENE_CHU_2 : Z := 200102.
Definition GAME_DATA_SCENE_CHU_3 : Z := 200103.
Definition GAME_DATA_SCENE_CHU_4 : Z := 200104.
Definition GAME_DATA_SCENE_CHU_5 : Z := 200105.
Definition GAME_DATA_SCENE_CHU_6 : Z := 200106.
Definition GAME_DATA_SCENE_CHU_7 : Z := 200107.
Definition GAME_DATA_SCENE_CHU_8 : Z := 200108.
Definition GAME_DATA_SCENE_CHU_9 : Z := 200109.
Definition GAME_DATA_SCENE_CHU_10 : Z := 200110.
Definition GAME_DATA_SCENE_YAN_2 : Z := 200202.
Definition GAME_DATA_SCENE_QIN_2 : Z := 200302.
Definition GAME_DATA_SCENE_ZHAO_2 : Z := 200402.
Definition GAME_DATA_SCENE_WEI_2 : Z := 200502.
Definition GAME_DATA_SCENE_HAN_2 : Z := 200602.

Definition FIELD_PASSWORD := lit "password".

Definition newerSkill (state occuption : Z) : gmap Z Z := ∅.

(** ** The states and their scenes *)

Definition occuptions : list Z :=
  [GAME_DATA_CODE_OCCUPTION_FARMER; GAME_DATA_CODE_OCCUPTION_HANDICRAFTSMAN;
   GAME_DATA_CODE_OCCUPTION_HUNTER; GAME_DATA_CODE_OCCUPTION_EXPLORER;
   GAME_DATA_CODE_OCCUPTION_SOLDIER; GAME_DATA_CODE_OCCUPTION_VENDOR;
   GAME_DATA_CODE_OCCUPTION_SCHOLAR; GAME_DATA_CODE_OCCUPTION_DOCTOR; GAME_DATA_CODE_OCCUPTION_WIZARD].

(** A state with its scenes, in their order. *)
Definition scene_table : list (Z * list Z) :=
  [(GAME_DATA_CODE_STATE_QI,
    [GAME_DATA_SCENE_QI_1; GAME_DATA_SCENE_QI_2; GAME_DATA_SCENE_QI_3; GAME_DATA_SCENE_QI_4;
     GAME_DATA_SCENE_QI_5; GAME_DATA_SCENE_QI_6; GAME_DATA_SCENE_QI_7; GAME_DATA_SCENE_QI_8;
     GAME_DATA_SCENE_QI_9; GAME_DATA_SCENE_QI_10]);
   (GAME_DATA_CODE_STATE_CHU,
    [GAME_DATA_SCENE_CHU_1; GAME_DATA_SCENE_CHU_2; GAME_DATA_SCENE_CHU_3; GAME_DATA_SCENE_CHU_4;
     GAME_DATA_SCENE_CHU_5; GAME_DATA_SCENE_CHU_6; GAME_DATA_SCENE_CHU_7; GAME_DATA_SCENE_CHU_8;
     GAME_DATA_SCENE_CHU_9; GAME_DATA_SCENE_CHU_10]);
   (GAME_DATA_CODE_STATE_YAN,
    [GAME_DATA_SCENE_YAN_1; GAME_DATA_SCENE_YAN_2]);
   (GAME_DATA_CODE_STATE_QIN,
    [GAME_DATA_SCENE_QIN_1; GAME_DATA_SCENE_QIN_2]);
   (GAME_DATA_CODE_STATE_ZHAO,
    [GAME_DATA_SCENE_ZHAO_1; GAME_DATA_SCENE_ZHAO_2]);
   (GAME_DATA_CODE_STATE_WEI,
    [GAME_DATA_SCENE_WEI_1; GAME_DATA_SCENE_WEI_2]);
   (GAME_DATA_CODE_STATE_HAN,
    [GAME_DATA_SCENE_HAN_1; GAME_DATA_SCENE_HAN_2])].

Definition states : list Z := scene_table.*1.
Definition scenes : list Z := mjoin scene_table.*2.

(** ** Where a new character is put *)

(** The first scene of its state, at 2000, 2000, 90. *)
Definition placed (scene x y z : Z) (row : Z * list Z) : Prop :=
  head row.2 = Some scene ∧ x = d2000 ∧ y = d2000 ∧ z = d90.

(** Nowhere: the scene is no code of the table. *)
Definition nowhere (scene x y z : Z) : Prop := scene ∉ scenes ∧ (scene, x, y, z) = (-1, 0, 0, 0).

(** No two scenes have the same code, in one state or in two, and no code is that
    of a state or of an occupation. *)
Lemma codes_distinct : NoDup (states ++ occuptions ++ scenes).
Proof. by apply (bool_decide_unpack _). Qed.

Lemma spawn_known state occuption row : row ∈ scene_table → row.1 = state →
  let '(scene, x, y, z) := newerSpawnLocation state occuption in placed scene x y z row.
Proof.
  unfold scene_table. rewrite !elem_of_cons, elem_of_nil. intros Hr <-.
  repeat destruct Hr as [->|Hr]; try done.
Qed.

Lemma spawn_unknown state occuption : state ∉ states →
  let '(scene, x, y, z) := newerSpawnLocation state occuption in nowhere scene x y z.
Proof.
  intros Hs. assert (newerSpawnLocation state occuption = (-1, 0, 0, 0)) as ->.
  { unfold states, scene_table in Hs. cbn in Hs. rewrite !not_elem_of_cons in Hs.
    unfold GAME_DATA_CODE_STATE_QI, GAME_DATA_CODE_STATE_CHU, GAME_DATA_CODE_STATE_YAN, GAME_DATA_CODE_STATE_QIN,
      GAME_DATA_CODE_STATE_ZHAO, GAME_DATA_CODE_STATE_WEI, GAME_DATA_CODE_STATE_HAN in Hs.
    destruct Hs as (? & ? & ? & ? & ? & ? & ? & _). unfold newerSpawnLocation.
    repeat (case_match; try done). }
  split; [|done]. by apply (bool_decide_unpack _).
Qed.

(** A character that is created is stored in the first scene of the state the
    client named, and no other character is touched; when the client names no
    state of the table the character is created all the same, in no scene. *)
Theorem created_placed {M} `{MongoLaws M} (op : AccountOp) (r : LoginCharacterRequestMessage.t) (m m' : M) st :
  mAccountCollectionName op ≠ mCharacterCollectionName op → represents op m st →
  addNewCharacter op r m = Ok (m', 1) →
  let state := LoginCharacterRequestMessage.CHARACTER_STATE r in
  ∃ st' c, represents op m' st' ∧ st'.2 = st.2 ++ [c] ∧ CharacterInfo.STATE c = state ∧
    (∀ row, row ∈ scene_table → row.1 = state →
       placed (CharacterInfo.SCENE_ID c) (CharacterInfo.SCENE_X c) (CharacterInfo.SCENE_Y c) (CharacterInfo.SCENE_Z c) row) ∧
    (state ∉ states →
       nowhere (CharacterInfo.SCENE_ID c) (CharacterInfo.SCENE_X c) (CharacterInfo.SCENE_Y c) (CharacterInfo.SCENE_Z c)).
Proof.
  intros Hne Hr Ha state. destruct (add_sim op Hne r m st Hr) as (m2 & Ha2 & Hr2). rewrite Ha in Ha2.
  assert (m2 = m') as -> by congruence. assert ((spec_add r st).2 = 1) as Hone by congruence.
  exists (spec_add r st).1, (new_character r). split; [exact Hr2|].
  assert ((spec_add r st).1.2 = st.2 ++ [new_character r]) as ->.
  { revert Hone. unfold spec_add. by repeat case_match. }
  split; [done|]. unfold new_character. fold state.
  pose proof (spawn_known state (LoginCharacterRequestMessage.CHARACTER_OCCUPTION r)) as Hk.
  pose proof (spawn_unknown state (LoginCharacterRequestMessage.CHARACTER_OCCUPTION r)) as Hu.
  destruct (newerSpawnLocation state _) as [[[scene x] y] z]. split; [done|]. by split.
Qed.

(** ** Witness: a character of a state that does not exist *)

Definition demo_stateless : LoginCharacterRequestMessage.t :=
  LoginCharacterRequestMessage.mk (LoginRequestMessage.mk (TimestampMessage.new 0) code.login.LOGIN_CREATE_CHARACTER_CODE
    (lit "alice") (lit "secret")) (lit "Lost") 1 GAME_DATA_CODE_OCCUPTION_FARMER 7.

Lemma created_placed_witness :
  ∃ m' st' c, addNewCharacter demo_op demo_stateless (stored_memory demo_op demo_players) = Ok (m', 1) ∧
    represents demo_op m' st' ∧ st'.2 = [demo_character; c] ∧ CharacterInfo.SCENE_ID c = -1.
Proof.
  destruct (add_sim demo_op ltac:(done) demo_stateless _ demo_players demo_represents) as (m' & Ha & _).
  assert ((spec_add demo_stateless demo_players).2 = 1) as E by by vm_compute. rewrite E in Ha.
  destruct (created_placed demo_op demo_stateless _ m' demo_players ltac:(done) demo_represents Ha) as (st' & c & Hr & Hc & _ & _ & Hn).
  destruct Hn as [_ Hn]; [by apply (bool_decide_unpack _)|].
  exists m', st', c. split; [exact Ha|]. split; [exact Hr|]. split; [exact Hc|]. by injection Hn.
Defined.
