(* ===== verification/Cluster.v ===== *)
(** * The servers together

    A client's request crosses four programs: [LoginServer/] takes its bytes off
    the connection and adds them to a stream of the broker, [DBServer/] takes them
    off the stream, asks MongoDB and adds the answer to another stream, and
    [LoginServer/] takes that one off and puts it in the client's output.  Here the
    operations of those components run one after the other, on one broker. *)

From S2P Require Import Prelude.
From S2P Require Import BaseMessage.
From S2P Require Import Messages.
From S2P Require Import Carrier.
From S2P Require Import SafeHashmap.
From S2P Require Import TcpConnection.
From S2P Require Import EventLoop.
From S2P Require Import TcpServer.
From S2P Require Import Broker.
From S2P Require Import Dispatch.
From S2P Require Import LoginServer.
From S2P Require Import DBServer.
From S2P Require Import Mongo.
From S2P Require Import AccountOp.

Local Open Scope Z_scope.

(** ** What a stream does with what is added to it

    [inbox] is what a group has not been handed yet, when there is such a group;
    [entries] how many entries a stream has, which are cut off at a maximum. *)
Class QueueLaws (D : Type) `{StreamLaws D} := {
  inbox : D → str → str → option (list (str * fields));
  entries : D → str → Z;
  add_law key kvs maxLen d : entries d key < maxLen →
    ∃ d' id, xadd key (lit "*") kvs maxLen d = (d', inl id) ∧
      (∀ g, inbox d' key g = (λ l, l ++ [(id, kvs)]) <$> inbox d key g) ∧
      (∀ key' g, key' ≠ key → inbox d' key' g = inbox d key' g) ∧
      (∀ key', key' ≠ key → entries d' key' = entries d key') ∧ entries d' key <= entries d key + 1;
  read_law key g c ms id kvs l d : inbox d key g = Some ((id, kvs) :: l) →
    ∃ d', xreadgroup g c key (lit ">") ms 1 d = (d', inl {[ key := [(id, Some kvs)] ]}) ∧
      is_Some (pel d' key g !! id) ∧ inbox d' key g = Some l ∧
      (∀ key' g', (key', g') ≠ (key, g) → inbox d' key' g' = inbox d key' g') ∧
      ∀ key', entries d' key' = entries d key';
  ack_queue_law key g id d d' n : xack key g id d = (d', inl n) →
    (∀ key' g', inbox d' key' g' = inbox d key' g') ∧ ∀ key', entries d' key' = entries d key' }.

Section Stream.
Context {D : Type} `{QueueLaws D}.

(** A group that waits for the next entry of a stream that is not full. *)
Definition waits (key g : str) (d : D) : Prop := inbox d key g = Some [] ∧ entries d key < 5000.

(** What is pushed is what the group reads next. *)
Lemma push_read key g c ms kvs (d : D) : waits key g d →
  ∃ id d', xreadgroup g c key (lit ">") ms 1 (push key kvs 5000 d).1 = (d', inl {[ key := [(id, Some kvs)] ]}) ∧
    is_Some (pel d' key g !! id) ∧ inbox d' key g = Some [] ∧
    (∀ key' g', key' ≠ key → inbox d' key' g' = inbox d key' g' ∧ entries d' key' = entries d key') ∧
    entries d' key <= entries d key + 1.
Proof.
  intros [Hi He]. destruct (add_law key kvs 5000 d He) as (d1 & id & Ha & Hi1 & Ho1 & He1 & Hn1).
  unfold push, caught. rewrite Ha. cbn [fst]. assert (inbox d1 key g = Some [(id, kvs)]) as Hin by (by rewrite Hi1, Hi).
  destruct (read_law key g c ms id kvs [] d1 Hin) as (d2 & Hr & Hp & Hi2 & Ho2 & He2).
  exists id, d2. split_and!; [done|done|done| |by rewrite He2]. intros key' g' Hk. split.
  - by rewrite Ho2, Ho1 by congruence.
  - by rewrite He2, He1.
Qed.

Lemma ack_streams key g id (d d' : D) n : ack key g id d = Ok (d', n) →
  (∀ key' g', inbox d' key' g' = inbox d key' g') ∧ ∀ key', entries d' key' = entries d key'.
Proof.
  unfold ack, uncaught. destruct (xack key g id d) as [d1 [m|]] eqn:E; [|done]. cbn [mbind res_bind]. intros [= <- _].
  exact (ack_queue_law _ _ _ _ _ _ E).
Qed.

Lemma ack_waits key g id (d d' : D) n : ack key g id d = Ok (d', n) →
  (∀ key' g', waits key' g' d → waits key' g' d') ∧ ∀ key' g', inbox d' key' g' = inbox d key' g'.
Proof.
  intros Ha. destruct (ack_streams _ _ _ _ _ _ Ha) as [Hi He]. split; [|done].
  intros key' g' [Hw1 Hw2]. split; [by rewrite Hi|by rewrite He].
Qed.
End Stream.

(** ** The answer, as MongoDB gives it and as the specification does *)

Section Answer.
Context {M : Type} `{MongoLaws M} (op : AccountOp) (now : Z).
Hypothesis collections_differ : mAccountCollectionName op ≠ mCharacterCollectionName op.

(** What an account request comes to, by the specification. *)
Definition spec_answer (m : LoginRequestMessage.t) (address : str) (st : players_db) :=
  @account_answer players_db (spec_database now) m address st.

Lemma answer_sim (m : LoginRequestMessage.t) address (b : M) st st' code infos :
  represents op b st → spec_answer m address st = Ok (st', code, infos) →
  ∃ b', @account_answer M (mongo_database op now) m address b = Ok (b', code, infos) ∧ represents op b' st'.
Proof.
  intros Hr. unfold spec_answer, account_answer.
  cbn [DBServer.addNewAccount DBServer.matchAccountAndUpdateLoginState DBServer.getAllCharacterBaseInfoFill2Message
    spec_database mongo_database].
  set (name := LoginRequestMessage.ACCOUNT m). set (password := LoginRequestMessage.PASSWORD m).
  destruct (register_sim op now collections_differ name password address b st Hr) as (b1 & Hreg & Hr1).
  destruct (login_sim op now collections_differ name password b st Hr) as (b2 & Hlog & Hr2).
  pose proof (list_sim op name b2 _ Hr2) as Hlist.
  destruct (decide (LoginRequestMessage.REQUEST_CODE m = 10)) as [->|H10].
  { rewrite Hreg. cbn [mbind res_bind]. destruct (spec_register _ _ _ _ _) as [st1 n]. cbn [mbind res_bind]. intros [= <- <- <-].
    by exists b1. }
  destruct (decide (LoginRequestMessage.REQUEST_CODE m = 20)) as [->|H20].
  { rewrite Hlog. cbn [mbind res_bind]. destruct (spec_login _ _ _ _) as [st2 n]. cbn [fst snd mbind res_bind] in *.
    destruct n as [|[p|[p|p|]|]|p]; try (intros [= <- <- <-]; by exists b2).
    rewrite Hlist. cbn [mbind res_bind]. intros [= <- <- <-]. by exists b2. }
  destruct (LoginRequestMessage.REQUEST_CODE m) as [|p|p]; try (intros [= <- <- <-]; by exists b).
  repeat (destruct p as [p|p|]; try (intros [= <- <- <-]; by exists b); try done).
Qed.
End Answer.

(** ** A request from the client's bytes to the client's output *)

Section Login.
Context {R D M : Type} `{QueueLaws D} `{MongoLaws M}.
Context (mHashFunc : str → Z) (lconf : LoginServConf) (dconf : DBServConf) (j : Junk) (op : AccountOp).
Hypothesis collections_differ : mAccountCollectionName op ≠ mCharacterCollectionName op.

(** The configurations of the two servers agree. *)
Record wired : Prop := {
  wired_key : BROKER_DB_4_LOGIN_KEY dconf = BROKER_DB_KEY lconf;
  wired_differ : BROKER_LOGIN_KEY lconf ≠ BROKER_DB_KEY lconf;
  wired_named : BROKER_LOGIN_KEY lconf ≠ [];
  wired_error : MESSAGE_LOGIN_LOGIN_MSG dconf ≠ lit "LOGIN_ERROR_MSG" }.

(** Both servers wait at their streams. *)
Definition streams_wait (d : D) : Prop :=
  waits (BROKER_DB_KEY lconf) (DBServer.BROKER_DB_GROUP dconf) d ∧ waits (BROKER_LOGIN_KEY lconf) (BROKER_LOGIN_GROUP lconf) d.

(** The pass of the database server over a request that was pushed. *)
Lemma login_reader_answers (m : LoginRequestMessage.t) c (d : D) (b : M) st st' code infos now nowDB :
  wired → streams_wait d → represents op b st → SERVICE c = BROKER_LOGIN_KEY lconf →
  TYPE c = MESSAGE_LOGIN_LOGIN_MSG dconf → MESSAGE c = msg_wire m → fresh_message m →
  spec_answer nowDB m (CLIENT_ADDRESS c) st = Ok (st', code, infos) →
  Forall fresh_message infos → fresh_message (account_response dconf j now code infos) →
  ∃ d2 b', @login_reader D M _ (mongo_database op nowDB) dconf j now ((push (BROKER_DB_KEY lconf) (fill_vec c) 5000 d).1, b)
      = Ok ((push (BROKER_LOGIN_KEY lconf) (fill_vec (answer_carrier (BROKER_DB_KEY lconf)
              (msg_wire (account_response dconf j now code infos)) c)) 5000 d2).1, b') ∧
    represents op b' st' ∧ waits (BROKER_LOGIN_KEY lconf) (BROKER_LOGIN_GROUP lconf) d2 ∧
    inbox d2 (BROKER_DB_KEY lconf) (DBServer.BROKER_DB_GROUP dconf) = Some [].
Proof.
  intros [Hk Hd Hn He] [Hw1 Hw2] Hr Hs Ht Hm Hf Ha Hi Hresp.
  destruct (answer_sim op nowDB collections_differ m (CLIENT_ADDRESS c) b st st' code infos Hr Ha) as (b' & Ha' & Hr').
  destruct (push_read _ _ (mConsumerPrefix ++ to_string 1) (DBServer.STREAM_CUSTOMER_PULL_NAP_IN_MILLISECONDS dconf) (fill_vec c) d Hw1)
    as (id & d1 & Hx & Hp & Hi1 & Ho1 & _). rewrite <- Hk in *.
  destruct (reader_handles dconf LoginMessage.FILL_2_THIS
    (@loginFuncs D M _ (mongo_database op nowDB) dconf j now)
    (BROKER_DB_4_LOGIN_KEY dconf) (DBServer.BROKER_DB_GROUP dconf) _
    (@getLoginResponseMsg D M (mongo_database op nowDB) dconf j now) c
    (answer_carrier (BROKER_DB_4_LOGIN_KEY dconf) (msg_wire (account_response dconf j now code infos)) c) id _ d1 d1 b b' Hx)
    as (d2 & n & Hread & Hack & _); [intros c0; by destruct c|unfold loginFuncs; by rewrite Ht, lookup_insert_eq| |cbn; by rewrite Ht|exact Hp|].
  { by eapply (@getLoginResponseMsg_ok D M (mongo_database op nowDB)). }
  destruct (ack_waits _ _ _ _ _ _ Hack) as [Hwait Hin]. exists d2, b'. split_and!; [|done| |].
  - unfold login_reader. rewrite Hread. change (NEXT_SERVICE (answer_carrier _ _ c)) with (SERVICE c).
    by rewrite Hs, bool_decide_eq_false_2.
  - apply Hwait. destruct (Ho1 (BROKER_LOGIN_KEY lconf) (BROKER_LOGIN_GROUP lconf) Hd) as [E1 E2]. destruct Hw2. split; congruence.
  - by rewrite Hin.
Qed.

(** C3: a request for an account that a client has sent whole comes back to that
    client's output as the answer the specification of accounts gives it: through
    the login server, the stream, the database server, the documents of MongoDB
    and the stream of answers, leaving nothing in either stream and the store
    representing the next state. *)
Theorem login_round_trip (m r : LoginRequestMessage.t) tid now answer hs c i l (s : LoginServer (R := R) (D := D)) names
    (b : M) st st' code infos now2 nowDB :
  wired → login_waits m r tid hs c (mMessageTypes s) → MSG_NAME (LoginRequestMessage.base m) = MESSAGE_LOGIN_LOGIN_MSG dconf →
  registry_ok mHashFunc (mTcpServer s) names → conns (registry (mTcpServer s)) !! l = Some (c, i) →
  streams_wait (mRedis s) → represents op b st →
  spec_answer nowDB m (getIPPort c) st = Ok (st', code, infos) →
  Forall fresh_message infos → fresh_message (account_response dconf j now2 code infos) →
  ∃ s1 d2 b' s3 d3 c3,
    on_message lconf tid now answer l s = Ok s1 ∧
    @login_reader D M _ (mongo_database op nowDB) dconf j now2 (mRedis s1, b) = Ok (d2, b') ∧
    loginStreamConsumer mHashFunc lconf (mTcpServer s1, d2) = Ok (s3, d3) ∧
    conns (registry s3) !! l = Some (c3, i) ∧ content c3 = [] ∧
    outgoing c3 = outgoing c ++ msg_wire (account_response dconf j now2 code infos) ∧ writing c3 = true ∧
    represents op b' st' ∧
    inbox d3 (BROKER_DB_KEY lconf) (DBServer.BROKER_DB_GROUP dconf) = Some [] ∧
    inbox d3 (BROKER_LOGIN_KEY lconf) (BROKER_LOGIN_GROUP lconf) = Some [].
Proof.
  intros Hwired Hw Hname Hok Hl Hs Hr Ha Hi Hresp.
  destruct (login_forwards lconf m r tid now answer hs c _ (mRedis s) Hw) as (c' & types' & Hm & Hc' & Hside).
  set (carrier := request_carrier _ _ _ c) in Hm.
  destruct (login_reader_answers m carrier (mRedis s) b st st' code infos now2 nowDB) as (d2 & b' & Hread & Hr' & Hw2 & Hin2);
    try done; [by apply Hw|].
  destruct (push_read _ _ (lit "LoginStreamConsumer") (LoginServer.STREAM_CUSTOMER_PULL_NAP_IN_MILLISECONDS lconf)
    (fill_vec (answer_carrier (BROKER_DB_KEY lconf) (msg_wire (account_response dconf j now2 code infos)) carrier)) d2 Hw2)
    as (id & d3 & Hx & Hp & Hi3 & Ho3 & _).
  set (s1 := set_conn l c' (mTcpServer s)).
  pose proof Hside as (E1 & _ & _ & E4 & E5 & _ & _ & _ & _ & E10).
  assert (registry_ok mHashFunc s1 names) as Hok1 by (eapply set_conn_ok; [done|exact Hl|exact E1|exact E10]).
  pose proof (consumer_pass mHashFunc lconf s1 names _ d3 id _ Hok1 Hx) as Hcons.
  destruct (rok_conn _ _ _ Hok _ _ _ Hl) as (Hn & _). 
  match type of Hcons with context [names !! ?x] => change x with (getName c) in Hcons end. rewrite Hn in Hcons.
  assert (conns (registry s1) !! l = Some (c', i)) as Hl1 by (cbn; by rewrite lookup_alter_eq, Hl).
  rewrite Hl1 in Hcons. cbn [of_option mbind res_bind] in Hcons.
  destruct (ack_law (BROKER_LOGIN_KEY lconf) (BROKER_LOGIN_GROUP lconf) id d3) as (d4 & Hack & _).
  assert (ack (BROKER_LOGIN_KEY lconf) (BROKER_LOGIN_GROUP lconf) id d3 = Ok (d4, match pel d3 (BROKER_LOGIN_KEY lconf)
    (BROKER_LOGIN_GROUP lconf) !! id with Some _ => 1 | None => 0 end)) as Hack' by (unfold ack, uncaught; by rewrite Hack).
  rewrite Hack' in Hcons. cbn [mbind res_bind] in Hcons. destruct (ack_waits _ _ _ _ _ _ Hack') as [_ Hin4].
  eexists (mkLogin s1 types' _), _, b', _, d4, _. split_and!.
  - unfold on_message. rewrite Hl. cbn [of_option mbind res_bind]. by rewrite Hm.
  - exact Hread.
  - exact Hcons.
  - cbn. by rewrite lookup_alter_eq, lookup_alter_eq, Hl.
  - exact Hc'.
  - rewrite outgoing_putToBuffer. f_equal. unfold outgoing. cbn in E4, E5. by rewrite E4, E5.
  - done.
  - done.
  - rewrite Hin4, (proj1 (Ho3 _ _ (not_eq_sym (wired_differ Hwired)))). exact Hin2.
  - by rewrite Hin4.
Qed.
End Login.

(** ** Witness: a broker whose streams are lists *)

Record queues := mkQueues {
  rest : store;                                                    (* what is no stream *)
  waiting : str → str → option (list (str * fields));
  added : str → Z }.

Definition lift {A} (m : cmd store A) : cmd queues A := λ q, let '(s, r) := m (rest q) in (mkQueues s (waiting q) (added q), r).

Definition hand_over (key g c : str) (id : str) (s : store) : store :=
  store_pel (<[(key, g) := <[id := mkPending id c 0 1]> (entries_of s key g)]> (spel s)) s.

#[export] Instance queues_redis : Redis queues := {
  xadd key _ kvs maxLen q :=
    let id := to_string (added q key) in
    (mkQueues (rest q) (λ k g, if decide (k = key) then (λ l, l ++ [(id, kvs)]) <$> waiting q k g else waiting q k g)
       (λ k, if decide (k = key) then added q k + 1 else added q k), inl id);
  xreadgroup g c key id ms n q :=
    match waiting q key g with
    | Some ((id, kvs) :: l) =>
        (mkQueues (hand_over key g c id (rest q)) (λ k g', if decide ((k, g') = (key, g)) then Some l else waiting q k g') (added q),
         inl {[ key := [(id, Some kvs)] ]})
    | _ => (q, inl ∅)
    end;
  xread key id ms n := lift (xread key id ms n);
  xread_keys keys ms n := lift (xread_keys keys ms n);
  xgroup_create key g id := lift (xgroup_create key g id);
  xack key g id := lift (xack key g id);
  xpending key g n c := lift (xpending key g n c);
  xinfo_groups key := lift (xinfo_groups key);
  xinfo_consumers key g := lift (xinfo_consumers key g);
  xdel key ids := lift (xdel key ids);
  xclaim key g c ms ids := lift (xclaim key g c ms ids);
  xrevrange key a b n := lift (xrevrange key a b n);
  zadd key member score := lift (zadd key member score);
  zrem key member := lift (zrem key member);
  zrangebyscore key := lift (zrangebyscore key);
  incr key := lift (incr key);
  sadd key member := lift (sadd key member);
  hset key fs := lift (hset key fs);
  hget key f := lift (hget key f);
  unlink key := lift (unlink key);
  exists_key key := lift (exists_key key);
  expire key secs := lift (expire key secs);
  ttl key := lift (ttl key);
  set_key key v := lift (set_key key v);
  smembers key := lift (smembers key);
  srem key member := lift (srem key member);
  publish channel msg := lift (publish channel msg) }.

#[export, refine] Instance queues_laws : StreamLaws queues := { pel q := pel (rest q); stored q := stored (rest q) }.
Proof.
  - intros key g id q. destruct (ack_law key g id (rest q)) as (s & Ha & Hp). exists (mkQueues s (waiting q) (added q)).
    cbn [xack queues_redis rest]. unfold lift. by rewrite Ha.
  - intros key ids q. destruct (del_law key ids (rest q)) as (s & n & Ha & Hp). exists (mkQueues s (waiting q) (added q)), n.
    cbn [xdel queues_redis rest]. unfold lift. by rewrite Ha.
  - intros key g c ms id it q Hs Hp Hi. destruct (claim_law key g c ms id it (rest q) Hs Hp Hi) as (s & r & Ha & Hp').
    exists (mkQueues s (waiting q) (added q)), r. cbn [xclaim queues_redis rest]. unfold lift. by rewrite Ha.
Defined.

#[export, refine] Instance queues_queues : QueueLaws queues := { inbox := waiting; entries := added }.
Proof.
  - intros key kvs maxLen q _. eexists _, _. split; [reflexivity|]. cbn [waiting added].
    rewrite decide_True by done.
    split_and!; [by intros g; rewrite decide_True|by intros k g Hk; rewrite decide_False|by intros k Hk; rewrite decide_False|lia].
  - intros key g c ms id kvs l q Hw. cbn [xreadgroup queues_redis]. rewrite Hw. eexists. split; [done|].
    cbn [waiting added]. split_and!; [|by rewrite decide_True|by intros k g' Hk; rewrite decide_False|done].
    change (is_Some (entries_of (hand_over key g c id (rest q)) key g !! id)). unfold entries_of at 1. unfold hand_over, store_pel.
    cbn [spel]. rewrite lookup_insert_eq. eexists. apply lookup_insert_eq.
  - intros key g id q q' n. cbn [xack queues_redis]. unfold lift. destruct (xack key g id (rest q)) as [s r].
    intros E. injection E as <- _. done.
Defined.

Definition demo_queues : queues := mkQueues (mkStore ∅ ∅ ∅ ∅) (λ _ _, Some []) (λ _, 0).

Definition demo_off : players_db := ([logged_out 0 demo_account], [demo_character]).

Lemma demo_off_represents : represents demo_op (stored_memory demo_op demo_off) demo_off.
Proof.
  apply stored_represents; [done| |].
  - by apply (bool_decide_unpack _); vm_compute.
  - by repeat constructor.
Qed.

Lemma login_round_trip_witness :
  let s := mkLogin (demo_conn_of (msg_wire demo_login)) {[ 1 := demo_handlers ]} demo_queues in
  let resp := account_response DBServer.defaultConf demo_junk 5000 code.login.LOGIN_LOGIN_RESULT_SUCCESS [player_message demo_player] in
  ∃ s1 d2 b' s3 d3 c3,
    on_message LoginServer.defaultConf 1 5000 0 0%nat s = Ok s1 ∧
    @login_reader queues memory _ (mongo_database demo_op 5000) DBServer.defaultConf demo_junk 5000
      (mRedis s1, stored_memory demo_op demo_off) = Ok (d2, b') ∧
    loginStreamConsumer demo_hash LoginServer.defaultConf (mTcpServer s1, d2) = Ok (s3, d3) ∧
    conns (registry s3) !! 0%nat = Some (c3, 1) ∧ content c3 = [] ∧
    outgoing c3 = outgoing (demo_client (msg_wire demo_login)) ++ msg_wire resp ∧ writing c3 = true ∧
    represents demo_op b' (spec_login 5000 (lit "alice") (lit "secret") demo_off).1 ∧
    inbox d3 (lit "Warring:DBServ4LoginServ") (lit "Warring:DBServ:Group") = Some [] ∧
    inbox d3 (lit "Warring:LoginServ") (lit "Warring:LoginServ:Group") = Some [].
Proof.
  intros s resp.
  eapply (login_round_trip demo_hash LoginServer.defaultConf DBServer.defaultConf demo_junk demo_op (ltac:(done)) demo_login
    demo_reader 1 5000 0 demo_handlers (demo_client (msg_wire demo_login)) 1 0%nat s {[ demo_id := 0%nat ]}
    (stored_memory demo_op demo_off) demo_off).
  - split; done.
  - apply demo_login_waits; [by vm_compute|by vm_compute|apply lookup_singleton_eq].
  - done.
  - apply demo_conn_ok.
  - by vm_compute.
  - done.
  - apply demo_off_represents.
  - by vm_compute.
  - constructor; [|constructor]. split; [done|]. split; [|by vm_compute]. repeat constructor; by vm_compute.
  - split; [done|]. split; [|by vm_compute]. repeat constructor; by vm_compute.
Defined.
