(* ===== verification/DBGateway.v ===== *)
(** * The database server's gateway: [DBServerGateway.h]

    [DBServGateway] makes one [DBServGateman] for the stream of the login servers
    and one for that of the game servers, gives each its handlers, and starts some
    threads on each; all of them share the broker, the cache and the database.  A
    thread takes a message and handles it: between the two the others go on. *)

From S2P Require Import Prelude.
From S2P Require Import BaseMessage.
From S2P Require Import Messages.
From S2P Require Import Carrier.
From S2P Require Import Broker.
From S2P Require Import DBServer.
From S2P Require Import Mongo.
From S2P Require Import AccountOp.
From S2P Require Import Cluster.

Local Open Scope Z_scope.

(** What a pass of a thread finds: the clock of the program and that of the
    database's operations, and the bytes of what it does not initialise. *)
Record Moment := mkMoment { at_now : Z; at_db : Z; at_junk : Junk; at_scene : Z }.

Section Gateman.
Context {D M : Type} `{Redis D} `{Mongo M}.
Context (conf : DBServConf).

(** A handler is bound to the gateway, so it uses the names its database has when
    it is called. *)
Abbreviation handle_func := (AccountOp → Moment → ClientCarrier → D * M → res (ClientCarrier * (D * M))).

(** ** [DBServGateman] *)

Record DBServGateman := mkGateman {
  mReadKey : str; mGroup : str; mConsumer : str; mThreadNum : Z;
  mHandleFuncs : gmap str handle_func }.

Definition newGateman (readKey group consumer : str) : DBServGateman := mkGateman readKey group consumer 1 ∅.
Definition setThreadNum (num : Z) (g : DBServGateman) : DBServGateman :=
  mkGateman (mReadKey g) (mGroup g) (mConsumer g) num (mHandleFuncs g).
Definition getThreadNum (g : DBServGateman) : Z := mThreadNum g.
Definition getReadKey (g : DBServGateman) : str := mReadKey g.
Definition getGroup (g : DBServGateman) : str := mGroup g.
Definition getConsumer (g : DBServGateman) : str := mConsumer g.

(** [emplace]: a type that has a function keeps it. *)
Definition registerFunc (type : str) (func : handle_func) (g : DBServGateman) : DBServGateman :=
  mkGateman (mReadKey g) (mGroup g) (mConsumer g) (mThreadNum g)
    (match mHandleFuncs g !! type with Some _ => mHandleFuncs g | None => <[type := func]> (mHandleFuncs g) end).

(** [reader] up to the fields of the message. *)
Definition take_message (g : DBServGateman) (d : D) : res (D * option (str * tags)) :=
  let '(d, (pullResult, result)) :=
    pull_group (mReadKey g) (mGroup g) (mConsumer g) (lit ">") (STREAM_CUSTOMER_PULL_NAP_IN_MILLISECONDS conf) 1 d in
  match pullResult with
  | Some 1 =>
      '(id, fields) ← of_option OutOfRange (default [] (result !! mReadKey g) !! 0%nat);
      fields ← of_option BadArgument fields;
      Ok (d, Some (id, fields))
  | _ => Ok (d, None)
  end.

(** The rest of its pass. *)
Definition handle_message (FILL_2_THIS : tags → ClientCarrier → res ClientCarrier) (g : DBServGateman)
    (op : AccountOp) (t : Moment) (item : str * tags) (st : D * M) : res (D * M) :=
  msg ← FILL_2_THIS item.2 (mkCarrier [] [] [] [] [] []);
  '(msg, (d, b)) ← (match mHandleFuncs g !! TYPE msg with
                    | Some func => func op t msg st
                    | None => Ok (msg, st)
                    end);
  d ← (if bool_decide (TYPE msg = lit "LOGIN_ERROR_MSG") then fst <$> del (mReadKey g) item.1 d else Ok d);
  '(d, acked) ← ack (mReadKey g) (mGroup g) item.1 d;
  if (acked =? 1) && negb (bool_decide (NEXT_SERVICE msg = []))
  then Ok ((push (NEXT_SERVICE msg) (fill_vec msg) 5000 d).1, b)
  else Ok (d, b).

(** ** [DBServGateway] *)

(** A thread has a copy of its gateman; the reader is that of its carrier. *)
Record thread := mkThread { fills : tags → ClientCarrier → res ClientCarrier; gateman : DBServGateman }.

Record DBServGateway := mkGateway {
  mDatabase : AccountOp;        (* the names [initDBCollName] has set *)
  mNo : Z;
  mLoginGateman : DBServGateman;
  mGameGateman : DBServGateman;
  mBackgroundThdsResult : list thread }.

Definition loginHandleFunc : handle_func := λ op t,
  @getLoginResponseMsg D M (mongo_database op (at_db t)) conf (at_junk t) (at_now t).
Definition loginCharacterHandleFunc : handle_func := λ op t,
  @getLoginCharacterResponseMsg D M _ (mongo_database op (at_db t)) conf (at_junk t) (at_now t).
Definition gameHandleFunc : handle_func := λ op t, getGameResponseMsg conf (at_now t).
Definition gameCharacterHandleFunc : handle_func := λ op t,
  @getGameCharacterResponseMsg D M _ (mongo_database op (at_db t)) conf (at_now t) (at_scene t).

(** The constructor: the members are made in the order they are declared. *)
Definition newGateway : DBServGateway :=
  let no1 := 0 + 1 in
  let login := newGateman (BROKER_DB_4_LOGIN_KEY conf) (BROKER_DB_GROUP conf) (mConsumerPrefix ++ to_string no1) in
  let no2 := no1 + 1 in
  let game := newGateman (BROKER_DB_4_GAME_KEY conf) (BROKER_DB_GROUP conf) (mConsumerPrefix ++ to_string no2) in
  let login := setThreadNum (LOGIN_SERVICE_READER_THREAD_NUM conf) login in
  let login := registerFunc (MESSAGE_LOGIN_LOGIN_MSG conf) loginHandleFunc login in
  let login := registerFunc (MESSAGE_LOGIN_LOGIN_CHARACTER_MSG conf) loginCharacterHandleFunc login in
  let game := setThreadNum (GAME_SERVICE_READER_THREAD_NUM conf) game in
  let game := registerFunc (MESSAGE_GAME_MSG conf) gameHandleFunc game in
  let game := registerFunc (MESSAGE_GAME_CHARACTER_MSG conf) gameCharacterHandleFunc game in
  mkGateway (mkOp [] [] []) no2 login game [].

Definition set_names (op : AccountOp) (gw : DBServGateway) : DBServGateway :=
  mkGateway op (mNo gw) (mLoginGateman gw) (mGameGateman gw) (mBackgroundThdsResult gw).

Definition spawn (n : Z) (FILL_2_THIS : tags → ClientCarrier → res ClientCarrier) (g : DBServGateman)
    (gw : DBServGateway) : DBServGateway :=
  mkGateway (mDatabase gw) (mNo gw) (mLoginGateman gw) (mGameGateman gw)
    (mBackgroundThdsResult gw ++ replicate (Z.to_nat n) (mkThread FILL_2_THIS g)).

(** What [createIndex] answers is not looked at. *)
Definition start_gateway (gw : DBServGateway) (st : D * M) : res (DBServGateway * (D * M)) :=
  op ← initDBCollName (lit "warring") (lit "accounts") (lit "characters");
  let gw := set_names op gw in
  op ← initDBCollName (MONGODB_DB_NAME conf) (MONGODB_COLLECTION_ACCOUNT_NAME conf) (MONGODB_COLLECTION_CHARACTER_NAME conf);
  let gw := set_names op gw in
  '_ ← check (mDatabase gw) st.2;
  let '(m, _) := createIndexes (mDatabase gw) st.2 in
  let d := DBServer.start conf st.1 in
  let gw := spawn (getThreadNum (mLoginGateman gw)) LoginMessage.FILL_2_THIS (mLoginGateman gw) gw in
  let gw := spawn (getThreadNum (mGameGateman gw)) GameMessage.FILL_2_THIS (mGameGateman gw) gw in
  Ok (gw, (d, m)).

(** ** The threads together *)

Inductive event :=
  | Take (i : nat)                  (* thread [i] asks the broker for a message *)
  | Handle (i : nat) (t : Moment).  (* it handles the one it has *)

(** What each thread has taken and not handled, the broker and the database. *)
Record Running := mkRunning { held : gmap nat (str * tags); broker : D; database : M }.

Definition step (gw : DBServGateway) (e : event) (x : Running) : res Running :=
  match e with
  | Take i =>
      match mBackgroundThdsResult gw !! i, held x !! i with
      | Some th, None =>
          '(d, got) ← take_message (gateman th) (broker x);
          Ok (mkRunning (match got with Some item => <[i := item]> (held x) | None => held x end) d (database x))
      | _, _ => Ok x
      end
  | Handle i t =>
      match mBackgroundThdsResult gw !! i, held x !! i with
      | Some th, Some item =>
          '(d, b) ← handle_message (fills th) (gateman th) (mDatabase gw) t item (broker x, database x);
          Ok (mkRunning (delete i (held x)) d b)
      | _, _ => Ok x
      end
  end.

Fixpoint run (gw : DBServGateway) (es : list event) (x : Running) : res Running :=
  match es with [] => Ok x | e :: es => x ← step gw e x; run gw es x end.

(** ** A pass by one thread is [reader] *)

Lemma reader_split fill g op t (d : D) (b : M) :
  reader conf fill ((λ func : handle_func, func op t) <$> mHandleFuncs g) (mReadKey g) (mGroup g) (mConsumer g) (d, b) =
  ('(d, got) ← take_message g d;
   match got with Some item => handle_message fill g op t item (d, b) | None => Ok (d, b) end).
Proof.
  unfold reader, take_message, handle_message. destruct (pull_group _ _ _ _ _ _ d) as [d1 [r result]].
  destruct r as [[|[p|p|]|p]|]; try done.
  destruct (of_option OutOfRange _) as [[id fs]|]; [|done]. cbn [mbind res_bind].
  destruct (of_option BadArgument fs) as [fields|]; [|done]. cbn [mbind res_bind fst snd].
  destruct (fill fields _) as [msg|]; [|done]. cbn [mbind res_bind]. rewrite lookup_fmap.
  by destruct (mHandleFuncs g !! TYPE msg).
Qed.

(** The threads [start_gateway] starts run the readers of [DBServer]. *)
Lemma login_thread op t : MESSAGE_LOGIN_LOGIN_MSG conf ≠ MESSAGE_LOGIN_LOGIN_CHARACTER_MSG conf →
  (λ func : handle_func, func op t) <$> mHandleFuncs (mLoginGateman newGateway)
  = @loginFuncs D M _ (mongo_database op (at_db t)) conf (at_junk t) (at_now t).
Proof.
  intros Hne. cbn. rewrite lookup_empty, lookup_insert_ne, lookup_empty by done.
  unfold loginFuncs. rewrite !fmap_insert, fmap_empty. rewrite insert_insert_ne by done. done.
Qed.
End Gateman.

(** ** What the threads should come to

    A desk at which requests wait, are taken and are answered; the answers are
    those of the specification of accounts and characters, in the order in which
    the requests are handled. *)

Inductive login_request :=
  | AccountRequest (m : LoginRequestMessage.t)
  | CharacterRequest (m : LoginCharacterRequestMessage.t).

(** A request and the carrier it came in. *)
Record request := mkRequest { carrier : ClientCarrier; asks : login_request }.
Record answer := mkAnswer { to : request; infos : list CharacterBaseInfo.t; response : LoginResponseMessage.t }.

(** Its entry in the stream. *)
Definition entry (x : str * request) : str * fields := (x.1, fill_vec (carrier x.2)).

(** The next state, the code of the answer and the characters it lists. *)
Definition deserves (now : Z) (r : request) (st : players_db) : players_db * Z * list CharacterBaseInfo.t :=
  match asks r with
  | AccountRequest m =>
      match spec_answer now m (CLIENT_ADDRESS (carrier r)) st with Ok x => x | Err _ => (st, code.NONE, []) end
  | CharacterRequest m =>
      match @character_answer players_db (spec_database now) m st with Ok (st, code) => (st, code, []) | Err _ => (st, code.NONE, []) end
  end.

Record Desk := mkDesk {
  left : list (str * request); taken : gmap nat (str * request); players : players_db; answered : list answer }.

Section Desk.
Context (conf : DBServConf).

Definition serve (t : Moment) (r : request) (k : Desk) : Desk :=
  let '(st, code, infos) := deserves (at_db t) r (players k) in
  mkDesk (left k) (taken k) st
    (answered k ++ [mkAnswer r infos (account_response conf (at_junk t) (at_now t) code infos)]).

(** [n] threads are there for the desk. *)
Definition desk_step (n : Z) (e : event) (k : Desk) : Desk :=
  match e with
  | Take i =>
      match taken k !! i, left k with
      | None, x :: l => if Z.of_nat i <? n then mkDesk l (<[i := x]> (taken k)) (players k) (answered k) else k
      | _, _ => k
      end
  | Handle i t =>
      match taken k !! i with
      | Some (_, r) => let k := serve t r k in mkDesk (left k) (delete i (taken k)) (players k) (answered k)
      | None => k
      end
  end.

Definition desk_run (n : Z) (es : list event) (k : Desk) : Desk := foldl (flip (desk_step n)) k es.

(** The requests that are taken or wait, and all the desk has seen. *)
Definition items (k : Desk) : list (str * request) := (map_to_list (taken k)).*2 ++ left k.
Definition at_desk (k : Desk) : list request := (to <$> answered k) ++ (items k).*2.

Lemma items_take i x l k : taken k !! i = None → left k = x :: l →
  items (mkDesk l (<[i := x]> (taken k)) (players k) (answered k)) ≡ₚ items k.
Proof.
  intros Hi Hl. unfold items. cbn [left taken]. rewrite map_to_list_insert, Hl by done.
  cbn [fmap list_fmap snd]. apply Permutation_middle.
Qed.

Lemma items_handle i x k st l : taken k !! i = Some x → items k ≡ₚ x :: items (mkDesk (left k) (delete i (taken k)) st l).
Proof. intros Hi. unfold items. cbn [left taken]. by rewrite <- (map_to_list_delete _ _ _ Hi). Qed.

(** Nothing comes and nothing goes. *)
Lemma desk_step_conserved n e k : at_desk (desk_step n e k) ≡ₚ at_desk k.
Proof.
  unfold at_desk. destruct e as [i|i t]; cbn [desk_step].
  - destruct (taken k !! i) eqn:Hi; [done|]. destruct (left k) as [|x l] eqn:Hl; [done|].
    destruct (Z.of_nat i <? n); [|done]. by rewrite (items_take i x l k Hi Hl).
  - destruct (taken k !! i) as [[id r]|] eqn:Hi; [|done]. unfold serve.
    destruct (deserves _ r _) as [[st c] l]. cbn [left taken answered players].
    rewrite (items_handle i (id, r) k st (answered k ++ [mkAnswer r l (account_response conf (at_junk t) (at_now t) c l)]) Hi).
    rewrite fmap_app, <- app_assoc. cbn [fmap list_fmap snd to]. by f_equiv.
Qed.

Lemma desk_conserved n es k : at_desk (desk_run n es k) ≡ₚ at_desk k.
Proof.
  revert k. induction es as [|e es IH]; intros k; [done|]. cbn. unfold desk_run in IH. by rewrite IH, desk_step_conserved.
Qed.

(** The answers are never taken back. *)
Lemma desk_step_answers n e k : ∃ l, answered (desk_step n e k) = answered k ++ l.
Proof.
  destruct e as [i|i t]; cbn [desk_step].
  - destruct (taken k !! i), (left k); try (exists []; by rewrite app_nil_r).
    destruct (_ <? n); exists []; by rewrite app_nil_r.
  - destruct (taken k !! i) as [[id r]|]; [|exists []; by rewrite app_nil_r]. unfold serve.
    destruct (deserves _ r _) as [[st c] l]. by eexists.
Qed.

Lemma desk_run_answers n es k : ∃ l, answered (desk_run n es k) = answered k ++ l.
Proof.
  revert k. induction es as [|e es IH]; intros k; [exists []; by rewrite app_nil_r|]. cbn.
  destruct (IH (desk_step n e k)) as [l Hl], (desk_step_answers n e k) as [l' Hl']. exists (l' ++ l).
  unfold desk_run in Hl. by rewrite Hl, Hl', app_assoc.
Qed.
End Desk.

(** ** The laws of the readers

    Reading with nothing there changes nothing; a message read is pending; adding
    to a stream leaves what is pending. *)
Class ReaderLaws (D : Type) {R : Redis D} {SL : StreamLaws D} {QL : QueueLaws D} := {
  idle_law key g c ms (d : D) : inbox d key g = Some [] →
    ∃ d', xreadgroup g c key (lit ">") ms 1 d = (d', inl ∅) ∧
      ∀ k g', inbox d' k g' = inbox d k g' ∧ pel d' k g' = pel d k g' ∧ entries d' k = entries d k;
  read_pel_law key g c ms id kvs l (d : D) : inbox d key g = Some ((id, kvs) :: l) →
    ∃ it, pel (xreadgroup g c key (lit ">") ms 1 d).1 key g = <[id := it]> (pel d key g);
  add_pel_law key kvs maxLen (d : D) k g : pel (xadd key (lit "*") kvs maxLen d).1 k g = pel d k g }.

Section Refinement.
Context {D M : Type} `{ReaderLaws D} `{MongoLaws M}.
Context (conf : DBServConf) (op : AccountOp).
Hypothesis collections_differ : mAccountCollectionName op ≠ mCharacterCollectionName op.

(** The types of the messages and the keys of the streams are told apart. *)
Record told_apart : Prop := {
  ta_login : MESSAGE_LOGIN_LOGIN_MSG conf ≠ MESSAGE_LOGIN_LOGIN_CHARACTER_MSG conf;
  ta_error : lit "LOGIN_ERROR_MSG" ∉ [MESSAGE_LOGIN_LOGIN_MSG conf; MESSAGE_LOGIN_LOGIN_CHARACTER_MSG conf];
  ta_keys : BROKER_DB_4_LOGIN_KEY conf ≠ BROKER_DB_4_GAME_KEY conf }.
Hypothesis apart : told_apart.

Abbreviation requests := (BROKER_DB_4_LOGIN_KEY conf).
Abbreviation games := (BROKER_DB_4_GAME_KEY conf).
Abbreviation readers := (DBServer.BROKER_DB_GROUP conf).

(** A request of a login server, whole, that is not to enter the game. *)
Definition well_sent (r : request) : Prop :=
  SERVICE (carrier r) ∉ [[]; requests; games] ∧
  match asks r with
  | AccountRequest m => TYPE (carrier r) = MESSAGE_LOGIN_LOGIN_MSG conf ∧ MESSAGE (carrier r) = msg_wire m ∧ fresh_message m
  | CharacterRequest m => TYPE (carrier r) = MESSAGE_LOGIN_LOGIN_CHARACTER_MSG conf ∧ MESSAGE (carrier r) = msg_wire m ∧
      fresh_message m ∧
      LoginRequestMessage.REQUEST_CODE (LoginCharacterRequestMessage.parent m) ≠ code.login.LOGIN_CHARACTER_ENTER_GAME_CODE
  end.

(** An answer that is short enough to be sent. *)
Definition sendable (a : answer) : Prop := Forall fresh_message (infos a) ∧ fresh_message (response a).

(** What the answer is sent in. *)
Definition answer_fields (a : answer) : fields :=
  fill_vec (answer_carrier requests (msg_wire (response a)) (carrier (to a))).

(** The answers that go to a stream. *)
Definition sent_to (key : str) (l : list answer) : list fields :=
  answer_fields <$> filter (λ a, SERVICE (carrier (to a)) = key) l.

(** ** A handler does what the specification says *)

Lemma character_sim (m : LoginCharacterRequestMessage.t) now now' p (b : M) st st' code :
  represents op b st → @character_answer players_db (spec_database now) m st = Ok (st', code) →
  ∃ b', @character_answer M (mongo_database op now) (rebased now' p m) b = Ok (b', code) ∧ represents op b' st'.
Proof.
  intros Hr. unfold character_answer, rebased.
  cbn [LoginCharacterRequestMessage.parent LoginCharacterRequestMessage.CHARACTER_NAME LoginRequestMessage.REQUEST_CODE
    LoginRequestMessage.ACCOUNT DBServer.addNewCharacter DBServer.removeCharacter spec_database mongo_database].
  set (m' := LoginCharacterRequestMessage.mk _ _ _ _ _).
  assert (spec_add m' st = spec_add m st) as Hadd by (by destruct m as [[] ? ? ? ?]).
  destruct (add_sim op collections_differ m' b st Hr) as (b1 & Ha & Hr1). rewrite Hadd in Ha, Hr1.
  destruct (remove_sim op collections_differ (LoginRequestMessage.ACCOUNT (LoginCharacterRequestMessage.parent m))
    (LoginCharacterRequestMessage.CHARACTER_NAME m) b st Hr) as (b2 & Hd & Hr2).
  destruct (_ =? code.login.LOGIN_CREATE_CHARACTER_CODE).
  { rewrite Ha. destruct (spec_add m st) as [st1 n]. cbn [mbind res_bind fst snd] in *. intros [= <- <-]. by exists b1. }
  destruct (_ =? code.login.LOGIN_DELETE_CHARACTER_CODE).
  { rewrite Hd. destruct (spec_remove _ _ st) as [st1 n]. cbn [mbind res_bind fst snd] in *. intros [= <- <-]. by exists b2. }
  intros [= <- <-]. by exists b.
Qed.

(** The base of a request is not looked at. *)
Lemma rebased_answer (m : LoginCharacterRequestMessage.t) now now' p p' (b : M) :
  @character_answer M (mongo_database op now) (rebased now' p m) b
  = @character_answer M (mongo_database op now) (rebased now' p' m) b.
Proof. done. Qed.

(** The specification always answers. *)
Lemma spec_answers now m address st : ∃ x, spec_answer now m address st = Ok x.
Proof.
  unfold spec_answer, account_answer.
  cbn [DBServer.addNewAccount DBServer.matchAccountAndUpdateLoginState DBServer.getAllCharacterBaseInfoFill2Message spec_database].
  destruct (LoginRequestMessage.REQUEST_CODE m) as [|p|p]; [by eexists| |by eexists].
  repeat (destruct p as [p|p|]; try by eexists).
  - destruct (spec_register _ _ _ _ st) as [st1 n]. cbn [mbind res_bind]. by eexists.
  - destruct (spec_login _ _ _ st) as [st1 n]. cbn [mbind res_bind].
    destruct n as [|q|q]; [by eexists| |by eexists]. repeat (destruct q as [q|q|]; try by eexists).
Qed.

Lemma spec_character_answers now m st : ∃ x, @character_answer players_db (spec_database now) m st = Ok x.
Proof.
  unfold character_answer. cbn [DBServer.addNewCharacter DBServer.removeCharacter spec_database mbind res_bind].
  destruct (_ =? _); [destruct (spec_add m st); by eexists|]. destruct (_ =? _); [|by eexists].
  destruct (spec_remove _ _ st); by eexists.
Qed.

Lemma deserves_sim now now' p (r : request) (b : M) st : represents op b st →
  let '(st', code, infos) := deserves now r st in
  match asks r with
  | AccountRequest m => ∃ b', @account_answer M (mongo_database op now) m (CLIENT_ADDRESS (carrier r)) b = Ok (b', code, infos) ∧
      represents op b' st'
  | CharacterRequest m => infos = [] ∧
      ∃ b', @character_answer M (mongo_database op now) (rebased now' p m) b = Ok (b', code) ∧ represents op b' st'
  end.
Proof.
  intros Hr. unfold deserves. destruct (asks r) as [m|m].
  - destruct (spec_answers now m (CLIENT_ADDRESS (carrier r)) st) as [[[st' code] l] Hs]. rewrite Hs.
    by apply (answer_sim op now collections_differ m _ b st).
  - destruct (spec_character_answers now m st) as [[st' code] Hs]. rewrite Hs. split; [done|].
    by eapply character_sim.
Qed.

(** The gateman of the login servers. *)
Abbreviation logins := (mLoginGateman (newGateway (D := D) (M := M) conf)).

Lemma login_func type func :
  type = MESSAGE_LOGIN_LOGIN_MSG conf ∧ func = loginHandleFunc conf ∨
  type = MESSAGE_LOGIN_LOGIN_CHARACTER_MSG conf ∧ func = loginCharacterHandleFunc conf →
  mHandleFuncs logins !! type = Some func.
Proof.
  pose proof (ta_login apart). cbn. rewrite lookup_empty, lookup_insert_ne, lookup_empty by done.
  intros [[-> ->]|[-> ->]]; [rewrite lookup_insert_ne by done|]; apply lookup_insert_eq.
Qed.

(** The handler of a request does what the specification says. *)
Lemma handler_answers t (r : request) (d : D) (b : M) st :
  well_sent r → represents op b st →
  let '(st', code, infos) := deserves (at_db t) r st in
  let a := mkAnswer r infos (account_response conf (at_junk t) (at_now t) code infos) in
  sendable a →
  ∃ func b', mHandleFuncs logins !! TYPE (carrier r) = Some func ∧
    func op t (carrier r) (d, b) = Ok (answer_carrier requests (msg_wire (response a)) (carrier r), (d, b')) ∧
    represents op b' st'.
Proof.
  intros [_ Hs] Hr. pose proof (λ p, deserves_sim (at_db t) (at_now t) p r b st Hr) as Hd.
  destruct (deserves (at_db t) r st) as [[st' code] l]. intros a [Hi Hf]. destruct (asks r) as [m|m].
  - destruct Hs as (Ht & Hm & Hfm), (Hd newBaseMessage) as (b' & Ha & Hr'). exists (loginHandleFunc conf), b'.
    split_and!; [apply login_func; by left| |done]. unfold loginHandleFunc.
    exact (@getLoginResponseMsg_ok D M (mongo_database op (at_db t)) conf (at_junk t) (at_now t) m (carrier r) d b b' code l
      Ht Hm Hfm Ha Hi Hf).
  - destruct Hs as (Ht & Hm & Hfm & Hc), (Hd newBaseMessage) as (-> & b' & Ha & Hr'). exists (loginCharacterHandleFunc conf), b'.
    split_and!; [apply login_func; by right| |done]. unfold loginCharacterHandleFunc.
    refine (@getLoginCharacterResponseMsg_ok D M _ (mongo_database op (at_db t)) conf (at_junk t) (at_now t) m (carrier r) d b b' code
      Ht Hm Hfm Hc _ Hf).
    intros p. rewrite <- Ha. apply rebased_answer.
Qed.

(** Handling a request that is pending answers it to the service that asked. *)
Lemma login_handled t id (r : request) (d : D) (b : M) st :
  well_sent r → represents op b st → is_Some (pel d requests readers !! id) →
  let '(st', code, infos) := deserves (at_db t) r st in
  let a := mkAnswer r infos (account_response conf (at_junk t) (at_now t) code infos) in
  sendable a →
  ∃ d1 n b', handle_message LoginMessage.FILL_2_THIS logins op t (entry (id, r)) (d, b)
      = Ok ((push (SERVICE (carrier r)) (answer_fields a) 5000 d1).1, b') ∧
    ack requests readers id d = Ok (d1, n) ∧ pel d1 requests readers = delete id (pel d requests readers) ∧
    represents op b' st'.
Proof.
  intros Hw Hr [it Hp]. pose proof (handler_answers t r d b st Hw Hr) as Hh.
  destruct (deserves (at_db t) r st) as [[st' code] l]. intros a Ha.
  destruct (Hh Ha) as (func & b' & Hf & Hrun & Hr'). destruct (ack_law requests readers id d) as (d1 & Hack & Hp1 & _).
  rewrite Hp in Hack. exists d1, 1, b'. unfold handle_message, entry. cbn [fst snd].
  assert (LoginMessage.FILL_2_THIS (fill_vec (carrier r)) (mkCarrier [] [] [] [] [] []) = Ok (carrier r)) as ->
    by (clear; by destruct (carrier r)).
  cbn [mbind res_bind]. rewrite Hf, Hrun. cbn [mbind res_bind].
  assert (TYPE (carrier r) ≠ lit "LOGIN_ERROR_MSG") as Ht.
  { pose proof (ta_error apart) as He. rewrite !not_elem_of_cons in He. destruct Hw as [_ Hw], He as (E1 & E2 & _).
    destruct (asks r); destruct Hw as [-> _]; congruence. }
  rewrite (bool_decide_eq_false_2 (TYPE _ = _)) by exact Ht. cbn [mbind res_bind].
  assert (ack requests readers id d = Ok (d1, 1)) as Hk by (unfold ack, uncaught; by rewrite Hack).
  change (mReadKey logins) with requests. change (mGroup logins) with readers. rewrite Hk. cbn [mbind res_bind].
  destruct Hw as [Hs _]. rewrite !not_elem_of_cons in Hs. destruct Hs as (Hs & _).
  change (NEXT_SERVICE (answer_carrier _ _ _)) with (SERVICE (carrier r)). rewrite bool_decide_eq_false_2 by done.
  by split_and!.
Qed.

(** ** The broker after each command *)

Lemma take_empty (g : DBServGateman (D := D) (M := M)) (d : D) : inbox d (mReadKey g) (mGroup g) = Some [] →
  ∃ d', take_message conf g d = Ok (d', None) ∧
    ∀ k g', inbox d' k g' = inbox d k g' ∧ pel d' k g' = pel d k g' ∧ entries d' k = entries d k.
Proof.
  intros Hi. destruct (idle_law _ _ (mConsumer g) (DBServer.STREAM_CUSTOMER_PULL_NAP_IN_MILLISECONDS conf) d Hi) as (d' & Hx & Hs).
  exists d'. split; [|exact Hs]. unfold take_message, pull_group, caught. by rewrite Hx.
Qed.

Lemma take_next (g : DBServGateman (D := D) (M := M)) (d : D) id kvs l :
  inbox d (mReadKey g) (mGroup g) = Some ((id, kvs) :: l) →
  ∃ d', take_message conf g d = Ok (d', Some (id, kvs)) ∧
    (∃ it, pel d' (mReadKey g) (mGroup g) = <[id := it]> (pel d (mReadKey g) (mGroup g))) ∧
    inbox d' (mReadKey g) (mGroup g) = Some l ∧
    (∀ k g', (k, g') ≠ (mReadKey g, mGroup g) → inbox d' k g' = inbox d k g') ∧ ∀ k, entries d' k = entries d k.
Proof.
  intros Hi. set (ms := DBServer.STREAM_CUSTOMER_PULL_NAP_IN_MILLISECONDS conf).
  destruct (read_law _ _ (mConsumer g) ms id kvs l d Hi) as (d' & Hx & _ & Hs).
  pose proof (read_pel_law _ _ (mConsumer g) ms id kvs l d Hi) as Hp. rewrite Hx in Hp.
  exists d'. split; [|by split]. unfold take_message, pull_group, caught. fold ms. rewrite Hx. unfold pulled_of.
  rewrite map_size_singleton. change (Z.of_nat 1) with 1. cbv iota beta. by rewrite lookup_singleton_eq.
Qed.

(** What pushing to a stream with room does. *)
Lemma push_adds key kvs (d : D) : entries d key < 5000 →
  let d' := (push key kvs 5000 d).1 in
  (∀ g, fmap snd <$> inbox d' key g = (λ l, l ++ [kvs]) <$> (fmap snd <$> inbox d key g)) ∧
  (∀ k g, k ≠ key → inbox d' k g = inbox d k g ∧ entries d' k = entries d k) ∧
  (∀ k g, pel d' k g = pel d k g) ∧ entries d' key <= entries d key + 1.
Proof.
  intros He. destruct (add_law key kvs 5000 d He) as (d1 & id & Ha & Hi & Ho & Hn & Hk).
  pose proof (add_pel_law key kvs 5000 d) as Hp. unfold push, caught. rewrite Ha in *. cbn [fst] in *.
  split_and!; [|intros k g Hne; split; [by apply Ho|by apply Hn]|done|done].
  intros g. rewrite Hi. destruct (inbox d key g); [|done]. cbn. by rewrite fmap_app.
Qed.

(** ** The threads do what the desk does *)

(** The threads of a gateway that was started: [n] for the login servers. *)
Context (gw : DBServGateway (D := D) (M := M)) (n m : Z) (d0 : D).
Record serves_desk : Prop := {
  sd_names : mDatabase gw = op;
  sd_threads : mBackgroundThdsResult gw =
    replicate (Z.to_nat n) (mkThread LoginMessage.FILL_2_THIS logins) ++
    replicate (Z.to_nat m) (mkThread GameMessage.FILL_2_THIS (mGameGateman (newGateway conf))) }.
Hypothesis gateway : serves_desk.

Record Rel (k : Desk) (x : Running (D := D) (M := M)) : Prop := {
  rel_left : inbox (broker x) requests readers = Some (entry <$> left k);
  rel_games : inbox (broker x) games readers = Some [];
  rel_held : held x = entry <$> taken k;
  rel_threads : ∀ i, is_Some (taken k !! i) → Z.of_nat i < n;
  rel_players : represents op (database x) (players k);
  rel_pel : dom (pel (broker x) requests readers) = list_to_set ((map_to_list (taken k)).*2).*1;
  rel_ids : NoDup (items k).*1;
  rel_sent : Forall well_sent (items k).*2;
  rel_room : ∀ r, r ∈ (items k).*2 → entries (broker x) (SERVICE (carrier r)) + Z.of_nat (length (items k)) <= 5000;
  rel_out : ∀ key g, key ∉ [requests; games] → fmap snd <$> inbox (broker x) key g =
    (λ l, l ++ sent_to key (answered k)) <$> (fmap snd <$> inbox d0 key g) }.

Lemma thread_lookup i : mBackgroundThdsResult gw !! i =
  if decide (Z.of_nat i < n) then Some (mkThread LoginMessage.FILL_2_THIS logins)
  else if decide (Z.of_nat i < Z.max 0 n + m) then Some (mkThread GameMessage.FILL_2_THIS (mGameGateman (newGateway conf)))
  else None.
Proof.
  rewrite (sd_threads gateway). case_decide as Hi.
  - rewrite lookup_app_l by (rewrite length_replicate; lia). apply lookup_replicate. split; [done|lia].
  - rewrite lookup_app_r by (rewrite length_replicate; lia). rewrite length_replicate. case_decide as Hj.
    + apply lookup_replicate. split; [done|lia].
    + apply lookup_replicate_None. lia.
Qed.

(** What is the same for the streams and for what the desk has. *)
Lemma rel_same k x d : Rel k x →
  (∀ key g, inbox d key g = inbox (broker x) key g ∧ pel d key g = pel (broker x) key g ∧ entries d key = entries (broker x) key) →
  Rel k (mkRunning (held x) d (database x)).
Proof.
  intros [] Hs. split; cbn [broker database held]; try done.
  - by rewrite (proj1 (Hs _ _)).
  - by rewrite (proj1 (Hs _ _)).
  - by rewrite (proj1 (proj2 (Hs _ _))).
  - intros r Hr. rewrite (proj2 (proj2 (Hs _ []))). by apply rel_room0.
  - intros key g Hk. rewrite (proj1 (Hs _ _)). by apply rel_out0.
Qed.

(** A thread takes the next request. *)
Lemma take_sim k x i y l : Rel k x → Z.of_nat i < n → taken k !! i = None → left k = y :: l →
  ∃ x', step conf gw (Take i) x = Ok x' ∧ Rel (mkDesk l (<[i := y]> (taken k)) (players k) (answered k)) x'.
Proof.
  intros Hrel Hi Hn Hl. pose proof (items_take i y l k Hn Hl) as Hit. destruct Hrel as [Rl Rg Rh Rt Rp Re Ri Rs Rr Ro].
  rewrite Hl in Rl. destruct (take_next logins (broker x) y.1 (fill_vec (carrier y.2)) _ Rl)
    as (d' & Ht & (it & Hp) & Hi' & Ho & Hn'). change (mReadKey logins) with requests in *. change (mGroup logins) with readers in *.
  eexists (mkRunning _ d' (database x)). unfold step. rewrite thread_lookup, decide_True by done.
  rewrite Rh, lookup_fmap, Hn. cbn [fmap option_fmap option_map gateman]. rewrite Ht. cbn [mbind res_bind]. split; [done|].
  split; cbn [broker database held left taken players answered].
  - done.
  - rewrite Ho by (pose proof (ta_keys apart); congruence). done.
  - by rewrite fmap_insert.
  - intros i' Hi1. destruct (decide (i' = i)) as [->|]; [done|]. rewrite lookup_insert_ne in Hi1 by done. by apply Rt.
  - done.
  - rewrite Hp, dom_insert_L, Re, map_to_list_insert by done. done.
  - by rewrite Hit.
  - by rewrite Hit.
  - intros r. rewrite Hit, Hn'. apply Rr.
  - intros key g Hk. rewrite Ho; [by apply Ro|]. rewrite !not_elem_of_cons in Hk. destruct Hk. congruence.
Qed.

(** A thread answers the request it has. *)
Lemma handle_sim k x i t id r : Rel k x → taken k !! i = Some (id, r) →
  Forall sendable (answered (desk_step conf n (Handle i t) k)) →
  ∃ x', step conf gw (Handle i t) x = Ok x' ∧ Rel (desk_step conf n (Handle i t) k) x'.
Proof.
  intros Hrel Hi. cbn [desk_step]. rewrite Hi. unfold serve. destruct Hrel as [Rl Rg Rh Rt Rp Re Ri Rs Rr Ro].
  assert (well_sent r ∧ is_Some (pel (broker x) requests readers !! id)) as [Hw Hp].
  { split; [rewrite Forall_forall in Rs; apply Rs|apply elem_of_dom; rewrite Re].
    - rewrite (items_handle i _ k (players k) [] Hi). by left.
    - apply elem_of_list_to_set. rewrite <- (map_to_list_delete _ _ _ Hi). by left. }
  pose proof (login_handled t id r (broker x) (database x) (players k) Hw Rp Hp) as Hh.
  destruct (deserves (at_db t) r (players k)) as [[st' code] infos]. cbn [left taken players answered] in *.
  set (a := mkAnswer _ _ _) in *. intros Hs. apply Forall_app in Hs as [_ Hs]. rewrite Forall_singleton in Hs.
  destruct (Hh Hs) as (d1 & n1 & b' & Hrun & Hack & Hp1 & Hr'). destruct (ack_streams _ _ _ _ _ _ Hack) as [Hin Hen].
  pose proof (items_handle i (id, r) k st' (answered k ++ [a]) Hi) as Hit. set (k' := mkDesk _ _ _ _) in *.
  assert (entries d1 (SERVICE (carrier r)) < 5000) as Hroom.
  { rewrite Hen. specialize (Rr r). rewrite Hit in Rr. cbn in Rr. specialize (Rr ltac:(by left)). lia. }
  destruct (push_adds (SERVICE (carrier r)) (answer_fields a) d1 Hroom) as (Hp2 & Ho2 & Hpel2 & He2).
  set (d2 := (push _ _ _ d1).1) in *. destruct Hw as [Hk _]. rewrite !not_elem_of_cons in Hk. destruct Hk as (_ & Hk1 & Hk2 & _).
  exists (mkRunning (delete i (held x)) d2 b'). unfold step. rewrite thread_lookup, decide_True by (apply Rt; by eexists).
  rewrite (sd_names gateway), Rh, lookup_fmap, Hi. cbn [fmap option_fmap option_map fills gateman]. rewrite Hrun. split; [done|].
  rewrite Hit in Ri, Rs. cbn [fmap list_fmap fst snd] in Ri, Rs. apply NoDup_cons in Ri as [Rn Ri]. apply Forall_cons in Rs as [_ Rs].
  split; cbn [broker database held left taken players answered k'].
  - rewrite (proj1 (Ho2 _ _ (not_eq_sym Hk1))), Hin. exact Rl.
  - rewrite (proj1 (Ho2 _ _ (not_eq_sym Hk2))), Hin. exact Rg.
  - by rewrite fmap_delete.
  - intros i' Hi'. apply Rt. rewrite lookup_delete_is_Some in Hi'. by destruct Hi'.
  - done.
  - rewrite Hpel2, Hp1, dom_delete_L, Re. rewrite <- (map_to_list_delete _ _ _ Hi). cbn [fmap list_fmap fst snd list_to_set].
    assert (id ∉ ((map_to_list (delete i (taken k))).*2).*1) as Hid.
    { intros Hx. apply Rn. unfold items. cbn [taken k']. rewrite fmap_app. apply elem_of_app. by left. }
    set_solver.
  - exact Ri.
  - exact Rs.
  - intros r' Hr1. specialize (Rr r'). rewrite Hit in Rr. cbn [fmap list_fmap snd length] in Rr.
    specialize (Rr ltac:(by right)). destruct (decide (SERVICE (carrier r') = SERVICE (carrier r))) as [E|Hne].
    + rewrite E in *. rewrite Hen in He2. lia.
    + rewrite (proj2 (Ho2 _ [] Hne)), Hen. lia.
  - intros key g Hk. unfold sent_to. rewrite filter_app, fmap_app. destruct (decide (key = SERVICE (carrier r))) as [->|Hne].
    + rewrite Hp2, Hin, Ro by done. rewrite filter_cons_True by done. destruct (inbox d0 _ g); [|done]. cbn. by rewrite <- app_assoc.
    + rewrite (proj1 (Ho2 _ _ Hne)), Hin, Ro by done. rewrite filter_cons_False by (by intros E; apply Hne).
      by rewrite app_nil_r.
Qed.

Lemma step_sim e k x : Rel k x → Forall sendable (answered (desk_step conf n e k)) →
  ∃ x', step conf gw e x = Ok x' ∧ Rel (desk_step conf n e k) x'.
Proof.
  intros Hrel Hs. destruct e as [i|i t].
  - assert (∀ g : DBServGateman (D := D) (M := M), inbox (broker x) (mReadKey g) (mGroup g) = Some [] → ∃ x',
      ('(d, got) ← take_message conf g (broker x);
       Ok (mkRunning (match got with Some item => <[i := item]> (held x) | None => held x end) d (database x))) = Ok x' ∧ Rel k x')
      as Hempty.
    { intros g Hg. destruct (take_empty g _ Hg) as (d' & -> & Hd). eexists. split; [done|]. by apply rel_same. }
    pose proof (rel_held _ _ Hrel) as Hh. destruct (decide (Z.of_nat i < n)) as [Hi|Hi].
    + destruct (taken k !! i) as [y|] eqn:Hk; [|destruct (left k) as [|y l] eqn:Hl].
      * exists x. cbn [desk_step step]. by rewrite thread_lookup, decide_True, Hh, lookup_fmap, Hk.
      * cbn [desk_step step]. rewrite thread_lookup, decide_True, Hh, lookup_fmap, Hk, Hl by done. cbn [fmap option_fmap option_map].
        rewrite <- Hh. apply Hempty. rewrite (rel_left _ _ Hrel : inbox _ (mReadKey logins) _ = _). by rewrite Hl.
      * cbn [desk_step]. rewrite Hk, Hl, (proj2 (Z.ltb_lt _ _) Hi). by apply take_sim.
    + assert (taken k !! i = None) as Hk.
      { destruct (taken k !! i) eqn:E; [|done]. destruct Hi. apply (rel_threads _ _ Hrel). by rewrite E. }
      cbn [desk_step step]. rewrite thread_lookup, decide_False, Hh, lookup_fmap, Hk by done. cbn [fmap option_fmap option_map].
      rewrite <- Hh. rewrite (proj2 (Z.ltb_ge (Z.of_nat i) n)) by lia.
      assert (∃ x', (if decide (Z.of_nat i < Z.max 0 n + m) then Some (mkThread GameMessage.FILL_2_THIS (mGameGateman (newGateway conf))) else None)
        = x') as [o Ho] by eauto.
      rewrite Ho. destruct o as [th|].
      * assert (gateman th = mGameGateman (newGateway conf)) as Hth by (case_decide; [by injection Ho as <-|done]).
        rewrite Hth. destruct (Hempty (mGameGateman (newGateway conf)) (rel_games _ _ Hrel)) as (x' & Hx & Hr').
        exists x'. split; [done|]. by destruct (left k).
      * exists x. split; [done|]. by destruct (left k).
  - destruct (taken k !! i) as [[id r]|] eqn:Hk; [by eapply handle_sim|].
    exists x. cbn [desk_step step]. rewrite (rel_held _ _ Hrel), lookup_fmap, Hk. cbn [fmap option_fmap option_map].
    by destruct (mBackgroundThdsResult gw !! i).
Qed.

Lemma run_sim es k x : Rel k x → Forall sendable (answered (desk_run conf n es k)) →
  ∃ x', run conf gw es x = Ok x' ∧ Rel (desk_run conf n es k) x'.
Proof.
  revert k x. induction es as [|e es IH]; intros k x Hrel Hs; [by exists x|].
  cbn [run]. change (desk_run conf n (e :: es) k) with (desk_run conf n es (desk_step conf n e k)) in *.
  destruct (step_sim e k x Hrel) as (x1 & Hx & Hrel1).
  { destruct (desk_run_answers conf n es (desk_step conf n e k)) as [l Hl]. rewrite Hl in Hs. by apply Forall_app in Hs as [? _]. }
  rewrite Hx. cbn [mbind res_bind]. by apply IH.
Qed.

(** Requests that wait, nothing pending: where the threads begin. *)
Record begins (w : list (str * request)) (b : M) (st : players_db) : Prop := {
  bg_left : inbox d0 requests readers = Some (entry <$> w);
  bg_games : inbox d0 games readers = Some [];
  bg_pel : pel d0 requests readers = ∅;
  bg_ids : NoDup w.*1;
  bg_sent : Forall well_sent w.*2;
  bg_room : ∀ r, r ∈ w.*2 → entries d0 (SERVICE (carrier r)) + Z.of_nat (length w) <= 5000;
  bg_players : represents op b st }.

Lemma begins_rel w b st : begins w b st → Rel (mkDesk w ∅ st []) (mkRunning ∅ d0 b).
Proof.
  intros []. assert (items (mkDesk w ∅ st []) = w) as Hit by (unfold items; cbn; by rewrite map_to_list_empty).
  split; cbn [broker database held left taken players answered]; rewrite ?Hit, ?map_to_list_empty; try done.
  - intros i. rewrite lookup_empty. by intros [? ?].
  - by rewrite bg_pel0, dom_empty_L.
  - intros key g _. destruct (inbox d0 key g) as [l|]; [|done]. cbn. by rewrite app_nil_r.
Qed.

End Refinement.

(** ** The start *)

Section Start.
Context {D M : Type} `{Redis D} `{MongoLaws M} (conf : DBServConf).

(** The names in the configuration. *)
Definition configured : AccountOp :=
  mkOp (MONGODB_DB_NAME conf) (MONGODB_COLLECTION_ACCOUNT_NAME conf) (MONGODB_COLLECTION_CHARACTER_NAME conf).

Lemma named x y z : [] ∉ [x; y; z] → initDBCollName x y z = Ok (mkOp x y z).
Proof.
  rewrite !not_elem_of_cons. intros (? & ? & ? & _). unfold initDBCollName.
  by rewrite !bool_decide_eq_false_2 by congruence.
Qed.

(** Started on an empty database, a gateway has its indexes, its groups and its
    threads, each on a copy of its gateman. *)
Lemma gateway_started (d : D) (m : M) :
  [] ∉ [MONGODB_DB_NAME conf; MONGODB_COLLECTION_ACCOUNT_NAME conf; MONGODB_COLLECTION_CHARACTER_NAME conf] →
  MONGODB_COLLECTION_ACCOUNT_NAME conf ≠ MONGODB_COLLECTION_CHARACTER_NAME conf →
  (∀ c, docs m c = []) → (∀ c, unique m c = []) →
  ∃ gw m', start_gateway conf (newGateway conf) (d, m) = Ok (gw, (DBServer.start conf d, m')) ∧
    represents configured m' ([], []) ∧
    serves_desk conf configured gw (LOGIN_SERVICE_READER_THREAD_NUM conf) (GAME_SERVICE_READER_THREAD_NUM conf).
Proof.
  intros Hn Hd Hdocs Hu. destruct (indexes_created configured Hd m Hdocs Hu) as (m' & Hm & Hr).
  eexists _, m'. unfold start_gateway.
  rewrite (named (lit "warring")) by (by apply (bool_decide_unpack _)). cbn [mbind res_bind].
  rewrite (named (MONGODB_DB_NAME conf)) by done. cbn [mbind res_bind]. fold configured.
  unfold check. change (mDatabase (set_names configured _)) with configured.
  cbn [mDBName mAccountCollectionName mCharacterCollectionName configured fst snd].
  rewrite !not_elem_of_cons in Hn. destruct Hn as (N1 & N2 & N3 & _).
  rewrite !bool_decide_eq_false_2, acquire_law by congruence. cbn [orb negb mbind res_bind]. rewrite Hm.
  split; [done|]. by split.
Qed.
End Start.

(** ** Witness *)

#[export, refine] Instance queues_readers : ReaderLaws queues := {}.
Proof.
  - intros key g c ms q Hi. change (waiting q key g = Some []) in Hi. exists q. cbn [xreadgroup queues_redis]. by rewrite Hi.
  - intros key g c ms id kvs l q Hi. change (waiting q key g = Some ((id, kvs) :: l)) in Hi. cbn [xreadgroup queues_redis].
    rewrite Hi. exists (mkPending id c 0 1). cbn [fst].
    change (entries_of (hand_over key g c id (rest q)) key g = <[id := mkPending id c 0 1]> (entries_of (rest q) key g)).
    unfold entries_of at 1. unfold hand_over, store_pel. cbn [spel]. by rewrite lookup_insert_eq.
  - done.
Defined.

Definition demo_creates : LoginCharacterRequestMessage.t :=
  LoginCharacterRequestMessage.mk (LoginRequestMessage.mk
    (TimestampMessage.mk (set_name (MESSAGE_LOGIN_LOGIN_CHARACTER_MSG DBServer.defaultConf) newBaseMessage) 0)
    code.login.LOGIN_CREATE_CHARACTER_CODE (lit "alice") (lit "secret")) (lit "Qing") 1 100111 100012.
Definition demo_sent (type message : str) : ClientCarrier :=
  mkCarrier type (lit "Warring:LoginServ") (lit "Warring:DBServ4LoginServ") message (lit "10.0.0.9:4000_7") (lit "10.0.0.9:4000").
Definition demo_waiting : list (str * request) :=
  [(lit "1-0", mkRequest (demo_sent (lit "LOGIN_LOGIN_MSG") (msg_wire demo_request)) (AccountRequest demo_request));
   (lit "2-0", mkRequest (demo_sent (lit "LOGIN_LOGIN_CHARACTER_MSG") (msg_wire demo_creates)) (CharacterRequest demo_creates))].
Definition demo_gateway_queues : queues :=
  mkQueues (mkStore ∅ ∅ ∅ ∅) (λ key _, if decide (key = lit "Warring:DBServ4LoginServ") then Some (entry <$> demo_waiting) else Some []) (λ _, 0).

(** Two threads take a request each, a thread of the game servers finds nothing,
    and the second request is handled first. *)
Definition demo_turns : list event :=
  let t := mkMoment 5000 5000 demo_junk 0 in [Take 0; Take 1; Take 5; Handle 1 t; Take 1; Handle 0 t].

Definition demo_gateway : DBServGateway (D := queues) (M := memory) :=
  let gw := newGateway DBServer.defaultConf in
  mkGateway demo_op 2 (mLoginGateman gw) (mGameGateman gw)
    (replicate 4 (mkThread LoginMessage.FILL_2_THIS (mLoginGateman gw)) ++
     replicate 4 (mkThread GameMessage.FILL_2_THIS (mGameGateman gw))).

Lemma demo_begins : begins DBServer.defaultConf demo_op demo_gateway_queues demo_waiting
  (stored_memory demo_op demo_off) demo_off.
Proof.
  assert (fresh_message demo_request) as H1 by (split; [done|split; [repeat constructor; by vm_compute|by vm_compute]]).
  assert (fresh_message demo_creates) as H2 by (split; [done|split; [repeat constructor; by vm_compute|by vm_compute]]).
  split; [done|done|done| | | |].
  - by apply (bool_decide_unpack _).
  - repeat constructor; cbn; try done; by apply (bool_decide_unpack _).
  - intros r Hr. by vm_compute.
  - apply demo_off_represents.
Qed.

(** The desk after those turns: the character was created first, so the answer to
    the login lists it. *)
Definition demo_desk : Desk := desk_run DBServer.defaultConf 4 demo_turns (mkDesk demo_waiting ∅ demo_off []).

Definition demo_answers : list answer :=
  let respond := account_response DBServer.defaultConf demo_junk 5000 in
  let infos := [player_message demo_player; player_message (new_player demo_creates)] in
  [mkAnswer (mkRequest (demo_sent (lit "LOGIN_LOGIN_CHARACTER_MSG") (msg_wire demo_creates)) (CharacterRequest demo_creates)) []
     (respond code.login.LOGIN_CREATE_CHARACTER_RESULT_SUCCESS []);
   mkAnswer (mkRequest (demo_sent (lit "LOGIN_LOGIN_MSG") (msg_wire demo_request)) (AccountRequest demo_request)) infos
     (respond code.login.LOGIN_LOGIN_RESULT_SUCCESS infos)].

Lemma demo_desk_answers : answered demo_desk = demo_answers.
Proof. by vm_compute. Qed.

Lemma demo_sendable : Forall sendable (answered demo_desk).
Proof.
  rewrite demo_desk_answers. repeat constructor; by vm_compute.
Qed.

