(* ===== verification/ClusterGame.v ===== *)
(** * A character through the servers and back

    A dedicated server uploads a character to [GameServer/] and loads it again:
    the message crosses the broker to [DBServer/], which keeps the character in
    the cache and saves it in MongoDB, and answers a load from the cache through
    the broker and the game server.  As in [Cluster], the operations run one
    after the other; between the upload and the load anything may happen that
    leaves Redis as it is. *)

From S2P Require Import Prelude.
From S2P Require Import BaseMessage.
From S2P Require Import Messages.
From S2P Require Import Carrier.
From S2P Require Import SafeHashmap.
From S2P Require Import IOBuffer.
From S2P Require Import TcpConnection.
From S2P Require Import Poller.
From S2P Require Import EventLoop.
From S2P Require Import TcpServer.
From S2P Require Import Broker.
From S2P Require Import Dispatch.
From S2P Require Import LoginServer.
From S2P Require Import GameServer.
From S2P Require Import DBServer.
From S2P Require Import Mongo.
From S2P Require Import AccountOp.
From S2P Require Import Cluster.

Local Open Scope Z_scope.

Module Msg := DSLoadOrUploadCharacterMessage.

(** ** Streams and hashes do not meet

    A command on a hash leaves every stream as it is, and the other way round. *)
Class KindLaws (D : Type) {R : Redis D} {SL : StreamLaws D} {QL : QueueLaws D} {HL : HashLaws D} := {
  hset_streams key fs (d : D) : let d' := (hset key fs d).1 in
    ∀ k g, inbox d' k g = inbox d k g ∧ pel d' k g = pel d k g ∧ entries d' k = entries d k;
  expire_streams key secs (d : D) : let d' := (expire key secs d).1 in
    ∀ k g, inbox d' k g = inbox d k g ∧ pel d' k g = pel d k g ∧ entries d' k = entries d k;
  xadd_hashes key id kvs n (d : D) k : hash (xadd key id kvs n d).1 k = hash d k;
  xread_hashes key g c id ms n (d : D) k : hash (xreadgroup g c key id ms n d).1 k = hash d k;
  xack_hashes key g id (d : D) k : hash (xack key g id d).1 k = hash d k }.

(** ** A handler object of a class *)

Section Receive.
Context {H M : Type} `{MessageLaws M} (inj : M → H) (deserialize : str → H → res H).
Hypothesis deserialize_inj : ∀ w x, deserialize w (inj x) = inj <$> msg_deserialize w x.

(** The message [m] has arrived whole, and the object [r] is there for it. *)
Record arrived (m r : M) (tid : Z) (hs : gmap str H) (c : TcpConnection) (types : gmap Z (gmap str H)) : Prop := {
  ar_fresh : fresh_message m;
  ar_long : 7 <= strlen (encs msg_types (msg_members m));
  ar_content : content c = msg_wire m;
  ar_whole : ¬ lone c;
  ar_types : types !! tid = Some hs;
  ar_handler : hs !! MSG_NAME (msg_base m) = Some (inj r);
  ar_synced : synced (msg_base r);
  ar_room : Z.of_nat (length (ARRAY_LIKE_LENGHTS (msg_base r)) + kept_lens [m]) < size_max }.

Lemma class_receive m r tid now hs c types : flat (msg_types (M := M)) = true →
  arrived m r tid hs c types →
  ∃ c' types', let r' := msg_rebuild (after_message (MSG_NAME (msg_base m)) msg_types (msg_members m) (msg_base r)) (msg_members m) r in
    receive deserialize tid now c types = Ok (c', types', Some (msg_wire m, inj r')) ∧ content c' = [] ∧ same_side c c'.
Proof.
  intros Hflat [Hf He Hc Hl Ht Hh Hs Hr]. pose proof (msg_read_one m r [byte_of 0] Hflat Hs Hf Hr) as Hd.
  destruct (receive_wire deserialize (MSG_NAME (msg_base m)) msg_types (msg_members m) tid now c types hs (inj r)
    (inj (msg_rebuild (after_message (MSG_NAME (msg_base m)) msg_types (msg_members m) (msg_base r)) (msg_members m) r)))
    as (c' & Hrec & Hc' & Hside); try done.
  - by destruct Hf as (_ & _ & ?).
  - rewrite deserialize_inj. unfold data_of. change (wire _ _ _) with (msg_wire m). by rewrite Hd.
  - eexists c', _. split; [exact Hrec|]. by split.
Qed.
End Receive.

(** ** The game server takes the message in *)

Section GameSide.
Context {R D : Type} `{QueueLaws D} (mHashFunc : str → Z) (conf : GameServConf).

Lemma character_read w x : GameServer.deserialize w (HCharacter x) = HCharacter <$> msg_deserialize w x.
Proof. done. Qed.

Abbreviation game_waits := (arrived (M := Msg.t) HCharacter).

Lemma game_forwards (m r : Msg.t) (tid now answer junkPort junkLoad : Z) (hs : gmap str GameServer.handler) (c : TcpConnection) (types : gmap Z (gmap str GameServer.handler)) (scenes : gmap str str) (d : D) :
  game_waits m r tid hs c types →
  ∃ c' types' t, GameServer.messageFunc conf tid now answer junkPort junkLoad c types (scenes, d) =
      Ok (c', types', (scenes, (push (BROKER_DB_KEY conf)
        (fill_vec (character_carrier conf (MSG_NAME (Msg.base m)) (msg_wire m) c)) 5000 d).1)) ∧
    content c' = [] ∧ same_side (setCurrentTimestamp t c) c'.
Proof.
  intros Hw. destruct (class_receive HCharacter GameServer.deserialize character_read m r tid now hs c types eq_refl Hw)
    as (c' & types' & Hr & Hc' & Hs). cbv zeta in Hr. set (r' := msg_rebuild _ _ _) in Hr.
  unfold GameServer.messageFunc. rewrite Hr. cbn [mbind res_bind].
  assert (MSG_NAME (Msg.base r') = MSG_NAME (Msg.base m)) as Hn by done. rewrite Hn.
  set (t := TimestampMessage.GET_MILLISECONDS_SINCE_EPOCH (Msg.parent r')). set (c2 := setCurrentTimestamp t c').
  assert (character_carrier conf (MSG_NAME (Msg.base m)) (msg_wire m) c2 =
    character_carrier conf (MSG_NAME (Msg.base m)) (msg_wire m) c) as ->.
  { unfold character_carrier, getName, getIPPort. destruct Hs as (E1 & E2 & E3 & _). cbn. by rewrite E1, E2, E3. }
  unfold GameMessage.FILL_2_VEC. cbn [fst snd]. destruct (push _ _ _ d) as [d' id]. exists c2, types', t. split; [done|].
  split; [exact Hc'|]. destruct Hs as (E1 & E2 & E3 & E4 & E5 & E6 & E7 & E8 & E9 & E10). by split_and!.
Qed.

(** One pass of the consumer of the game server over one answer. *)
Lemma game_consumer_pass (s : TcpServer (R := R) (F := str)) names (d d1 : D) id carrier :
  registry_ok mHashFunc s names →
  xreadgroup (BROKER_GAME_GROUP conf) (lit "GameStreamConsumer") (BROKER_GAME_KEY conf) (lit ">")
    (GameServer.STREAM_CUSTOMER_PULL_NAP_IN_MILLISECONDS conf) 1 d
    = (d1, inl {[ BROKER_GAME_KEY conf := [(id, Some (fill_vec carrier))] ]}) →
  gameStreamConsumer mHashFunc conf (s, d) =
    match names !! CLIENT_ID carrier with
    | Some l =>
        '(c, _) ← of_option NullDeref (conns (registry s) !! l);
        Ok (set_conn l (putToBuffer (MESSAGE carrier) c) s, d1)
    | None => Ok (s, d1)
    end.
Proof.
  intros Hok Hread. unfold gameStreamConsumer, pull_group, caught. rewrite Hread. unfold pulled_of.
  rewrite map_size_singleton. change (Z.of_nat 1) with 1. cbv iota beta. rewrite lookup_singleton_eq.
  change (of_option OutOfRange _) with (Ok (id, Some (fill_vec carrier))). cbn [of_option mbind res_bind].
  assert (GameMessage.FILL_2_THIS (fill_vec carrier) (mkCarrier [] [] [] [] [] []) = Ok carrier) as -> by (by destruct carrier).
  cbn [mbind res_bind]. rewrite (getConn_denotes _ _ names) by apply Hok. cbn [mbind res_bind].
  destruct (names !! CLIENT_ID carrier) as [l|]; [|done].
  by destruct (conns (registry s) !! l) as [[c i]|].
Qed.
End GameSide.

(** ** The database server handles it *)

Section DBSide.
Context {D : Type} `{KindLaws D}.

(** A group has been handed everything, and the stream takes [n] entries more. *)
Definition idle (n : Z) (key g : str) (d : D) : Prop := inbox d key g = Some [] ∧ entries d key + n <= 5000.

Lemma idle_waits n key g d : 1 <= n → idle n key g d → waits key g d.
Proof. intros Hn [Hi He]. split; [done|lia]. Qed.

Lemma push_hash key kvs n (d : D) k : hash (push key kvs n d).1 k = hash d k.
Proof.
  unfold push, caught. pose proof (xadd_hashes key (lit "*") kvs n d k) as Hx.
  by destruct (xadd _ _ _ _ d) as [d' [|]].
Qed.

Lemma ack_hash key g id (d d' : D) n k : ack key g id d = Ok (d', n) → hash d' k = hash d k.
Proof.
  unfold ack, uncaught. pose proof (xack_hashes key g id d k) as Hx. destruct (xack key g id d) as [d1 [m|]]; [|done].
  by intros [= <- _].
Qed.

(** What the operations of the cache leave alone. *)
Definition same_streams (d d' : D) : Prop :=
  ∀ k g, inbox d' k g = inbox d k g ∧ pel d' k g = pel d k g ∧ entries d' k = entries d k.

Lemma addCharacter_streams key fs (d d' : D) n : addCharacter key fs d = (d', n) → same_streams d d'.
Proof.
  unfold addCharacter, caught. pose proof (hset_streams key fs d) as Hs. cbv zeta in Hs.
  destruct (hset key fs d) as [d1 [m|]]; intros [= <- _]; exact Hs.
Qed.

Lemma setTTL_streams key secs (d d' : D) o : setTTL key secs d = (d', o) → same_streams d d'.
Proof.
  unfold setTTL, caught. pose proof (expire_streams key secs d) as Hs. cbv zeta in Hs.
  destruct (expire key secs d) as [d1 [m|]]; intros [= <- _]; exact Hs.
Qed.

Lemma upload_streams {B} `{Database B} dconf lastUpload m c (d d' : D) (b b' : B) c' :
  upload_character dconf lastUpload m c (d, b) = Ok (c', (d', b')) → same_streams d d'.
Proof.
  unfold upload_character. destruct (addCharacter _ _ d) as [d1 n] eqn:Ha. apply addCharacter_streams in Ha.
  destruct lastUpload.
  - destruct (setTTL _ _ d1) as [d2 o] eqn:Ht. apply setTTL_streams in Ht. intros E. inv_ok. intros k g.
    destruct (Ha k g) as (? & ? & ?), (Ht k g) as (? & ? & ?). split_and!; congruence.
  - intros E. by inv_ok.
Qed.

Context {B : Type} `{Database B} (dconf : DBServConf) (junkScene : Z).

(** The key of the stream of requests, and its group. *)
Abbreviation requests := (BROKER_DB_4_GAME_KEY dconf).
Abbreviation readers := (DBServer.BROKER_DB_GROUP dconf).

Record game_types : Prop := {
  gt_error : DBServer.MESSAGE_GAME_CHARACTER_MSG dconf ≠ lit "LOGIN_ERROR_MSG";
  gt_differ : DBServer.MESSAGE_GAME_MSG dconf ≠ DBServer.MESSAGE_GAME_CHARACTER_MSG dconf }.

(** The pass of the reader over one request that was pushed. *)
Lemma game_reader_pass now c c' (m : Msg.t) (d : D) (b b' : B) n (after : D → D → Prop) :
  game_types → idle (n + 1) requests readers d → 0 <= n → game_request dconf m c →
  (∀ d1, (∀ k, hash d1 k = hash d k) → ∃ d2, getGameCharacterResponseMsg dconf now junkScene c (d1, b) = Ok (c', (d2, b')) ∧
     same_streams d1 d2 ∧ after d1 d2) →
  TYPE c' = TYPE c →
  ∃ d1 d2 d3, game_reader dconf now junkScene ((push requests (fill_vec c) 5000 d).1, b)
      = Ok (if bool_decide (NEXT_SERVICE c' = []) then d3 else (push (NEXT_SERVICE c') (fill_vec c') 5000 d3).1, b') ∧
    (∀ k, hash d1 k = hash d k) ∧ after d1 d2 ∧ (∀ k, hash d3 k = hash d2 k) ∧
    idle n requests readers d3 ∧
    ∀ key g, key ≠ requests → inbox d3 key g = inbox d key g ∧ entries d3 key = entries d key.
Proof.
  intros [Herr Hdiff] Hidle Hn Hg Hrun Ht'.
  destruct (push_read requests readers (mConsumerPrefix ++ to_string 2)
    (DBServer.STREAM_CUSTOMER_PULL_NAP_IN_MILLISECONDS dconf) (fill_vec c) d (idle_waits (n + 1) _ _ _ ltac:(lia) Hidle))
    as (id & d1 & Hx & Hp & Hi1 & Ho1 & Hn1).
  pose proof (xread_hashes requests readers (mConsumerPrefix ++ to_string 2) (lit ">")
    (DBServer.STREAM_CUSTOMER_PULL_NAP_IN_MILLISECONDS dconf) 1 (push requests (fill_vec c) 5000 d).1) as Hh1.
  rewrite Hx in Hh1. cbn [fst] in Hh1. setoid_rewrite push_hash in Hh1.
  destruct (Hrun d1 Hh1) as (d2 & Hm & Hss & Hafter).
  destruct (reader_handles dconf GameMessage.FILL_2_THIS (gameFuncs dconf now junkScene) requests readers _
    (getGameCharacterResponseMsg dconf now junkScene) c c' id _ d1 d2 b b' Hx) as (d3 & k & Hread & Hack & _).
  - intros c0. by destruct c.
  - unfold gameFuncs. rewrite (gr_type _ _ _ Hg), lookup_insert_ne by done. apply lookup_singleton_eq.
  - exact Hm.
  - by rewrite Ht', (gr_type _ _ _ Hg).
  - by rewrite (proj1 (proj2 (Hss requests readers))).
  - exists d1, d2, d3. split_and!; [exact Hread|exact Hh1|exact Hafter|intros ky; by eapply ack_hash| |].
    + destruct (ack_streams _ _ _ _ _ _ Hack) as [Hin Hen], (Hss requests readers) as (Hi2 & _ & He2).
      split; [by rewrite Hin, Hi2|]. rewrite Hen, He2. destruct Hidle. lia.
    + intros key g Hne. destruct (ack_streams _ _ _ _ _ _ Hack) as [Hin Hen], (Hss key g) as (Hi2 & _ & He2).
      destruct (Ho1 key g Hne). split; congruence.
Qed.

Lemma cached_hash account character (d d' : D) :
  (∀ k, hash d' k = hash d k) → cached account character d' = cached account character d.
Proof. intros Hh. unfold cached. by rewrite Hh. Qed.

(** An upload is kept, saved and answered to nobody. *)
Lemma upload_pass now lastUpload c (m : Msg.t) (d : D) (b b' : B) n info :
  game_types → idle (n + 1) requests readers d → 0 <= n → game_request dconf m c →
  Msg.CODE m = (if lastUpload : bool then code.game.GAME_LAST_UPLOAD_CHARACTER_CODE else code.game.GAME_UPLOAD_CHARACTER_CODE) →
  CharacterInfo.deserialize (data_of (Msg.CHARACTER_DATA m)) newCharacterInfo = Ok info →
  DBServer.updateCharacter info lastUpload b = Ok b' →
  ∃ d', game_reader dconf now junkScene ((push requests (fill_vec c) 5000 d).1, b) = Ok (d', b') ∧
    cached (Msg.ACCOUNT m) (Msg.CHARACTER_NAME m) d' = Some (Msg.CHARACTER_DATA m) ∧
    idle n requests readers d' ∧
    ∀ key g, key ≠ requests → inbox d' key g = inbox d key g ∧ entries d' key = entries d key.
Proof.
  intros Ht Hidle Hn Hg Hc Hi Hu.
  destruct (game_reader_pass now c (carry_route requests [] c) m d b b' n
    (λ _ d2, cached (Msg.ACCOUNT m) (Msg.CHARACTER_NAME m) d2 = Some (Msg.CHARACTER_DATA m)) Ht Hidle Hn Hg)
    as (d1 & d2 & d3 & Hr & _ & Haf & Hh & Hid & Hot); [|done|].
  - intros d1 _. destruct (game_request_read dconf now junkScene m c d1 b Hg) as (m' & Hm & E1 & E2 & E3). cbv zeta in Hm.
    destruct (upload_ok dconf lastUpload m' c d1 b b' info) as (d2 & Hup & Hcache); [by rewrite E3|done|].
    exists d2. rewrite E1, E2, E3 in Hcache. split_and!.
    + rewrite Hm, Hc. destruct lastUpload; exact Hup.
    + by eapply upload_streams.
    + rewrite Hcache. by rewrite decide_True.
  - exists d3. split; [exact Hr|]. split; [by rewrite (cached_hash _ _ d2 d3 Hh)|]. by split.
Qed.

(** A load of a character in the cache is answered with it. *)
Lemma load_pass now c (m : Msg.t) (d : D) (b : B) n data :
  game_types → idle (n + 1) requests readers d → 0 <= n → game_request dconf m c → SERVICE c ≠ [] →
  Msg.CODE m = code.game.GAME_LOAD_CHARACTER_CODE →
  cached (Msg.ACCOUNT m) (Msg.CHARACTER_NAME m) d = Some data → data ≠ [] →
  fresh_message (loaded dconf now junkScene m data) →
  ∃ d', game_reader dconf now junkScene ((push requests (fill_vec c) 5000 d).1, b)
      = Ok ((push (SERVICE c) (fill_vec (answer_carrier requests (msg_wire (loaded dconf now junkScene m data)) c)) 5000 d').1, b) ∧
    (∀ k, hash d' k = hash d k) ∧ idle n requests readers d' ∧
    ∀ key g, key ≠ requests → inbox d' key g = inbox d key g ∧ entries d' key = entries d key.
Proof.
  intros Ht Hidle Hn Hg Hs Hc Hcache Hne Hf.
  destruct (game_reader_pass now c (answer_carrier requests (msg_wire (loaded dconf now junkScene m data)) c) m d b b n
    (λ d1 d2, d2 = d1) Ht Hidle Hn Hg) as (d1 & d2 & d3 & Hr & Hh1 & -> & Hh & Hid & Hot); [|done|].
  - intros d1 Hh1. exists d1. split; [|done].
    destruct (game_request_read dconf now junkScene m c d1 b Hg) as (m' & Hm & E1 & E2 & E3). cbv zeta in Hm.
    rewrite Hm, Hc. unfold code.game.GAME_LOAD_CHARACTER_CODE. cbn [Z.eqb Pos.eqb].
    pose proof (load_ok dconf now junkScene m' c d1 b data) as Hload. cbv zeta in Hload. rewrite E1, E2 in Hload.
    apply Hload; [by rewrite (cached_hash _ _ d d1 Hh1)|done|exact Hf].
  - exists d3. split_and!; [|intros k; by rewrite Hh|done|exact Hot]. rewrite Hr. unfold answer_carrier at 1.
    cbn [NEXT_SERVICE]. by rewrite bool_decide_eq_false_2 by exact Hs.
Qed.
End DBSide.

(** ** From the dedicated server's bytes to its output *)

Section Character.
Context {R D M : Type} `{KindLaws D} `{MongoLaws M}.
Context (mHashFunc : str → Z) (gconf : GameServConf) (dconf : DBServConf) (junkScene : Z) (op : AccountOp).
Hypothesis collections_differ : mAccountCollectionName op ≠ mCharacterCollectionName op.

(** The configurations of the two servers agree. *)
Record game_wired : Prop := {
  gw_key : BROKER_DB_4_GAME_KEY dconf = BROKER_DB_KEY gconf;
  gw_differ : BROKER_GAME_KEY gconf ≠ BROKER_DB_KEY gconf;
  gw_named : BROKER_GAME_KEY gconf ≠ [];
  gw_types : game_types dconf }.

Abbreviation game_waits := (arrived (M := Msg.t) HCharacter).
Abbreviation requests := (BROKER_DB_KEY gconf).
Abbreviation answers := (BROKER_GAME_KEY gconf).
Abbreviation readers := (DBServer.BROKER_DB_GROUP dconf).
Abbreviation gservers := (BROKER_GAME_GROUP gconf).
Abbreviation Game := (GameServer (R := R) (D := D)).

(** A message of a dedicated server for the database server. *)
Record ds_message (m : Msg.t) : Prop := {
  dm_name : MSG_NAME (Msg.base m) = DBServer.MESSAGE_GAME_CHARACTER_MSG dconf;
  dm_fresh : fresh_message m }.

Lemma ds_request m c : ds_message m → game_request dconf m (character_carrier gconf (MSG_NAME (Msg.base m)) (msg_wire m) c).
Proof. intros [Hn Hf]. by split. Qed.

(** A connection [l] of the server has the whole message in its input. *)
Record at_door (m r : Msg.t) (tid : Z) (hs : gmap str GameServer.handler) (l : loc) (c : TcpConnection) (i : Z) (s : Game) : Prop := {
  ad_message : ds_message m;
  ad_waits : game_waits m r tid hs c (GameServer.mMessageTypes s);
  ad_conn : conns (registry (GameServer.mTcpServer s)) !! l = Some (c, i) }.

Lemma game_takes m r tid hs l c i (s : Game) now answer junkPort junkLoad : at_door m r tid hs l c i s →
  ∃ s1 c', GameServer.on_message gconf tid now answer junkPort junkLoad l s = Ok s1 ∧
    GameServer.mRedis s1 = (push requests (fill_vec (character_carrier gconf (MSG_NAME (Msg.base m)) (msg_wire m) c)) 5000 (GameServer.mRedis s)).1 ∧
    GameServer.mTcpServer s1 = set_conn l c' (GameServer.mTcpServer s) ∧ content c' = [] ∧
    ∃ t, same_side (setCurrentTimestamp t c) c'.
Proof.
  intros [Hm Hw Hl].
  destruct (game_forwards gconf m r tid now answer junkPort junkLoad hs c _ (mSceneAddresses s) (GameServer.mRedis s) Hw)
    as (c' & types' & t & Hf & Hc' & Hs).
  exists (mkGame (set_conn l c' (GameServer.mTcpServer s)) types' (mSceneAddresses s)
    (push requests (fill_vec (character_carrier gconf (MSG_NAME (Msg.base m)) (msg_wire m) c)) 5000 (GameServer.mRedis s)).1
    (keyWithAddress s)), c'.
  split; [|split; [reflexivity|split; [reflexivity|split; [exact Hc'|by exists t]]]].
  unfold GameServer.on_message. rewrite Hl. cbn [of_option mbind res_bind]. by rewrite Hf.
Qed.

(** An answer pushed for a live connection is put in its output. *)
Lemma answer_delivered (s : TcpServer (R := R) (F := str)) names (d : D) l c i carrier :
  registry_ok mHashFunc s names → conns (registry s) !! l = Some (c, i) → names !! CLIENT_ID carrier = Some l →
  waits answers gservers d →
  ∃ d' id, gameStreamConsumer mHashFunc gconf (s, (push answers (fill_vec carrier) 5000 d).1)
      = Ok (set_conn l (putToBuffer (MESSAGE carrier) c) s, d') ∧
    is_Some (pel d' answers gservers !! id) ∧ inbox d' answers gservers = Some [] ∧
    ∀ key g, key ≠ answers → inbox d' key g = inbox d key g.
Proof.
  intros Hok Hl Hn Hw.
  destruct (push_read answers gservers (lit "GameStreamConsumer") (GameServer.STREAM_CUSTOMER_PULL_NAP_IN_MILLISECONDS gconf)
    (fill_vec carrier) d Hw) as (id & d' & Hx & Hp & Hi & Ho & _).
  exists d', id. rewrite (game_consumer_pass mHashFunc gconf s names _ d' id carrier Hok Hx), Hn, Hl.
  split; [done|]. split; [done|]. split; [done|]. intros key g Hne. by apply Ho.
Qed.

(** C4: a character that a dedicated server uploads is saved in MongoDB as the
    specification of the database says, and the next load of it, from the same
    connection or another, at any later moment that finds Redis as the upload left
    it, comes back to that connection's output with the bytes uploaded; both
    streams are left empty, but the answer stays pending for the game server. *)
Theorem character_round_trip (mu ru : Msg.t) tid hs l c i (s : Game) now answer junkPort junkLoad
    (lastUpload : bool) info (b : M) st nowDB :
  game_wired → at_door mu ru tid hs l c i s →
  Msg.CODE mu = (if lastUpload then code.game.GAME_LAST_UPLOAD_CHARACTER_CODE else code.game.GAME_UPLOAD_CHARACTER_CODE) →
  CharacterInfo.deserialize (data_of (Msg.CHARACTER_DATA mu)) newCharacterInfo = Ok info → Msg.CHARACTER_DATA mu ≠ [] →
  idle 2 requests readers (GameServer.mRedis s) → idle 1 answers gservers (GameServer.mRedis s) → represents op b st →
  ∃ s1 d2 b', GameServer.on_message gconf tid now answer junkPort junkLoad l s = Ok s1 ∧
    @game_reader D M _ (mongo_database op nowDB) dconf nowDB junkScene (GameServer.mRedis s1, b) = Ok (d2, b') ∧
    represents op b' (spec_update nowDB info lastUpload st) ∧
    ∀ (ml rl : Msg.t) tid2 hs2 l2 c2 i2 (s2 : Game) names now2 answer2 junkPort2 junkLoad2 nowDB2,
      GameServer.mRedis s2 = d2 → at_door ml rl tid2 hs2 l2 c2 i2 s2 → registry_ok mHashFunc (GameServer.mTcpServer s2) names →
      Msg.CODE ml = code.game.GAME_LOAD_CHARACTER_CODE →
      Msg.ACCOUNT ml = Msg.ACCOUNT mu → Msg.CHARACTER_NAME ml = Msg.CHARACTER_NAME mu →
      let resp := loaded dconf nowDB2 junkScene ml (Msg.CHARACTER_DATA mu) in
      fresh_message resp →
      ∃ s3 d4 s5 d5 c5 id, GameServer.on_message gconf tid2 now2 answer2 junkPort2 junkLoad2 l2 s2 = Ok s3 ∧
        @game_reader D M _ (mongo_database op nowDB2) dconf nowDB2 junkScene (GameServer.mRedis s3, b') = Ok (d4, b') ∧
        gameStreamConsumer mHashFunc gconf (GameServer.mTcpServer s3, d4) = Ok (s5, d5) ∧
        conns (registry s5) !! l2 = Some (c5, i2) ∧ outgoing c5 = outgoing c2 ++ msg_wire resp ∧ writing c5 = true ∧
        inbox d5 requests readers = Some [] ∧ inbox d5 answers gservers = Some [] ∧
        is_Some (pel d5 answers gservers !! id).
Proof.
  intros [Hk Hd Hnm Ht] Had Hcode Hi Hne Hid1 Hid2 Hrep.
  destruct (game_takes mu ru tid hs l c i s now answer junkPort junkLoad Had) as (s1 & c1 & Hon & Hr1 & _).
  destruct (update_sim op nowDB collections_differ info lastUpload b st Hrep) as (b' & Hu & Hrep').
  rewrite <- Hk in *.
  destruct (@upload_pass D _ _ _ _ _ M (mongo_database op nowDB) dconf junkScene nowDB lastUpload _ mu (GameServer.mRedis s) b b' 1 info
    Ht Hid1 ltac:(lia) (ds_request mu c (ad_message _ _ _ _ _ _ _ _ Had)) Hcode Hi Hu) as (d2 & Hread & Hcache & Hid1' & Hot).
  exists s1, d2, b'. split; [exact Hon|]. split; [rewrite Hr1; exact Hread|]. split; [exact Hrep'|].
  intros ml rl tid2 hs2 l2 c2 i2 s2 names now2 answer2 junkPort2 junkLoad2 nowDB2 Hred Had2 Hok Hcode2 Ea En resp Hf.
  destruct (game_takes ml rl tid2 hs2 l2 c2 i2 s2 now2 answer2 junkPort2 junkLoad2 Had2) as (s3 & c3 & Hon2 & Hr3 & Ht3 & Hc3 & t & Hside).
  rewrite Hred in Hr3. rewrite <- Ea, <- En in Hcache. rewrite <- Hk in *.
  destruct (@load_pass D _ _ _ _ _ M (mongo_database op nowDB2) dconf junkScene nowDB2 _ ml d2 b' 0 (Msg.CHARACTER_DATA mu)
    Ht Hid1' ltac:(lia) (ds_request ml c2 (ad_message _ _ _ _ _ _ _ _ Had2)) Hnm Hcode2 Hcache Hne Hf) as (d4 & Hread2 & _ & Hid4 & Hot4).
  assert (waits answers gservers d4) as Hw4.
  { destruct (Hot answers gservers Hd) as [E1 E2], (Hot4 answers gservers Hd) as [E3 E4], Hid2 as [E5 E6].
    split; [by rewrite E3, E1, E5|lia]. }
  pose proof (ad_conn _ _ _ _ _ _ _ _ Had2) as Hl2. pose proof Hside as (E1 & _ & _ & E4 & E5 & _ & _ & _ & _ & E10).
  assert (registry_ok mHashFunc (GameServer.mTcpServer s3) names) as Hok3.
  { rewrite Ht3. eapply set_conn_ok; [done|exact Hl2|exact E1|exact E10]. }
  assert (conns (registry (GameServer.mTcpServer s3)) !! l2 = Some (c3, i2)) as Hl3.
  { rewrite Ht3. cbn. by rewrite lookup_alter_eq, Hl2. }
  destruct (rok_conn _ _ _ Hok _ _ _ Hl2) as (Hn2 & _).
  destruct (answer_delivered (GameServer.mTcpServer s3) names d4 l2 c3 i2 (answer_carrier (BROKER_DB_4_GAME_KEY dconf)
    (msg_wire resp) (character_carrier gconf (MSG_NAME (Msg.base ml)) (msg_wire ml) c2)) Hok3 Hl3 Hn2 Hw4)
    as (d5 & id & Hcons & Hp & Hi5 & Ho5).
  eexists s3, _, _, d5, (putToBuffer (msg_wire resp) c3), id.
  split; [exact Hon2|]. split; [rewrite Hr3; exact Hread2|]. split; [exact Hcons|]. split_and!.
  - cbn. by rewrite lookup_alter_eq, Hl3.
  - rewrite outgoing_putToBuffer. f_equal. unfold outgoing. cbn in E4, E5. by rewrite E4, E5.
  - done.
  - rewrite (Ho5 _ _ (not_eq_sym Hd)). apply Hid4.
  - exact Hi5.
  - exact Hp.
Qed.
End Character.

(** ** Witness: the broker of [Cluster], whose hashes are those of [store] *)

#[export, refine] Instance queues_hash : HashLaws queues := { hash q key := hash (rest q) key }.
Proof.
  - intros key fs q. destruct (hset_law key fs (rest q)) as (s & n & Hs & Hk & Ho).
    exists (mkQueues s (waiting q) (added q)), n. cbn [hset queues_redis]. unfold lift. by rewrite Hs.
  - intros key f q. cbn [hget queues_redis]. unfold lift. rewrite hget_law. by destruct q.
  - intros key secs q Hs. destruct (expire_law key secs (rest q) Hs) as (s & He & Hh).
    exists (mkQueues s (waiting q) (added q)). cbn [expire queues_redis]. unfold lift. by rewrite He.
Defined.

#[export, refine] Instance queues_kind : KindLaws queues := {}.
Proof.
  - intros key fs q d' k g. split_and!; reflexivity.
  - intros key secs q d' k g. subst d'. cbn [expire queues_redis store_redis]. unfold lift.
    destruct (decide (hash_of (rest q) key = ∅)); split_and!; reflexivity.
  - intros key id kvs n q k. reflexivity.
  - intros key g c id ms n q k. cbn. destruct (waiting q key g) as [[|[? ?] ?]|]; reflexivity.
  - intros key g id q k. cbn. unfold lift. cbn. by destruct (entries_of (rest q) key g !! id).
Defined.

Definition demo_object : Msg.t := Msg.mk (TimestampMessage.new 1000) 0 0 [] [] [].
Definition demo_objects : gmap str GameServer.handler := {[ lit "GAME_CHARACTER_MSG" := HCharacter demo_object ]}.
Definition demo_up : Msg.t := demo_game code.game.GAME_UPLOAD_CHARACTER_CODE (msg_wire DBServer.demo_character).
Definition demo_down : Msg.t := demo_game code.game.GAME_LOAD_CHARACTER_CODE [].
Definition demo_server_with (m : Msg.t) (q : queues) : GameServer (R := Z) (D := queues) :=
  mkGame (demo_conn_of (msg_wire m)) {[ 1 := demo_objects ]} ∅ q [].

Lemma demo_at_door m q : ds_message DBServer.defaultConf m → 7 <= strlen (encs msg_types (msg_members m)) →
  content (demo_client (msg_wire m)) = msg_wire m → ¬ lone (demo_client (msg_wire m)) →
  Z.of_nat (kept_lens [m]) < size_max →
  at_door DBServer.defaultConf m demo_object 1 demo_objects 0%nat (demo_client (msg_wire m)) 1 (demo_server_with m q).
Proof.
  intros Hm He Hc Hl Hk. destruct Hm as [Hn Hf]. split; [by split| |].
  - split; [exact Hf|exact He|exact Hc|exact Hl|apply lookup_singleton_eq| |done|].
    + change (MSG_NAME (msg_base m)) with (MSG_NAME (Msg.base m)). rewrite Hn. apply lookup_singleton_eq.
    + exact Hk.
  - assert (snd <$> conns (registry demo_accepted) !! 0%nat = Some 1) as Ha by (vm_compute; reflexivity).
    change (alter (λ ci, (demo_client (msg_wire m), ci.2)) 0%nat (conns (registry demo_accepted)) !! 0%nat =
      Some (demo_client (msg_wire m), 1)).
    rewrite lookup_alter_eq. destruct (conns (registry demo_accepted) !! 0%nat) as [[c0 i0]|]; [|done].
    cbn in Ha |- *. by injection Ha as ->.
Qed.

(** The character as the database server reads it from the upload. *)
Definition demo_info : CharacterInfo.t :=
  match CharacterInfo.deserialize (data_of (msg_wire DBServer.demo_character)) newCharacterInfo with
  | Ok info => info
  | Err _ => newCharacterInfo
  end.

Lemma demo_message code data : ds_message DBServer.defaultConf (demo_game code data) ↔ fresh_message (demo_game code data).
Proof. split; [by intros []|by split]. Qed.

Lemma demo_answer_fresh :
  fresh_message (loaded DBServer.defaultConf 6000 7 demo_down (msg_wire DBServer.demo_character)).
Proof. split; [by split_and!|]. split; [|by vm_compute]. repeat constructor; by vm_compute. Qed.

Lemma character_round_trip_witness :
  let s := demo_server_with demo_up demo_queues in
  ∃ s1 d2 b', GameServer.on_message GameServer.defaultConf 1 5000 0 0 0 0%nat s = Ok s1 ∧
    @game_reader queues memory _ (mongo_database demo_op 5000) DBServer.defaultConf 5000 7
      (GameServer.mRedis s1, stored_memory demo_op demo_off) = Ok (d2, b') ∧
    represents demo_op b' (spec_update 5000 demo_info false demo_off) ∧
    ∃ s3 d4 s5 d5 c5, GameServer.on_message GameServer.defaultConf 1 6000 0 0 0 0%nat (demo_server_with demo_down d2) = Ok s3 ∧
      @game_reader queues memory _ (mongo_database demo_op 6000) DBServer.defaultConf 6000 7 (GameServer.mRedis s3, b') = Ok (d4, b') ∧
      gameStreamConsumer demo_hash GameServer.defaultConf (GameServer.mTcpServer s3, d4) = Ok (s5, d5) ∧
      conns (registry s5) !! 0%nat = Some (c5, 1) ∧
      outgoing c5 = outgoing (demo_client (msg_wire demo_down)) ++
        msg_wire (loaded DBServer.defaultConf 6000 7 demo_down (msg_wire DBServer.demo_character)).
Proof.
  intros s.
  assert (fresh_message demo_up) as Hup by (split; [done|]; split; [|by vm_compute]; repeat constructor; by vm_compute).
  assert (fresh_message demo_down) as Hdown by (split; [done|]; split; [|by vm_compute]; repeat constructor; by vm_compute).
  destruct (character_round_trip demo_hash GameServer.defaultConf DBServer.defaultConf 7 demo_op ltac:(done) demo_up demo_object
    1 demo_objects 0%nat (demo_client (msg_wire demo_up)) 1 s 5000 0 0 0 false demo_info
    (stored_memory demo_op demo_off) demo_off 5000) as (s1 & d2 & b' & H1 & H2 & H3 & Hload).
  - split; done.
  - apply demo_at_door; [by apply demo_message|by vm_compute..].
  - reflexivity.
  - by vm_compute.
  - done.
  - split; [reflexivity|by vm_compute].
  - split; [reflexivity|by vm_compute].
  - apply demo_off_represents.
  - exists s1, d2, b'. split; [exact H1|]. split; [exact H2|]. split; [exact H3|].
    destruct (Hload demo_down demo_object 1 demo_objects 0%nat (demo_client (msg_wire demo_down)) 1 (demo_server_with demo_down d2)
      {[ demo_id := 0%nat ]} 6000 0 0 0 6000) as (s3 & d4 & s5 & d5 & c5 & id & L1 & L2 & L3 & L4 & L5 & _).
    + reflexivity.
    + apply demo_at_door; [by apply demo_message|by vm_compute..].
    + apply demo_conn_ok.
    + reflexivity.
    + reflexivity.
    + reflexivity.
    + exact demo_answer_fresh.
    + exists s3, d4, s5, d5, c5. split; [exact L1|]. split; [exact L2|]. split; [exact L3|]. split; [exact L4|exact L5].
Defined.
