(* ===== verification/RThread.v ===== *)
(** * A thread with a queue of its own: [Base/thread/RThread.h], [RThread.inl]

    The worker takes tasks from a shared queue into its own, a few at a time
    according to its load, and runs them; other threads send it commands.  One
    step of [work] is what the worker does between two moments at which the other
    threads may come in; a command is a step as well.  The plain members that both
    sides touch are read and written whole. *)

From Stdlib Require Import SpecFloat.
From S2P Require Import Prelude.
From S2P Require SafeQueue.

Local Open Scope Z_scope.

(** ** [ThreadParam.h] *)

Definition RTHREAD_MAX_LOAD_NUMBER : Z := 10.
Definition MAX_THREADS_NUM : Z := 256.

(** ** [float] *)

(** Conversion of an integer, and of a [double], to [float]. *)
Definition float_of (z : Z) : spec_float := binary_normalize 24 128 z 0 false.
Definition to_float (d : spec_float) : spec_float :=
  match d with
  | S754_finite s m e => binary_normalize 24 128 (if s then Zneg m else Zpos m) e s
  | d => d
  end.
Definition double_quotient (a b : Z) : spec_float :=
  SFdiv 53 1024 (binary_normalize 53 1024 a 0 false) (binary_normalize 53 1024 b 0 false).

(** [const float mLowpoint = 0.2], [mHighpoint = 0.8]. *)
Definition mLowpoint : spec_float := to_float (double_quotient 2 10).
Definition mHighpoint : spec_float := to_float (double_quotient 8 10).

Inductive CommandType := NONE | STOP | RESUME | CANCEL | UPDATE_DATA | CANCEL_WHEN_COMPLETE | CAPTURE_FUTURE_SWITCH.

#[export] Instance CommandType_eq_dec : EqDecision CommandType.
Proof. solve_decision. Defined.

Section RThread.
Context {W T : Type}.   (* what the tasks change, and what they return *)

(** ** Tasks *)

(** [mFunc] runs the task.  What it returns is the value the future then holds,
    or nothing when there is no future or it holds an exception.  An exception
    that leaves [mFunc] ends the program. *)
Record TaskWithFuture := mkTask { mFunc : W → res (W * option T); valid : bool }.

(** What [std::bind] makes of a function and its arguments: the function returns
    nothing and may throw, or returns a value or throws. *)
Inductive callable := returns_void (f : W → W * bool) | returns_value (f : W → W * option T).

(** [addTask]: a function that returns a value is put in a packaged task, which
    keeps the exception for the future. *)
Definition make_task (c : callable) : TaskWithFuture :=
  match c with
  | returns_void f => mkTask (λ w, let '(w, threw) := f w in if threw : bool then Err Uncaught else Ok (w, None)) false
  | returns_value f => mkTask (λ w, Ok (f w)) true
  end.

Definition addTask (c : callable) (q : list TaskWithFuture) : list TaskWithFuture := SafeQueue.push (make_task c) q.

(** ** The thread *)

Record RThread := mkRThread {
  mRunning : bool; mStop : bool; mInactive : bool; mWipe : bool;
  mMaxLoadSize : Z; mMiddleweight : Z; mLightweight : Z;
  mCaptureFuture : bool;
  mTaskResult : option T;                     (* [None]: not written yet *)
  mTasks : list TaskWithFuture;
  mExternalTasksPtr : option nat;             (* a weak pointer: where it points, if anywhere *)
  mResultsQueuePtr : option nat }.

Definition newRThread : RThread :=
  mkRThread false false false false RTHREAD_MAX_LOAD_NUMBER
    (RTHREAD_MAX_LOAD_NUMBER / 2) (RTHREAD_MAX_LOAD_NUMBER / 4) false None [] None None.

Definition set_running b (r : RThread) : RThread :=
  mkRThread b (mStop r) (mInactive r) (mWipe r) (mMaxLoadSize r) (mMiddleweight r) (mLightweight r)
    (mCaptureFuture r) (mTaskResult r) (mTasks r) (mExternalTasksPtr r) (mResultsQueuePtr r).
Definition set_stop b (r : RThread) : RThread :=
  mkRThread (mRunning r) b (mInactive r) (mWipe r) (mMaxLoadSize r) (mMiddleweight r) (mLightweight r)
    (mCaptureFuture r) (mTaskResult r) (mTasks r) (mExternalTasksPtr r) (mResultsQueuePtr r).
Definition set_inactive b (r : RThread) : RThread :=
  mkRThread (mRunning r) (mStop r) b (mWipe r) (mMaxLoadSize r) (mMiddleweight r) (mLightweight r)
    (mCaptureFuture r) (mTaskResult r) (mTasks r) (mExternalTasksPtr r) (mResultsQueuePtr r).
Definition set_wipe b (r : RThread) : RThread :=
  mkRThread (mRunning r) (mStop r) (mInactive r) b (mMaxLoadSize r) (mMiddleweight r) (mLightweight r)
    (mCaptureFuture r) (mTaskResult r) (mTasks r) (mExternalTasksPtr r) (mResultsQueuePtr r).
Definition set_weights a b c (r : RThread) : RThread :=
  mkRThread (mRunning r) (mStop r) (mInactive r) (mWipe r) a b c
    (mCaptureFuture r) (mTaskResult r) (mTasks r) (mExternalTasksPtr r) (mResultsQueuePtr r).
Definition set_capture b (r : RThread) : RThread :=
  mkRThread (mRunning r) (mStop r) (mInactive r) (mWipe r) (mMaxLoadSize r) (mMiddleweight r) (mLightweight r)
    b (mTaskResult r) (mTasks r) (mExternalTasksPtr r) (mResultsQueuePtr r).
Definition set_result v (r : RThread) : RThread :=
  mkRThread (mRunning r) (mStop r) (mInactive r) (mWipe r) (mMaxLoadSize r) (mMiddleweight r) (mLightweight r)
    (mCaptureFuture r) v (mTasks r) (mExternalTasksPtr r) (mResultsQueuePtr r).
Definition set_tasks l (r : RThread) : RThread :=
  mkRThread (mRunning r) (mStop r) (mInactive r) (mWipe r) (mMaxLoadSize r) (mMiddleweight r) (mLightweight r)
    (mCaptureFuture r) (mTaskResult r) l (mExternalTasksPtr r) (mResultsQueuePtr r).
Definition set_external p (r : RThread) : RThread :=
  mkRThread (mRunning r) (mStop r) (mInactive r) (mWipe r) (mMaxLoadSize r) (mMiddleweight r) (mLightweight r)
    (mCaptureFuture r) (mTaskResult r) (mTasks r) p (mResultsQueuePtr r).
Definition set_results p (r : RThread) : RThread :=
  mkRThread (mRunning r) (mStop r) (mInactive r) (mWipe r) (mMaxLoadSize r) (mMiddleweight r) (mLightweight r)
    (mCaptureFuture r) (mTaskResult r) (mTasks r) (mExternalTasksPtr r) p.

(** Where the worker is in [work]; [p] is the local [shared_ptr] that [lock] made. *)
Inductive point :=
  | Start
  | Loop                                                   (* at [while (mRunning)] *)
  | Wait                                                   (* in [mCond.wait], about to test [mStop] *)
  | Drowsy                                                 (* has seen [mStop] set and does not sleep yet *)
  | Asleep
  | Lock                                                   (* at [mExternalTasksPtr.lock()] *)
  | Body (p : option nat)                                  (* at [if (!mTasks.empty())] *)
  | Running (p : option nat) (t : TaskWithFuture)          (* has popped [t] *)
  | Taken (p : option nat) (ts : list TaskWithFuture)      (* of [addTasks(p, true)], [ts] not yet pushed *)
  | Level (p : option nat)                                 (* at [addByLevel] *)
  | Leveled (ts : list TaskWithFuture)                     (* in [addByLevel], [ts] not yet pushed *)
  | Wipe                                                   (* at the second [while] *)
  | Wiping (t : TaskWithFuture)
  | Exited.

(** The thread, its worker, the queues that are alive, and the world. *)
Record system := mkSystem {
  thread : RThread;
  pc : point;
  tasksQueues : gmap nat (list TaskWithFuture);
  resultsQueues : gmap nat (list T);
  world : W }.

Definition at_point (p : point) (s : system) : system := mkSystem (thread s) p (tasksQueues s) (resultsQueues s) (world s).
Definition with_thread (f : RThread → RThread) (s : system) : system :=
  mkSystem (f (thread s)) (pc s) (tasksQueues s) (resultsQueues s) (world s).
Definition set_queue (l : nat) (q : list TaskWithFuture) (s : system) : system :=
  mkSystem (thread s) (pc s) (<[l := q]> (tasksQueues s)) (resultsQueues s) (world s).
Definition set_resultsQueues q (s : system) : system := mkSystem (thread s) (pc s) (tasksQueues s) q (world s).
Definition set_world w (s : system) : system := mkSystem (thread s) (pc s) (tasksQueues s) (resultsQueues s) w.

(** [weak_ptr::lock] *)
Definition lock {A} (p : option nat) (queues : gmap nat A) : option nat :=
  match p with
  | Some l => match queues !! l with Some _ => Some l | None => None end
  | None => None
  end.

Definition linkExternalTasks (extPtr : option nat) (s : system) : system * bool :=
  let s := with_thread (set_external extPtr) s in (s, bool_decide (is_Some (lock extPtr (tasksQueues s)))).
Definition externalTasksLinked (s : system) : bool := bool_decide (is_Some (lock (mExternalTasksPtr (thread s)) (tasksQueues s))).
Definition linkResultsQueue (exPtr : option nat) (s : system) : system * bool :=
  let s := with_thread (set_results exPtr) s in (s, bool_decide (is_Some (lock exPtr (resultsQueues s)))).
Definition resultsQueueLinked (s : system) : bool := bool_decide (is_Some (lock (mResultsQueuePtr (thread s)) (resultsQueues s))).

Definition isRunning (r : RThread) : bool := mRunning r.
Definition isCaptureFuture (r : RThread) : bool := mCaptureFuture r.
Definition isInactive (r : RThread) : bool := mInactive r.
Definition maxLoad (r : RThread) : Z := mMaxLoadSize r.
Definition getTaskResult (r : RThread) : option T := mTaskResult r.
Definition size (r : RThread) : Z := Z.of_nat (SafeQueue.size (mTasks r)).
Definition loadRatio (r : RThread) : spec_float := SFdiv 24 128 (float_of (size r)) (float_of (mMaxLoadSize r)).
Definition getRatioAndMax (r : RThread) : spec_float * Z := (loadRatio r, mMaxLoadSize r).

(** ** Commands *)

(** [mCond.notify_one()]: a worker that is not asleep does not hear it. *)
Definition notify_one (s : system) : system := match pc s with Asleep => at_point Wait s | _ => s end.

Definition stop (s : system) : system := with_thread (set_external None) (notify_one (with_thread (set_stop true) s)).
Definition resume (extPtr : option nat) (s : system) : system :=
  notify_one (with_thread (set_external extPtr ∘ set_stop false) s).
Definition cancel (s : system) : system :=
  with_thread (λ r, set_tasks (SafeQueue.clear (mTasks r)) (set_external None (set_running false r))) s.
Definition cancelWhenComplete (s : system) : system :=
  with_thread (set_external None ∘ set_wipe true ∘ set_running false) s.

(** A division by a zero divisor. *)
Definition updateMember (maxLoadSize middleweightDiv lightweightDiv : Z) (p : option nat) (s : system) : res system :=
  if (middleweightDiv =? 0) || (lightweightDiv =? 0) then Err DivByZero else
  Ok (with_thread (set_external p ∘ set_weights maxLoadSize (maxLoadSize / middleweightDiv) (maxLoadSize / lightweightDiv)) s).

Definition command (cmd : CommandType) (extPtr : option nat) (maxSize middleweightDiv lightweightDiv : Z) (s : system) : res system :=
  match cmd with
  | NONE => Ok s
  | STOP => Ok (stop s)
  | RESUME => Ok (resume extPtr s)
  | CANCEL => Ok (cancel s)
  | UPDATE_DATA => updateMember maxSize middleweightDiv lightweightDiv extPtr s
  | CANCEL_WHEN_COMPLETE => Ok (cancelWhenComplete s)
  | CAPTURE_FUTURE_SWITCH => Ok (with_thread (λ r, set_capture (negb (mCaptureFuture r)) r) s)
  end.

(** ** The worker *)

(** What [addTasks] takes from the queue before it pushes it to [mTasks].  A timed
    wait that ends without a task takes none. *)
Definition addTasks (p : option nat) (wait : bool) (n : Z) (s : system) : system * list TaskWithFuture :=
  if n <? 1 then (s, []) else
  match p with
  | None => (s, [])
  | Some l =>
      let q := default [] (tasksQueues s !! l) in
      if n =? 1 then
        let '(q, t) := if wait then SafeQueue.waitAndPop_for q else SafeQueue.pop q in
        (set_queue l q s, option_list t)
      else
        let x := Z.min n (mMaxLoadSize (thread s) / 2) in
        let '(q, temp, _) := SafeQueue.popN [] (Z.to_nat x) q in (set_queue l q s, temp)
  end.

Definition addByLevel (p : option nat) (middleweight lightweight : Z) (s : system) : system * list TaskWithFuture :=
  match p with
  | None => (s, [])
  | Some _ =>
      let rate := loadRatio (thread s) in
      if SFleb mHighpoint rate then (s, []) else
      if SFltb rate mHighpoint && SFleb mLowpoint rate then addTasks p false lightweight s else
      if SFltb rate mLowpoint then addTasks p false middleweight s else (s, [])
  end.

(** [taskWithFut.mFunc()] and the capture of its result, which throws what the
    task threw. *)
Definition run_task (t : TaskWithFuture) (s : system) : res system :=
  '(w, r) ← mFunc t (world s);
  let s := set_world w s in
  if mCaptureFuture (thread s) && valid t then
    v ← of_option Uncaught r;
    let s := with_thread (set_result (Some v)) s in
    match lock (mResultsQueuePtr (thread s)) (resultsQueues s) with
    | Some l => Ok (set_resultsQueues (<[l := SafeQueue.push v (default [] (resultsQueues s !! l))]> (resultsQueues s)) s)
    | None => Ok s
    end
  else Ok s.

(** One step of [work]: [None] when the worker sleeps or has left, and with the new
    state the tasks it ran. *)
Definition work (s : system) : option (res (system * list TaskWithFuture)) :=
  let r := thread s in
  match pc s with
  | Start => Some (Ok (at_point Loop (with_thread (set_running true) s), []))
  | Loop => Some (Ok (if mRunning r then at_point Wait s else
                      if mWipe r then at_point Wipe s else at_point Exited (with_thread (set_inactive true) s), []))
  | Wait => Some (Ok (if mStop r then at_point Drowsy s else at_point Lock s, []))
  | Drowsy => Some (Ok (at_point Asleep s, []))
  | Asleep => None
  | Lock => Some (Ok (at_point (Body (lock (mExternalTasksPtr r) (tasksQueues s))) s, []))
  | Body p =>
      if negb (SafeQueue.empty (mTasks r)) then
        match SafeQueue.pop (mTasks r) with
        | (l, Some t) => Some (Ok (at_point (Running p t) (with_thread (set_tasks l) s), []))
        | (_, None) => None
        end
      else
        match p with
        | None => Some (Ok (at_point Exited s, []))
        | Some _ => let '(s, ts) := addTasks p true 1 s in Some (Ok (at_point (Taken p ts) s, []))
        end
  | Running p t => Some (s ← run_task t s; Ok (at_point (Level p) s, [t]))
  | Taken p (t :: ts) => Some (Ok (at_point (Taken p ts) (with_thread (set_tasks (SafeQueue.push t (mTasks r))) s), []))
  | Taken p [] => Some (Ok (at_point (Level p) s, []))
  | Level p => let '(s, ts) := addByLevel p (mMiddleweight r) (mLightweight r) s in Some (Ok (at_point (Leveled ts) s, []))
  | Leveled (t :: ts) => Some (Ok (at_point (Leveled ts) (with_thread (set_tasks (SafeQueue.push t (mTasks r))) s), []))
  | Leveled [] => Some (Ok (at_point Loop s, []))
  | Wipe =>
      if negb (SafeQueue.empty (mTasks r)) then
        match SafeQueue.pop (mTasks r) with
        | (l, Some t) => Some (Ok (at_point (Wiping t) (with_thread (set_tasks l) s), []))
        | (_, None) => None
        end
      else Some (Ok (at_point Exited (with_thread (set_inactive true) s), []))
  | Wiping t => Some (s ← run_task t s; Ok (at_point Wipe s, [t]))
  | Exited => None
  end.

(** ** Schedules *)

Inductive event :=
  | Work                                                       (* the worker goes on *)
  | Command (cmd : CommandType) (extPtr : option nat) (maxSize middleweightDiv lightweightDiv : Z)
  | Link (extPtr : option nat)                                 (* [linkExternalTasks] *)
  | Push (l : nat) (t : TaskWithFuture)                        (* somebody adds a task to a live queue *)
  | Release (l : nat).                                         (* the last owner of a queue lets it go *)

(** The queue the worker's own [shared_ptr] keeps alive. *)
Definition kept (p : point) : option nat :=
  match p with Body p | Running p _ | Taken p _ | Level p => p | _ => None end.

Definition step (e : event) (s : system) : option (res (system * list TaskWithFuture)) :=
  match e with
  | Work => work s
  | Command cmd extPtr a b c => Some (s ← command cmd extPtr a b c s; Ok (s, []))
  | Link extPtr => Some (Ok ((linkExternalTasks extPtr s).1, []))
  | Push l t => q ← tasksQueues s !! l; Some (Ok (set_queue l (SafeQueue.push t q) s, []))
  | Release l =>
      if decide (kept (pc s) = Some l) then None else
      Some (Ok (mkSystem (thread s) (pc s) (delete l (tasksQueues s)) (resultsQueues s) (world s), []))
  end.

(** A schedule, and the tasks run over it. *)
Inductive run : system → list event → system → list TaskWithFuture → Prop :=
  | run_nil s : run s [] s []
  | run_cons s e s1 ts es s2 rs : step e s = Some (Ok (s1, ts)) → run s1 es s2 rs → run s (e :: es) s2 (ts ++ rs).

(** ** The order of the tasks *)

Definition queue (l : nat) (s : system) : list TaskWithFuture := default [] (tasksQueues s !! l).

(** What the worker has popped and not run, and what it took and not yet pushed. *)
Definition running (p : point) : list TaskWithFuture := match p with Running _ t | Wiping t => [t] | _ => [] end.
Definition moving (p : point) : list TaskWithFuture := match p with Taken _ ts | Leveled ts => ts | _ => [] end.

Definition held (s : system) : list TaskWithFuture := running (pc s) ++ mTasks (thread s) ++ moving (pc s).
Definition pending (l : nat) (s : system) : list TaskWithFuture := held s ++ queue l s.

(** Nobody but [l] is linked. *)
Definition only (l : nat) (p : option nat) : Prop := p = None ∨ p = Some l.
Definition serves (l : nat) (s : system) : Prop := only l (mExternalTasksPtr (thread s)) ∧ only l (kept (pc s)).

(** Commands that throw no task away and link no other queue. *)
Definition harmless (l : nat) (e : event) : Prop :=
  match e with
  | Work => True
  | Command cmd p _ _ _ => cmd ≠ CANCEL ∧ only l p
  | Link p => only l p
  | Push l' _ => l' = l
  | Release l' => l' ≠ l
  end.

Definition pushed (e : event) : list TaskWithFuture := match e with Push _ t => [t] | _ => [] end.

Lemma run_task_frame t s s' : run_task t s = Ok s' →
  mTasks (thread s') = mTasks (thread s) ∧ mExternalTasksPtr (thread s') = mExternalTasksPtr (thread s) ∧
  mMaxLoadSize (thread s') = mMaxLoadSize (thread s) ∧ mMiddleweight (thread s') = mMiddleweight (thread s) ∧
  mLightweight (thread s') = mLightweight (thread s) ∧ mRunning (thread s') = mRunning (thread s) ∧
  mWipe (thread s') = mWipe (thread s) ∧ mStop (thread s') = mStop (thread s) ∧
  tasksQueues s' = tasksQueues s ∧ pc s' = pc s.
Proof.
  unfold run_task. destruct (mFunc t (world s)) as [[w r]|]; cbn [mbind res_bind]; [|done].
  destruct (mCaptureFuture _ && valid t); [|intros [= <-]; by split_and!].
  destruct r as [v|]; cbn [of_option mbind res_bind]; [|done].
  destruct (lock _ _); intros [= <-]; by split_and!.
Qed.

Lemma run_task_inactive t s s' : run_task t s = Ok s' → mInactive (thread s') = mInactive (thread s).
Proof.
  unfold run_task. destruct (mFunc t (world s)) as [[w r]|]; cbn [mbind res_bind]; [|done].
  destruct (mCaptureFuture _ && valid t); [|by intros [= <-]].
  destruct r as [v|]; cbn [of_option mbind res_bind]; [|done]. destruct (lock _ _); by intros [= <-].
Qed.

Lemma queue_set l q s : queue l (set_queue l q s) = q.
Proof. unfold queue. cbn. by rewrite lookup_insert_eq. Qed.

(** [addTasks] moves a prefix of the queue. *)
Lemma addTasks_spec l p wait n s : only l p → ∃ k, 
  (Z.of_nat k <= Z.max 0 n) ∧ (addTasks p wait n s).2 = take k (queue l s) ∧
  queue l (addTasks p wait n s).1 = drop k (queue l s) ∧
  thread (addTasks p wait n s).1 = thread s ∧ pc (addTasks p wait n s).1 = pc s.
Proof.
  intros Hp. unfold addTasks. destruct (n <? 1) eqn:Hn; [by exists 0%nat; split_and!; [lia|..]|].
  destruct Hp as [->| ->]; [by exists 0%nat; split_and!; [lia|..]|]. to_prop. fold (queue l s).
  destruct (n =? 1) eqn:H1; to_prop.
  - exists 1%nat. assert ((if wait then SafeQueue.waitAndPop_for (queue l s) else SafeQueue.pop (queue l s))
      = (drop 1 (queue l s), head (queue l s))) as -> by (by destruct wait, (queue l s)).
    cbn [fst snd]. rewrite queue_set. split_and!; try done; [lia|]. by destruct (queue l s).
  - rewrite SafeQueue.popN_spec. cbn [fst snd app]. rewrite queue_set.
    eexists. split_and!; try done. lia.
Qed.

(** How many tasks a load asks for. *)
Definition wanted (rate : spec_float) (middleweight lightweight : Z) : Z :=
  if SFleb mHighpoint rate then 0 else
  if SFltb rate mHighpoint && SFleb mLowpoint rate then Z.max 0 lightweight else
  if SFltb rate mLowpoint then Z.max 0 middleweight else 0.

Lemma addByLevel_spec l p m b s : only l p → ∃ k,
  (Z.of_nat k <= wanted (loadRatio (thread s)) m b) ∧
  (addByLevel p m b s).2 = take k (queue l s) ∧ queue l (addByLevel p m b s).1 = drop k (queue l s) ∧
  thread (addByLevel p m b s).1 = thread s ∧ pc (addByLevel p m b s).1 = pc s.
Proof.
  intros Hp. unfold addByLevel, wanted.
  destruct p as [l'|]; [|exists 0%nat; repeat case_if; split_and!; (done || lia)].
  destruct (SFleb mHighpoint _); [by exists 0%nat; split_and!|].
  destruct (_ && _); [by apply addTasks_spec|]. destruct (SFltb _ mLowpoint); [by apply addTasks_spec|].
  by exists 0%nat; split_and!.
Qed.

Lemma lock_only {A} l p (q : gmap nat A) : only l p → only l (lock p q).
Proof. intros [->| ->]; [by left|]. unfold lock. destruct (q !! l); [by right|by left]. Qed.

Lemma command_conserves l cmd p a b c s s' : command cmd p a b c s = Ok s' → cmd ≠ CANCEL → only l p → serves l s →
  pending l s' = pending l s ∧ serves l s'.
Proof.
  intros Hc Hcmd Hp [He Hk]. destruct cmd; try done; cbn [command] in Hc.
  - by injection Hc as <-.
  - injection Hc as <-. destruct s as [r p']; destruct p'; (split; [done|]); (split; [by left|done]).
  - injection Hc as <-. destruct s as [r p']; destruct p'; (split; [done|]); (split; [done|first [by left|done]]).
  - unfold updateMember in Hc. case_if_in Hc; [done|]. injection Hc as <-. by repeat split.
  - injection Hc as <-. repeat split; first [done|by left|by auto].
  - by injection Hc as <-.
Qed.

Lemma work_conserves l s s' ts : work s = Some (Ok (s', ts)) → serves l s → pending l s = ts ++ pending l s' ∧ serves l s'.
Proof.
  intros Hw [He Hk]. unfold work, pending, held, serves in *.
  destruct (pc s) as [| | | | | |p|p t|p mv|p|mv| |t|] eqn:Hpc; cbn [running moving kept] in *; try done.
  - injection Hw as <- <-. by repeat split.
  - injection Hw as <- <-. repeat case_if; repeat split; first [done|by left|by auto].
  - injection Hw as <- <-. repeat case_if; repeat split; first [done|by left|by auto].
  - injection Hw as <- <-. by repeat split.
  - injection Hw as <- <-. repeat split; [done|]. by apply lock_only.
  - destruct (mTasks (thread s)) as [|t l'] eqn:Hts; cbn [negb SafeQueue.empty SafeQueue.pop] in Hw.
    + destruct p as [p|]; [|injection Hw as <- <-; cbn; rewrite Hts; repeat split; first [done|by left|by auto]].
      destruct (addTasks_spec l (Some p) true 1 s Hk) as (k & _ & Ht & Hq & Hth & Hpc').
      destruct (addTasks (Some p) true 1 s) as [s1 ts1]. cbn [fst snd] in *. injection Hw as <- <-.
      cbn. rewrite Hth, Hts. change (queue l (at_point (Taken (Some p) ts1) s1)) with (queue l s1).
      rewrite Hq, Ht. cbn. by rewrite take_drop.
    + injection Hw as <- <-. cbn. by rewrite !app_nil_r.
  - destruct (run_task t s) as [s1|] eqn:Hr; [|done]. injection Hw as <- <-.
    destruct (run_task_frame _ _ _ Hr) as (Ht & He' & _ & _ & _ & _ & _ & _ & Hq & _).
    cbn. rewrite Ht, He'. unfold queue. cbn. by rewrite Hq.
  - destruct mv as [|t mv]; injection Hw as <- <-; cbn; [done|].
    split; [|done]. unfold SafeQueue.push. by rewrite <- !app_assoc.
  - destruct (addByLevel_spec l p (mMiddleweight (thread s)) (mLightweight (thread s)) s Hk) as (k & _ & Ht & Hq & Hth & Hpc').
    destruct (addByLevel p _ _ s) as [s1 ts1]. cbn [fst snd] in *. injection Hw as <- <-.
    cbn. rewrite Hth. change (queue l (at_point (Leveled ts1) s1)) with (queue l s1).
    rewrite Hq, Ht, app_nil_r, <- app_assoc, take_drop. repeat split; [done|by left].
  - destruct mv as [|t mv]; injection Hw as <- <-; cbn; [done|].
    split; [|done]. unfold SafeQueue.push. by rewrite <- !app_assoc.
  - destruct (mTasks (thread s)) as [|t l'] eqn:Hts; cbn [negb SafeQueue.empty SafeQueue.pop] in Hw; injection Hw as <- <-;
      cbn; rewrite ?Hts; repeat split; first [done|by left|by auto].
  - destruct (run_task t s) as [s1|] eqn:Hr; [|done]. injection Hw as <- <-.
    destruct (run_task_frame _ _ _ Hr) as (Ht & He' & _ & _ & _ & _ & _ & _ & Hq & _).
    cbn. rewrite Ht, He'. unfold queue. cbn. rewrite Hq. repeat split; [done|by left].
Qed.

Lemma thread_step_conserves l e s s' ts : step e s = Some (Ok (s', ts)) → harmless l e → serves l s →
  pending l s ++ pushed e = ts ++ pending l s' ∧ serves l s'.
Proof.
  destruct e as [|cmd p a b c|p|l' t|l']; cbn [step harmless pushed]; intros Hs He Hser; rewrite ?app_nil_r.
  - by apply work_conserves.
  - destruct He as [Hc Hp]. destruct (command cmd p a b c s) as [s1|] eqn:E; [|done]. injection Hs as <- <-.
    by destruct (command_conserves l _ _ _ _ _ _ _ E Hc Hp Hser) as [-> ?].
  - injection Hs as <- <-. destruct Hser. by split.
  - subst l'. destruct (tasksQueues s !! l) as [q|] eqn:Hq; [|done]. injection Hs as <- <-. split; [|by destruct Hser].
    unfold pending. rewrite queue_set. unfold queue.
    unfold SafeQueue.SafeQueue, SafeQueue.push in *. rewrite Hq. cbn. by rewrite app_assoc.
  - case_decide; [done|]. injection Hs as <- <-. split; [|by destruct Hser].
    unfold pending, queue, held. cbn. by rewrite lookup_delete_ne.
Qed.

(** ** The load of a thread *)

(** How many tasks a thread of the initial sizes may have of its own at each point. *)
Definition cap (p : point) : nat := match p with Running _ _ | Level _ => 8 | Taken _ _ => 1 | _ => 9 end.

Definition bounded (s : system) : Prop :=
  mMaxLoadSize (thread s) = 10 ∧ mMiddleweight (thread s) = 5 ∧ mLightweight (thread s) = 2 ∧
  (length (mTasks (thread s)) + length (moving (pc s)) <= cap (pc s))%nat.

Lemma wanted_room (n : nat) : (n <= 8)%nat → Z.of_nat n + wanted (SFdiv 24 128 (float_of (Z.of_nat n)) (float_of 10)) 5 2 <= 9.
Proof. intros Hn. do 9 (destruct n as [|n]; [vm_compute; discriminate|]). lia. Qed.

Definition resizes (e : event) : bool := match e with Command UPDATE_DATA _ _ _ _ => true | _ => false end.

Lemma work_bounded s s' ts : work s = Some (Ok (s', ts)) → bounded s → bounded s'.
Proof.
  intros Hw (Hm & Hmid & Hlow & Hb). unfold work, bounded in *.
  destruct (pc s) as [| | | | | |p|p t|p mv|p|mv| |t|]; cbn [moving cap length] in *; try done.
  - injection Hw as <- <-. cbn. split_and!; (done || lia).
  - injection Hw as <- <-. repeat case_if; cbn; split_and!; (done || lia).
  - injection Hw as <- <-. repeat case_if; cbn; split_and!; (done || lia).
  - injection Hw as <- <-. cbn. split_and!; (done || lia).
  - injection Hw as <- <-. cbn. split_and!; (done || lia).
  - destruct (mTasks (thread s)) as [|t l'] eqn:Hts; cbn [negb SafeQueue.empty SafeQueue.pop] in Hw.
    + destruct p as [p|]; [|injection Hw as <- <-; cbn; rewrite Hts; split_and!; (done || cbn; lia)].
      destruct (addTasks_spec p (Some p) true 1 s) as (k & Hk & Ht & _ & Hth & _); [by right|].
      destruct (addTasks (Some p) true 1 s) as [s1 ts1]. cbn [fst snd] in *. injection Hw as <- <-.
      cbn. rewrite Hth, Hts, Ht, length_take. split_and!; (done || cbn; lia).
    + injection Hw as <- <-. cbn in *. split_and!; (done || lia).
  - destruct (run_task t s) as [s1|] eqn:Hr; [|done]. injection Hw as <- <-.
    destruct (run_task_frame _ _ _ Hr) as (Ht & _ & E1 & E2 & E3 & _).
    cbn. rewrite Ht, E1, E2, E3. split_and!; (done || lia).
  - destruct mv as [|t mv]; injection Hw as <- <-; cbn in *; unfold SafeQueue.push; rewrite ?length_app; cbn;
      split_and!; (done || lia).
  - destruct (addByLevel_spec (default 0%nat p) p 5 2 s) as (k & Hk & Ht & _ & Hth & _); [destruct p; by (left + right)|].
    rewrite Hmid, Hlow in Hw.
    destruct (addByLevel p _ _ s) as [s1 ts1]. cbn [fst snd] in *. injection Hw as <- <-.
    cbn. rewrite Hth, Ht, length_take. split_and!; [done..|].
    unfold loadRatio, size, SafeQueue.size in Hk. rewrite Hm in Hk.
    pose proof (wanted_room (length (mTasks (thread s))) ltac:(lia)). lia.
  - destruct mv as [|t mv]; injection Hw as <- <-; cbn in *; unfold SafeQueue.push; rewrite ?length_app; cbn;
      split_and!; (done || lia).
  - destruct (mTasks (thread s)) as [|t l'] eqn:Hts; cbn [negb SafeQueue.empty SafeQueue.pop] in Hw; injection Hw as <- <-;
      cbn in *; rewrite ?Hts; split_and!; (done || cbn; lia).
  - destruct (run_task t s) as [s1|] eqn:Hr; [|done]. injection Hw as <- <-.
    destruct (run_task_frame _ _ _ Hr) as (Ht & _ & E1 & E2 & E3 & _).
    cbn. rewrite Ht, E1, E2, E3. split_and!; (done || lia).
Qed.

Lemma notify_one_bounded s : bounded s → bounded (notify_one s).
Proof. unfold notify_one, bounded. by destruct (pc s) eqn:E; cbn; rewrite ?E. Qed.

Lemma step_bounded e s s' ts : step e s = Some (Ok (s', ts)) → resizes e = false → bounded s → bounded s'.
Proof.
  intros Hs He Hb. destruct e as [|cmd p a b c|p|l t|l]; cbn [step] in Hs.
  - by eapply work_bounded.
  - destruct cmd; try done; injection Hs as <- <-; try exact Hb.
    + apply (notify_one_bounded (with_thread (set_stop true) s) Hb).
    + by apply notify_one_bounded.
    + unfold bounded, cancel in *. cbn. rewrite SafeQueue.clear_empty. cbn. destruct Hb as (? & ? & ? & ?). split_and!; (done || lia).
  - by injection Hs as <- <-.
  - destruct (tasksQueues s !! l); [|done]. by injection Hs as <- <-.
  - case_decide; [done|]. by injection Hs as <- <-.
Qed.

(** ** A thread that is told to finish *)

(** The functions of these tasks return. *)
Definition tame (t : TaskWithFuture) : Prop := ∀ w, ∃ w' r, mFunc t w = Ok (w', r) ∧ (valid t = true → is_Some r).

Lemma run_task_tame t s : tame t → ∃ s', run_task t s = Ok s'.
Proof.
  intros Ht. destruct (Ht (world s)) as (w & r & Hf & Hr). unfold run_task. rewrite Hf. cbn [mbind res_bind].
  destruct (_ && valid t) eqn:Hv; [|by eexists]. to_prop. destruct Hr as [v ->]; [done|]. cbn [of_option mbind res_bind].
  destruct (lock _ _); by eexists.
Qed.

Record finishing (l : nat) (s : system) : Prop := {
  fin_running : mRunning (thread s) = false;
  fin_wipe : mWipe (thread s) = true;
  fin_stop : mStop (thread s) = false;
  fin_serves : serves l s;
  fin_tame : Forall tame (pending l s) }.

Lemma work_queue l s s' ts : work s = Some (Ok (s', ts)) → serves l s → ∃ k, queue l s' = drop k (queue l s).
Proof.
  intros Hw [_ Hk]. unfold work in Hw.
  destruct (pc s) as [| | | | | |p|p t|p mv|p|mv| |t|]; cbn [kept] in Hk; try done;
    try (injection Hw as <- <-; exists 0%nat; by repeat case_if).
  - destruct (mTasks (thread s)) as [|t l']; cbn [negb SafeQueue.empty SafeQueue.pop] in Hw.
    + destruct p as [p|]; [|injection Hw as <- <-; by exists 0%nat].
      destruct (addTasks_spec l (Some p) true 1 s Hk) as (k & _ & _ & Hq & _).
      destruct (addTasks (Some p) true 1 s) as [s1 ts1]. injection Hw as <- <-. by exists k.
    + injection Hw as <- <-. by exists 0%nat.
  - destruct (run_task t s) as [s1|] eqn:Hr; [|done]. injection Hw as <- <-. exists 0%nat.
    destruct (run_task_frame _ _ _ Hr) as (_ & _ & _ & _ & _ & _ & _ & _ & Hq & _). unfold queue. cbn. by rewrite Hq.
  - destruct mv; injection Hw as <- <-; by exists 0%nat.
  - destruct (addByLevel_spec l p (mMiddleweight (thread s)) (mLightweight (thread s)) s Hk) as (k & _ & _ & Hq & _).
    destruct (addByLevel p _ _ s) as [s1 ts1]. injection Hw as <- <-. by exists k.
  - destruct mv; injection Hw as <- <-; by exists 0%nat.
  - destruct (mTasks (thread s)); cbn [negb SafeQueue.empty SafeQueue.pop] in Hw; injection Hw as <- <-; by exists 0%nat.
  - destruct (run_task t s) as [s1|] eqn:Hr; [|done]. injection Hw as <- <-. exists 0%nat.
    destruct (run_task_frame _ _ _ Hr) as (_ & _ & _ & _ & _ & _ & _ & _ & Hq & _). unfold queue. cbn. by rewrite Hq.
Qed.

Lemma work_flags s s' ts : work s = Some (Ok (s', ts)) → pc s ≠ Start →
  mRunning (thread s') = mRunning (thread s) ∧ mWipe (thread s') = mWipe (thread s) ∧ mStop (thread s') = mStop (thread s).
Proof.
  intros Hw Hst. unfold work in Hw.
  destruct (pc s) as [| | | | | |p|p t|p mv|p|mv| |t|]; try done; try (injection Hw as <- <-; by repeat case_if).
  - destruct (mTasks (thread s)) as [|t l']; cbn [negb SafeQueue.empty SafeQueue.pop] in Hw; [|by injection Hw as <- <-].
    destruct p as [p|]; [|by injection Hw as <- <-].
    destruct (addTasks_spec p (Some p) true 1 s) as (k & _ & _ & _ & Hth & _); [by right|].
    destruct (addTasks (Some p) true 1 s) as [s1 ts1]. injection Hw as <- <-. cbn in *. by rewrite Hth.
  - destruct (run_task t s) as [s1|] eqn:Hr; [|done]. injection Hw as <- <-. by apply run_task_frame in Hr as (? & ? & ? & ? & ? & ? & ? & ? & _).
  - destruct mv; by injection Hw as <- <-.
  - destruct (addByLevel_spec (default 0%nat p) p (mMiddleweight (thread s)) (mLightweight (thread s)) s) as (k & _ & _ & _ & Hth & _);
      [destruct p; by (left + right)|].
    destruct (addByLevel p _ _ s) as [s1 ts1]. injection Hw as <- <-. cbn in *. by rewrite Hth.
  - destruct mv; by injection Hw as <- <-.
  - destruct (mTasks (thread s)); cbn [negb SafeQueue.empty SafeQueue.pop] in Hw; by injection Hw as <- <-.
  - destruct (run_task t s) as [s1|] eqn:Hr; [|done]. injection Hw as <- <-. by apply run_task_frame in Hr as (? & ? & ? & ? & ? & ? & ? & ? & _).
Qed.

Lemma work_finishing l s s' ts : work s = Some (Ok (s', ts)) → pc s ≠ Start → finishing l s → finishing l s'.
Proof.
  intros Hw Hp [H1 H2 H3 H4 H5]. destruct (work_flags _ _ _ Hw Hp) as (E1 & E2 & E3).
  destruct (work_conserves l _ _ _ Hw H4) as [Hc Hs]. split; [congruence..|done|].
  rewrite Hc in H5. by apply Forall_app in H5 as [_ ?].
Qed.

(** Left alone, the worker runs what it holds, and perhaps some more of the queue,
    and leaves. *)
Definition finishes (l : nat) (s : system) : Prop :=
  ∃ n s' k, run s (replicate n Work) s' (held s ++ take k (queue l s)) ∧
    pc s' = Exited ∧ mInactive (thread s') = true ∧ held s' = [] ∧ queue l s' = drop k (queue l s).

Lemma finishes_back l s s1 ts : work s = Some (Ok (s1, ts)) → serves l s → finishes l s1 → finishes l s.
Proof.
  intros Hw Hs (n & s' & k & Hr & Hp & Hi & Hh & Hq).
  destruct (work_queue l _ _ _ Hw Hs) as [k1 Hk1]. destruct (work_conserves l _ _ _ Hw Hs) as [Hc _].
  exists (S n), s', (k1 + k)%nat. unfold pending in Hc. rewrite Hk1 in *.
  assert (held s ++ take (k1 + k) (queue l s) = ts ++ held s1 ++ take k (drop k1 (queue l s))) as ->.
  { rewrite <- take_take_drop, app_assoc. rewrite <- (take_drop k1 (queue l s)) in Hc at 1.
    rewrite !app_assoc in Hc. apply app_inv_tail in Hc. by rewrite Hc, app_assoc. }
  split_and!; [|done..|by rewrite Hq, drop_drop]. cbn [replicate]. by econstructor.
Qed.

Lemma finishes_wipe l s : pc s = Wipe → finishing l s → finishes l s.
Proof.
  intros Hp Hf. remember (mTasks (thread s)) as ts eqn:Hts. revert s Hp Hf Hts.
  induction ts as [|t ts IH]; intros s Hp Hf Hts.
  - assert (work s = Some (Ok (at_point Exited (with_thread (set_inactive true) s), []))) as Hw
      by (unfold work; by rewrite Hp, <- Hts).
    exists 1%nat, (at_point Exited (with_thread (set_inactive true) s)), 0%nat.
    unfold held. rewrite Hp. cbn. rewrite <- Hts. split_and!; try done. cbn.
    eapply (run_cons s Work _ [] []); [exact Hw|constructor].
  - assert (work s = Some (Ok (at_point (Wiping t) (with_thread (set_tasks ts) s), []))) as Hw
      by (unfold work; by rewrite Hp, <- Hts).
    eapply finishes_back; [exact Hw|apply Hf|].
    assert (finishing l (at_point (Wiping t) (with_thread (set_tasks ts) s))) as Hf1
      by (eapply work_finishing; [exact Hw|by rewrite Hp|done]).
    destruct (run_task_tame t (at_point (Wiping t) (with_thread (set_tasks ts) s))) as [s2 Hr].
    { pose proof (fin_tame _ _ Hf1) as Ht. by apply Forall_cons in Ht as [? _]. }
    assert (work (at_point (Wiping t) (with_thread (set_tasks ts) s)) = Some (Ok (at_point Wipe s2, [t]))) as Hw1
      by (unfold work; cbn; by rewrite Hr).
    eapply finishes_back; [exact Hw1|apply Hf1|].
    apply IH; [done|eapply work_finishing; [exact Hw1|done|done]|].
    cbn. by apply run_task_frame in Hr as [-> _].
Qed.

(** From each point to the next: a step that leads to a state that finishes. *)
Lemma finishes_step l s s1 ts : work s = Some (Ok (s1, ts)) → pc s ≠ Start → finishing l s →
  (finishing l s1 → finishes l s1) → finishes l s.
Proof. intros Hw Hp Hf Hn. eapply finishes_back; [exact Hw|apply Hf|]. apply Hn. by eapply work_finishing. Qed.

Lemma finishes_loop l s : pc s = Loop → finishing l s → finishes l s.
Proof.
  intros Hp Hf. eapply finishes_step; [|by rewrite Hp|done|].
  - unfold work. rewrite Hp, (fin_running _ _ Hf), (fin_wipe _ _ Hf). done.
  - by apply finishes_wipe.
Qed.

Lemma finishes_leveled l ts s : pc s = Leveled ts → finishing l s → finishes l s.
Proof.
  revert s. induction ts as [|t ts IH]; intros s Hp Hf;
    (eapply finishes_step; [unfold work; by rewrite Hp|by rewrite Hp|done|]); [by apply finishes_loop|by apply IH].
Qed.

Lemma finishes_level l p s : pc s = Level p → finishing l s → finishes l s.
Proof.
  intros Hp Hf. destruct (addByLevel p (mMiddleweight (thread s)) (mLightweight (thread s)) s) as [s1 ts] eqn:E.
  eapply finishes_step; [unfold work; rewrite Hp, E; done|by rewrite Hp|done|]. by apply (finishes_leveled l ts).
Qed.

Lemma finishes_taken l p ts s : pc s = Taken p ts → finishing l s → finishes l s.
Proof.
  revert s. induction ts as [|t ts IH]; intros s Hp Hf;
    (eapply finishes_step; [unfold work; by rewrite Hp|by rewrite Hp|done|]); [by apply (finishes_level l p)|by apply IH].
Qed.

Lemma finishes_running l p t s : pc s = Running p t → finishing l s → finishes l s.
Proof.
  intros Hp Hf. destruct (run_task_tame t s) as [s1 Hr].
  { pose proof (fin_tame _ _ Hf) as Ht. unfold pending, held in Ht. rewrite Hp in Ht. by apply Forall_cons in Ht as [? _]. }
  eapply finishes_step; [unfold work; rewrite Hp, Hr; done|by rewrite Hp|done|]. by apply (finishes_level l p).
Qed.

Lemma finishes_body l p s : pc s = Body p → (is_Some p ∨ mTasks (thread s) ≠ []) → finishing l s → finishes l s.
Proof.
  intros Hp Hb Hf. destruct (mTasks (thread s)) as [|t ts] eqn:Hts.
  - destruct Hb as [[l' ->]|]; [|done]. destruct (addTasks (Some l') true 1 s) as [s1 ts1] eqn:E.
    eapply finishes_step; [unfold work; rewrite Hp, Hts; cbn [negb SafeQueue.empty]; rewrite E; done|by rewrite Hp|done|].
    by apply (finishes_taken l (Some l') ts1).
  - eapply finishes_step; [unfold work; rewrite Hp, Hts; done|by rewrite Hp|done|]. by apply (finishes_running l p t).
Qed.

Lemma finishes_lock l s : pc s = Lock → mTasks (thread s) ≠ [] → finishing l s → finishes l s.
Proof.
  intros Hp Hb Hf. eapply finishes_step; [unfold work; by rewrite Hp|by rewrite Hp|done|].
  intros Hf1. eapply finishes_body; [done|by right|done].
Qed.

Lemma finishes_wait l s : pc s = Wait → mTasks (thread s) ≠ [] → finishing l s → finishes l s.
Proof.
  intros Hp Hb Hf. eapply finishes_step; [unfold work; rewrite Hp, (fin_stop _ _ Hf); done|by rewrite Hp|done|].
  by apply finishes_lock.
Qed.

(** Where a worker that is told to finish gets to the end of [work].  One that
    has nothing to do and finds its queue gone returns early. *)
Definition ready (s : system) : Prop :=
  match pc s with
  | Start | Drowsy | Asleep | Exited => False
  | Wait | Lock | Body None => mTasks (thread s) ≠ []
  | _ => True
  end.

Lemma ready_finishes l s : ready s → finishing l s → finishes l s.
Proof.
  intros Hr Hf. unfold ready in Hr. destruct (pc s) as [| | | | | |p|p t|p mv|p|mv| |t|] eqn:Hp; try done.
  - by apply finishes_loop.
  - by apply finishes_wait.
  - by apply finishes_lock.
  - eapply finishes_body; [done| |done]. destruct p; [left; by eexists|by right].
  - by eapply finishes_running.
  - by eapply finishes_taken.
  - by eapply finishes_level.
  - by eapply finishes_leveled.
  - by apply finishes_wipe.
  - destruct (run_task_tame t s) as [s1 Hrun].
    { pose proof (fin_tame _ _ Hf) as Ht. unfold pending, held in Ht. rewrite Hp in Ht. by apply Forall_cons in Ht as [? _]. }
    eapply finishes_step; [unfold work; rewrite Hp, Hrun; done|by rewrite Hp|done|]. by apply finishes_wipe.
Qed.

(** ** A worker that has left, and one that sleeps *)

Lemma exited_stays es s s' ts : run s es s' ts → pc s = Exited → pc s' = Exited ∧ ts = [] ∧ mInactive (thread s') = mInactive (thread s).
Proof.
  induction 1 as [|s e s1 ts1 es s2 rs Hst _ IH]; intros Hp; [done|].
  assert (pc s1 = Exited ∧ ts1 = [] ∧ mInactive (thread s1) = mInactive (thread s)) as (Hp1 & -> & <-); [|by apply IH].
  destruct e as [|cmd p a b c|p|l t|l]; cbn [step] in Hst.
  - unfold work in Hst. by rewrite Hp in Hst.
  - destruct cmd; cbn [command] in Hst; try (injection Hst as <- <-); try done.
    + unfold stop, notify_one. cbn. by rewrite Hp.
    + unfold resume, notify_one. cbn. by rewrite Hp.
    + unfold updateMember in Hst. case_if_in Hst; [done|]. by injection Hst as <- <-.
  - by injection Hst as <- <-.
  - destruct (tasksQueues s !! l); [|done]. by injection Hst as <- <-.
  - case_decide; [done|]. by injection Hst as <- <-.
Qed.

Definition notifies (e : event) : bool := match e with Command STOP _ _ _ _ | Command RESUME _ _ _ _ => true | _ => false end.

Lemma asleep_stays es s s' ts : run s es s' ts → Forall (λ e, notifies e = false) es → pc s = Asleep →
  pc s' = Asleep ∧ ts = [] ∧ mStop (thread s') = mStop (thread s).
Proof.
  induction 1 as [|s e s1 ts1 es s2 rs Hst _ IH]; intros He Hp; [done|]. apply Forall_cons in He as [He1 He].
  assert (pc s1 = Asleep ∧ ts1 = [] ∧ mStop (thread s1) = mStop (thread s)) as (Hp1 & -> & <-); [|by apply IH].
  destruct e as [|cmd p a b c|p|l t|l]; cbn [step] in Hst.
  - unfold work in Hst. by rewrite Hp in Hst.
  - destruct cmd; try done; cbn [command] in Hst; try (injection Hst as <- <-); try done.
    unfold updateMember in Hst. case_if_in Hst; [done|]. by injection Hst as <- <-.
  - by injection Hst as <- <-.
  - destruct (tasksQueues s !! l); [|done]. by injection Hst as <- <-.
  - case_decide; [done|]. by injection Hst as <- <-.
Qed.

Lemma thread_run_app es1 es2 s s' ts : run s (es1 ++ es2) s' ts →
  ∃ s1 ts1 ts2, run s es1 s1 ts1 ∧ run s1 es2 s' ts2 ∧ ts = ts1 ++ ts2.
Proof.
  revert s ts. induction es1 as [|e es1 IH]; intros s ts Hr; [by exists s, [], ts; repeat split; [constructor|]|].
  inversion Hr as [|? ? s1 ts1 ? ? rs Hst Hr']; subst. destruct (IH _ _ Hr') as (s2 & a & b & H1 & H2 & ->).
  exists s2, (ts1 ++ a), b. split_and!; [by econstructor|done|by rewrite app_assoc].
Qed.

(** A schedule as a function. *)
Fixpoint exec (es : list event) (s : system) : option (system * list TaskWithFuture) :=
  match es with
  | [] => Some (s, [])
  | e :: es =>
      match step e s with
      | Some (Ok (s1, ts)) => '(s2, rs) ← exec es s1; Some (s2, ts ++ rs)
      | _ => None
      end
  end.

Lemma exec_run es s s' ts : exec es s = Some (s', ts) → run s es s' ts.
Proof.
  revert s s' ts. induction es as [|e es IH]; intros s s' ts; cbn [exec]; [intros [= <- <-]; constructor|].
  destruct (step e s) as [[[s1 ts1]|]|] eqn:E; [|done..].
  destruct (exec es s1) as [[s2 rs]|] eqn:E2; [|done]. intros [= <- <-]. econstructor; [exact E|by apply IH].
Qed.

Lemma run_exec es s s' ts : run s es s' ts → exec es s = Some (s', ts).
Proof. induction 1 as [|s e s1 ts es s2 rs Hst _ IH]; [done|]. cbn [exec]. by rewrite Hst, IH. Qed.

(** A thread nothing has been done with, its worker about to start. *)
Definition created (qs : gmap nat (list TaskWithFuture)) (rs : gmap nat (list T)) (w : W) : system :=
  mkSystem newRThread Start qs rs w.

(** ** Properties *)

(** C11: A thread loses no task and runs them in the order they came: whatever its
    load and whenever it is stopped, resumed or told to finish, the tasks it ran,
    then those it holds, then those still in its queue, are the ones there were at
    first and then those pushed. *)
Theorem tasks_in_order l s es s' ts :
  run s es s' ts → serves l s → Forall (harmless l) es →
  pending l s ++ mjoin (pushed <$> es) = ts ++ pending l s'.
Proof.
  induction 1 as [|s e s1 ts1 es s2 rs Hst _ IH]; intros Hs He; [by rewrite app_nil_r|].
  apply Forall_cons in He as [He1 He]. destruct (thread_step_conserves l _ _ _ _ Hst He1 Hs) as [Hc Hs1].
  rewrite fmap_cons, mjoin_cons, app_assoc, Hc, <- !app_assoc. f_equal. by apply IH.
Qed.

(** C36: A thread of the initial sizes never has more than nine tasks of its own, one
    less than its maximal load, whatever is linked, pushed and commanded, as long as
    its sizes are not updated. *)
Theorem load_bounded qs rs w es s' ts :
  run (created qs rs w) es s' ts → Forall (λ e, resizes e = false) es →
  size (thread s') <= 9 ∧ size (thread s') < mMaxLoadSize (thread s').
Proof.
  intros Hr He. assert (bounded s') as (Hm & _ & _ & Hb).
  { assert (bounded (created qs rs w)) as Hb by (unfold bounded; cbn; split_and!; (done || lia)).
    induction Hr as [|s e s1 ts1 es s2 rs' Hst _ IH]; [done|]. apply Forall_cons in He as [He1 He].
    apply IH; [done|]. by eapply step_bounded. }
  rewrite Hm. unfold size, SafeQueue.size. assert (cap (pc s') <= 9)%nat by (destruct (pc s'); cbn; lia). lia.
Qed.

(** C34: A thread that is told to finish does: if it is not stopped, has started, and
    has something to do or has not yet looked for its queue, its worker runs all it
    holds, and perhaps a few more tasks it had already found the queue for, in
    order, marks itself inactive and ends. *)
Theorem told_to_finish l p a b c s s1 :
  command CANCEL_WHEN_COMPLETE p a b c s = Ok s1 → mStop (thread s) = false → serves l s → Forall tame (pending l s) → ready s →
  ∃ n s' k, run s1 (replicate n Work) s' (held s ++ take k (queue l s)) ∧
    pc s' = Exited ∧ mInactive (thread s') = true ∧ held s' = [] ∧ queue l s' = drop k (queue l s).
Proof.
  intros [= <-] Hst [He Hk] Ht Hr. apply (ready_finishes l (cancelWhenComplete s)); [exact Hr|].
  split; [done..|exact Hst|by split; [left|]|exact Ht].
Qed.

(** A thread whose worker looks for its queue before anybody links one is lost:
    the worker takes five steps and has returned, and whatever is linked, pushed and
    commanded afterwards, it runs nothing and is not marked inactive. *)
Theorem linked_too_late qs rs w es s' ts :
  run (created qs rs w) (replicate 5 Work ++ es) s' ts →
  ts = [] ∧ pc s' = Exited ∧ mInactive (thread s') = false.
Proof.
  intros Hr. apply thread_run_app in Hr as (s1 & ts1 & ts2 & H1 & H2 & ->).
  apply run_exec in H1. injection H1 as <- <-.
  by destruct (exited_stays _ _ _ _ H2 eq_refl) as (? & -> & ?).
Qed.

(** A resume can be missed: it comes after the worker saw that it is stopped and
    before it sleeps.  The worker then sleeps although nothing stops it, until
    the next stop or resume: no task is run, and neither cancel wakes it. *)
Theorem resume_missed p a b c s es s' ts :
  pc s = Drowsy → run s (Command RESUME p a b c :: Work :: es) s' ts → Forall (λ e, notifies e = false) es →
  mStop (thread s') = false ∧ pc s' = Asleep ∧ ts = [].
Proof.
  intros Hp Hr He. inversion Hr as [|? ? s1 ts1 ? ? rs Hst Hr1]; subst. injection Hst as <- <-.
  inversion Hr1 as [|? ? s2 ts2 ? ? rs2 Hst2 Hr2]; subst. cbn [step] in Hst2.
  unfold resume, notify_one, work in Hst2. cbn [with_thread pc] in Hst2. rewrite Hp in Hst2. cbn [with_thread pc] in Hst2.
  rewrite Hp in Hst2. injection Hst2 as <- <-.
  by destruct (asleep_stays _ _ _ _ Hr2 He eq_refl) as (? & -> & ->).
Qed.
End RThread.
Arguments TaskWithFuture : clear implicits.
Arguments callable : clear implicits.
Arguments RThread : clear implicits.
Arguments system : clear implicits.
Arguments event : clear implicits.
Arguments point : clear implicits.

(** ** Witnesses *)

(** Tasks that note their number and return it. *)
Definition numbered (n : Z) : TaskWithFuture (list Z) Z := make_task (returns_value (λ w, (w ++ [n], Some n))).

Definition linked_early : list (event (list Z) Z) :=
  [Link (Some 0%nat); Push 0 (numbered 1); Push 0 (numbered 2); Push 0 (numbered 3)] ++ replicate 17 Work
  ++ [Push 0 (numbered 4)] ++ replicate 8 Work.

Definition new_thread : system (list Z) Z := created {[ 0%nat := [] ]} ∅ [].

(** A schedule that runs ends somewhere. *)
Lemma exec_ends {W T} (es : list (event W T)) s : is_Some (exec es s) → ∃ s' ts, exec es s = Some (s', ts) ∧ run s es s' ts.
Proof. intros [[s' ts] E]. exists s', ts. split; [done|by apply exec_run]. Qed.

Lemma tasks_in_order_witness :
  world ∘ fst <$> exec linked_early new_thread = Some [1; 2] ∧
  ∃ s' ts, exec linked_early new_thread = Some (s', ts) ∧
    pending 0 new_thread ++ mjoin (pushed <$> linked_early) = ts ++ pending 0 s'.
Proof.
  split; [by vm_compute|]. destruct (exec_ends linked_early new_thread) as (s' & ts & E & Hr); [by vm_compute; eexists|].
  exists s', ts. split; [exact E|].
  apply (tasks_in_order 0); [exact Hr|by split; left|]. repeat constructor; by right.
Defined.

Lemma load_bounded_witness :
  (λ r, size (thread r.1)) <$> exec linked_early new_thread = Some 2 ∧
  ∃ s' ts, exec linked_early new_thread = Some (s', ts) ∧ size (thread s') <= 9 ∧ size (thread s') < mMaxLoadSize (thread s').
Proof.
  split; [by vm_compute|]. destruct (exec_ends linked_early new_thread) as (s' & ts & E & Hr); [by vm_compute; eexists|].
  exists s', ts. split; [exact E|]. apply (load_bounded _ _ _ _ _ _ Hr). by repeat constructor.
Defined.

(** A worker with a task of its own at the top of its loop. *)
Definition busy_thread : system (list Z) Z :=
  mkSystem (set_tasks [numbered 7] (set_external (Some 0%nat) (set_running true newRThread))) Lock {[ 0%nat := [numbered 8] ]} ∅ [].

Lemma told_to_finish_witness :
  ∃ s1 n s' k, command CANCEL_WHEN_COMPLETE None 10 2 4 busy_thread = Ok s1 ∧
    run s1 (replicate n Work) s' ([numbered 7] ++ take k [numbered 8]) ∧ pc s' = Exited ∧
    mInactive (thread s') = true ∧ held s' = [] ∧ queue 0 s' = drop k [numbered 8].
Proof.
  eexists. destruct (told_to_finish 0 None 10 2 4 busy_thread _ eq_refl) as (n & s' & k & Hr).
  - reflexivity.
  - split; [by right|by left].
  - repeat constructor; (intros w; eexists _, _; split; [reflexivity|by eexists]).
  - done.
  - exists n, s', k. split; [reflexivity|]. exact Hr.
Defined.

Definition linked_late : list (event (list Z) Z) :=
  replicate 5 Work ++ [Link (Some 0%nat); Push 0 (numbered 1); Command CANCEL_WHEN_COMPLETE None 10 2 4].

Lemma linked_too_late_witness :
  ∃ s' ts, exec linked_late new_thread = Some (s', ts) ∧ ts = [] ∧ pc s' = Exited ∧ mInactive (thread s') = false.
Proof.
  destruct (exec_ends linked_late new_thread) as (s' & ts & E & Hr); [by vm_compute; eexists|].
  exists s', ts. split; [exact E|]. exact (linked_too_late _ _ _ _ _ _ Hr).
Defined.

Definition drowsy_thread : system (list Z) Z :=
  mkSystem (set_stop true (set_running true newRThread)) Drowsy {[ 0%nat := [numbered 1] ]} ∅ [].
Definition resumed : list (event (list Z) Z) :=
  [Command RESUME (Some 0%nat) 10 2 4; Work; Push 0 (numbered 2); Command CANCEL None 10 2 4].

Lemma resume_missed_witness :
  ∃ s' ts, exec resumed drowsy_thread = Some (s', ts) ∧ mStop (thread s') = false ∧ pc s' = Asleep ∧ ts = [].
Proof.
  destruct (exec_ends resumed drowsy_thread) as (s' & ts & E & Hr); [by vm_compute; eexists|].
  exists s', ts. split; [exact E|]. eapply (resume_missed _ _ _ _ drowsy_thread); [reflexivity|exact Hr|by repeat constructor].
Defined.
