(* ===== verification/ThreadEnd.v ===== *)
(** * The end of a thread: the destructor of [Base/thread/RThread.h]

    [~RThread] lets go of the shared queue, throws the thread's own tasks away and
    waits for its worker.  The worker goes on between the three. *)

From S2P Require Import Prelude.
From S2P Require SafeQueue.
From S2P Require Import RThread.

Local Open Scope Z_scope.

Section ThreadEnd.
Context {W T : Type}.
Abbreviation system := (system W T).
Abbreviation TaskWithFuture := (TaskWithFuture W T).

(** ** The destructor *)

Definition reset_external (s : system) : system := with_thread (set_external None) s.
Definition clear_tasks (s : system) : system := with_thread (λ r, set_tasks (SafeQueue.clear (mTasks r)) r) s.
(** [mThread.join()] returns when the worker has left; a thread is joinable until
    then. *)
Definition join_returns (s : system) : bool := match pc s with Exited => true | _ => false end.

(** Where the destructor is. *)
Inductive destroying := Entered | Reset | Cleared | Gone.

Definition destroyRThread (d : destroying) (s : system) : option (destroying * system) :=
  match d with
  | Entered => Some (Reset, reset_external s)
  | Reset => Some (Cleared, clear_tasks s)
  | Cleared => if join_returns s then Some (Gone, s) else None
  | Gone => None
  end.

(** The worker and the destructor by turns; the tasks run meanwhile. *)
Inductive dies : destroying → system → list TaskWithFuture → destroying → system → Prop :=
  | dies_done d s : dies d s [] d s
  | dies_work d s s1 ts d2 s2 rs : work s = Some (Ok (s1, ts)) → dies d s1 rs d2 s2 → dies d s (ts ++ rs) d2 s2
  | dies_destroy d s d1 s1 d2 s2 rs : destroyRThread d s = Some (d1, s1) → dies d1 s1 rs d2 s2 → dies d s rs d2 s2.

(** ** A worker that is let go *)

Record let_go (l : nat) (s : system) : Prop := {
  lg_external : mExternalTasksPtr (thread s) = None;
  lg_stop : mStop (thread s) = false;
  lg_serves : serves l s;
  lg_tame : Forall tame (pending l s) }.

Lemma work_links (s s' : system) ts : work s = Some (Ok (s', ts)) →
  mExternalTasksPtr (thread s') = mExternalTasksPtr (thread s) ∧ mStop (thread s') = mStop (thread s).
Proof.
  intros Hw. destruct (pc s) eqn:Hp; cycle 1.
  all: try (split; [|apply (work_flags _ _ _ Hw); by rewrite Hp]).
  all: unfold work in Hw; rewrite Hp in Hw; try (injection Hw as <- <-; by repeat case_if); try done.
  - destruct (mTasks (thread s)) as [|t l']; cbn [negb SafeQueue.empty SafeQueue.pop] in Hw; [|by injection Hw as <- <-].
    destruct p as [p|]; [|by injection Hw as <- <-].
    destruct (addTasks_spec p (Some p) true 1 s) as (k & _ & _ & _ & Hth & _); [by right|].
    destruct (addTasks (Some p) true 1 s) as [s1 ts1]. injection Hw as <- <-. cbn in *. by rewrite Hth.
  - destruct (run_task t s) as [s1|] eqn:Hr; [|done]. injection Hw as <- <-. by apply run_task_frame in Hr as (_ & ? & _).
  - destruct ts0; by injection Hw as <- <-.
  - destruct (addByLevel_spec (default 0%nat p) p (mMiddleweight (thread s)) (mLightweight (thread s)) s) as (k & _ & _ & _ & Hth & _);
      [destruct p; by (left + right)|].
    destruct (addByLevel p _ _ s) as [s1 ts1]. injection Hw as <- <-. cbn in *. by rewrite Hth.
  - destruct ts0; by injection Hw as <- <-.
  - destruct (mTasks (thread s)); cbn [negb SafeQueue.empty SafeQueue.pop] in Hw; by injection Hw as <- <-.
  - destruct (run_task t s) as [s1|] eqn:Hr; [|done]. injection Hw as <- <-. by apply run_task_frame in Hr as (_ & ? & _).
Qed.

Lemma work_let_go l (s s' : system) ts : work s = Some (Ok (s', ts)) → let_go l s → let_go l s'.
Proof.
  intros Hw [H1 H2 H3 H4]. destruct (work_links _ _ _ Hw) as [E1 E2].
  destruct (work_conserves l _ _ _ Hw H3) as [Hc Hs]. split; [congruence..|done|].
  rewrite Hc in H4. by apply Forall_app in H4 as [_ ?].
Qed.

(** It has been told to run, or to finish. *)
Definition willing (s : system) : Prop := mRunning (thread s) = true ∨ mWipe (thread s) = true ∨ pc s = Start.

Lemma work_willing (s s' : system) ts : work s = Some (Ok (s', ts)) → willing s → willing s'.
Proof.
  intros Hw Ha. assert (pc s = Start ∨ pc s ≠ Start) as [Hp|Hp] by (destruct (pc s); (by left) || by right).
  - unfold work in Hw. rewrite Hp in Hw. injection Hw as <- _. by left.
  - destruct (work_flags _ _ _ Hw Hp) as (E1 & E2 & _). destruct Ha as [Ha|[Ha|Ha]]; [left|right; left|done]; congruence.
Qed.

(** Left alone, the worker runs what it still comes to, in order, and leaves. *)
Definition leaves (l : nat) (s : system) : Prop :=
  ∃ n s' ts, run s (replicate n Work) s' ts ∧ pc s' = Exited ∧ pending l s = ts ++ pending l s' ∧ (willing s → held s' = []).

Lemma leaves_back l (s s1 : system) ts : work s = Some (Ok (s1, ts)) → let_go l s → (let_go l s1 → leaves l s1) → leaves l s.
Proof.
  intros Hw Hl Hn. destruct (Hn (work_let_go _ _ _ _ Hw Hl)) as (n & s' & rs & Hr & Hp & Hc & Hh).
  exists (S n), s', (ts ++ rs). split_and!; [cbn [replicate]; by econstructor|done| |].
  - rewrite (proj1 (work_conserves l _ _ _ Hw (lg_serves _ _ Hl))), Hc. by rewrite app_assoc.
  - intros Ha. by eapply Hh, work_willing.
Qed.

Lemma leaves_now l (s s1 : system) : work s = Some (Ok (s1, [])) → pc s1 = Exited → let_go l s →
  (willing s → held s1 = []) → leaves l s.
Proof.
  intros Hw Hp Hl Hh. exists 1%nat, s1, []. split_and!; [|done| |done].
  - eapply (run_cons s Work _ [] []); [exact Hw|constructor].
  - by apply (work_conserves l _ _ _ Hw), Hl.
Qed.

Lemma leaves_run l t (s : system) p q :
  let_go l s → pc s = p → (p = Running q t ∨ p = Wiping t) →
  ∃ s1, run_task t s = Ok s1 ∧ mTasks (thread s1) = mTasks (thread s).
Proof.
  intros Hl Hp Ht. destruct (run_task_tame t s) as [s1 Hr].
  { pose proof (lg_tame _ _ Hl) as Hf. unfold pending, held in Hf. rewrite Hp in Hf.
    destruct Ht as [->| ->]; by apply Forall_cons in Hf as [? _]. }
  exists s1. split; [done|]. by apply run_task_frame in Hr as [? _].
Qed.

Lemma leaves_wipe l (s : system) : pc s = Wipe → let_go l s → leaves l s.
Proof.
  intros Hp Hl. remember (mTasks (thread s)) as ts eqn:Hts. revert s Hp Hl Hts.
  induction ts as [|t ts IH]; intros s Hp Hl Hts.
  - eapply leaves_now; [unfold work; rewrite Hp, <- Hts; done|done|done|]. intros _. unfold held. cbn. by rewrite <- Hts.
  - eapply leaves_back; [unfold work; rewrite Hp, <- Hts; done|done|]. intros Hl1. cbn [SafeQueue.pop] in *.
    destruct (leaves_run l t _ (Wiping t) None Hl1 eq_refl (or_intror eq_refl)) as (s2 & Hr & Hm).
    eapply leaves_back; [unfold work; cbn; rewrite Hr; done|done|]. intros Hl2. by apply IH; [..|cbn; rewrite Hm].
Qed.

(** One turn of the loop runs one task, and takes none. *)
Lemma leaves_loop l (s : system) : pc s = Loop → let_go l s → leaves l s.
Proof.
  intros Hp Hl. remember (mTasks (thread s)) as ts eqn:Hts. revert s Hp Hl Hts.
  induction ts as [|t ts IH]; intros s Hp Hl Hts.
  all: destruct (mRunning (thread s)) eqn:Hrun; [|destruct (mWipe (thread s)) eqn:Hw].
  all: try (eapply leaves_back; [unfold work; rewrite Hp, Hrun, Hw; done|done|]; by apply leaves_wipe).
  all: try (eapply leaves_now; [unfold work; rewrite Hp, Hrun, Hw; done|done|done|];
    unfold willing; rewrite Hp, Hrun, Hw; intros [|[|]]; done).
  all: eapply leaves_back; [unfold work; rewrite Hp, Hrun; done|done|]; intros Hl1.
  all: eapply leaves_back; [unfold work; cbn; rewrite (lg_stop _ _ Hl); done|done|]; intros Hl2.
  all: eapply leaves_back; [unfold work; cbn; rewrite (lg_external _ _ Hl); done|done|]; intros Hl3.
  - eapply leaves_now; [unfold work; cbn; rewrite <- Hts; done|done|done|]. intros _. unfold held. cbn. by rewrite <- Hts.
  - eapply leaves_back; [unfold work; cbn; rewrite <- Hts; done|done|]. intros Hl4. cbn [SafeQueue.pop] in *.
    destruct (leaves_run l t _ (Running None t) None Hl4 eq_refl (or_introl eq_refl)) as (s2 & Hr & Hm).
    eapply leaves_back; [unfold work; cbn; rewrite Hr; done|done|]. intros Hl5.
    eapply leaves_back; [unfold work; cbn; done|done|]. intros Hl6.
    eapply leaves_back; [unfold work; cbn; done|done|]. intros Hl7.
    apply IH; [done|done|]. cbn. by rewrite Hm.
Qed.

Lemma leaves_leveled l ts (s : system) : pc s = Leveled ts → let_go l s → leaves l s.
Proof.
  revert s. induction ts as [|t ts IH]; intros s Hp Hl;
    (eapply leaves_back; [unfold work; rewrite Hp; done|done|]); [by apply leaves_loop|by apply IH].
Qed.

Lemma leaves_level l p (s : system) : pc s = Level p → let_go l s → leaves l s.
Proof.
  intros Hp Hl. destruct (addByLevel p (mMiddleweight (thread s)) (mLightweight (thread s)) s) as [s1 ts] eqn:E.
  eapply leaves_back; [unfold work; rewrite Hp, E; done|done|]. by apply (leaves_leveled l ts).
Qed.

Lemma leaves_taken l p ts (s : system) : pc s = Taken p ts → let_go l s → leaves l s.
Proof.
  revert s. induction ts as [|t ts IH]; intros s Hp Hl;
    (eapply leaves_back; [unfold work; rewrite Hp; done|done|]); [by apply (leaves_level l p)|by apply IH].
Qed.

Lemma leaves_running l p t (s : system) : pc s = Running p t → let_go l s → leaves l s.
Proof.
  intros Hp Hl. destruct (leaves_run l t s _ p Hl Hp (or_introl eq_refl)) as (s1 & Hr & _).
  eapply leaves_back; [unfold work; rewrite Hp, Hr; done|done|]. by apply (leaves_level l p).
Qed.

Lemma leaves_body l p (s : system) : pc s = Body p → let_go l s → leaves l s.
Proof.
  intros Hp Hl. destruct (mTasks (thread s)) as [|t ts] eqn:Hts.
  - destruct p as [p|].
    + destruct (addTasks (Some p) true 1 s) as [s1 ts1] eqn:E.
      eapply leaves_back; [unfold work; rewrite Hp, Hts; cbn [negb SafeQueue.empty]; rewrite E; done|done|].
      by apply (leaves_taken l (Some p) ts1).
    + eapply leaves_now; [unfold work; rewrite Hp, Hts; done|done|done|]. intros _. unfold held. cbn. by rewrite Hts.
  - eapply leaves_back; [unfold work; rewrite Hp, Hts; done|done|]. by apply (leaves_running l p t).
Qed.

Lemma let_go_leaves l (s : system) : let_go l s → pc s ≠ Drowsy → pc s ≠ Asleep →
  (pc s = Exited → mTasks (thread s) = []) → leaves l s.
Proof.
  intros Hl Hd Ha He. destruct (pc s) as [| | | | | |p|p t|p mv|p|mv| |t|] eqn:Hp; try done.
  - eapply leaves_back; [unfold work; rewrite Hp; done|done|]. by apply leaves_loop.
  - by apply leaves_loop.
  - eapply leaves_back; [unfold work; rewrite Hp, (lg_stop _ _ Hl); done|done|]. intros Hl1.
    eapply leaves_back; [unfold work; cbn; rewrite (lg_external _ _ Hl); done|done|]. by eapply leaves_body.
  - eapply leaves_back; [unfold work; rewrite Hp, (lg_external _ _ Hl); done|done|]. by eapply leaves_body.
  - by eapply leaves_body.
  - by eapply leaves_running.
  - by eapply leaves_taken.
  - by eapply leaves_level.
  - by eapply leaves_leveled.
  - by apply leaves_wipe.
  - destruct (leaves_run l t s _ None Hl Hp (or_intror eq_refl)) as (s1 & Hr & _).
    eapply leaves_back; [unfold work; rewrite Hp, Hr; done|done|]. by apply leaves_wipe.
  - exists 0%nat, s, []. split_and!; [constructor|done..|]. intros _. unfold held. rewrite Hp. cbn. by rewrite He.
Qed.

(** ** What the worker does between the lines of the destructor *)

Definition awake (p : point W T) : Prop := p ≠ Drowsy ∧ p ≠ Asleep.

Lemma work_awake (s s' : system) ts : work s = Some (Ok (s', ts)) → mStop (thread s) = false → awake (pc s) → awake (pc s').
Proof.
  intros Hw Hst Ha. unfold work in Hw. destruct (pc s) as [| | | | | |p|p t|p mv|p|mv| |t|] eqn:Hp; try (by destruct Ha);
    try (injection Hw as <- <-; by repeat case_if).
  - destruct (mTasks (thread s)); cbn [negb SafeQueue.empty SafeQueue.pop] in Hw; [|by injection Hw as <- <-].
    destruct p; [|by injection Hw as <- <-]. destruct (addTasks _ _ _ s). by injection Hw as <- <-.
  - destruct (run_task t s); [|done]. by injection Hw as <- <-.
  - destruct mv; by injection Hw as <- <-.
  - destruct (addByLevel _ _ _ s). by injection Hw as <- <-.
  - destruct mv; by injection Hw as <- <-.
  - destruct (mTasks (thread s)); cbn [negb SafeQueue.empty SafeQueue.pop] in Hw; by injection Hw as <- <-.
  - destruct (run_task t s); [|done]. by injection Hw as <- <-.
Qed.

Lemma works_keep l k (s s' : system) ts : run s (replicate k Work) s' ts → let_go l s → awake (pc s) →
  let_go l s' ∧ awake (pc s') ∧ pending l s = ts ++ pending l s' ∧ (willing s → willing s').
Proof.
  revert s ts. induction k as [|k IH]; intros s ts Hr Hl Ha; inversion Hr as [|? ? s1 ts1 ? ? rs Hst Hr1]; subst; [done|].
  cbn [step] in Hst. pose proof (work_let_go _ _ _ _ Hst Hl) as Hl1.
  destruct (IH _ _ Hr1 Hl1 (work_awake _ _ _ Hst (lg_stop _ _ Hl) Ha)) as (Hl2 & Ha2 & Hc & Hw).
  split_and!; [done|done| |].
  - rewrite (proj1 (work_conserves l _ _ _ Hst (lg_serves _ _ Hl))), Hc. by rewrite app_assoc.
  - intros H1. by eapply Hw, work_willing.
Qed.

Lemma dies_works k d (s s1 s2 : system) ts rs d2 : run s (replicate k Work) s1 ts → dies d s1 rs d2 s2 → dies d s (ts ++ rs) d2 s2.
Proof.
  revert s ts. induction k as [|k IH]; intros s ts Hr Hd; inversion Hr as [|? ? s' ts' ? ? rs' Hst Hr1]; subst; [done|].
  rewrite <- app_assoc. eapply dies_work; [exact Hst|]. by apply IH.
Qed.

(** ** Properties *)


(** A stopped thread waits, is about to sleep, or sleeps. *)
Definition stopped (s : system) : Prop := mStop (thread s) = true ∧ (pc s = Wait ∨ pc s = Drowsy ∨ pc s = Asleep).

Lemma work_stopped (s s' : system) ts : work s = Some (Ok (s', ts)) → stopped s → stopped s' ∧ ts = [].
Proof.
  intros Hw [Hs Hp]. unfold work in Hw. destruct Hp as [Hp|[Hp|Hp]]; rewrite Hp in Hw; [|..|done].
  - rewrite Hs in Hw. injection Hw as <- <-. split; [split; [done|by right; left]|done].
  - injection Hw as <- <-. split; [split; [done|by right; right]|done].
Qed.

(** A thread that is stopped can not be destroyed: its worker never leaves, so the
    destructor waits for ever, with the tasks thrown away. *)
Theorem stopped_never_joined d (s s' : system) ts d' : dies d s ts d' s' → d ≠ Gone → stopped s → d' ≠ Gone ∧ ts = [].
Proof.
  induction 1 as [|d s s1 ts d2 s2 rs Hw _ IH|d s d1 s1 d2 s2 rs Hd _ IH]; intros Hne Hs; [done| |].
  - destruct (work_stopped _ _ _ Hw Hs) as [Hs1 ->]. by apply IH.
  - destruct d; cbn in Hd; [injection Hd as <- <-..| |done].
    + by apply IH.
    + by apply IH.
    + unfold join_returns in Hd. by destruct Hs as [_ [Hp|[Hp|Hp]]]; rewrite Hp in Hd.
Qed.
End ThreadEnd.

(** ** Witnesses *)

(** A thread with one task in its hands, one of its own and one in the queue is
    destroyed while the worker runs the first: the second is lost. *)
Definition dying_thread : system (list Z) Z :=
  mkSystem (set_tasks [numbered 7] (set_external (Some 0%nat) (set_running true newRThread)))
    (Running (Some 0%nat) (numbered 6)) {[ 0%nat := [numbered 8] ]} ∅ [].


Lemma stopped_never_joined_witness : ∀ d' s' ts,
  dies Entered (mkSystem (set_stop true (set_running true newRThread)) Asleep ∅ ∅ [] : system (list Z) Z) ts d' s' → d' ≠ Gone ∧ ts = [].
Proof.
  intros d' s' ts Hd. apply (stopped_never_joined _ _ _ _ _ Hd); [done|]. split; [done|]. by right; right.
Defined.
