(* ===== verification/Threadpool.v ===== *)
(** * The thread pool: [Base/thread/Threadpool.h], [Threadpool.cpp]

    The pool's threads share one queue of tasks; the first of them hands the
    results of its tasks to the pool, which now and then takes their mean for the
    ratio of waiting to serving and grows or shrinks.  Threads are never taken out
    of the vector: those past the active number are told to finish. *)

From Stdlib Require Import SpecFloat.
From S2P Require Import Prelude.
From S2P Require SafeQueue Timer.
From S2P Require Import RThread.

Local Open Scope Z_scope.

Section Threadpool.
Context {W : Type}.

Abbreviation task := (TaskWithFuture W Z).

(** Where the pool's queues live: [mTasks] is queue 0, [mResults] queue 0 of its
    own kind; both live as long as the pool. *)
Definition tasksPtr : nat := 0.
Definition resultsPtr : nat := 0.

(** The ids of the threads are left out. *)
Record ThreadInfo := mkInfo {
  info_running : bool; info_inactive : bool; info_maxLoad : Z; info_size : Z; info_ratio : spec_float }.

(** [mThreads], each with the place of its worker, and the rest of the pool. *)
Record Threadpool := mkPool {
  mHardwareNum : Z;
  mActiveNum : Z;                                   (* an unsigned int *)
  mExpectation : Z;
  mThreads : list (RThread W Z * point W Z);
  mAdjustThdNumTimeout : bool;
  mAdjustThdNumTaskID : str;
  mThreadsHash : gmap nat ThreadInfo;
  mTasks : list task;
  mResults : list Z;
  pool_world : W }.

Definition mMaxNum : Z := MAX_THREADS_NUM.
Definition SPECIAL_INDEX : nat := 0.

Definition set_active n (p : Threadpool) : Threadpool :=
  mkPool (mHardwareNum p) n (mExpectation p) (mThreads p) (mAdjustThdNumTimeout p) (mAdjustThdNumTaskID p)
    (mThreadsHash p) (mTasks p) (mResults p) (pool_world p).
Definition set_expectation n (p : Threadpool) : Threadpool :=
  mkPool (mHardwareNum p) (mActiveNum p) n (mThreads p) (mAdjustThdNumTimeout p) (mAdjustThdNumTaskID p)
    (mThreadsHash p) (mTasks p) (mResults p) (pool_world p).
Definition set_threads l (p : Threadpool) : Threadpool :=
  mkPool (mHardwareNum p) (mActiveNum p) (mExpectation p) l (mAdjustThdNumTimeout p) (mAdjustThdNumTaskID p)
    (mThreadsHash p) (mTasks p) (mResults p) (pool_world p).
Definition set_timeout b (p : Threadpool) : Threadpool :=
  mkPool (mHardwareNum p) (mActiveNum p) (mExpectation p) (mThreads p) b (mAdjustThdNumTaskID p)
    (mThreadsHash p) (mTasks p) (mResults p) (pool_world p).
Definition set_taskID id (p : Threadpool) : Threadpool :=
  mkPool (mHardwareNum p) (mActiveNum p) (mExpectation p) (mThreads p) (mAdjustThdNumTimeout p) id
    (mThreadsHash p) (mTasks p) (mResults p) (pool_world p).
Definition set_infos h (p : Threadpool) : Threadpool :=
  mkPool (mHardwareNum p) (mActiveNum p) (mExpectation p) (mThreads p) (mAdjustThdNumTimeout p) (mAdjustThdNumTaskID p)
    h (mTasks p) (mResults p) (pool_world p).
Definition set_shared ts rs w (p : Threadpool) : Threadpool :=
  mkPool (mHardwareNum p) (mActiveNum p) (mExpectation p) (mThreads p) (mAdjustThdNumTimeout p) (mAdjustThdNumTaskID p)
    (mThreadsHash p) ts rs w.

(** Thread [i] as a system of its own, and back. *)
Definition view (t : RThread W Z * point W Z) (p : Threadpool) : system W Z :=
  mkSystem t.1 t.2 {[ tasksPtr := mTasks p ]} {[ resultsPtr := mResults p ]} (pool_world p).

Definition put_back (i : nat) (s : system W Z) (p : Threadpool) : Threadpool :=
  set_shared (default [] (tasksQueues s !! tasksPtr)) (default [] (resultsQueues s !! resultsPtr)) (world s)
    (set_threads (<[i := (thread s, pc s)]> (mThreads p)) p).

(** [mThreads.at(i)] *)
Definition at_thread (i : nat) (p : Threadpool) : res (RThread W Z * point W Z) := of_option OutOfRange (mThreads p !! i).

(** [mThreads.at(i)->command(cmd)], with the default arguments. *)
Definition thread_command (i : nat) (cmd : CommandType) (p : Threadpool) : res Threadpool :=
  t ← at_thread i p;
  s ← command cmd None 10 2 4 (view t p);
  Ok (put_back i s p).

(** A new thread, once it is linked to the tasks of the pool; the link is good as
    long as the pool lives. *)
Definition new_thread : RThread W Z * point W Z := (set_external (Some tasksPtr) newRThread, Start).

Definition readyCaptureThdResults (i : nat) (p : Threadpool) : res Threadpool :=
  t ← at_thread i p;
  p ← (if negb (mCaptureFuture t.1) then thread_command i CAPTURE_FUTURE_SWITCH p else Ok p);
  t ← at_thread i p;
  Ok (put_back i (linkResultsQueue (Some resultsPtr) (view t p)).1 p).

Definition cancelCollectThdResults (i : nat) (p : Threadpool) : res Threadpool :=
  t ← at_thread i p;
  if mCaptureFuture t.1 then thread_command i CAPTURE_FUTURE_SWITCH p else Ok p.

(** [hardware_concurrency] may be 0, when it is not known: then there is no thread
    to make special. *)
Definition newThreadpool (hardware_concurrency : Z) (w : W) : res Threadpool :=
  let active := if hardware_concurrency <=? mMaxNum then hardware_concurrency else mMaxNum in
  let p := mkPool hardware_concurrency active 0 (replicate (Z.to_nat active) new_thread) false [] ∅ [] [] w in
  t ← at_thread SPECIAL_INDEX p;
  p ← (if negb (mCaptureFuture t.1) then thread_command SPECIAL_INDEX CAPTURE_FUTURE_SWITCH p else Ok p);
  readyCaptureThdResults SPECIAL_INDEX p.

(** [addTask] of the pool. *)
Definition pool_addTask (c : callable W Z) (p : Threadpool) : Threadpool :=
  set_shared (addTask c (mTasks p)) (mResults p) (pool_world p) p.

(** The holes from [i] on, as many slots as [k]; [n] threads are still wanted and
    [found] were made. *)
Fixpoint fill_holes (k i : nat) (n found : Z) (l : list (RThread W Z * point W Z))
    : res (Z * Z * list (RThread W Z * point W Z)) :=
  match k with
  | O => Ok (n, found, l)
  | S k =>
      t ← of_option OutOfRange (l !! i);
      if mInactive t.1 then fill_holes k (S i) (u64 (n - 1)) (u64 (found + 1)) (<[i := new_thread]> l)
      else fill_holes k (S i) n found l
  end.

Definition expandThreads (num : Z) (p : Threadpool) : res Threadpool :=
  let n := if mMaxNum <? u64 (mActiveNum p + num) then u64 (mMaxNum - mActiveNum p) else num in
  '(n, found, l) ← fill_holes (Z.to_nat (mActiveNum p - mHardwareNum p)) (Z.to_nat (mHardwareNum p)) n 0 (mThreads p);
  Ok (set_active (u32 (mActiveNum p + u64 (found + n))) (set_threads (l ++ replicate (Z.to_nat n) new_thread) p)).

(** From [i] down to [n]: [k] slots. *)
Fixpoint finish_threads (k : nat) (i : nat) (p : Threadpool) : res Threadpool :=
  match k with
  | O => Ok p
  | S k => p ← thread_command i CANCEL_WHEN_COMPLETE p; finish_threads k (i - 1) p
  end.

(** [mHardwareNum] above 0 keeps [n] above 0, and the loop from counting below it. *)
Definition shrinkThreads (num : Z) (p : Threadpool) : res Threadpool :=
  let n := u64 (mActiveNum p - num) in
  if n <? mHardwareNum p then Ok p else
  p ← finish_threads (Z.to_nat (mActiveNum p - n)) (Z.to_nat (mActiveNum p - 1)) p;
  Ok (set_active (u32 n) p).

(** [total] and [n] are the caller's.  [None]: there is no result to wait for yet. *)
Definition getExpectationAndAdjust (countTimeout : bool) (total n : Z) (p : Threadpool) : option (res (Threadpool * Z * Z)) :=
  if negb countTimeout then
    '(q, r) ← SafeQueue.waitAndPop (mResults p);
    Some (Ok (set_shared (mTasks p) q (pool_world p) p, u64 (total + r), u64 (n + 1)))
  else Some (
    if n =? 0 then Err DivByZero else
    let ratio := u16 (total / n) in
    let p := set_expectation (u64 (mHardwareNum p * (1 + ratio))) p in
    p ← (if mActiveNum p <? mExpectation p then expandThreads (mExpectation p - mActiveNum p) p
         else if mExpectation p <? mActiveNum p then shrinkThreads (mActiveNum p - mExpectation p) p else Ok p);
    Ok (set_timeout false p, 0, 0)).

Definition info_of (t : RThread W Z * point W Z) : ThreadInfo :=
  mkInfo (mRunning t.1) (mInactive t.1) (mMaxLoadSize t.1) (size t.1) (loadRatio t.1).

Definition updateThreadInfo (p : Threadpool) : Threadpool :=
  set_infos (map_seq 0 (info_of <$> mThreads p) ∪ mThreadsHash p) p.

Definition collectThdState (collect : bool) (p : Threadpool) : Threadpool := if collect then updateThreadInfo p else p.

Definition adjustThdNumTimeoutNotify (p : Threadpool) : Threadpool := set_timeout true p.
Definition resetAdjustThdNumTimeout (p : Threadpool) : Threadpool := set_timeout false p.

Inductive TimerType := NO_TIMER | ADJUST_THREAD_NUMBER | COLLECT_THREAD_STATE | TODO_MORE.

(** The timer, when it is alive, gets a task of five seconds without end, which
    calls [adjustThdNumTimeoutNotify]. *)
Definition setTimer (timer : option (Timer.TimeWheelTimer (Threadpool → Threadpool))) (id : str) (which : TimerType) (p : Threadpool)
    : option (Timer.TimeWheelTimer (Threadpool → Threadpool)) * Threadpool :=
  match timer, which with
  | Some t, ADJUST_THREAD_NUMBER =>
      (Some (Timer.addTask (Timer.newTimerTask 0 0 5 (-1) id (Some adjustThdNumTimeoutNotify)) t), set_taskID id p)
  | _, _ => (timer, p)
  end.

(** One turn of [work]; the two flags it tests are never written. *)
Definition mIsAdjustThreadNum : bool := true.
Definition mIsCollectThreadState : bool := false.

Definition pool_work (total n : Z) (p : Threadpool) : option (res (Threadpool * Z * Z)) :=
  r ← (if mIsAdjustThreadNum then getExpectationAndAdjust (mAdjustThdNumTimeout p) total n p else Some (Ok (p, total, n)));
  Some ('(p, total, n) ← r; Ok (collectThdState mIsCollectThreadState p, total, n)).

(** [std::accumulate] over [int]s, in a [double]. *)
Definition double_of (z : Z) : spec_float := binary_normalize 53 1024 z 0 false.
Definition getExpectation (data : list Z) : spec_float :=
  SFdiv 53 1024 (double_of (foldl Z.add 0 data)) (double_of (Z.of_nat (length data))).
Definition getVariance (expectation : spec_float) (data : list Z) : spec_float :=
  SFdiv 53 1024 (foldl (λ total x, SFadd 53 1024 total (double_of (x * x))) (double_of 0) data)
    (double_of (Z.of_nat (length data))).

(** ** Schedules *)

Inductive pool_event :=
  | ThreadWork (i : nat)            (* the worker of thread [i] goes on *)
  | AddTask (c : callable W Z)
  | Expand (num : Z)
  | Shrink (num : Z).

Definition pool_step (e : pool_event) (p : Threadpool) : option (res (Threadpool * list task)) :=
  match e with
  | ThreadWork i =>
      t ← mThreads p !! i;
      r ← work (view t p);
      Some ('(s, ts) ← r; Ok (put_back i s p, ts))
  | AddTask c => Some (Ok (pool_addTask c p, []))
  | Expand num => Some (p ← expandThreads num p; Ok (p, []))
  | Shrink num => Some (p ← shrinkThreads num p; Ok (p, []))
  end.

(** ** Growing and shrinking *)

(** The shape a pool keeps: at least one thread, no more than the limit active, and
    the active ones within the vector. *)
Record pool_shape (p : Threadpool) : Prop := {
  ps_hardware : 1 <= mHardwareNum p;
  ps_active : mHardwareNum p <= mActiveNum p <= mMaxNum;
  ps_threads : mActiveNum p <= Z.of_nat (length (mThreads p)) }.

(** The threads that were told to finish, or were so before. *)
Definition wiped (l : list (RThread W Z * point W Z)) : Z := Z.of_nat (length (filter (λ t, mWipe t.1 = true) l)).
Definition inactive_wiped (l : list (RThread W Z * point W Z)) : Prop := Forall (λ t, mInactive t.1 = true → mWipe t.1 = true) l.

Lemma wiped_app l1 l2 : wiped (l1 ++ l2) = wiped l1 + wiped l2.
Proof. unfold wiped. rewrite filter_app, length_app. lia. Qed.

Lemma wiped_one t : wiped [t] = if mWipe t.1 then 1 else 0.
Proof. unfold wiped. cbn. by destruct (mWipe t.1). Qed.

Lemma wiped_insert i t t' l : l !! i = Some t → wiped (<[i := t']> l) + wiped [t] = wiped l + wiped [t'].
Proof.
  intros Ht. rewrite <- (take_drop_middle l i t Ht) at 2. rewrite insert_take_drop by (by eapply lookup_lt_Some).
  rewrite !wiped_app. change (t :: drop (S i) l) with ([t] ++ drop (S i) l). change (t' :: drop (S i) l) with ([t'] ++ drop (S i) l).
  rewrite !wiped_app. lia.
Qed.

(** The inactive threads among [k] slots from [i]. *)
Definition holes (k i : nat) (l : list (RThread W Z * point W Z)) : list (RThread W Z * point W Z) :=
  filter (λ t, mInactive t.1 = true) (take k (drop i l)).

Lemma fill_holes_spec k i n found l : (i + k <= length l)%nat →
  ∃ l', fill_holes k i (u64 n) (u64 found) l
      = Ok (u64 (n - Z.of_nat (length (holes k i l))), u64 (found + Z.of_nat (length (holes k i l))), l') ∧
    length l' = length l ∧
    (inactive_wiped l → wiped l' + Z.of_nat (length (holes k i l)) = wiped l) ∧
    ∀ j, l' !! j = (t ← l !! j;
                    Some (if bool_decide (i <= j < i + k)%nat && mInactive t.1 then new_thread else t)).
Proof.
  revert i n found l. induction k as [|k IH]; intros i n found l Hl; cbn [fill_holes].
  { exists l. cbn. rewrite Z.sub_0_r, Z.add_0_r. split_and!; [done|done|intros _; change (Z.of_nat (length (holes 0 i l))) with 0; lia|]. intros j. destruct (l !! j) as [t|]; [|done]. cbn.
    by rewrite bool_decide_eq_false_2 by lia. }
  destruct (lookup_lt_is_Some_2 l i ltac:(lia)) as [t Ht]. rewrite Ht. cbn [of_option mbind res_bind].
  assert (holes (S k) i l = (if mInactive t.1 then [t] else []) ++ holes k (S i) l) as ->.
  { unfold holes. rewrite (drop_S _ _ _ Ht). cbn [take]. rewrite filter_cons. by destruct (mInactive t.1). }
  destruct (mInactive t.1) eqn:E.
  - assert (u64 (u64 n - 1) = u64 (n - 1)) as -> by (unfold u64, wrap; by rewrite Zminus_mod_idemp_l).
    rewrite u64_add_l.
    destruct (IH (S i) (n - 1) (found + 1) (<[i := new_thread]> l)) as (l' & -> & Hlen & Hw & Hlk); [rewrite length_insert; lia|].
    assert (holes k (S i) (<[i:=new_thread]> l) = holes k (S i) l) as Hh' by (unfold holes; by rewrite drop_insert_lt by lia).
    rewrite Hh'.     rewrite Hh' in Hw. exists l'. rewrite length_insert in Hlen. split; [|split; [done|split]].
    + rewrite length_app. cbn [length]. do 3 f_equal; f_equal; lia.
    + intros Hi. pose proof (wiped_insert i t new_thread l Ht) as Hins. rewrite !wiped_one in Hins.
      rewrite (Forall_lookup_1 _ _ _ _ Hi Ht E) in Hins. rewrite length_app. cbn [length].
      rewrite <- (Z.add_0_r (wiped l)). cbn in Hins.
      assert (wiped l' + Z.of_nat (length (holes k (S i) l)) = wiped (<[i:=new_thread]> l)); [|lia].
      apply Hw. by apply Forall_insert.
    + intros j. rewrite Hlk. destruct (decide (j = i)) as [->|Hj].
      * rewrite list_lookup_insert_eq by lia. rewrite Ht. cbn. rewrite andb_false_r, E. by rewrite bool_decide_eq_true_2 by lia.
      * rewrite list_lookup_insert_ne by done. destruct (l !! j) as [t'|]; [|done]. cbn.
        by rewrite (bool_decide_ext (S i <= j < S i + k)%nat (i <= j < i + S k)%nat) by lia.
  - destruct (IH (S i) n found l) as (l' & -> & Hlen & Hw & Hlk); [lia|]. exists l'. split; [done|]. split; [done|]. split; [exact Hw|].
    intros j. rewrite Hlk. destruct (decide (j = i)) as [->|Hj].
    + rewrite Ht. cbn. by rewrite E, !andb_false_r.
    + destruct (l !! j) as [t'|]; [|done]. cbn. by rewrite (bool_decide_ext (S i <= j < S i + k)%nat (i <= j < i + S k)%nat) by lia.
Qed.

(** The holes a pool of this shape looks for. *)
Definition open_holes (p : Threadpool) : Z :=
  Z.of_nat (length (holes (Z.to_nat (mActiveNum p - mHardwareNum p)) (Z.to_nat (mHardwareNum p)) (mThreads p))).

(** How many threads are asked for in the end. *)
Definition grown (num : Z) (p : Threadpool) : Z := Z.min num (mMaxNum - mActiveNum p).

Lemma expandThreads_spec num p : pool_shape p → 0 <= num < 2 ^ 32 →
  ∃ l p', expandThreads num p = Ok p' ∧
    mActiveNum p' = mActiveNum p + grown num p ∧ length l = length (mThreads p) ∧
    mThreads p' = l ++ replicate (Z.to_nat (u64 (grown num p - open_holes p))) new_thread ∧
    (inactive_wiped (mThreads p) → wiped l + open_holes p = wiped (mThreads p)) ∧
    (∀ j, l !! j = (t ← mThreads p !! j;
                    Some (if bool_decide (Z.to_nat (mHardwareNum p) <= j < Z.to_nat (mActiveNum p))%nat && mInactive t.1
                          then new_thread else t))) ∧
    p' = set_active (mActiveNum p') (set_threads (mThreads p') p).
Proof.
  intros [Hh Ha Ht] Hnum. unfold expandThreads, mMaxNum, MAX_THREADS_NUM in *.
  rewrite (u64_small (mActiveNum p + num)) by (unfold size_max; lia).
  assert ((if 256 <? mActiveNum p + num then u64 (256 - mActiveNum p) else num) = u64 (grown num p)) as ->.
  { unfold grown, mMaxNum, MAX_THREADS_NUM. case_if; to_prop; [f_equal; lia|]. rewrite u64_small; unfold size_max; lia. }
  destruct (fill_holes_spec (Z.to_nat (mActiveNum p - mHardwareNum p)) (Z.to_nat (mHardwareNum p)) (grown num p) 0 (mThreads p))
    as (l & Hf & Hlen & Hw & Hlk); [lia|].
  change 0 with (u64 0) at 1. rewrite Hf. cbn [mbind res_bind]. fold (open_holes p).
  eexists l, _. split; [done|]. cbn [mActiveNum mThreads set_active set_threads]. split; [|split_and!; [done|done|exact Hw| |done]].
  - assert (0 <= grown num p <= 256 - mActiveNum p) as Hg by (unfold grown, mMaxNum, MAX_THREADS_NUM; lia).
    assert (u64 (u64 (0 + open_holes p) + u64 (grown num p - open_holes p)) = grown num p) as ->.
    { unfold u64, wrap. rewrite <- Z.add_mod by lia. replace (_ + _ + _) with (grown num p) by lia. apply Z.mod_small. lia. }
    unfold u32, wrap. apply Z.mod_small. lia.
  - intros j. rewrite Hlk. destruct (mThreads p !! j) as [t|]; [|done]. cbn.
    by rewrite (bool_decide_ext (_ <= j < _ + _)%nat (Z.to_nat (mHardwareNum p) <= j < Z.to_nat (mActiveNum p))%nat) by lia.
Qed.

(** A thread that was told to finish. *)
Definition told (t : RThread W Z * point W Z) : RThread W Z * point W Z :=
  ((set_external None ∘ set_wipe true ∘ set_running false) t.1, t.2).

Lemma put_back_same i t' p q : 
  put_back i (mkSystem t'.1 t'.2 {[ tasksPtr := mTasks p ]} {[ resultsPtr := mResults p ]} (pool_world p)) (set_threads q p)
  = set_threads (<[i := t']> q) p.
Proof. by destruct t'. Qed.

Lemma thread_command_finish i p t : mThreads p !! i = Some t →
  thread_command i CANCEL_WHEN_COMPLETE p = Ok (set_threads (<[i := told t]> (mThreads p)) p).
Proof.
  intros Ht. unfold thread_command, at_thread. rewrite Ht. cbn [of_option mbind res_bind command].
  by rewrite <- (put_back_same i (told t)).
Qed.

Lemma finish_threads_spec k i p : (k <= S i)%nat → (i < length (mThreads p))%nat →
  ∃ l, finish_threads k i p = Ok (set_threads l p) ∧ length l = length (mThreads p) ∧
    wiped l <= wiped (mThreads p) + Z.of_nat k ∧
    ∀ j, l !! j = (t ← mThreads p !! j; Some (if bool_decide (S i - k <= j <= i)%nat then told t else t)).
Proof.
  revert i p. induction k as [|k IH]; intros i p Hk Hi; cbn [finish_threads].
  { exists (mThreads p). split_and!; [by destruct p|done|lia|]. intros j. destruct (mThreads p !! j); [|done]. cbn.
    by rewrite bool_decide_eq_false_2 by lia. }
  destruct (lookup_lt_is_Some_2 _ _ Hi) as [t Ht]. rewrite (thread_command_finish _ _ _ Ht). cbn [mbind res_bind].
  assert (wiped (<[i:=told t]> (mThreads p)) <= wiped (mThreads p) + 1) as Hw1.
  { pose proof (wiped_insert i t (told t) _ Ht) as Hw. rewrite !wiped_one in Hw. revert Hw. cbn. case_if; lia. }
  destruct i as [|i].
  { assert (k = 0%nat) as -> by lia. exists (<[0%nat := told t]> (mThreads p)). split_and!; [done|by rewrite length_insert|lia|].
    intros j. destruct (decide (j = 0%nat)) as [->|Hj].
    - rewrite list_lookup_insert_eq by done. by rewrite Ht.
    - rewrite list_lookup_insert_ne by done. destruct (mThreads p !! j); [|done]. cbn. by rewrite bool_decide_eq_false_2 by lia. }
  replace (S i - 1)%nat with i by lia.
  destruct (IH i (set_threads (<[S i := told t]> (mThreads p)) p)) as (l & -> & Hlen & Hw & Hlk);
    [lia|cbn; rewrite length_insert; lia|]. exists l. cbn [mThreads set_threads] in Hw, Hlen. rewrite length_insert in Hlen.
  split_and!; [by destruct p|done|lia|]. intros j. rewrite Hlk. cbn [mThreads set_threads].
  destruct (decide (j = S i)) as [->|Hj].
  - rewrite list_lookup_insert_eq, Ht by done. cbn. by rewrite bool_decide_eq_false_2, bool_decide_eq_true_2 by lia.
  - rewrite list_lookup_insert_ne by done. destruct (mThreads p !! j); [|done]. cbn.
    by rewrite (bool_decide_ext (S i - k <= j <= i)%nat (S (S i) - S k <= j <= S i)%nat) by lia.
Qed.

Lemma shrinkThreads_spec num p : pool_shape p → 0 <= num → mHardwareNum p <= mActiveNum p - num →
  ∃ l, shrinkThreads num p = Ok (set_active (mActiveNum p - num) (set_threads l p)) ∧ length l = length (mThreads p) ∧
    wiped l <= wiped (mThreads p) + num ∧
    ∀ j, l !! j = (t ← mThreads p !! j;
                   Some (if bool_decide (mActiveNum p - num <= Z.of_nat j < mActiveNum p) then told t else t)).
Proof.
  intros [Hh Ha Ht] Hn Hle. unfold shrinkThreads, mMaxNum, MAX_THREADS_NUM in *.
  rewrite u64_small by (unfold size_max; lia). rewrite (proj2 (Z.ltb_ge _ _)) by lia.
  destruct (finish_threads_spec (Z.to_nat (mActiveNum p - (mActiveNum p - num))) (Z.to_nat (mActiveNum p - 1)) p)
    as (l & -> & Hlen & Hw & Hlk); [lia..|].
  cbn [mbind res_bind]. unfold u32. rewrite wrap_small by lia. exists l. split_and!; [done|done|lia|].
  intros j. rewrite Hlk. destruct (mThreads p !! j); [|done]. cbn.
  by rewrite (bool_decide_ext (_ <= j <= _)%nat (mActiveNum p - num <= Z.of_nat j < mActiveNum p)) by lia.
Qed.

(** No thread of the pool's own range has ended. *)
Definition no_holes (p : Threadpool) : Prop :=
  ∀ j t, mThreads p !! j = Some t → mHardwareNum p <= Z.of_nat j < mActiveNum p → mInactive t.1 = false.

Lemma no_holes_open p : pool_shape p → no_holes p → open_holes p = 0.
Proof.
  intros [Hh Ha Ht] Hn. unfold open_holes, holes. destruct (filter _ _) as [|t l] eqn:E; [done|]. exfalso.
  assert (t ∈ t :: l) as Hin by left. rewrite <- E in Hin. apply list_elem_of_filter in Hin as [Hi Hin].
  apply list_elem_of_lookup in Hin as [k Hk]. apply lookup_take_Some in Hk as [Hk Hlt]. rewrite lookup_drop in Hk.
  rewrite (Hn _ _ Hk) in Hi; [done|]. lia.
Qed.

Lemma expand_no_holes num p : pool_shape p → no_holes p → 0 <= num < 2 ^ 32 →
  expandThreads num p = Ok (set_active (mActiveNum p + grown num p)
    (set_threads (mThreads p ++ replicate (Z.to_nat (grown num p)) new_thread) p)).
Proof.
  intros Hp Hn Hnum. destruct (expandThreads_spec num p Hp Hnum) as (l & p' & -> & Ha & Hlen & Ht & _ & Hlk & Hp').
  rewrite (no_holes_open p Hp Hn), Z.sub_0_r, u64_small in Ht.
  2: { unfold grown, mMaxNum, MAX_THREADS_NUM, size_max in *. pose proof (ps_active p Hp). unfold mMaxNum, MAX_THREADS_NUM in *. lia. }
  rewrite Hp', Ha, Ht. do 3 f_equal. f_equal. apply list_eq. intros j. rewrite Hlk.
  destruct (mThreads p !! j) as [t|] eqn:Hj; [|done]. cbn. case_bool_decide as Hr; [|done]. cbn.
  rewrite (Hn _ _ Hj); [done|]. pose proof (ps_hardware p Hp). lia.
Qed.

(** ** The tasks of the pool *)

(** What a thread holds. *)
Definition holds (t : RThread W Z * point W Z) : list task := running t.2 ++ RThread.mTasks t.1 ++ moving t.2.
Definition pool_pending (p : Threadpool) : list task := (mThreads p ≫= holds) ++ mTasks p.

(** In the second loop of [work]. *)
Definition wiping (p : point W Z) : bool := match p with Wipe | Wiping _ => true | _ => false end.

(** What a thread of a pool is like, which gets no other commands than the pool's. *)
Record thread_ok (t : RThread W Z * point W Z) : Prop := {
  to_external : only tasksPtr (mExternalTasksPtr t.1);
  to_kept : only tasksPtr (kept t.2);
  to_wipe : t.2 ≠ Start → mRunning t.1 = false → mWipe t.1 = true;
  to_wiping : wiping t.2 = true → mWipe t.1 = true;
  to_inactive : mInactive t.1 = true → t.2 = Exited ∧ RThread.mTasks t.1 = [] ∧ mWipe t.1 = true }.

Definition pool_ok (p : Threadpool) : Prop := Forall thread_ok (mThreads p).

Lemma new_thread_ok : thread_ok new_thread.
Proof. split; (done || (by right) || by left). Qed.

Lemma told_ok t : thread_ok t → thread_ok (told t).
Proof.
  intros [H1 H2 H3 H4 H5]. split; [by left|done|done|done|]. intros Hi. by destruct (H5 Hi) as (? & ? & ?).
Qed.

(** A worker leaves what it must when it marks itself inactive. *)
Lemma work_inactive (s s' : system W Z) ts : work s = Some (Ok (s', ts)) →
  mInactive (thread s) = false → (pc s = Loop → mRunning (thread s) = false → mWipe (thread s) = true) →
  (wiping (pc s) = true → mWipe (thread s) = true) →
  mInactive (thread s') = true → pc s' = Exited ∧ RThread.mTasks (thread s') = [] ∧ mWipe (thread s) = true.
Proof.
  intros Hw Hi Hwipe Hwi Hi'. unfold work in Hw.
  destruct (pc s) as [| | | | | |p|p t|p mv|p|mv| |t|] eqn:Hpc; try done.
  - injection Hw as <- <-. cbn in Hi'. congruence.
  - injection Hw as <- <-. destruct (mRunning (thread s)) eqn:Hr; [cbn in Hi'; congruence|].
    rewrite Hwipe in Hi' by done. cbn in Hi'. congruence.
  - injection Hw as <- <-. destruct (mStop (thread s)); cbn in Hi'; congruence.
  - injection Hw as <- <-. cbn in Hi'. congruence.
  - injection Hw as <- <-. cbn in Hi'. congruence.
  - destruct (RThread.mTasks (thread s)) as [|t l']; cbn [negb SafeQueue.empty SafeQueue.pop] in Hw.
    + destruct p as [p|]; [|injection Hw as <- <-; cbn in Hi'; congruence].
      destruct (addTasks_spec p (Some p) true 1 s) as (k & _ & _ & _ & Hth & _); [by right|].
      destruct (addTasks (Some p) true 1 s) as [s1 ts1]. cbn [fst] in Hth. injection Hw as <- <-. cbn in Hi'. congruence.
    + injection Hw as <- <-. cbn in Hi'. congruence.
  - destruct (run_task t s) as [s1|] eqn:Hr; [|done]. injection Hw as <- <-. cbn in Hi'. apply run_task_inactive in Hr. congruence.
  - destruct mv; injection Hw as <- <-; cbn in Hi'; congruence.
  - destruct (addByLevel_spec (default 0%nat p) p (mMiddleweight (thread s)) (mLightweight (thread s)) s) as (k & _ & _ & _ & Hth & _);
      [destruct p; by (left + right)|].
    destruct (addByLevel p _ _ s) as [s1 ts1]. cbn [fst] in Hth. injection Hw as <- <-. cbn in Hi'. congruence.
  - destruct mv; injection Hw as <- <-; cbn in Hi'; congruence.
  - destruct (RThread.mTasks (thread s)) eqn:Hts; cbn [negb SafeQueue.empty SafeQueue.pop] in Hw; injection Hw as <- <-; cbn in *; [|congruence].
    split_and!; [done|done|by apply Hwi].
  - destruct (run_task t s) as [s1|] eqn:Hr; [|done]. injection Hw as <- <-. cbn in Hi'. apply run_task_inactive in Hr. congruence.
Qed.

(** [work] leads nowhere but from [Start] to a state before [Loop] is tested. *)
Lemma work_started (s s' : system W Z) ts : work s = Some (Ok (s', ts)) → pc s' ≠ Start.
Proof.
  unfold work. intros Hw.
  destruct (pc s) as [| | | | | |p|p t|p mv|p|mv| |t|]; try done; try (injection Hw as <- <-; by repeat case_if).
  - destruct (RThread.mTasks (thread s)); cbn [negb SafeQueue.empty SafeQueue.pop] in Hw; [|by injection Hw as <- <-].
    destruct p as [p|]; [|by injection Hw as <- <-]. destruct (addTasks (Some p) true 1 s). by injection Hw as <- <-.
  - destruct (run_task t s); [|done]. by injection Hw as <- <-.
  - destruct mv; by injection Hw as <- <-.
  - destruct (addByLevel p _ _ s). by injection Hw as <- <-.
  - destruct mv; by injection Hw as <- <-.
  - destruct (RThread.mTasks (thread s)); cbn [negb SafeQueue.empty SafeQueue.pop] in Hw; by injection Hw as <- <-.
  - destruct (run_task t s); [|done]. by injection Hw as <- <-.
Qed.

Lemma work_wiping (s s' : system W Z) ts : work s = Some (Ok (s', ts)) → wiping (pc s') = true →
  wiping (pc s) = true ∨ mWipe (thread s) = true.
Proof.
  unfold work. intros Hw Hp.
  destruct (pc s) as [| | | | | |p|p t|p mv|p|mv| |t|] eqn:Hpc; try (by left); try done; right.
  - by injection Hw as <- <-.
  - injection Hw as <- <-. destruct (mRunning (thread s)); [done|]. by destruct (mWipe (thread s)).
  - injection Hw as <- <-. by destruct (mStop (thread s)).
  - by injection Hw as <- <-.
  - by injection Hw as <- <-.
  - destruct (RThread.mTasks (thread s)); cbn [negb SafeQueue.empty SafeQueue.pop] in Hw; [|by injection Hw as <- <-].
    destruct p as [p|]; [|by injection Hw as <- <-]. destruct (addTasks (Some p) true 1 s). by injection Hw as <- <-.
  - destruct (run_task t s); [|done]. by injection Hw as <- <-.
  - destruct mv; by injection Hw as <- <-.
  - destruct (addByLevel p _ _ s). by injection Hw as <- <-.
  - destruct mv; by injection Hw as <- <-.
Qed.

Lemma work_thread_ok t p s' ts : work (view t p) = Some (Ok (s', ts)) → thread_ok t → thread_ok (thread s', pc s').
Proof.
  intros Hw [H1 H2 H3 H3' H4].
  destruct (work_conserves tasksPtr _ _ _ Hw) as [_ [He Hk]]; [by split|].
  pose proof (work_started _ _ _ Hw) as Hst.
  assert (mInactive t.1 = false) as Hi.
  { destruct (mInactive t.1) eqn:E; [|done]. destruct (H4 eq_refl) as [Hp _].
    unfold work, view in Hw. cbn in Hw. by rewrite Hp in Hw. }
  assert (mWipe (thread s') = mWipe t.1) as Hwp.
  { assert (t.2 = Start ∨ t.2 ≠ Start) as [Hp|Hp] by (destruct t.2; (by left) || by right).
    - unfold work, view in Hw. cbn in Hw. rewrite Hp in Hw. by injection Hw as <- <-.
    - by destruct (work_flags _ _ _ Hw Hp) as (_ & -> & _). }
  assert (wiping (pc s') = true → mWipe (thread s') = true) as Hwi.
  { intros Hp. rewrite Hwp. destruct (work_wiping _ _ _ Hw Hp) as [Hp'|Hp']; [by apply H3'|done]. }
  split; cbn [fst snd]; [done|done| |done|].
  - intros _ Hr. assert (t.2 = Start ∨ t.2 ≠ Start) as [Hp|Hp] by (destruct t.2; (by left) || by right).
    + unfold work, view in Hw. cbn in Hw. rewrite Hp in Hw. injection Hw as <- <-. done.
    + destruct (work_flags _ _ _ Hw Hp) as (E1 & E2 & _). cbn in E1, E2. rewrite E2. apply H3; [done|congruence].
  - intros Hin. destruct (work_inactive _ _ _ Hw) as (? & ? & ?); [done| |by apply H3'|done|by rewrite Hwp].
    cbn. intros Hp. apply H3. by rewrite Hp.
Qed.

Lemma holds_insert i t t' (l : list (RThread W Z * point W Z)) : l !! i = Some t →
  ∃ rest, (l ≫= holds) ≡ₚ holds t ++ rest ∧ (<[i := t']> l ≫= holds) ≡ₚ holds t' ++ rest.
Proof.
  intros Ht. exists ((take i l ≫= holds) ++ (drop (S i) l ≫= holds)).
  rewrite <- (take_drop_middle l i t Ht) at 1. rewrite insert_take_drop by (by eapply lookup_lt_Some).
  rewrite !bind_app, !bind_cons. split; by rewrite !(assoc_L (++)), (Permutation_app_comm (take i l ≫= holds)).
Qed.

Lemma told_holds t : holds (told t) = holds t.
Proof. done. Qed.

Lemma holds_ext (l l' : list (RThread W Z * point W Z)) :
  length l' = length l → (∀ j t t', l !! j = Some t → l' !! j = Some t' → holds t' = holds t) → (l' ≫= holds) = l ≫= holds.
Proof.
  revert l'. induction l as [|t l IH]; intros [|t' l']; cbn [length]; intros Hl Hh; try done; [].
  rewrite !bind_cons, (Hh 0%nat t t') by done. f_equal. apply IH; [lia|]. intros j. exact (Hh (S j)).
Qed.

Lemma new_threads_hold n : (replicate n new_thread ≫= holds) = [].
Proof. induction n as [|n IH]; [done|]. cbn [replicate]. by rewrite bind_cons, IH. Qed.

(** What the schedule adds. *)
Definition pool_added (e : pool_event) : list task := match e with AddTask c => [make_task c] | _ => [] end.

(** Sizes the pool asks for. *)
Definition sensible (e : pool_event) (p : Threadpool) : Prop :=
  match e with
  | Expand num => 0 <= num < 2 ^ 32
  | Shrink num => 0 <= num ∧ mHardwareNum p <= mActiveNum p - num
  | _ => True
  end.

(** A schedule of requests the pool makes, and the tasks run over it. *)
Inductive pool_run : Threadpool → list pool_event → Threadpool → list task → Prop :=
  | pool_run_nil p : pool_run p [] p []
  | pool_run_cons p e p1 ts es p2 rs : sensible e p →
      pool_step e p = Some (Ok (p1, ts)) → pool_run p1 es p2 rs → pool_run p (e :: es) p2 (ts ++ rs).

Lemma expand_keeps num p p' : pool_shape p → pool_ok p → 0 <= num < 2 ^ 32 → expandThreads num p = Ok p' →
  pool_ok p' ∧ pool_pending p' = pool_pending p.
Proof.
  intros Hp Hok Hnum He. destruct (expandThreads_spec num p Hp Hnum) as (l & p1 & He' & _ & Hlen & Ht & _ & Hlk & Hp').
  rewrite He in He'. injection He' as <-. unfold pool_ok, pool_pending. rewrite Ht.
  assert (mTasks p' = mTasks p) as -> by (by rewrite Hp'). unfold pool_ok in Hok. rewrite Forall_lookup in Hok. split.
  - apply Forall_app. split; [|apply Forall_replicate, new_thread_ok]. apply Forall_lookup. intros j t Hj.
    rewrite Hlk in Hj. destruct (mThreads p !! j) as [t0|] eqn:E; [|done]. injection Hj as <-.
    case_if; [apply new_thread_ok|by apply (Hok j)].
  - rewrite bind_app, new_threads_hold, app_nil_r. f_equal. apply holds_ext; [done|]. intros j t t' Hj Hj'.
    rewrite Hlk, Hj in Hj'. injection Hj' as <-. case_if; [|done]. to_prop.
    destruct (to_inactive _ (Hok _ _ Hj)) as (Hx & Hm & _); [done|]. unfold holds. by rewrite Hx, Hm.
Qed.

Lemma shrink_keeps num p p' : pool_shape p → pool_ok p → 0 <= num → mHardwareNum p <= mActiveNum p - num → shrinkThreads num p = Ok p' →
  pool_ok p' ∧ pool_pending p' = pool_pending p.
Proof.
  intros Hp Hok Hn Hle He. destruct (shrinkThreads_spec num p Hp Hn Hle) as (l & He' & Hlen & _ & Hlk).
  rewrite He in He'. injection He' as ->. unfold pool_ok, pool_pending in *. cbn [mThreads set_active set_threads mTasks].
  rewrite Forall_lookup in Hok. split.
  - apply Forall_lookup. intros j t Hj. rewrite Hlk in Hj. destruct (mThreads p !! j) as [t0|] eqn:E; [|done].
    injection Hj as <-. case_if; [apply told_ok|]; by apply (Hok j).
  - f_equal. apply holds_ext; [done|]. intros j t t' Hj Hj'. rewrite Hlk, Hj in Hj'. injection Hj' as <-. by case_if.
Qed.

Lemma pool_step_conserves e p p' ts : pool_step e p = Some (Ok (p', ts)) → pool_shape p → pool_ok p → sensible e p →
  pool_ok p' ∧ pool_pending p ++ pool_added e ≡ₚ ts ++ pool_pending p'.
Proof.
  intros Hs Hp Hok He. destruct e as [i|c|num|num]; cbn [pool_step pool_added sensible] in *; rewrite ?app_nil_r.
  - destruct (mThreads p !! i) as [t|] eqn:Ht; [|done]. cbn [mbind option_bind] in Hs.
    destruct (work (view t p)) as [[[s1 ts1]|]|] eqn:Hw; [|done..]. injection Hs as <- <-.
    assert (thread_ok t) as Hto by (by eapply Forall_lookup_1).
    pose proof (work_thread_ok _ _ _ _ Hw Hto) as Hto'.
    destruct (work_conserves tasksPtr _ _ _ Hw) as [Hc _]; [by destruct Hto; split|].
    split; [by apply Forall_insert|]. unfold pool_pending. cbn [mThreads mTasks put_back set_shared set_threads].
    destruct (holds_insert i t (thread s1, pc s1) _ Ht) as (rest & -> & ->).
    unfold pending, held in Hc. change (queue tasksPtr (view t p)) with (mTasks p) in Hc.
    change (running (pc (view t p)) ++ RThread.mTasks (thread (view t p)) ++ moving (pc (view t p))) with (holds t) in Hc.
    change (default [] (tasksQueues s1 !! tasksPtr)) with (queue tasksPtr s1).
    change (running (pc s1) ++ RThread.mTasks (thread s1) ++ moving (pc s1)) with (holds (thread s1, pc s1)) in Hc.
    rewrite <- !app_assoc, !(Permutation_app_comm rest), !app_assoc, Hc. by rewrite !app_assoc.
  - injection Hs as <- <-. split; [done|]. unfold pool_pending, pool_addTask. cbn. by rewrite <- app_assoc.
  - destruct (expandThreads num p) as [p1|] eqn:E; [|done]. injection Hs as <- <-.
    by destruct (expand_keeps _ _ _ Hp Hok He E) as [? ->].
  - destruct He as [Hn Hle]. destruct (shrinkThreads num p) as [p1|] eqn:E; [|done]. injection Hs as <- <-.
    by destruct (shrink_keeps _ _ _ Hp Hok Hn Hle E) as [? ->].
Qed.

(** ** The shape of the pool *)

(** No more threads were told to finish than lie beyond the active ones. *)
Record pool_inv (p : Threadpool) : Prop := {
  pi_shape : pool_shape p;
  pi_ok : pool_ok p;
  pi_told : wiped (mThreads p) <= Z.of_nat (length (mThreads p)) - mActiveNum p }.

Lemma pool_ok_wiped p : pool_ok p → inactive_wiped (mThreads p).
Proof. intros Hok. eapply Forall_impl; [exact Hok|]. intros t Ht Hi. by destruct (to_inactive _ Ht Hi) as (_ & _ & ?). Qed.

Lemma wiped_new n : wiped (replicate n new_thread) = 0.
Proof. induction n as [|n IH]; [done|]. cbn [replicate]. change (new_thread :: ?l) with ([new_thread] ++ l). by rewrite wiped_app, IH. Qed.

Lemma wiped_bound l : 0 <= wiped l <= Z.of_nat (length l).
Proof. unfold wiped. pose proof (length_filter (λ t : RThread W Z * point W Z, mWipe t.1 = true) l). lia. Qed.

Lemma expand_inv num p p' : pool_inv p → 0 <= num < 2 ^ 32 → expandThreads num p = Ok p' → pool_inv p'.
Proof.
  intros [Hp Hok Hw] Hnum He. destruct (expand_keeps _ _ _ Hp Hok Hnum He) as [Hok' _].
  destruct (expandThreads_spec num p Hp Hnum) as (l & p1 & He' & Ha & Hlen & Ht & Hwl & _ & Hp').
  rewrite He in He'. injection He' as <-. specialize (Hwl (pool_ok_wiped _ Hok)).
  assert (0 <= grown num p <= mMaxNum - mActiveNum p) as Hg by (destruct Hp; unfold grown; lia).
  assert (mHardwareNum p' = mHardwareNum p) as Eh by (by rewrite Hp').
  pose proof (wiped_bound l) as Hb. pose proof (ps_active p Hp). pose proof (ps_hardware p Hp).
  unfold mMaxNum, MAX_THREADS_NUM in *.
  assert (wiped (mThreads p') <= Z.of_nat (length (mThreads p')) - mActiveNum p') as Hw'.
  { rewrite Ht, Ha, wiped_app, wiped_new, length_app, length_replicate.
    pose proof (u64_bound (grown num p - open_holes p)).
    assert (grown num p - open_holes p <= u64 (grown num p - open_holes p)).
    { destruct (decide (0 <= grown num p - open_holes p)); [|lia]. rewrite u64_small; unfold size_max, open_holes in *; lia. }
    lia. }
  split; [|done|done]. destruct Hp as [Hh Hr Hlen']. unfold mMaxNum, MAX_THREADS_NUM in *.
  split; unfold mMaxNum, MAX_THREADS_NUM; [lia|lia|]. pose proof (wiped_bound (mThreads p')). lia.
Qed.

Lemma shrink_inv num p p' : pool_inv p → 0 <= num → mHardwareNum p <= mActiveNum p - num → shrinkThreads num p = Ok p' → pool_inv p'.
Proof.
  intros [Hp Hok Hw] Hn Hle He. destruct (shrink_keeps _ _ _ Hp Hok Hn Hle He) as [Hok' _].
  destruct (shrinkThreads_spec num p Hp Hn Hle) as (l & He' & Hlen & Hwl & _).
  rewrite He in He'. injection He' as ->. destruct Hp as [Hh Hr Hlen'].
  split; [|done|cbn; rewrite Hlen; lia]. split; cbn; [done|lia|rewrite Hlen; lia].
Qed.

Lemma pool_step_inv e p p' ts : pool_step e p = Some (Ok (p', ts)) → pool_inv p → sensible e p → pool_inv p'.
Proof.
  intros Hs Hi He. destruct (pool_step_conserves _ _ _ _ Hs (pi_shape _ Hi) (pi_ok _ Hi) He) as [Hok _].
  destruct e as [i|c|num|num]; cbn [pool_step sensible] in *.
  - destruct (mThreads p !! i) as [t|] eqn:Ht; [|done]. cbn [mbind option_bind] in Hs.
    destruct (work (view t p)) as [[[s1 ts1]|]|] eqn:Hw; [|done..]. injection Hs as <- <-.
    destruct Hi as [[Hh Ha Hlen] _ Hw0]. split; [split; cbn; rewrite ?length_insert; done|done|].
    cbn. rewrite length_insert. pose proof (wiped_insert i t (thread s1, pc s1) _ Ht) as Hins. rewrite !wiped_one in Hins.
    assert (mWipe (thread s1) = mWipe t.1) as E.
    { assert (t.2 = Start ∨ t.2 ≠ Start) as [Hp|Hp] by (destruct t.2; (by left) || by right).
      - unfold work, view in Hw. cbn in Hw. rewrite Hp in Hw. by injection Hw as <- <-.
      - by destruct (work_flags _ _ _ Hw Hp) as (_ & -> & _). }
    cbn in Hins. rewrite E in Hins. lia.
  - injection Hs as <- <-. by destruct Hi as [[] ? ?].
  - destruct (expandThreads num p) as [p1|] eqn:E; [|done]. injection Hs as <- <-. by apply (expand_inv num p).
  - destruct He. destruct (shrinkThreads num p) as [p1|] eqn:E; [|done]. injection Hs as <- <-. by apply (shrink_inv num p).
Qed.

Lemma new_pool_inv n w : 1 <= n <= mMaxNum → ∃ p, newThreadpool n w = Ok p ∧ pool_inv p ∧ pool_pending p = [] ∧ mHardwareNum p = n.
Proof.
  intros Hn. unfold newThreadpool. rewrite (proj2 (Z.leb_le _ _)) by lia.
  destruct (Z.to_nat n) as [|k] eqn:Hk; [lia|]. cbn. eexists. split; [done|].
  assert (∀ t, thread_ok t → thread_ok (set_capture true t.1, t.2)) as Hcap by (intros t [? ? ? ? ?]; by split).
  assert (thread_ok (set_results (Some resultsPtr) (set_capture true new_thread.1), Start)) as Hspecial
    by (split; (done || (by right) || by left)).
  split; [|split; [|done]].
  - unfold mMaxNum, MAX_THREADS_NUM in *. split; [split; cbn; rewrite ?length_replicate; unfold mMaxNum, MAX_THREADS_NUM; lia| |].
    + apply Forall_cons. split; [exact Hspecial|]. apply Forall_replicate, new_thread_ok.
    + cbn. rewrite length_replicate. change (?x :: replicate k new_thread) with ([x] ++ replicate k new_thread).
      rewrite wiped_app, wiped_new, wiped_one. cbn [mWipe set_results set_capture set_external newRThread fst]. lia.
  - unfold pool_pending. cbn [mThreads mTasks set_shared set_threads put_back]. cbn. by rewrite new_threads_hold.
Qed.

Lemma pool_run_conserves p es p' ts : pool_run p es p' ts → pool_inv p →
  pool_inv p' ∧ mHardwareNum p' = mHardwareNum p ∧ pool_pending p ++ mjoin (pool_added <$> es) ≡ₚ ts ++ pool_pending p'.
Proof.
  induction 1 as [p|p e p1 ts es p2 rs He Hst _ IH]; intros Hi; [by rewrite app_nil_r|].
  pose proof (pool_step_inv _ _ _ _ Hst Hi He) as Hi1. destruct (IH Hi1) as (Hi2 & Hh & Hc).
  destruct (pool_step_conserves _ _ _ _ Hst (pi_shape _ Hi) (pi_ok _ Hi) He) as [_ Hc1].
  split; [done|]. split.
  - rewrite Hh. destruct e as [i|c|num|num]; cbn [pool_step sensible] in *.
    + destruct (mThreads p !! i); [|done]. cbn [mbind option_bind] in Hst. destruct (work _) as [[[]|]|]; [|done..]. by injection Hst as <- <-.
    + by injection Hst as <- <-.
    + destruct (expandThreads_spec num p (pi_shape _ Hi) He) as (l & q & E & _ & _ & _ & _ & _ & Hq). rewrite E in Hst.
      injection Hst as <- <-. by rewrite Hq.
    + destruct He as [Hn Hle]. destruct (shrinkThreads_spec num p (pi_shape _ Hi) Hn Hle) as (l & E & _). rewrite E in Hst.
      by injection Hst as <- <-.
  - rewrite fmap_cons, mjoin_cons, app_assoc, Hc1, <- app_assoc, Hc. by rewrite app_assoc.
Qed.

(** ** Properties *)


(** What the pool makes of the mean of its results: with no results it divides
    by zero; otherwise, when no thread of its range has ended, it expects one plus
    the mean, cut to sixteen bits, times the processors, goes to that number or to
    the limit if that is less, appends as many new threads as it grows by or tells
    those beyond to finish, and leaves every other thread alone. *)
Theorem pool_adjusts total n p :
  pool_shape p → no_holes p → 0 <= total → 0 <= n →
  let expectation := mHardwareNum p * (1 + u16 (total / n)) in
  if n =? 0 then getExpectationAndAdjust true total n p = Some (Err DivByZero)
  else ∃ p', getExpectationAndAdjust true total n p = Some (Ok (p', 0, 0)) ∧
    mActiveNum p' = Z.min expectation mMaxNum ∧ mAdjustThdNumTimeout p' = false ∧
    Z.of_nat (length (mThreads p')) = Z.of_nat (length (mThreads p)) + Z.max 0 (mActiveNum p' - mActiveNum p) ∧
    ∀ j, mThreads p' !! j = match mThreads p !! j with
      | Some t => Some (if bool_decide (mActiveNum p' <= Z.of_nat j < mActiveNum p) then told t else t)
      | None => if (j <? length (mThreads p'))%nat then Some new_thread else None
      end.
Proof.
  intros Hp Hh Ht Hn expectation. unfold getExpectationAndAdjust. cbn [negb].
  destruct (n =? 0) eqn:E0; [done|]. to_prop. destruct (ps_active p Hp) as [Ha1 Ha2]. pose proof (ps_hardware p Hp) as Hw.
  pose proof (ps_threads p Hp) as Hl. pose proof (Z.mod_pos_bound (total / n) (2 ^ 16) ltac:(lia)) as Hr.
  change ((total / n) mod 2 ^ 16) with (u16 (total / n)) in Hr. unfold mMaxNum, MAX_THREADS_NUM in *.
  assert (mHardwareNum p <= expectation <= 2 ^ 25) as He by (unfold expectation; nia).
  fold expectation. rewrite (u64_small expectation) by (unfold size_max; lia).
  set (p0 := set_expectation expectation p).
  assert (pool_shape p0) as Hp0 by (by destruct Hp; split).
  change (mActiveNum p0) with (mActiveNum p). change (mExpectation p0) with expectation.
  destruct (mActiveNum p <? expectation) eqn:E1; to_prop; [|destruct (expectation <? mActiveNum p) eqn:E2; to_prop].
  - rewrite (expand_no_holes (expectation - mActiveNum p) p0 Hp0) by (done || lia). cbn [mbind res_bind].
    eexists. split; [done|]. cbn [mActiveNum mThreads mAdjustThdNumTimeout set_timeout set_active set_threads].
    change (mActiveNum p0) with (mActiveNum p). change (mThreads p0) with (mThreads p).
    unfold grown, mMaxNum, MAX_THREADS_NUM. change (mActiveNum p0) with (mActiveNum p).
    autorewrite with warring_rw. split_and!; [lia|done|lia|]. intros j.
    destruct (mThreads p !! j) as [t|] eqn:Hj.
    + rewrite (lookup_app_l_Some _ _ _ _ Hj), bool_decide_eq_false_2 by lia. done.
    + apply lookup_ge_None in Hj. rewrite lookup_app_r by done. case_if; to_prop.
      * apply lookup_replicate_2. lia.
      * apply lookup_replicate_None. lia.
  - destruct (shrinkThreads_spec (mActiveNum p - expectation) p0 Hp0) as (l & -> & Hlen & _ & Hlk); [lia|cbn; lia|].
    cbn [mbind res_bind]. change (mActiveNum p0) with (mActiveNum p) in *. change (mThreads p0) with (mThreads p) in *.
    replace (mActiveNum p - (mActiveNum p - expectation)) with expectation in * by lia.
    eexists. split; [done|]. cbn [mActiveNum mThreads mAdjustThdNumTimeout set_timeout set_active set_threads].
    split_and!; [lia|done|lia|]. intros j. rewrite Hlk. destruct (mThreads p !! j) as [t|] eqn:Hj; [done|].
    apply lookup_ge_None in Hj. rewrite Hlen. cbn [mbind option_bind]. by rewrite (proj2 (Nat.ltb_ge _ _)) by lia.
  - cbn [mbind res_bind]. eexists. split; [done|]. cbn [mActiveNum mThreads mAdjustThdNumTimeout set_timeout].
    change (mActiveNum p0) with (mActiveNum p). change (mThreads p0) with (mThreads p).
    split_and!; [lia|done|lia|]. intros j. destruct (mThreads p !! j) as [t|] eqn:Hj.
    + by rewrite bool_decide_eq_false_2 by lia.
    + apply lookup_ge_None in Hj. by rewrite (proj2 (Nat.ltb_ge _ _)) by lia.
Qed.

(** Growing by as many threads as were just told to finish fills none of their
    places: the pool is as active as before and its vector longer by that number,
    and the places within its range are those of the threads that finish. *)
Theorem holes_not_filled k p : pool_shape p → no_holes p → 0 <= k → mHardwareNum p <= mActiveNum p - k →
  ∃ p1 p2, shrinkThreads k p = Ok p1 ∧ expandThreads k p1 = Ok p2 ∧ mActiveNum p2 = mActiveNum p ∧
    Z.of_nat (length (mThreads p2)) = Z.of_nat (length (mThreads p)) + k ∧
    ∀ j t, mThreads p !! j = Some t → mActiveNum p - k <= Z.of_nat j < mActiveNum p → mThreads p2 !! j = Some (told t).
Proof.
  intros Hp Hh Hk Hle. destruct (shrinkThreads_spec k p Hp Hk Hle) as (l & Hs & Hlen & _ & Hlk).
  pose proof (ps_active p Hp) as Ha. pose proof (ps_hardware p Hp). pose proof (ps_threads p Hp). unfold mMaxNum, MAX_THREADS_NUM in *.
  eexists. rewrite Hs. exists (set_active (mActiveNum p) (set_threads (l ++ replicate (Z.to_nat k) new_thread) p)). split; [done|].
  rewrite expand_no_holes.
  - unfold grown, mMaxNum, MAX_THREADS_NUM. cbn. rewrite Z.min_l by lia. rewrite length_app, length_replicate, Hlen.
    split_and!; [f_equal; unfold set_active, set_threads; cbn; f_equal; lia|done|lia|].
    intros j t Hj Hr. apply lookup_app_l_Some. rewrite Hlk, Hj. cbn. by rewrite bool_decide_eq_true_2.
  - split; cbn; unfold mMaxNum, MAX_THREADS_NUM; lia.
  - intros j t Hj Hr. cbn in Hj, Hr. rewrite Hlk in Hj. destruct (mThreads p !! j) as [t0|] eqn:E; [|done].
    injection Hj as <-. rewrite bool_decide_eq_false_2 by lia. apply (Hh j); [done|lia].
  - lia.
Qed.

(** Growing by fewer threads than have ended within the pool's range counts below
    zero: after the holes are filled the pool goes on to append two to the
    sixty-fourth more, less the difference. *)
Theorem expand_runs_away num p : pool_shape p → 0 <= num → mActiveNum p + num <= mMaxNum → num < open_holes p →
  ∃ p', expandThreads num p = Ok p' ∧
    Z.of_nat (length (mThreads p')) = Z.of_nat (length (mThreads p)) + 2 ^ 64 - (open_holes p - num).
Proof.
  intros Hp Hn Hm Ho. pose proof (ps_active p Hp). pose proof (ps_hardware p Hp). unfold mMaxNum, MAX_THREADS_NUM in *.
  destruct (expandThreads_spec num p Hp) as (l & p' & He & _ & Hlen & Ht & _); [lia|].
  exists p'. split; [done|]. rewrite Ht, length_app, length_replicate, Hlen.
  assert (open_holes p <= mActiveNum p).
  { unfold open_holes, holes. pose proof (length_filter (λ t : RThread W Z * point W Z, mInactive t.1 = true)
      (take (Z.to_nat (mActiveNum p - mHardwareNum p)) (drop (Z.to_nat (mHardwareNum p)) (mThreads p)))) as Hf.
    rewrite length_take in Hf. lia. }
  unfold grown, mMaxNum, MAX_THREADS_NUM. rewrite Z.min_l by lia.
  assert (u64 (num - open_holes p) = 2 ^ 64 + (num - open_holes p)) as ->; [|lia].
  unfold u64, wrap. symmetry. apply (Z.mod_unique_pos _ _ (-1)); lia.
Qed.
End Threadpool.
Arguments Threadpool : clear implicits.
Arguments pool_event : clear implicits.

(** ** Witnesses *)

Definition pool_of (n : Z) : Threadpool (list Z) := mkPool 1 n 0 (replicate (Z.to_nat n) new_thread) false [] ∅ [] [] [].

(** One thread more, one task, a few turns of the special thread, one thread less. *)
Definition pool_day : list (pool_event (list Z)) :=
  [Expand 1; AddTask (returns_value (λ w, (w ++ [7], Some 7)))] ++ replicate 16 (ThreadWork 0) ++ [Shrink 1; ThreadWork 0].

Definition sensibleb {W} (e : pool_event W) (p : Threadpool W) : bool :=
  match e with
  | Expand num => (0 <=? num) && (num <? 2 ^ 32)
  | Shrink num => (0 <=? num) && (mHardwareNum p <=? mActiveNum p - num)
  | _ => true
  end.

Lemma sensibleb_sensible {W} (e : pool_event W) p : sensibleb e p = true → sensible e p.
Proof. destruct e; cbn; intros He; to_prop; done. Qed.

Fixpoint pool_exec {W} (es : list (pool_event W)) (p : Threadpool W) : option (Threadpool W * list (TaskWithFuture W Z)) :=
  match es with
  | [] => Some (p, [])
  | e :: es =>
      if negb (sensibleb e p) then None else
      match pool_step e p with
      | Some (Ok (p1, ts)) => '(p2, rs) ← pool_exec es p1; Some (p2, ts ++ rs)
      | _ => None
      end
  end.

Lemma pool_exec_run {W} (es : list (pool_event W)) p p' ts : pool_exec es p = Some (p', ts) → pool_run p es p' ts.
Proof.
  revert p p' ts. induction es as [|e es IH]; intros p p' ts; cbn [pool_exec]; [intros [= <- <-]; constructor|].
  destruct (sensibleb e p) eqn:He; [|done]. destruct (pool_step e p) as [[[p1 ts1]|]|] eqn:E; [|done..].
  cbn [negb]. destruct (pool_exec es p1) as [[p2 rs]|] eqn:E2; [|done]. intros [= <- <-].
  econstructor; [by apply sensibleb_sensible|exact E|by apply IH].
Qed.

Definition small_pool : Threadpool (list Z) :=
  mkPool 1 1 0 [(set_results (Some resultsPtr) (set_capture true new_thread.1), Start)] false [] ∅ [] [] [].

Lemma small_pool_new : newThreadpool 1 [] = Ok small_pool.
Proof. reflexivity. Qed.


Lemma pool_shape_of n : 1 <= n <= 256 → pool_shape (pool_of n).
Proof. intros Hn. split; cbn; unfold mMaxNum, MAX_THREADS_NUM; rewrite ?length_replicate; lia. Qed.

Lemma no_holes_of n : no_holes (pool_of n).
Proof. intros j t Hj _. cbn in Hj. by apply lookup_replicate in Hj as [-> _]. Qed.

(** One processor and three active threads, of which two have ended. *)
Definition ended : RThread (list Z) Z * point (list Z) Z := (set_inactive true (told new_thread).1, Exited).
Definition holey : Threadpool (list Z) := mkPool 1 3 0 [new_thread; ended; ended; new_thread; new_thread] false [] ∅ [] [] [].

Lemma pool_adjusts_witness :
  ∃ p', getExpectationAndAdjust true 7 2 (pool_of 2) = Some (Ok (p', 0, 0)) ∧ mActiveNum p' = 4.
Proof.
  assert (1 <= 2 <= 256) as H2 by lia.
  destruct (pool_adjusts 7 2 (pool_of 2) (pool_shape_of 2 H2) (no_holes_of 2)) as (p' & Hp & Ha & _); [lia|lia|].
  exists p'. split; [exact Hp|]. rewrite Ha. reflexivity.
Defined.

Lemma holes_not_filled_witness :
  ∃ p1 p2, shrinkThreads 2 (pool_of 4) = Ok p1 ∧ expandThreads 2 p1 = Ok p2 ∧ mActiveNum p2 = 4 ∧
    Z.of_nat (length (mThreads p2)) = 6 ∧ mThreads p2 !! 3%nat = Some (told new_thread).
Proof.
  assert (1 <= 4 <= 256) as H4 by lia.
  destruct (holes_not_filled 2 (pool_of 4) (pool_shape_of 4 H4) (no_holes_of 4)) as (p1 & p2 & H1 & H2 & Ha & Hl & Ht);
    [lia|cbn; lia|].
  exists p1, p2. split; [exact H1|]. split; [exact H2|]. split; [exact Ha|]. split; [exact Hl|]. by apply Ht; cbn.
Defined.

Lemma expand_runs_away_witness :
  ∃ p', expandThreads 1 holey = Ok p' ∧ Z.of_nat (length (mThreads p')) = 5 + 2 ^ 64 - 1.
Proof.
  destruct (expand_runs_away 1 holey) as (p' & He & Hl); [|lia| | |].
  - split; cbn; unfold mMaxNum, MAX_THREADS_NUM; lia.
  - cbn. unfold mMaxNum, MAX_THREADS_NUM. lia.
  - vm_compute. reflexivity.
  - exists p'. split; [exact He|]. rewrite Hl. reflexivity.
Defined.
