(* ===== verification/PoolEnd.v ===== *)
(** * The end of a pool: the destructor of [Base/thread/Threadpool.h]

    [~Threadpool] empties the vector of threads, whose destructors run one after
    the other while the workers of the threads that are left go on; then the
    members go, and with them the [std::thread] of [Threadpool::work], which
    nobody has joined.  The two lines that would tell the threads to finish first
    are compiled out. *)

From S2P Require Import Prelude.
From S2P Require SafeQueue.
From S2P Require Import RThread ThreadEnd Threadpool.

Local Open Scope Z_scope.

Section PoolEnd.
Context {W : Type}.

Abbreviation task := (TaskWithFuture W Z).
Abbreviation Pool := (Threadpool W).
Abbreviation system := (system W Z).

(** ** The destructor *)

(** Where it is: in the destructor of thread [i], past [clear()], or in
    [std::terminate]. *)
Inductive ending := Clearing (i : nat) (d : destroying) | Emptied | Terminated.

(** A thread that is gone stays in the list, with its worker at its end. *)
Definition destroyThreadpool (e : ending) (p : Pool) : option (ending * Pool) :=
  match e with
  | Clearing i d =>
      match mThreads p !! i with
      | None => Some (Emptied, set_infos ∅ (set_threads [] p))
      | Some t =>
          '(d, s) ← destroyRThread d (view t p);
          Some (match d with Gone => Clearing (S i) Entered | _ => Clearing i d end, put_back i s p)
      end
  | Emptied => Some (Terminated, p)   (* [~thread] of [mThread], which is joinable *)
  | Terminated => None
  end.

(** The workers and the destructor by turns, and the tasks run meanwhile. *)
Inductive pool_dies : ending → Pool → list task → ending → Pool → Prop :=
  | pool_dies_done e p : pool_dies e p [] e p
  | pool_dies_work e p i t s ts e2 p2 rs : mThreads p !! i = Some t → work (view t p) = Some (Ok (s, ts)) →
      pool_dies e (put_back i s p) rs e2 p2 → pool_dies e p (ts ++ rs) e2 p2
  | pool_dies_destroy e p e1 p1 e2 p2 rs : destroyThreadpool e p = Some (e1, p1) →
      pool_dies e1 p1 rs e2 p2 → pool_dies e p rs e2 p2.

Lemma pool_dies_app e p ts e1 p1 rs e2 p2 : pool_dies e p ts e1 p1 → pool_dies e1 p1 rs e2 p2 → pool_dies e p (ts ++ rs) e2 p2.
Proof.
  induction 1; intros Hd; [done|rewrite <- app_assoc|]; [by eapply pool_dies_work; [..|auto]|by eapply pool_dies_destroy; [|auto]].
Qed.

(** ** A thread of the pool as a system of its own *)

Definition pool_like (s : system) : Prop :=
  tasksQueues s = {[ tasksPtr := queue tasksPtr s ]} ∧ resultsQueues s = {[ resultsPtr := default [] (resultsQueues s !! resultsPtr) ]}.

Lemma view_like t (p : Pool) : pool_like (view t p).
Proof. by split. Qed.

Lemma view_back i s (p : Pool) : pool_like s → view (thread s, pc s) (put_back i s p) = s.
Proof. intros [H1 H2]. unfold view, put_back. destruct s; cbn in *. unfold queue in H1. cbn in H1. by rewrite <- H1, <- H2. Qed.

Lemma put_back_twice i s s1 (p : Pool) : put_back i s (put_back i s1 p) = put_back i s p.
Proof. unfold put_back, set_shared, set_threads. cbn. by rewrite list_insert_insert_eq. Qed.

Lemma addTasks_like p wait n (s : system) : only tasksPtr p → pool_like s → pool_like (addTasks p wait n s).1.
Proof.
  intros Hp Hs. unfold addTasks. destruct (n <? 1); [done|]. destruct Hp as [->| ->]; [done|].
  destruct Hs as [H1 H2]. assert (∀ q, pool_like (set_queue tasksPtr q s)) as Hset.
  { intros q. split; [|done]. rewrite queue_set. cbn. by rewrite H1, insert_singleton_eq. }
  destruct (n =? 1); [|destruct (SafeQueue.popN _ _ _) as [[? ?] ?]; apply Hset].
  destruct (if wait then _ else _). apply Hset.
Qed.

Lemma run_task_like t (s s' : system) : run_task t s = Ok s' → pool_like s → pool_like s'.
Proof.
  unfold run_task. destruct (mFunc t (world s)) as [[w r]|]; cbn [mbind res_bind]; [|done]. intros Hr [H1 H2].
  destruct (mCaptureFuture _ && valid t); [|by injection Hr as <-].
  destruct r as [v|]; cbn [of_option mbind res_bind] in Hr; [|done].
  destruct (lock _ _) as [l|] eqn:Hl; injection Hr as <-; [|done]. split; [done|]. cbn in *.
  assert (l = resultsPtr) as ->.
  { unfold lock in Hl. destruct (mResultsQueuePtr _) as [l'|]; [|done].
    destruct (resultsQueues s !! l') as [q|] eqn:E; [|done]. injection Hl as ->. rewrite H2 in E.
    by apply lookup_singleton_Some in E as [<- _]. }
  rewrite lookup_insert_eq. cbn. generalize (SafeQueue.push v (default [] (resultsQueues s !! resultsPtr))). intros q.
  rewrite H2. apply insert_insert_eq.
Qed.

Lemma work_like (s s' : system) ts : work s = Some (Ok (s', ts)) → serves tasksPtr s → pool_like s → pool_like s'.
Proof.
  intros Hw [_ Hk] Hs. unfold work in Hw.
  destruct (pc s) as [| | | | | |p|p t|p mv|p|mv| |t|]; try done; try (injection Hw as <- _; by repeat case_if).
  - destruct (RThread.mTasks (thread s)) as [|t l']; cbn [negb SafeQueue.empty SafeQueue.pop] in Hw; [|by injection Hw as <- _].
    destruct p as [p|]; [|by injection Hw as <- _]. pose proof (addTasks_like (Some p) true 1 s Hk Hs) as Ha.
    destruct (addTasks (Some p) true 1 s). by injection Hw as <- _.
  - destruct (run_task t s) as [s1|] eqn:Hr; [|done]. injection Hw as <- _. exact (run_task_like _ _ _ Hr Hs).
  - destruct mv; by injection Hw as <- _.
  - assert (pool_like (addByLevel p (mMiddleweight (thread s)) (mLightweight (thread s)) s).1) as Ha.
    { unfold addByLevel. destruct p as [p|]; [|done]. repeat case_if; (done || by apply addTasks_like). }
    destruct (addByLevel p _ _ s). by injection Hw as <- _.
  - destruct mv; by injection Hw as <- _.
  - destruct (RThread.mTasks (thread s)); cbn [negb SafeQueue.empty SafeQueue.pop] in Hw; by injection Hw as <- _.
  - destruct (run_task t s) as [s1|] eqn:Hr; [|done]. injection Hw as <- _. exact (run_task_like _ _ _ Hr Hs).
Qed.
(** ** What holds while the pool is destroyed *)

(** A thread of the pool that is not stopped. *)
Record endable (t : RThread W Z * point W Z) : Prop := {
  en_external : only tasksPtr (mExternalTasksPtr t.1);
  en_kept : only tasksPtr (kept t.2);
  en_stop : mStop t.1 = false;
  en_awake : awake t.2 }.

Record end_inv (e : ending) (p : Pool) : Prop := {
  ei_threads : Forall endable (mThreads p);
  ei_tame : Forall tame (pool_pending p);
  ei_place : match e with
    | Clearing i d => d ≠ Gone ∧ (i <= length (mThreads p))%nat ∧
        ∀ t, mThreads p !! i = Some t → d ≠ Entered → mExternalTasksPtr t.1 = None
    | _ => True
    end }.

Lemma work_endable t (p : Pool) s' ts : work (view t p) = Some (Ok (s', ts)) → endable t → endable (thread s', pc s') ∧ pool_like s' ∧
  (mExternalTasksPtr t.1 = None → mExternalTasksPtr (thread s') = None).
Proof.
  intros Hw [H1 H2 H3 H4]. assert (serves tasksPtr (view t p)) as Hs by by split.
  destruct (work_conserves tasksPtr _ _ _ Hw Hs) as [_ [He Hk]]. destruct (work_links _ _ _ Hw) as [E1 E2].
  split; [split; [done|done|exact (eq_trans E2 H3)|exact (work_awake _ _ _ Hw H3 H4)]|]. split; [|intros E; exact (eq_trans E1 E)].
  exact (work_like _ _ _ Hw Hs (view_like t p)).
Qed.

(** A thread that changes keeps what the others hold. *)
Lemma put_back_pending i t s (p : Pool) : mThreads p !! i = Some t → ∃ rest,
  pool_pending p ≡ₚ pending tasksPtr (view t p) ++ rest ∧ pool_pending (put_back i s p) ≡ₚ pending tasksPtr s ++ rest.
Proof.
  intros Ht. destruct (holds_insert i t (thread s, pc s) _ Ht) as (rest & H1 & H2). exists rest.
  unfold pool_pending. cbn [mThreads mTasks put_back set_shared set_threads]. rewrite H1, H2.
  change (pending tasksPtr (view t p)) with (holds t ++ Threadpool.mTasks p).
  change (pending tasksPtr s) with (holds (thread s, pc s) ++ default [] (tasksQueues s !! tasksPtr)).
  rewrite <- !app_assoc. split; by rewrite (Permutation_app_comm rest).
Qed.

Lemma put_back_inv e i t s ts lost (p : Pool) : end_inv e p → mThreads p !! i = Some t → endable (thread s, pc s) →
  (mExternalTasksPtr t.1 = None → mExternalTasksPtr (thread s) = None) →
  pending tasksPtr (view t p) ≡ₚ ts ++ lost ++ pending tasksPtr s →
  end_inv e (put_back i s p) ∧ pool_pending p ≡ₚ ts ++ lost ++ pool_pending (put_back i s p).
Proof.
  intros [H1 H2 H3] Ht He Hx Hp. destruct (put_back_pending i t s p Ht) as (rest & E1 & E2).
  assert (pool_pending p ≡ₚ ts ++ lost ++ pool_pending (put_back i s p)) as Hc by (by rewrite E1, E2, Hp, <- !app_assoc).
  split; [|done]. split.
  - by apply Forall_insert.
  - rewrite Hc in H2. by apply Forall_app in H2 as [_ [_ ?]%Forall_app].
  - destruct e as [j d| |]; [|done..]. cbn [mThreads put_back set_shared set_threads]. rewrite length_insert.
    destruct H3 as (? & ? & H3). split_and!; [done|done|]. intros t' Ht' Hd.
    destruct (decide (i = j)) as [->|Hne]; [|rewrite list_lookup_insert_ne in Ht' by done; by apply H3].
    rewrite list_lookup_insert_eq in Ht' by (by eapply lookup_lt_Some). injection Ht' as <-. by apply Hx, H3.
Qed.

Lemma destroy_step e (p : Pool) e1 p1 : end_inv e p → destroyThreadpool e p = Some (e1, p1) →
  end_inv e1 p1 ∧ ∃ lost, pool_pending p ≡ₚ lost ++ pool_pending p1.
Proof.
  intros Hi Hd. pose proof Hi as [H1 H2 H3]. destruct e as [i d| |]; cbn [destroyThreadpool] in Hd; [|injection Hd as <- <-|done].
  2: { split; [by split|by exists []]. }
  destruct H3 as (Hg & Hlen & Hx). destruct (mThreads p !! i) as [t|] eqn:Ht.
  2: { injection Hd as <- <-. split; [|by eexists; unfold pool_pending].
       split; [done| |done]. unfold pool_pending in *. cbn. by apply Forall_app in H2 as [_ ?]. }
  assert (endable t) as [T1 T2 T3 T4] by (by eapply Forall_lookup_1).
  destruct d; cbn [destroyRThread mbind option_bind] in Hd; [| | |done].
  - injection Hd as <- <-. destruct (put_back_inv _ i t (reset_external (view t p)) [] [] p Hi Ht) as [[I1 I2 (I3 & I4 & I5)] Hc]; [|done|done|].
    { split; [by left|done..]. }
    split; [|by exists []]. split; [done|done|]. split_and!; [done|done|]. intros t' Ht' _. cbn in Ht'.
    rewrite list_lookup_insert_eq in Ht' by (by eapply lookup_lt_Some). by injection Ht' as <-.
  - injection Hd as <- <-. set (s1 := clear_tasks (view t p)).
    destruct (put_back_inv _ i t s1 [] (RThread.mTasks t.1) p Hi Ht) as [[I1 I2 (I3 & I4 & I5)] Hc]; [by split|done| |].
    + unfold pending, held, s1, clear_tasks. cbn. rewrite SafeQueue.clear_empty. cbn. rewrite <- !app_assoc.
      apply Permutation_app_swap_app.
    + split; [|by eexists]. split; [done|done|]. split_and!; [done|done|]. intros t' Ht' _. by apply I5.
  - destruct (join_returns (view t p)); [|done]. injection Hd as <- <-.
    destruct (put_back_inv _ i t (view t p) [] [] p Hi Ht) as [[I1 I2 (I3 & I4 & I5)] Hc]; [by split|done|done|].
    split; [|by exists []]. split; [done|done|]. split_and!; [done| |done].
    cbn. rewrite length_insert. by apply lookup_lt_Some in Ht.
Qed.

Lemma pool_dies_inv e (p : Pool) ts e1 p1 : pool_dies e p ts e1 p1 → end_inv e p →
  end_inv e1 p1 ∧ ∃ lost, pool_pending p ≡ₚ ts ++ lost ++ pool_pending p1.
Proof.
  induction 1 as [e p|e p i t s ts e2 p2 rs Ht Hw _ IH|e p e1 p1 e2 p2 rs Hd _ IH]; intros Hi; [by split; [|exists []]| |].
  - pose proof (Forall_lookup_1 _ _ _ _ (ei_threads _ _ Hi) Ht) as He. destruct (work_endable _ _ _ _ Hw He) as (He' & _ & Hx).
    destruct (work_conserves tasksPtr _ _ _ Hw) as [Hc _]; [by destruct He; split|].
    destruct (put_back_inv e i t s ts [] p Hi Ht He' Hx) as [Hi' Hc']; [by rewrite Hc|].
    destruct (IH Hi') as (Hi2 & lost & Hl). split; [done|]. exists lost. rewrite Hc', Hl. cbn. by rewrite <- app_assoc.
  - destruct (destroy_step _ _ _ _ Hi Hd) as (Hi' & lost1 & Hc). destruct (IH Hi') as (Hi2 & lost2 & Hl).
    split; [done|]. exists (lost1 ++ lost2). rewrite Hc, Hl. rewrite !app_assoc. by rewrite (Permutation_app_comm lost1).
Qed.
(** ** It can always go on *)

Lemma lift_run e i n (p : Pool) t s ts : run (view t p) (replicate n Work) s ts → mThreads p !! i = Some t → endable t →
  pool_dies e p ts e (put_back i s p).
Proof.
  revert t p ts. induction n as [|n IH]; intros t p ts Hr Ht He; cbn [replicate] in Hr.
  - inversion Hr; subst. assert (put_back i (view t p) p = p) as ->; [|constructor].
    unfold put_back. destruct p, t. cbn in *. by rewrite list_insert_id.
  - inversion Hr as [|? ? s1 ts1 ? ? rs Hst Hr1]; subst. cbn [step] in Hst.
    destruct (work_endable _ _ _ _ Hst He) as (He1 & Hlike & _). eapply pool_dies_work; [exact Ht|exact Hst|].
    rewrite <- (put_back_twice i s s1). apply (IH (thread s1, pc s1)); [by rewrite view_back| |done].
    apply list_lookup_insert_eq. by eapply lookup_lt_Some.
Qed.

(** The destructor of thread [i] can return, and the next one's turn comes. *)
Definition passes (i : nat) (d : destroying) (p : Pool) : Prop :=
  ∃ ts p', pool_dies (Clearing i d) p ts (Clearing (S i) Entered) p' ∧ length (mThreads p') = length (mThreads p).

(** Once the thread's own tasks have been cleared it is joined. *)
Lemma thread_joined i t (p : Pool) : end_inv (Clearing i Cleared) p → mThreads p !! i = Some t → passes i Cleared p.
Proof.
  intros [H1 H2 (_ & _ & H3)] Ht. pose proof (Forall_lookup_1 _ _ _ _ H1 Ht) as He. pose proof He as [T1 T2 T3 T4].
  assert (let_go tasksPtr (view t p)) as Hl.
  { split; [by apply H3|done|by split|]. destruct (put_back_pending i t (view t p) p Ht) as (rest & E & _).
    rewrite E in H2. by apply Forall_app in H2 as [? _]. }
  assert (∃ n s ts, run (view t p) (replicate n Work) s ts ∧ pc s = Exited) as (n & s & ts & Hr & Hp).
  { assert (t.2 = Exited ∨ t.2 ≠ Exited) as [E|E] by (destruct t.2; (by left) || by right); [by exists 0%nat, (view t p), []; split; [constructor|]|].
    destruct (let_go_leaves tasksPtr (view t p) Hl (proj1 T4) (proj2 T4)) as (n & s & ts & Hr & Hp & _); [done|]. by exists n, s, ts. }
  exists ts, (put_back i s (put_back i s p)). split; [|by cbn; rewrite !length_insert].
  rewrite <- (app_nil_r ts). eapply pool_dies_app; [exact (lift_run _ i n p t s ts Hr Ht He)|].
  assert (mThreads (put_back i s p) !! i = Some (thread s, pc s)) as Hs by (apply list_lookup_insert_eq; by eapply lookup_lt_Some).
  assert (pool_like s) as Hlike.
  { clear -Hr He. revert Hr. generalize (view_like t p). assert (serves tasksPtr (view t p)) as Hsv by (destruct He; by split).
    revert Hsv. generalize (view t p). revert ts. induction n as [|n IH]; intros ts s0 Hsv Hlk Hr; inversion Hr as [|? ? s1 ts1 ? ? rs Hst Hr1]; subst; [done|].
    cbn [step] in Hst. eapply IH; [|eapply work_like; done|exact Hr1]. by apply (work_conserves tasksPtr _ _ _ Hst). }
  eapply pool_dies_destroy; [|constructor]. cbn [destroyThreadpool]. rewrite Hs, view_back by done.
  unfold destroyRThread, join_returns. by rewrite Hp.
Qed.

Lemma passes_step i d d' t s (p : Pool) : end_inv (Clearing i d) p → mThreads p !! i = Some t →
  destroyRThread d (view t p) = Some (d', s) → d' ≠ Gone →
  (∀ t1 p1, end_inv (Clearing i d') p1 → mThreads p1 !! i = Some t1 → passes i d' p1) → passes i d p.
Proof.
  intros Hi Ht Hd Hg Hnext. assert (destroyThreadpool (Clearing i d) p = Some (Clearing i d', put_back i s p)) as Hs.
  { cbn. rewrite Ht. cbn. rewrite Hd. cbn. by destruct d'. }
  destruct (destroy_step _ _ _ _ Hi Hs) as [Hi' _].
  destruct (Hnext (thread s, pc s) _ Hi') as (ts & p' & Hr & Hlen); [apply list_lookup_insert_eq; by eapply lookup_lt_Some|].
  exists ts, p'. split; [by eapply pool_dies_destroy|]. rewrite Hlen. cbn. by rewrite length_insert.
Qed.

Lemma thread_destroyed i d t (p : Pool) : end_inv (Clearing i d) p → mThreads p !! i = Some t → passes i d p.
Proof.
  intros Hi Ht. destruct d; [| |by eapply thread_joined|by destruct Hi as [_ _ [? _]]].
  - eapply passes_step; [done|exact Ht|done|done|]. intros t1 p1 Hi1 Ht1.
    eapply passes_step; [done|exact Ht1|done|done|]. intros t2 p2. apply thread_joined.
  - eapply passes_step; [done|exact Ht|done|done|]. intros t1 p1. apply thread_joined.
Qed.

Lemma rest_destroyed k i d (p : Pool) : end_inv (Clearing i d) p → (length (mThreads p) = i + k)%nat →
  ∃ ts p', pool_dies (Clearing i d) p ts Terminated p'.
Proof.
  revert i d p. induction k as [|k IH]; intros i d p Hi Hk.
  - exists [], (set_infos ∅ (set_threads [] p)). eapply pool_dies_destroy.
    { cbn. rewrite lookup_ge_None_2 by lia. done. }
    eapply pool_dies_destroy; [done|constructor].
  - destruct (lookup_lt_is_Some_2 (mThreads p) i ltac:(lia)) as [t Ht].
    destruct (thread_destroyed i d t p Hi Ht) as (ts & p1 & Hr & Hlen). destruct (pool_dies_inv _ _ _ _ _ Hr Hi) as [Hi1 _].
    destruct (IH (S i) Entered p1 Hi1) as (ts2 & p2 & Hr2); [lia|]. exists (ts ++ ts2), p2. by eapply pool_dies_app.
Qed.

(** ** A pool in use *)

Lemma new_thread_endable : endable (new_thread (W := W)).
Proof. split; [by right|by left|done|done]. Qed.

Lemma told_endable t : endable t → endable (told t).
Proof. intros [H1 H2 H3 H4]. split; [by left|done..]. Qed.

(** No request of the pool stops a thread. *)
Lemma pool_step_endable ev (p p1 : Pool) ts : pool_step ev p = Some (Ok (p1, ts)) → pool_shape p → sensible ev p →
  Forall endable (mThreads p) → Forall endable (mThreads p1).
Proof.
  intros Hs Hp He Hok. destruct ev as [i|c|num|num]; cbn [pool_step sensible] in *.
  - destruct (mThreads p !! i) as [t|] eqn:Ht; [|done]. cbn [mbind option_bind] in Hs.
    destruct (work (view t p)) as [[[s1 ts1]|]|] eqn:Hw; [|done..]. injection Hs as <- <-.
    pose proof (Forall_lookup_1 _ _ _ _ Hok Ht) as Hen. apply Forall_insert; [done|]. by eapply work_endable.
  - by injection Hs as <- <-.
  - destruct (expandThreads_spec num p Hp He) as (l & p' & E & _ & _ & Ht & _ & Hlk & _). rewrite E in Hs. injection Hs as <- <-.
    rewrite Ht. apply Forall_app. split; [|apply Forall_replicate, new_thread_endable]. rewrite Forall_lookup in Hok |- *.
    intros j t Hj. rewrite Hlk in Hj. destruct (mThreads p !! j) as [t0|] eqn:E0; [|done]. injection Hj as <-.
    case_if; [apply new_thread_endable|by apply (Hok j)].
  - destruct He as [Hn Hle]. destruct (shrinkThreads_spec num p Hp Hn Hle) as (l & E & _ & _ & Hlk). rewrite E in Hs. injection Hs as <- <-.
    cbn. rewrite Forall_lookup in Hok |- *. intros j t Hj. rewrite Hlk in Hj. destruct (mThreads p !! j) as [t0|] eqn:E0; [|done].
    injection Hj as <-. case_if; [apply told_endable|]; by apply (Hok j).
Qed.

Lemma pool_run_endable (p : Pool) es p1 ts : pool_run p es p1 ts → pool_inv p → Forall endable (mThreads p) → Forall endable (mThreads p1).
Proof.
  induction 1 as [p|p e p1 ts es p2 rs He Hst _ IH]; intros Hi Hok; [done|].
  apply IH; [exact (pool_step_inv _ _ _ _ Hst Hi He)|exact (pool_step_endable _ _ _ _ Hst (pi_shape _ Hi) He Hok)].
Qed.

Lemma new_pool_endable n w (p : Pool) : newThreadpool n w = Ok p → 1 <= n <= mMaxNum → Forall endable (mThreads p).
Proof.
  intros Hp Hn. unfold newThreadpool in Hp. rewrite (proj2 (Z.leb_le _ _)) in Hp by lia.
  destruct (Z.to_nat n) as [|k] eqn:Hk; [lia|]. cbn in Hp. injection Hp as <-. cbn.
  apply Forall_cons. split; [|apply Forall_replicate, new_thread_endable]. split; [by right|by left|done|done].
Qed.

(** ** Properties *)

End PoolEnd.

(** ** Witnesses *)

(** A pool of one thread, with a task that waits, at the moment its destructor
    begins: the task can still be run before the end. *)
Definition ended_day : list (pool_event (list Z)) :=
  [AddTask (returns_value (λ w, (w ++ [7], Some 7)))] ++ replicate 3 (ThreadWork 0).

