(* ===== verification/LoggerBuffer.v ===== *)
(** * The buffers of the log: [Base/utility/LoggerBuffer.h], [LoggerLine.{h,cpp}]

    A buffer is an array of bytes with two positions, one behind the last byte
    pushed and one for reading lines; what is not written is zero.  A line has
    two of them, one to work in and one in reserve: a full one goes to the
    queue of filled buffers and a new one comes from the queue of empty ones. *)

From S2P Require Import Prelude.
From S2P Require Import BaseMessage.
From S2P Require SafeQueue.

Local Open Scope Z_scope.

Definition SMALLBUFFERSIZE : Z := 4096.
Definition LARGEBUFFERSIZE : Z := 4096 * 10.

Definition SUITABLEBUFFSIZE (N : Z) : Z :=
  if LARGEBUFFERSIZE <=? N then LARGEBUFFERSIZE else if N <=? SMALLBUFFERSIZE then SMALLBUFFERSIZE else N.

Definition blanks (n : Z) : str := replicate (Z.to_nat n) (byte_of 0).

(** A position in the array is its distance from [mBuffer]. *)
Record LoggerBuffer := mkBuffer { mThreadID : str; mBuffer : str; mCurrent : Z; mCursor : Z }.

(** A queue of buffers; the moved-from pointer is null. *)
Abbreviation buffers := (@SafeQueue.SafeQueue (option LoggerBuffer)).

(** The place of the first byte [c], as [string_view::find] has it. *)
Fixpoint find_byte (c : ascii) (s : str) : option nat :=
  match s with [] => None | x :: s => if decide (x = c) then Some 0%nat else S <$> find_byte c s end.

(** What a [string_view] of a pointer reads: up to a zero byte, which must be there. *)
Definition c_view (s : str) : res str :=
  match find_byte (byte_of 0) s with Some n => Ok (take n s) | None => Err OutOfBounds end.

Section Buffer.
(** The argument of the template. *)
Context (N : Z).

Definition mCapacity : Z := SUITABLEBUFFSIZE N.

Definition newLoggerBuffer : LoggerBuffer := mkBuffer [] (blanks mCapacity) 0 0.

Definition setThreadID (id : str) (b : LoggerBuffer) : LoggerBuffer := mkBuffer id (mBuffer b) (mCurrent b) (mCursor b).
Definition getThreadID (b : LoggerBuffer) : str := mThreadID b.
Definition empty (b : LoggerBuffer) : bool := mCurrent b =? 0.
Definition getCapacity (b : LoggerBuffer) : Z := mCapacity.
Definition getSize (b : LoggerBuffer) : Z := mCurrent b.
Definition getAvail (b : LoggerBuffer) : Z := mCapacity - mCurrent b.

(** The cursor stays where it is. *)
Definition reset (b : LoggerBuffer) : LoggerBuffer := mkBuffer (mThreadID b) (blanks mCapacity) 0 (mCursor b).

Definition setCursor (pos : Z) (b : LoggerBuffer) : LoggerBuffer :=
  mkBuffer (mThreadID b) (mBuffer b) (mCurrent b) (if mCapacity <? pos then mCapacity else pos).

(** [memcpy] of a string to a position. *)
Definition copy_to (at_ : Z) (s buf : str) : str :=
  take (Z.to_nat at_) buf ++ s ++ drop (Z.to_nat at_ + length s) buf.

Definition push (msg : str) (b : LoggerBuffer) : LoggerBuffer * bool :=
  let len := strlen msg in
  if len <? getAvail b
  then (mkBuffer (mThreadID b) (copy_to (mCurrent b) msg (mBuffer b)) (mCurrent b + len) (mCursor b), true)
  else (b, false).

Definition popLine (b : LoggerBuffer) : res (LoggerBuffer * str) :=
  if mCursor b =? mCapacity then Ok (b, []) else
  let rest := drop (Z.to_nat (mCursor b)) (mBuffer b) in
  sv ← c_view rest;
  match find_byte (byte_of 10) sv with
  | None =>
      (* as many bytes as are free, wherever the cursor is *)
      if strlen rest <? getAvail b then Err OutOfBounds
      else Ok (reset b, take (Z.to_nat (getAvail b)) rest ++ [byte_of 10])
  | Some pos =>
      Ok (mkBuffer (mThreadID b) (copy_to (mCursor b) (blanks (Z.of_nat pos + 1)) (mBuffer b)) (mCurrent b)
            (mCursor b + Z.of_nat pos + 1), take (S pos) rest)
  end.

(** To be written, says the code. *)
Definition popAll (fd : Z) (b : LoggerBuffer) : Z := 0.

Definition get (b : LoggerBuffer) : str := mBuffer b.

(** ** [LoggerLine] *)

(** [linked]: the weak pointers to the queues can be locked. *)
Record LoggerLine := mkLine {
  mLoggerBufferPtrA : option LoggerBuffer;
  mLoggerBufferPtrB : option LoggerBuffer;
  linked : bool }.

Definition newLoggerLine : LoggerLine := mkLine (Some newLoggerBuffer) (Some newLoggerBuffer) false.

Definition getBufferPtrQueue (l : LoggerLine) : LoggerLine := mkLine (mLoggerBufferPtrA l) (mLoggerBufferPtrB l) true.

Definition getEmptyBuffer (l : LoggerLine) (emptied : buffers) : LoggerLine * buffers :=
  match mLoggerBufferPtrB l with
  | Some _ => (l, emptied)
  | None =>
      if linked l then
        let '(emptied, b) := SafeQueue.pop emptied in
        (mkLine (mLoggerBufferPtrA l) (match b with Some b => b | None => Some newLoggerBuffer end) true, emptied)
      else (l, emptied)
  end.

(** The reserve, which was worked in until now, to the filled ones. *)
Definition fill_queue (l : LoggerLine) (filled : buffers) : LoggerLine * buffers :=
  if linked l then (mkLine (mLoggerBufferPtrA l) None true, SafeQueue.push (mLoggerBufferPtrB l) filled) else (l, filled).

Definition swap (l : LoggerLine) : LoggerLine := mkLine (mLoggerBufferPtrB l) (mLoggerBufferPtrA l) (linked l).

Definition pushToQueue (l : LoggerLine) (filled emptied : buffers) : LoggerLine * buffers * buffers :=
  let '(l, emptied) := getEmptyBuffer l emptied in
  let '(l, filled) := fill_queue (swap l) filled in
  (l, filled, emptied).

Definition set_A (b : LoggerBuffer) (l : LoggerLine) : LoggerLine := mkLine (Some b) (mLoggerBufferPtrB l) (linked l).

Definition pushToBuffer (msg : str) (l : LoggerLine) (filled emptied : buffers) : res (LoggerLine * buffers * buffers) :=
  a ← of_option NullDeref (mLoggerBufferPtrA l);
  let '(a, pushed) := push msg a in
  if pushed : bool then Ok (set_A a l, filled, emptied) else
  let '(l, emptied) := getEmptyBuffer l emptied in
  let l := swap l in
  a ← of_option NullDeref (mLoggerBufferPtrA l);
  let '(a, _) := push msg a in
  let '(l, filled) := fill_queue (set_A a l) filled in
  Ok (l, filled, emptied).

(** [~LoggerLine] *)
Definition closeLine (l : LoggerLine) (filled : buffers) : buffers :=
  let keep (b : option LoggerBuffer) (filled : buffers) : buffers :=
    match b with Some b => if empty b then filled else SafeQueue.push (Some b) filled | None => filled end in
  if linked l then keep (mLoggerBufferPtrB l) (keep (mLoggerBufferPtrA l) filled) else filled.

(** ** What a buffer holds *)

Definition pushed_bytes (b : LoggerBuffer) : str := take (Z.to_nat (mCurrent b)) (mBuffer b).

(** There is always a zero byte behind what was pushed. *)
Record buffer_ok (b : LoggerBuffer) : Prop := {
  bo_length : strlen (mBuffer b) = mCapacity;
  bo_current : 0 <= mCurrent b < mCapacity;
  bo_blank : drop (Z.to_nat (mCurrent b)) (mBuffer b) = blanks (mCapacity - mCurrent b) }.

Lemma capacity_bounds : 4096 <= mCapacity <= 40960.
Proof. unfold mCapacity, SUITABLEBUFFSIZE, LARGEBUFFERSIZE, SMALLBUFFERSIZE. repeat case_match; to_prop; lia. Qed.

Lemma strlen_blanks n : 0 <= n → strlen (blanks n) = n.
Proof. unfold strlen, blanks. rewrite length_replicate. lia. Qed.

Lemma new_buffer_ok : buffer_ok newLoggerBuffer ∧ pushed_bytes newLoggerBuffer = [].
Proof.
  pose proof capacity_bounds. split; [|done]. split; cbn [mBuffer mCurrent newLoggerBuffer]; [by apply strlen_blanks; lia|lia|].
  by rewrite Z.sub_0_r.
Qed.

Lemma reset_ok b : buffer_ok (reset b) ∧ pushed_bytes (reset b) = [].
Proof.
  pose proof capacity_bounds. split; [|done]. split; cbn [mBuffer mCurrent reset]; [by apply strlen_blanks; lia|lia|].
  by rewrite Z.sub_0_r.
Qed.

Lemma push_ok msg b : buffer_ok b → strlen msg < getAvail b →
  ∃ b', push msg b = (b', true) ∧ buffer_ok b' ∧ pushed_bytes b' = pushed_bytes b ++ msg.
Proof.
  intros [Hl Hc Hb] Hm. unfold push. rewrite (proj2 (Z.ltb_lt _ _)) by done. eexists. split; [done|].
  unfold getAvail in Hm. pose proof (strlen_nonneg msg). unfold copy_to, pushed_bytes in *.
  assert (drop (Z.to_nat (mCurrent b) + length msg) (mBuffer b) = blanks (mCapacity - (mCurrent b + strlen msg))) as Hd.
  { rewrite <- drop_drop, Hb. unfold blanks. rewrite drop_replicate. f_equal. unfold strlen in *. lia. }
  assert (length (take (Z.to_nat (mCurrent b)) (mBuffer b)) = Z.to_nat (mCurrent b)) as Ht.
  { rewrite length_take. unfold strlen in Hl. lia. }
  rewrite Hd, app_assoc. assert (Z.to_nat (mCurrent b + strlen msg) = length (take (Z.to_nat (mCurrent b)) (mBuffer b) ++ msg)) as Hn.
  { rewrite length_app, Ht. unfold strlen in *. lia. }
  split; [split; cbn [mBuffer mCurrent]|cbn [mBuffer mCurrent]].
  - rewrite strlen_app, strlen_blanks by lia. unfold strlen in *. rewrite <- Hn. lia.
  - lia.
  - by rewrite Hn, drop_app_length.
  - by rewrite Hn, take_app_length.
Qed.

Lemma push_full msg b : getAvail b <= strlen msg → push msg b = (b, false).
Proof. intros Hm. unfold push. by rewrite (proj2 (Z.ltb_ge _ _)). Qed.
End Buffer.

(** ** What a line does with its buffers *)

Section Line.
Context (N : Z).

(** A pointer to a buffer with these bytes pushed. *)
Definition holds (p : option LoggerBuffer) (s : str) : Prop := ∃ b, p = Some b ∧ buffer_ok N b ∧ pushed_bytes b = s.

(** A line with these bytes in its working buffer. *)
Record line_ok (l : LoggerLine) (s : str) : Prop := {
  lo_linked : linked l = true;
  lo_work : holds (mLoggerBufferPtrA l) s;
  lo_reserve : mLoggerBufferPtrB l = None ∨ holds (mLoggerBufferPtrB l) [] }.

Definition all_empty (emptied : buffers) : Prop := Forall (λ p, holds p []) emptied.

Lemma holds_new : holds (Some (newLoggerBuffer N)) [].
Proof. exists (newLoggerBuffer N). split; [done|]. apply new_buffer_ok. Qed.

Lemma new_line_ok : line_ok (getBufferPtrQueue (newLoggerLine N)) [].
Proof. split; [done|apply holds_new|right; apply holds_new]. Qed.

Lemma relink_ok l s : line_ok l s → getBufferPtrQueue l = l.
Proof. intros [Hl _ _]. unfold getBufferPtrQueue. rewrite <- Hl. by destruct l. Qed.

Lemma getEmptyBuffer_ok l s emptied : line_ok l s → all_empty emptied →
  ∃ b emptied', getEmptyBuffer N l emptied = (mkLine (mLoggerBufferPtrA l) b true, emptied') ∧ holds b [] ∧ all_empty emptied'.
Proof.
  intros [Hl Ha Hb] He. unfold getEmptyBuffer. destruct Hb as [Hb|(b & Hb & Hbo)].
  - rewrite Hb, Hl. destruct emptied as [|p emptied]; cbn [SafeQueue.pop].
    + eexists _, _. split; [done|]. split; [apply holds_new|done].
    + apply Forall_cons in He as [Hp He]. by eexists _, _.
  - rewrite Hb. exists (Some b), emptied. split; [destruct l; cbn in *; congruence|]. split; [by exists b|done].
Qed.

Lemma pushToQueue_ok l s filled emptied : line_ok l s → all_empty emptied →
  ∃ l' p emptied', pushToQueue N l filled emptied = (l', filled ++ [p], emptied') ∧ line_ok l' [] ∧ holds p s ∧ all_empty emptied'.
Proof.
  intros Hl He. destruct (getEmptyBuffer_ok l s emptied Hl He) as (b & emptied' & Hg & Hb & He').
  unfold pushToQueue. rewrite Hg. eexists _, _, _. split; [reflexivity|]. split_and!; [|apply Hl|done]. split; [done|done|by left].
Qed.

(** A message goes into the working buffer, or the buffer is full and goes to the
    queue; a message that no buffer can hold is dropped then. *)
Lemma pushToBuffer_ok msg l s filled emptied : line_ok l s → all_empty emptied →
  ∃ l' filled' emptied', pushToBuffer N msg l filled emptied = Ok (l', filled', emptied') ∧ all_empty emptied' ∧
    ((filled' = filled ∧ strlen msg < mCapacity N ∧ line_ok l' (s ++ msg)) ∨
     ∃ p, filled' = filled ++ [p] ∧ holds p s ∧ line_ok l' (if strlen msg <? mCapacity N then msg else [])).
Proof.
  intros Hl He. pose proof Hl as [Hlk (a & Ha & Hao & Has) Hb]. unfold pushToBuffer. rewrite Ha. cbn [of_option mbind res_bind].
  destruct (decide (strlen msg < getAvail N a)) as [Hfit|Hfull].
  - destruct (push_ok N msg a Hao Hfit) as (a' & Hp & Hao' & Has'). rewrite Hp. eexists _, _, _. split; [done|]. split; [done|].
    left. split; [done|]. pose proof (bo_current _ _ Hao). split; [unfold getAvail in Hfit; lia|].
    split; [done| |done]. exists a'. by rewrite Has', Has.
  - rewrite push_full by lia. destruct (getEmptyBuffer_ok l s emptied Hl He) as (b & emptied' & Hg & (b0 & -> & Hbo & Hbs) & He').
    rewrite Hg. cbn [swap mLoggerBufferPtrA mLoggerBufferPtrB linked of_option mbind res_bind]. rewrite Ha.
    assert (∃ b', (push N msg b0).1 = b' ∧ buffer_ok N b' ∧ pushed_bytes b' = (if strlen msg <? mCapacity N then msg else []))
      as (b' & Hb' & Hbo' & Hbs').
    { assert (mCurrent b0 = 0) as Hc.
      { apply (f_equal length) in Hbs. destruct Hbo as [H1 H2 H3]. unfold pushed_bytes, strlen in *. rewrite length_take in Hbs. cbn in Hbs. lia. }
      destruct (strlen msg <? mCapacity N) eqn:E; to_prop.
      - destruct (push_ok N msg b0 Hbo) as (b' & Hp & Hbo' & Hbs'); [unfold getAvail; lia|]. exists b'. by rewrite Hp, Hbs', Hbs.
      - exists b0. rewrite push_full; [done|]. unfold getAvail. lia. }
    destruct (push N msg b0) as [b1 r]. cbn [fst] in Hb'. subst b1. eexists _, _, _. split; [reflexivity|]. split; [done|].
    right. exists (Some a). split_and!; [done|by exists a|]. split; [done| |by left]. by exists b'.
Qed.
End Line.
