(* ===== verification/Logger.v ===== *)
(** * The log: [Base/utility/LoggerFile.{h,cpp}], [Logger.{h,cpp}], [LoggerMessage.{h,cpp}]

    A statement of the log makes one string and pushes it to the line of its
    thread; the thread of the logger takes filled buffers off their queue and
    writes them to a file, which it replaces when it is full.  The lines are used
    by their thread and, when the timer has fired, by the thread of the logger,
    without a lock: here one use of a line follows the other. *)

From S2P Require Import Prelude.
From S2P Require Import BaseMessage.
From S2P Require SafeQueue Timer.
From S2P Require Import SafeHashmap.
From S2P Require Import LoggerBuffer.

Local Open Scope Z_scope.

(** ** [LoggerFile] *)

(** What the kernel was given to write, and where, in order. *)
Abbreviation Disk := (list (Z * str)).

Record LoggerFile := mkFile {
  mFd : Z;
  mOldFd : Z;
  mNo : Z;
  mLogFileName : str;
  mFileSizeLimite : Z;
  mCurrDataSize : Z;
  mPath : str;
  mFileRunning : bool }.

Definition newLoggerFile : LoggerFile := mkFile (-1) (-1) 1 [] 0 0 [] true.

Definition set_path (p : str) (f : LoggerFile) : LoggerFile :=
  mkFile (mFd f) (mOldFd f) (mNo f) (mLogFileName f) (mFileSizeLimite f) (mCurrDataSize f) p (mFileRunning f).
Definition set_size (n : Z) (f : LoggerFile) : LoggerFile :=
  mkFile (mFd f) (mOldFd f) (mNo f) (mLogFileName f) (mFileSizeLimite f) n (mPath f) (mFileRunning f).

(** [intid], the bits of the identifier. *)
Definition threadID (intid : Z) : str := to_string intid.

Definition slash : ascii := byte_of 47.

(** [created]: directories were made; [existed]: the path is there; [current]: the
    working directory. *)
Definition createCustomLogPath (logPath : str) (created existed : bool) (current : str) (f : LoggerFile) : res (LoggerFile * bool) :=
  back ← of_option OutOfBounds (last logPath);
  let logPath := if decide (back = slash) then logPath else logPath ++ [slash] in
  Ok (if created || existed then (set_path logPath f, true) else (set_path current f, false)).

Definition createDefaultLogPath (created existed : bool) (current : str) (f : LoggerFile) : res LoggerFile :=
  match mPath f with
  | [] => fst <$> createCustomLogPath (current ++ lit "/log/") created existed current f
  | _ => Ok f
  end.

(** The name of the process, its identifier, and the time. *)
Record names := mkNames { pname : str; pid : str; rough : str }.

Definition generateAbsoluteLogPathName (e : names) (f : LoggerFile) : LoggerFile * str :=
  let name := pname e ++ lit "[" ++ pid e ++ lit "-" ++ to_string (mNo f) ++ lit "]" ++ rough e ++ lit ".log" in
  (mkFile (mFd f) (mOldFd f) (mNo f) name (mFileSizeLimite f) (mCurrDataSize f) (mPath f) (mFileRunning f), mPath f ++ name).

(** [fd]: what [open] answers. *)
Definition createLogFile (e : names) (fd : Z) (f : LoggerFile) : LoggerFile * Z :=
  let '(f, _) := generateAbsoluteLogPathName e f in
  (if fd =? -1 then mkFile fd (mFd f) (mNo f) (mLogFileName f) (mFileSizeLimite f) (mCurrDataSize f) (mPath f) (mFileRunning f)
   else mkFile fd (mFd f) (u64 (mNo f + 1)) (mLogFileName f) (mFileSizeLimite f) 0 (mPath f) (mFileRunning f), fd).

Definition available (f : LoggerFile) : bool := negb (mFd f =? -1).
Definition setFileSizeWithHole (answer : Z) (f : LoggerFile) : bool := answer =? 0.
(** [st_size], unless [fstat] fails. *)
Definition getFileSize (answer : option Z) (f : LoggerFile) : Z := match answer with Some n => n | None => u64 (-1) end.
Definition setFileSizeLimite (sz : Z) (f : LoggerFile) : LoggerFile :=
  mkFile (mFd f) (mOldFd f) (mNo f) (mLogFileName f) sz (mCurrDataSize f) (mPath f) (mFileRunning f).
Definition getFileSizeLimite (f : LoggerFile) : Z := mFileSizeLimite f.
Definition close (f : LoggerFile) : LoggerFile :=
  mkFile (mFd f) (mOldFd f) (mNo f) (mLogFileName f) (mFileSizeLimite f) (mCurrDataSize f) (mPath f) false.

(** The loop of [archive]; [answers]: what its writes return.  It ends at a zero or
    an error.  Each write begins at the beginning of the buffer. *)
Fixpoint write_loop (answers : list Z) (buff : str) (f : LoggerFile) (disk : Disk) : res (LoggerFile * Disk) :=
  if negb (mFileRunning f) then Ok (f, disk) else
  match answers with
  | [] => Err OutOfFuel
  | sz :: answers =>
      if (sz =? -1) || (sz =? 0) then Ok (f, disk)
      else write_loop answers buff (set_size (u64 (mCurrDataSize f + sz)) f) (disk ++ [(mFd f, take (Z.to_nat sz) buff)])
  end.

Definition archive (answers : Z → list Z) (buff : str) (len : Z) (f : LoggerFile) (disk : Disk) : res (LoggerFile * Disk * bool) :=
  if mFileSizeLimite f <? u64 (mCurrDataSize f + len) then Ok (f, disk, false) else
  '(f, disk) ← write_loop (answers len) buff f disk;
  Ok (f, disk, true).

(** ** [Logger] *)

(** The size of the buffers, [LoggerBufferNType]. *)
Definition NType : Z := 40960.

Section Logger.
(** [std::hash] of the identifier of a thread, a number here. *)
Context (mHashFunc : Z → Z).

Abbreviation table := (@SafeHashmap Z nat).
Abbreviation timer := (@Timer.TimeWheelTimer unit).

(** A shared pointer to a line is its place in [lines]. *)
Record Logger := mkLogger {
  mCurrentLoggerFile : LoggerFile;
  mSizeLimite : Z;                     (* mFileSizeLimite of the logger *)
  mSync : bool;
  mRunning : bool;
  mTimeoutSeconds : Z;
  mTimeout : bool;
  mTimerTaskID : str;
  mFilled : buffers;
  mEmpty : buffers;
  mLoggerLineHashtable : table;
  mThreadIDHashset : list Z;           (* in the order it lists them *)
  mStandbyQueueMax : Z;
  lines : list LoggerLine;
  disk : Disk }.

Definition newLogger : Logger :=
  mkLogger newLoggerFile (1024 * 1024) false true 5 false [] [] [] (newSafeHashmap 1031) [] 16 [] [].

Definition set_file (f : LoggerFile) (d : Disk) (l : Logger) : Logger :=
  mkLogger f (mSizeLimite l) (mSync l) (mRunning l) (mTimeoutSeconds l) (mTimeout l) (mTimerTaskID l) (mFilled l) (mEmpty l)
    (mLoggerLineHashtable l) (mThreadIDHashset l) (mStandbyQueueMax l) (lines l) d.
Definition set_running (b : bool) (l : Logger) : Logger :=
  mkLogger (mCurrentLoggerFile l) (mSizeLimite l) (mSync l) b (mTimeoutSeconds l) (mTimeout l) (mTimerTaskID l) (mFilled l)
    (mEmpty l) (mLoggerLineHashtable l) (mThreadIDHashset l) (mStandbyQueueMax l) (lines l) (disk l).
Definition set_timeout (b : bool) (l : Logger) : Logger :=
  mkLogger (mCurrentLoggerFile l) (mSizeLimite l) (mSync l) (mRunning l) (mTimeoutSeconds l) b (mTimerTaskID l) (mFilled l)
    (mEmpty l) (mLoggerLineHashtable l) (mThreadIDHashset l) (mStandbyQueueMax l) (lines l) (disk l).
Definition set_timer_id (id : str) (l : Logger) : Logger :=
  mkLogger (mCurrentLoggerFile l) (mSizeLimite l) (mSync l) (mRunning l) (mTimeoutSeconds l) (mTimeout l) id (mFilled l)
    (mEmpty l) (mLoggerLineHashtable l) (mThreadIDHashset l) (mStandbyQueueMax l) (lines l) (disk l).
Definition set_limits (secs size : Z) (sync : bool) (l : Logger) : Logger :=
  mkLogger (mCurrentLoggerFile l) size sync (mRunning l) secs (mTimeout l) (mTimerTaskID l) (mFilled l)
    (mEmpty l) (mLoggerLineHashtable l) (mThreadIDHashset l) (mStandbyQueueMax l) (lines l) (disk l).
Definition set_queues (filled emptied : buffers) (l : Logger) : Logger :=
  mkLogger (mCurrentLoggerFile l) (mSizeLimite l) (mSync l) (mRunning l) (mTimeoutSeconds l) (mTimeout l) (mTimerTaskID l) filled
    emptied (mLoggerLineHashtable l) (mThreadIDHashset l) (mStandbyQueueMax l) (lines l) (disk l).
Definition set_table (t : table) (ids : list Z) (l : Logger) : Logger :=
  mkLogger (mCurrentLoggerFile l) (mSizeLimite l) (mSync l) (mRunning l) (mTimeoutSeconds l) (mTimeout l) (mTimerTaskID l)
    (mFilled l) (mEmpty l) t ids (mStandbyQueueMax l) (lines l) (disk l).
Definition set_lines (ls : list LoggerLine) (l : Logger) : Logger :=
  mkLogger (mCurrentLoggerFile l) (mSizeLimite l) (mSync l) (mRunning l) (mTimeoutSeconds l) (mTimeout l) (mTimerTaskID l)
    (mFilled l) (mEmpty l) (mLoggerLineHashtable l) (mThreadIDHashset l) (mStandbyQueueMax l) ls (disk l).

Definition customPath (logPath : str) (created existed : bool) (current : str) (l : Logger) : res (Logger * bool) :=
  '(f, b) ← createCustomLogPath logPath created existed current (mCurrentLoggerFile l);
  Ok (set_file f (disk l) l, b).

Definition setStandbyQueueMax (num : Z) (l : Logger) : Logger :=
  mkLogger (mCurrentLoggerFile l) (mSizeLimite l) (mSync l) (mRunning l) (mTimeoutSeconds l) (mTimeout l) (mTimerTaskID l)
    (mFilled l) (mEmpty l) (mLoggerLineHashtable l) (mThreadIDHashset l) num (lines l) (disk l).

Definition isFull (answer : option Z) (l : Logger) : bool :=
  getFileSizeLimite (mCurrentLoggerFile l) <=? getFileSize answer (mCurrentLoggerFile l).

Definition timeoutNotify : Logger → Logger := set_timeout true.
Definition resetTimeout : Logger → Logger := set_timeout false.

(** The timer, if there is one yet. *)
Definition setTimer (id : str) (l : Logger) (t : option timer) : Logger * option timer :=
  (set_timer_id id l, Timer.addTask (Timer.newTimerTask 0 0 (mTimeoutSeconds l) (-1) id (Some tt)) <$> t).

Definition cancelTimer (l : Logger) (t : option timer) : option timer :=
  match mTimerTaskID l with
  | [] => t
  | id => Timer.addTask (Timer.mkTask 0 0 0 0 id None) <$> t
  end.

Definition createFile (e : names) (fd : Z) (l : Logger) : Logger * Z :=
  let '(f, fd) := createLogFile e fd (mCurrentLoggerFile l) in
  (set_file (if fd =? -1 then f else setFileSizeLimite (mSizeLimite l) f) (disk l) l, fd).

(** [LINK] is left to [LoggerLineMessage]. *)
Definition init (t : option timer) (timerSecs : Z) (timerID : str) (fileSize : Z) (sync : bool)
    (created existed : bool) (current : str) (e : names) (fd : Z) (l : Logger) : res (Logger * option timer * bool) :=
  let '(l, t) := setTimer timerID (set_limits timerSecs (mSizeLimite l) (mSync l) l) t in
  let l := set_limits timerSecs (if fileSize <? mSizeLimite l then mSizeLimite l else fileSize) sync l in
  f ← createDefaultLogPath created existed current (mCurrentLoggerFile l);
  let '(l, fd) := createFile e fd (set_file f (disk l) l) in
  Ok (if fd <? 0 then (set_running false l, t, false) else (l, t, true)).

Definition emplace (tid : Z) (ids : list Z) : list Z := if decide (tid ∈ ids) then ids else ids ++ [tid].

Definition registerLoggerLine (tid : Z) (llp : nat) (l : Logger) : res Logger :=
  t ← insertOrAssign mHashFunc tid llp (mLoggerLineHashtable l);
  Ok (set_lines (alter getBufferPtrQueue llp (lines l)) (set_table t (emplace tid (mThreadIDHashset l)) l)).

Definition findLoggerLine (tid : Z) (l : Logger) : res (Logger * nat) :=
  found ← find mHashFunc tid (mLoggerLineHashtable l);
  '(l, llp) ← match found with
              | Some llp => Ok (l, llp)
              | None =>
                  let llp := length (lines l) in
                  t ← insert mHashFunc tid llp (mLoggerLineHashtable l);
                  Ok (set_lines (lines l ++ [newLoggerLine NType]) (set_table t (emplace tid (mThreadIDHashset l)) l), llp)
              end;
  Ok (set_lines (alter getBufferPtrQueue llp (lines l)) l, llp).

(** The table had the last reference to the line. *)
Definition removeLoggerLine (tid : Z) (l : Logger) : res Logger :=
  found ← find mHashFunc tid (mLoggerLineHashtable l);
  t ← erase mHashFunc tid (mLoggerLineHashtable l);
  let l := set_table t (filter (λ i, i ≠ tid) (mThreadIDHashset l)) l in
  Ok (match found ≫= λ llp, (llp,.) <$> lines l !! llp with
      | Some (llp, line) => set_lines (<[llp := mkLine None None false]> (lines l))
                              (set_queues (closeLine line (mFilled l)) (mEmpty l) l)
      | None => l
      end).

(** A line at work on the queues. *)
Definition line_to_queue (llp : nat) (l : Logger) : res Logger :=
  line ← of_option NullDeref (lines l !! llp);
  let '(line, filled, emptied) := pushToQueue NType line (mFilled l) (mEmpty l) in
  Ok (set_lines (<[llp := line]> (lines l)) (set_queues filled emptied l)).

Definition line_to_buffer (msg : str) (llp : nat) (l : Logger) : res Logger :=
  line ← of_option NullDeref (lines l !! llp);
  '(line, filled, emptied) ← pushToBuffer NType msg line (mFilled l) (mEmpty l);
  Ok (set_lines (<[llp := line]> (lines l)) (set_queues filled emptied l)).

Fixpoint push_lines (tids : list Z) (l : Logger) : res Logger :=
  match tids with
  | [] => Ok l
  | tid :: tids =>
      found ← find mHashFunc tid (mLoggerLineHashtable l);
      l ← match found with Some llp => line_to_queue llp l | None => Ok l end;
      push_lines tids l
  end.

Definition timeoutPushToFile (l : Logger) : res Logger :=
  if mTimeout l then l ← push_lines (mThreadIDHashset l) l; Ok (resetTimeout l) else Ok l.

(** A buffer to the file or, when the file is full, to a new one; [first] and [second]:
    what the writes of the two tries return, [fd]: what [open] answers in between. *)
Definition write_out (first second : Z → list Z) (e : names) (fd : Z) (unique : LoggerBuffer) (l : Logger) : res (Logger * bool) :=
  '(f, d, done) ← archive first (get unique) (getSize unique) (mCurrentLoggerFile l) (disk l);
  let l := set_file f d l in
  if done : bool then Ok (l, true) else
  let '(l, fd) := createFile e fd l in
  if fd =? -1 then Ok (l, false) else
  '(f, d, _) ← archive second (get unique) (getSize unique) (mCurrentLoggerFile l) (disk l);
  Ok (set_file f d l, true).

(** [Logger::archive] *)
Definition archive_one (first second : Z → list Z) (e : names) (fd : Z) (l : Logger) : res Logger :=
  let '(filled, popped) := SafeQueue.waitAndPop_for (mFilled l) in
  let l := set_queues filled (mEmpty l) l in
  unique ← of_option NullDeref (match popped with Some p => p | None => Some (newLoggerBuffer NType) end);
  '(l, goes_on) ← write_out first second e fd unique l;
  if negb goes_on then Ok l else
  let unique := reset NType unique in
  Ok (if Z.of_nat (SafeQueue.size (mEmpty l)) <? mStandbyQueueMax l
      then set_queues (mFilled l) (SafeQueue.push (Some unique) (mEmpty l)) l else l).

(** One pass of the loop of [work]. *)
Definition work (first second : Z → list Z) (e : names) (fd : Z) (l : Logger) : res Logger :=
  if negb (mRunning l) then Ok l else
  l ← timeoutPushToFile l;
  archive_one first second e fd l.

Definition stop (l : Logger) (t : option timer) : Logger * option timer :=
  (set_file (close (mCurrentLoggerFile l)) (disk l) (set_running false l), cancelTimer l t).

(** ** [LoggerLineMessage] *)

Inductive Level := FATAL | ERROR | WARN | INFO | DEBUG.
Inductive TAG := CONSOLE | TODO_MORE.

Definition enum2uint (level : Level) : Z :=
  match level with FATAL => 0 | ERROR => 1 | WARN => 2 | INFO => 3 | DEBUG => 4 end.

Definition LEVELNAME : list str := [lit "[FATAL]"; lit "[ERROR]"; lit "[WARN ]"; lit "[INFO ]"; lit "[DEBUG]"].

(** [shownTID]: the identifier as a stream writes it. *)
Record LoggerLineMessage := mkMessage {
  mOss : str; mTID : Z; shownTID : str; mCout : bool; mFileName : str; mFuncName : str; mLine : Z }.

Definition write (s : str) (m : LoggerLineMessage) : LoggerLineMessage :=
  mkMessage (mOss m ++ s) (mTID m) (shownTID m) (mCout m) (mFileName m) (mFuncName m) (mLine m).
Definition set_cout (m : LoggerLineMessage) : LoggerLineMessage :=
  mkMessage (mOss m) (mTID m) (shownTID m) true (mFileName m) (mFuncName m) (mLine m).

(** [now]: what [mTimestamp()] returns.  Every level is in the table. *)
Definition preoccuipedStr (level : Level) (now : str) (m : LoggerLineMessage) : LoggerLineMessage :=
  let index := enum2uint level in
  let m := if index <=? 2 then set_cout m else m in
  write (default (lit "[UNDEF]") (LEVELNAME !! Z.to_nat index) ++ lit "[" ++ shownTID m ++ lit "]" ++ lit "[" ++ now ++ lit "]"
         ++ lit "[" ++ mFileName m ++ lit ":" ++ mFuncName m ++ lit ":" ++ to_string (mLine m) ++ lit "]") m.

Definition newLoggerLineMessage (level : Level) (file func : str) (line tid : Z) (shown now : str) : LoggerLineMessage :=
  preoccuipedStr level now (mkMessage [] tid shown false file func line).

(** What is streamed into a message; a [double] and a thread's identifier as a stream
    writes them. *)
Inductive argument :=
  | AChar (c : ascii) | AInteger (n : Z) | ADouble (shown : str) | AString (s : str) | AThread (shown : str)
  | ATag (tag : TAG) | ALevel (level : Level) (now : str).

Definition stream (m : LoggerLineMessage) (a : argument) : LoggerLineMessage :=
  match a with
  | AChar c => write [c] m
  | AInteger n => write (to_string n) m
  | ADouble s | AString s | AThread s => write s m
  | ATag CONSOLE => set_cout m
  | ATag TODO_MORE => m
  | ALevel level now => preoccuipedStr level now m
  end.

(** A whole message to the line of its thread. *)
Definition log_line (tid : Z) (msg : str) (l : Logger) : res Logger :=
  '(l, llp) ← findLoggerLine tid l;
  line_to_buffer msg llp l.

(** [LoggerLineMessage::push], with what it writes to the terminal; [None]: no logger is
    linked any more. *)
Definition push_message (m : LoggerLineMessage) (logger : option Logger) : res (option Logger * str) :=
  let m := write [byte_of 10] m in
  '(logger, console, m) ← match logger with
    | Some l => l ← log_line (mTID m) (mOss m) l; Ok (Some l, [], m)
    | None => Ok (None, lit "not link" ++ [byte_of 10], set_cout m)
    end;
  Ok (logger, if mCout m then console ++ mOss m else console).

(** [LOG(level) << a << b ..;] *)
Definition LOG (level : Level) (file func : str) (line tid : Z) (shown now : str) (args : list argument) (logger : option Logger)
    : res (option Logger * str) :=
  push_message (fold_left stream args (newLoggerLineMessage level file func line tid shown now)) logger.
End Logger.

(** ** Every message reaches the file in its thread's order

    What happens to a logger after [init]: threads log, the timer fires, the
    thread of the logger makes a pass. *)

Inductive log_op :=
  | Log (tid : Z) (msg : str)
  | Fire
  | Pass (first second : Z → list Z) (e : names) (fd : Z).

Section Order.
Context (mHashFunc : Z → Z).

Definition log_step (o : log_op) (l : Logger) : res Logger :=
  match o with
  | Log tid msg => log_line mHashFunc tid msg l
  | Fire => Ok (timeoutNotify l)
  | Pass first second e fd => work mHashFunc first second e fd l
  end.

Fixpoint log_run (ops : list log_op) (l : Logger) : res Logger :=
  match ops with [] => Ok l | o :: ops => l ← log_step o l; log_run ops l end.

(** Every write takes all the bytes it is given. *)
Definition whole (n : Z) : list Z := if n =? 0 then [0] else [n; 0].

(** A kernel that writes and opens. *)
Definition benign (o : log_op) : Prop :=
  match o with
  | Log _ _ | Fire => True
  | Pass first second _ fd => (∀ n, first n = whole n) ∧ (∀ n, second n = whole n) ∧ fd ≠ -1
  end.

(** A message that no buffer can hold is dropped. *)
Definition taken (tid : Z) (msg : str) : list (Z * str) := if strlen msg <? mCapacity NType then [(tid, msg)] else [].

Definition logged (o : log_op) : list (Z * str) := match o with Log tid msg => taken tid msg | _ => [] end.

(** The bytes written, whichever the file. *)
Definition output (l : Logger) : str := mjoin (disk l).*2.

(** The bytes in the queue of filled buffers, then those in the lines. *)
Definition bytes_of (p : option LoggerBuffer) : str := match p with Some b => pushed_bytes b | None => [] end.
Definition in_memory (l : Logger) : str :=
  mjoin (bytes_of <$> mFilled l) ++ mjoin ((λ line, bytes_of (mLoggerBufferPtrA line)) <$> lines l).

(** The messages of a thread. *)
Definition of_thread (tid : Z) (ms : list (Z * str)) : list str := (filter (λ m, m.1 = tid) ms).*2.

(** The messages in the lines: for each its thread and what it works on. *)
Abbreviation held := (list (Z * list str)).
Definition owned (tid : Z) (ms : list str) : list (Z * str) := (λ m, (tid, m)) <$> ms.
Definition line_messages (b : held) : list (Z * str) := b ≫= λ x, owned x.1 x.2.

(** A file that is open and not over its limit. *)
Record file_ok (f : LoggerFile) : Prop := {
  fo_running : mFileRunning f = true;
  fo_size : 0 <= mCurrDataSize f <= mFileSizeLimite f;
  fo_limit : mCapacity NType <= mFileSizeLimite f < 2 ^ 63 }.

(** The messages [w] were written, each element of [q] fills a buffer of the queue,
    and [b] are in the lines. *)
Record keeps (l : Logger) (w : list (Z * str)) (q : list (list (Z * str))) (b : held) : Prop := {
  k_output : output l = mjoin w.*2;
  k_filled : Forall2 (λ p ms, holds NType p (mjoin ms.*2)) (mFilled l) q;
  k_lines : Forall2 (λ line x, line_ok NType line (mjoin x.2)) (lines l) b;
  k_empty : all_empty NType (mEmpty l);
  k_table : ∃ m, denotes mHashFunc (mLoggerLineHashtable l) m ∧ ∀ tid llp, m !! tid = Some llp ↔ b.*1 !! llp = Some tid;
  k_ids : mThreadIDHashset l = b.*1;
  k_running : mRunning l = true;
  k_file : file_ok (mCurrentLoggerFile l);
  k_fresh : mCapacity NType <= mSizeLimite l < 2 ^ 63 }.

Lemma of_thread_app t a b : of_thread t (a ++ b) = of_thread t a ++ of_thread t b.
Proof. unfold of_thread. by rewrite filter_app, fmap_app. Qed.

Lemma of_thread_own t ms : of_thread t (owned t ms) = ms.
Proof.
  unfold of_thread, owned. induction ms as [|m ms IH]; [done|]. rewrite fmap_cons, filter_cons, decide_True by done.
  cbn [fmap list_fmap snd]. f_equal. exact IH.
Qed.

Lemma of_thread_other t t' ms : t' ≠ t → of_thread t (owned t' ms) = [].
Proof.
  intros Ht. unfold of_thread, owned. induction ms as [|m ms IH]; [done|]. by rewrite fmap_cons, filter_cons, decide_False.
Qed.

(** What the change of one line makes of the messages in the lines. *)
Lemma line_messages_split (b : held) (p : nat) (t : Z) ms : b !! p = Some (t, ms) → ∃ b1 b2, b = b1 ++ (t, ms) :: b2 ∧ length b1 = p ∧
  ∀ ms', <[p := (t, ms')]> b = b1 ++ (t, ms') :: b2.
Proof.
  intros Hp. exists (take p b), (drop (S p) b). assert (length (take p b) = p) as Hl.
  { rewrite length_take. apply lookup_lt_Some in Hp. lia. }
  split_and!; [by rewrite take_drop_middle|done|]. intros ms'. by rewrite insert_take_drop by (by eapply lookup_lt_Some).
Qed.

Lemma line_messages_app b1 b2 : line_messages (b1 ++ b2) = line_messages b1 ++ line_messages b2.
Proof. apply bind_app. Qed.

Lemma line_messages_cons t ms b : line_messages ((t, ms) :: b) = (owned t ms) ++ line_messages b.
Proof. done. Qed.

Lemma absent_messages t (b : held) : t ∉ b.*1 → of_thread t (line_messages b) = [].
Proof.
  induction b as [|[t' ms] b IH]; [done|]. rewrite fmap_cons, not_elem_of_cons. intros [Hne Hb].
  rewrite line_messages_cons, of_thread_app, IH, of_thread_other by (done || congruence). done.
Qed.

Lemma line_change t (b : held) p ms ms' : NoDup b.*1 → b !! p = Some (t, ms) →
  of_thread t (line_messages b) = ms ∧ of_thread t (line_messages (<[p := (t, ms')]> b)) = ms' ∧
  ∀ t', t' ≠ t → of_thread t' (line_messages (<[p := (t, ms')]> b)) = of_thread t' (line_messages b).
Proof.
  intros Hn Hp. destruct (line_messages_split b p t ms Hp) as (b1 & b2 & -> & _ & Hi). rewrite Hi.
  rewrite fmap_app, fmap_cons in Hn. apply NoDup_app in Hn as (_ & H1 & H2). apply NoDup_cons in H2 as [H2 _].
  assert (t ∉ b1.*1) as H1' by (intros Ht; apply (H1 t Ht); by left).
  assert (∀ x, of_thread t (line_messages (b1 ++ (t, x) :: b2)) = x) as E.
  { intros x. by rewrite line_messages_app, line_messages_cons, !of_thread_app, of_thread_own, !absent_messages, app_nil_r. }
  split_and!; [apply E|apply E|]. intros t' Hne.
  by rewrite !line_messages_app, !line_messages_cons, !of_thread_app, !(of_thread_other t' t) by done.
Qed.

Lemma keeps_NoDup l w q b : keeps l w q b → NoDup b.*1.
Proof.
  intros Hk. destruct (k_table _ _ _ _ Hk) as (m & _ & Hm). apply NoDup_alt. intros i j t Hi Hj.
  apply Hm in Hi, Hj. congruence.
Qed.
(** A line's buffers and the queues change, the threads of the lines do not. *)
Lemma keeps_line l w q b llp t ms line ms' filled emptied q' : keeps l w q b → b !! llp = Some (t, ms) →
  line_ok NType line (mjoin ms') → Forall2 (λ p ms, holds NType p (mjoin ms.*2)) filled q' → all_empty NType emptied →
  keeps (set_lines (<[llp := line]> (lines l)) (set_queues filled emptied l)) w q' (<[llp := (t, ms')]> b).
Proof.
  intros [K1 K2 K3 K4 K5 K6 K7 K8 K9] Hb Hl Hf He.
  assert ((<[llp := (t, ms')]> b).*1 = b.*1) as E by (rewrite list_fmap_insert, list_insert_id; [done|by rewrite list_lookup_fmap, Hb]).
  split; cbn; rewrite ?E; try done. by apply Forall2_insert.
Qed.

Lemma keeps_lookup l w q b llp t ms : keeps l w q b → b !! llp = Some (t, ms) →
  ∃ line, lines l !! llp = Some line ∧ line_ok NType line (mjoin ms).
Proof. intros Hk Hb. apply (Forall2_lookup_r _ _ _ _ _ (k_lines _ _ _ _ Hk) Hb). Qed.

Lemma findLoggerLine_ok tid l w q b : keeps l w q b → ∃ l' llp b' ms, findLoggerLine mHashFunc tid l = Ok (l', llp) ∧
  keeps l' w q b' ∧ b' !! llp = Some (tid, ms) ∧ line_messages b' = line_messages b.
Proof.
  intros Hk. destruct (k_table _ _ _ _ Hk) as (m & Hm & Hd). unfold findLoggerLine. rewrite (proj2 Hm tid). cbn [mbind res_bind].
  destruct (m !! tid) as [llp|] eqn:Ht.
  - apply Hd in Ht. rewrite list_lookup_fmap in Ht. destruct (b !! llp) as [[t ms]|] eqn:Hb; [|done]. injection Ht as ->.
    destruct (keeps_lookup l w q b llp tid ms Hk Hb) as (line & Hl & Hlo). cbn [mbind res_bind].
    exists l, llp, b, ms. split_and!; try done. do 2 f_equal.
    replace (alter getBufferPtrQueue llp (lines l)) with (lines l); [by destruct l|].
    apply list_eq. intros j. destruct (decide (j = llp)) as [->|Hj].
    + rewrite list_lookup_alter_eq, Hl. cbn [fmap option_fmap option_map]. by rewrite (relink_ok NType line _ Hlo).
    + by rewrite list_lookup_alter_ne.
  - destruct (insert_denotes mHashFunc (mLoggerLineHashtable l) m tid (length (lines l)) Hm) as (t & Hi & Hm').
    rewrite Hi. cbn [mbind res_bind]. destruct Hk as [K1 K2 K3 K4 K5 K6 K7 K8 K9].
    pose proof (Forall2_length _ _ _ K3) as Hlen. eexists _, _, (b ++ [(tid, [])]), []. split; [reflexivity|]. split_and!.
    + split; cbn; try done.
      * rewrite alter_app_r_alt, Nat.sub_diag by lia. apply Forall2_app; [done|]. constructor; [|done]. apply new_line_ok.
      * exists (insert_new tid (length (lines l)) m). split; [done|]. intros t' llp. unfold insert_new. rewrite Ht, fmap_app.
        cbn [fmap list_fmap fst]. rewrite lookup_insert, lookup_app. case_decide as Hc; [subst t'|].
        -- split.
           ++ intros [= <-]. rewrite lookup_ge_None_2 by (rewrite length_fmap; lia). by rewrite length_fmap, Hlen, Nat.sub_diag.
           ++ destruct (b.*1 !! llp) as [t''|] eqn:Hb; [intros [= ->]; apply Hd in Hb; congruence|].
              apply lookup_ge_None_1 in Hb. rewrite length_fmap in *. intros Hs. apply list_lookup_singleton_Some in Hs as [Hs _]. f_equal. lia.
        -- rewrite Hd. destruct (b.*1 !! llp) as [t''|] eqn:Hb; [done|]. split; [done|]. intros Hs.
           apply list_lookup_singleton_Some in Hs as [_ Hs]. congruence.
      * unfold emplace. rewrite K6, decide_False, fmap_app; [done|]. intros Hin. apply list_elem_of_lookup in Hin as (i & Hj).
        apply Hd in Hj. congruence.
    + by rewrite Hlen, lookup_app_r, Nat.sub_diag by lia.
    + by rewrite line_messages_app, line_messages_cons, !app_nil_r.
Qed.
Lemma owned_snd t ms : (owned t ms).*2 = ms.
Proof. unfold owned. induction ms as [|m ms IH]; [done|]. rewrite !fmap_cons. f_equal. exact IH. Qed.

Lemma owned_app t a b : owned t (a ++ b) = owned t a ++ owned t b.
Proof. unfold owned. apply fmap_app. Qed.

(** A buffer of thread [t] joins the queue. *)
Lemma queue_filled l w q b p t ms : keeps l w q b → holds NType p (mjoin ms) →
  Forall2 (λ p ms, holds NType p (mjoin ms.*2)) (mFilled l ++ [p]) (q ++ [owned t ms]).
Proof. intros Hk Hp. apply Forall2_app; [apply Hk|]. constructor; [|done]. by rewrite owned_snd. Qed.

(** The messages of each thread, wherever they are. *)
Abbreviation kept t q b := (of_thread t (mjoin q ++ line_messages b)).

Lemma line_to_buffer_ok msg l w q b llp t ms : keeps l w q b → b !! llp = Some (t, ms) →
  ∃ l' q' b', line_to_buffer msg llp l = Ok l' ∧ keeps l' w q' b' ∧
    ∀ t', kept t' q' b' = kept t' q b ++ of_thread t' (taken t msg).
Proof.
  intros Hk Hb. destruct (keeps_lookup l w q b llp t ms Hk Hb) as (line & Hl & Hlo).
  unfold line_to_buffer. rewrite Hl. cbn [of_option mbind res_bind].
  destruct (pushToBuffer_ok NType msg line _ (mFilled l) (mEmpty l) Hlo (k_empty _ _ _ _ Hk)) as (line' & filled & emptied & Hp & He & Hcase).
  rewrite Hp. cbn [mbind res_bind]. pose proof (keeps_NoDup _ _ _ _ Hk) as Hn.
  assert (∀ t' ms' q', of_thread t' (mjoin q') ++ (if decide (t' = t) then ms' else of_thread t' (line_messages b)) =
    kept t' q' (<[llp := (t, ms')]> b)) as E.
  { intros t' ms' q'. rewrite of_thread_app. f_equal. destruct (line_change t b llp ms ms' Hn Hb) as (_ & H1 & H2).
    case_decide; [by subst|by rewrite H2]. }
  destruct Hcase as [(-> & Hm & Hlo')|(p & -> & Hp' & Hlo')].
  - eexists _, q, (<[llp := (t, ms ++ [msg])]> b). split; [reflexivity|]. split.
    + eapply keeps_line; [done|done| |apply Hk|done]. by rewrite mjoin_snoc.
    + intros t'. unfold taken. rewrite (proj2 (Z.ltb_lt _ _) Hm). change [(t, msg)] with (owned t [msg]).
      rewrite <- E, of_thread_app. destruct (line_change t b llp ms ms Hn Hb) as (H1 & _ & _).
      case_decide as Hc; [subst t'; by rewrite H1, of_thread_own, app_assoc|]. by rewrite of_thread_other, app_nil_r by congruence.
  - eexists _, (q ++ [owned t ms]), (<[llp := (t, (taken t msg).*2)]> b). split; [reflexivity|]. split.
    + eapply keeps_line; [done|done| |by eapply queue_filled|done]. unfold taken. by destruct (_ <? _); cbn; rewrite ?app_nil_r.
    + assert (taken t msg = owned t (taken t msg).*2) as -> by (unfold taken; by destruct (_ <? _)). rewrite owned_snd. intros t'. rewrite <- E, of_thread_app, mjoin_snoc, of_thread_app. destruct (line_change t b llp ms ms Hn Hb) as (H1 & _ & _).
      case_decide as Hc; [subst t'; by rewrite H1, !of_thread_own|]. by rewrite !of_thread_other, !app_nil_r by congruence.
Qed.

Lemma line_to_queue_ok l w q b llp t ms : keeps l w q b → b !! llp = Some (t, ms) →
  ∃ l' q', line_to_queue llp l = Ok l' ∧ keeps l' w q' (<[llp := (t, [])]> b) ∧ length q' = S (length q) ∧
    ∀ t', kept t' q' (<[llp := (t, [])]> b) = kept t' q b.
Proof.
  intros Hk Hb. destruct (keeps_lookup l w q b llp t ms Hk Hb) as (line & Hl & Hlo).
  unfold line_to_queue. rewrite Hl. cbn [of_option mbind res_bind].
  destruct (pushToQueue_ok NType line _ (mFilled l) (mEmpty l) Hlo (k_empty _ _ _ _ Hk)) as (line' & p & emptied & -> & Hlo' & Hp & He).
  pose proof (keeps_NoDup _ _ _ _ Hk) as Hn.
  eexists _, (q ++ [owned t ms]). split; [reflexivity|]. split_and!.
  - eapply keeps_line; [done|done|done|by eapply queue_filled|done].
  - rewrite length_app. cbn [length]. lia.
  - intros t'. rewrite !of_thread_app, mjoin_snoc, of_thread_app. destruct (line_change t b llp ms [] Hn Hb) as (H1 & H2 & H3).
    destruct (decide (t' = t)) as [->|Ht]; [by rewrite H1, H2, of_thread_own, app_nil_r|].
    by rewrite H3, of_thread_other, app_nil_r by congruence.
Qed.

(** The lines of these threads end up empty. *)
Lemma push_lines_ok tids l w q b : keeps l w q b →
  ∃ l' q' b', push_lines mHashFunc tids l = Ok l' ∧ keeps l' w q' b' ∧ (length q' <= length q + length tids)%nat ∧
    (∀ i t ms, b' !! i = Some (t, ms) → ms = [] ∨ t ∉ tids ∧ b !! i = Some (t, ms)) ∧ ∀ t, kept t q' b' = kept t q b.
Proof.
  revert l q b. induction tids as [|tid tids IH]; intros l q b Hk; cbn [push_lines length].
  { exists l, q, b. split_and!; [done|done|lia| |done]. intros i t ms Hi. right. split; [set_solver|done]. }
  destruct (k_table _ _ _ _ Hk) as (m & Hm & Hd). rewrite (proj2 Hm tid). cbn [mbind res_bind].
  destruct (m !! tid) as [llp|] eqn:Ht.
  - apply Hd in Ht. rewrite list_lookup_fmap in Ht. destruct (b !! llp) as [[t ms]|] eqn:Hb; [|done]. injection Ht as ->.
    destruct (line_to_queue_ok l w q b llp tid ms Hk Hb) as (l1 & q1 & -> & Hk1 & L1 & E1). cbn [mbind res_bind].
    destruct (IH l1 q1 _ Hk1) as (l2 & q2 & b2 & Hp & Hk2 & L2 & B2 & E2). exists l2, q2, b2. split_and!; [done|done|lia| |].
    + intros i t ms' Hi. destruct (B2 i t ms' Hi) as [->|[Hnt Hi']]; [by left|]. destruct (decide (i = llp)) as [->|Hne].
      * rewrite list_lookup_insert_eq in Hi' by (by eapply lookup_lt_Some). injection Hi' as _ <-. by left.
      * rewrite list_lookup_insert_ne in Hi' by done. right. split; [|done]. apply not_elem_of_cons. split; [|done].
        intros ->. apply Hne. pose proof (keeps_NoDup _ _ _ _ Hk) as Hn.
        apply (NoDup_lookup _ i llp tid Hn); rewrite list_lookup_fmap; [by rewrite Hi'|by rewrite Hb].
    + intros t. by rewrite E2, E1.
  - cbn [mbind res_bind]. destruct (IH l q b Hk) as (l2 & q2 & b2 & Hp & Hk2 & L2 & B2 & E2).
    exists l2, q2, b2. split_and!; [done|done|lia| |done].
    intros i t ms Hi. destruct (B2 i t ms Hi) as [->|[Hnt Hi']]; [by left|right]. split; [|done]. apply not_elem_of_cons. split; [|done].
    intros ->. assert (b.*1 !! i = Some tid) as Hf by (by rewrite list_lookup_fmap, Hi'). apply Hd in Hf. congruence.
Qed.

(** ** The file *)

Lemma write_whole n buff f d : 0 <= n → mFileRunning f = true →
  ∃ d', write_loop (whole n) buff f d = Ok (if n =? 0 then f else set_size (u64 (mCurrDataSize f + n)) f, d') ∧
    mjoin d'.*2 = mjoin d.*2 ++ take (Z.to_nat n) buff.
Proof.
  intros Hn Hr. unfold whole. destruct (n =? 0) eqn:E; to_prop; cbn [write_loop]; rewrite Hr; cbn [negb].
  - subst n. exists d. by rewrite app_nil_r.
  - rewrite (proj2 (Z.eqb_neq n (-1))) by lia. rewrite (proj2 (Z.eqb_neq n 0)) by done. cbn [orb set_size mFileRunning].
    rewrite Hr. cbn [negb]. change ((0 =? -1) || (0 =? 0)) with true. cbv iota. eexists. split; [done|].
    rewrite fmap_app. cbn [fmap list_fmap snd]. by rewrite mjoin_snoc.
Qed.

(** One try to write a buffer, and the size it leaves. *)
Lemma archive_whole answers p f d : (∀ n, answers n = whole n) → buffer_ok NType p → mFileRunning f = true →
  0 <= mCurrDataSize f <= mFileSizeLimite f → mFileSizeLimite f < 2 ^ 63 →
  if mFileSizeLimite f <? mCurrDataSize f + getSize p then archive answers (get p) (getSize p) f d = Ok (f, d, false)
  else ∃ d', archive answers (get p) (getSize p) f d = Ok (set_size (mCurrDataSize f + getSize p) f, d', true) ∧
    mjoin d'.*2 = mjoin d.*2 ++ pushed_bytes p.
Proof.
  intros Ha [_ Hc _] Hr Hs Hl. unfold archive, getSize, get. pose proof (capacity_bounds NType).
  rewrite u64_small by (unfold size_max; lia). destruct (mFileSizeLimite f <? _) eqn:E; [done|]; to_prop.
  rewrite Ha. destruct (write_whole (mCurrent p) (mBuffer p) f d) as (d' & -> & Hd); [lia|done|]. cbn [mbind res_bind].
  exists d'. split; [|exact Hd]. destruct (mCurrent p =? 0) eqn:E0; to_prop.
  - rewrite E0, Z.add_0_r. by destruct f.
  - by rewrite u64_small by (unfold size_max; lia).
Qed.

Lemma createFile_ok e fd l : fd ≠ -1 → ∃ f, createFile e fd l = (set_file f (disk l) l, fd) ∧
  mFileRunning f = mFileRunning (mCurrentLoggerFile l) ∧ mCurrDataSize f = 0 ∧ mFileSizeLimite f = mSizeLimite l.
Proof.
  intros Hfd. unfold createFile, createLogFile. cbn. rewrite (proj2 (Z.eqb_neq fd (-1)) Hfd). by eexists.
Qed.

(** A buffer reaches the disk, in the file there is or in a new one. *)
Lemma write_out_ok first second e fd p l : (∀ n, first n = whole n) → (∀ n, second n = whole n) → fd ≠ -1 → buffer_ok NType p →
  file_ok (mCurrentLoggerFile l) → mCapacity NType <= mSizeLimite l < 2 ^ 63 →
  ∃ f d, write_out first second e fd p l = Ok (set_file f d l, true) ∧ file_ok f ∧
    mjoin d.*2 = mjoin (disk l).*2 ++ pushed_bytes p.
Proof.
  intros H1 H2 Hfd Hp [Hr Hs Hl] Hlim. unfold write_out. pose proof (bo_current _ _ Hp) as Hc.
  pose proof (archive_whole first p (mCurrentLoggerFile l) (disk l) H1 Hp Hr Hs (proj2 Hl)) as Ha.
  destruct (mFileSizeLimite (mCurrentLoggerFile l) <? _) eqn:E; to_prop.
  - rewrite Ha. cbn [mbind res_bind].
    destruct (createFile_ok e fd (set_file (mCurrentLoggerFile l) (disk l) l) Hfd) as (f & -> & F1 & F2 & F3).
    rewrite (proj2 (Z.eqb_neq fd (-1)) Hfd). cbn in F1, F3 |- *.
    assert (mFileRunning f = true) as Hf by congruence.
    pose proof (archive_whole second p f (disk l) H2 Hp Hf ltac:(lia) ltac:(lia)) as Hb.
    rewrite F2, F3, (proj2 (Z.ltb_ge _ _)) in Hb by (unfold getSize; lia). destruct Hb as (d & -> & Hd). cbn [mbind res_bind].
    eexists _, d. split; [reflexivity|]. split; [|exact Hd]. split; cbn; [done|unfold getSize; lia|lia].
  - destruct Ha as (d & -> & Hd). cbn [mbind res_bind]. eexists _, d. split; [reflexivity|]. split; [|exact Hd].
    split; cbn; [done|unfold getSize in *; lia|lia].
Qed.

Lemma archive_one_ok first second e fd l w q b : keeps l w q b →
  (∀ n, first n = whole n) → (∀ n, second n = whole n) → fd ≠ -1 →
  ∃ l' w' q', archive_one first second e fd l = Ok l' ∧ keeps l' w' q' b ∧ mTimeout l' = mTimeout l ∧
    length q' = pred (length q) ∧ w' ++ mjoin q' = w ++ mjoin q.
Proof.
  intros Hk H1 H2 Hfd. unfold archive_one. destruct Hk as [K1 K2 K3 K4 K5 K6 K7 K8 K9].
  assert (∃ p w' q', of_option NullDeref (match (SafeQueue.waitAndPop_for (mFilled l)).2 with Some p => p | None => Some (newLoggerBuffer NType) end)
      = Ok p ∧ buffer_ok NType p ∧ Forall2 (λ p ms, holds NType p (mjoin ms.*2)) (SafeQueue.waitAndPop_for (mFilled l)).1 q' ∧
      mjoin w'.*2 = mjoin w.*2 ++ pushed_bytes p ∧ length q' = pred (length q) ∧ w' ++ mjoin q' = w ++ mjoin q)
    as (p & w' & q' & Hp & Hpo & Hq & Hw & Hlen & E).
  { destruct K2 as [|p ms filled q (bf & -> & Hb & Hs) HF]; cbn [SafeQueue.waitAndPop_for fst snd of_option].
    - exists (newLoggerBuffer NType), w, []. split_and!; [done|apply new_buffer_ok|done|by rewrite (proj2 (new_buffer_ok NType)), app_nil_r|done|done].
    - exists bf, (w ++ ms), q. split_and!; [done|done|done| |done|by rewrite mjoin_cons, app_assoc].
      by rewrite fmap_app, join_app, Hs. }
  destruct (SafeQueue.waitAndPop_for (mFilled l)) as [filled popped]. cbn [fst snd] in *. rewrite Hp. cbn [mbind res_bind].
  destruct (write_out_ok first second e fd p (set_queues filled (mEmpty l) l) H1 H2 Hfd Hpo) as (f & d & -> & Hf & Hd);
    [done|done|]. cbn [mbind res_bind negb]. cbn [set_queues disk] in Hd.
  eexists _, w', q'. split; [reflexivity|].
  assert (output (set_file f d (set_queues filled (mEmpty l) l)) = mjoin w'.*2) as Ho.
  { unfold output. cbn [set_file disk]. rewrite Hd, Hw. f_equal. exact K1. }
  split; [|split_and!; [by destruct (_ <? _)|done|done]].
  destruct (_ <? _); split; cbn; try done. apply Forall_app. split; [done|]. constructor; [|done]. eexists. split; [done|apply reset_ok].
Qed.

Lemma log_line_ok tid msg l w q b : keeps l w q b →
  ∃ l' q' b', log_line mHashFunc tid msg l = Ok l' ∧ keeps l' w q' b' ∧ ∀ t, kept t q' b' = kept t q b ++ of_thread t (taken tid msg).
Proof.
  intros Hk. unfold log_line. destruct (findLoggerLine_ok tid l w q b Hk) as (l1 & llp & b1 & ms & -> & Hk1 & Hb & E).
  cbn [mbind res_bind]. destruct (line_to_buffer_ok msg l1 w q b1 llp tid ms Hk1 Hb) as (l2 & q2 & b2 & -> & Hk2 & E2).
  exists l2, q2, b2. split_and!; [done|done|]. intros t. by rewrite E2, E.
Qed.

Lemma keeps_timeout v l w q b : keeps l w q b → keeps (set_timeout v l) w q b.
Proof. intros [K1 K2 K3 K4 K5 K6 K7 K8 K9]. by split. Qed.

(** A pass of the thread of the logger; when the timer has fired it empties the lines. *)
Lemma work_ok first second e fd l w q b : keeps l w q b → benign (Pass first second e fd) →
  ∃ l' w' q' b', work mHashFunc first second e fd l = Ok l' ∧ keeps l' w' q' b' ∧ mTimeout l' = false ∧
    (∀ t, of_thread t (w' ++ mjoin q' ++ line_messages b') = of_thread t (w ++ mjoin q ++ line_messages b)) ∧
    if mTimeout l then (length q' <= pred (length q + length b))%nat ∧ Forall (λ x, x.2 = []) b'
    else length q' = pred (length q) ∧ b' = b.
Proof.
  intros Hk (H1 & H2 & Hfd). unfold work. rewrite (k_running _ _ _ _ Hk). cbn [negb]. unfold timeoutPushToFile, resetTimeout.
  destruct (mTimeout l) eqn:Ht.
  - destruct (push_lines_ok (mThreadIDHashset l) l w q b Hk) as (l1 & q1 & b1 & -> & Hk1 & L1 & B1 & E1). cbn [mbind res_bind].
    destruct (archive_one_ok first second e fd _ _ _ _ (keeps_timeout false _ _ _ _ Hk1) H1 H2 Hfd) as (l2 & w2 & q2 & -> & Hk2 & T2 & L2 & E2).
    exists l2, w2, q2, b1. split_and!; [done|done|done| | |].
    + intros t. by rewrite app_assoc, E2, <- app_assoc, !(of_thread_app t w), E1.
    + rewrite (k_ids _ _ _ _ Hk), length_fmap in L1. lia.
    + apply Forall_forall. intros [t ms] Hin. apply list_elem_of_lookup in Hin as (i & Hi).
      destruct (B1 i t ms Hi) as [->|[Hnt Hi']]; [done|]. exfalso. apply Hnt. rewrite (k_ids _ _ _ _ Hk).
      apply list_elem_of_lookup. exists i. by rewrite list_lookup_fmap, Hi'.
  - cbn [mbind res_bind]. destruct (archive_one_ok first second e fd _ _ _ _ Hk H1 H2 Hfd) as (l2 & w2 & q2 & -> & Hk2 & T2 & L2 & E2).
    exists l2, w2, q2, b. split_and!; [done|done|congruence| |done|done]. intros t. by rewrite app_assoc, E2, <- app_assoc.
Qed.

Lemma log_run_ok ops l w q b : keeps l w q b → Forall benign ops →
  ∃ l' w' q' b', log_run ops l = Ok l' ∧ keeps l' w' q' b' ∧
    ∀ t, of_thread t (w' ++ mjoin q' ++ line_messages b') =
      of_thread t (w ++ mjoin q ++ line_messages b) ++ of_thread t (mjoin (logged <$> ops)).
Proof.
  revert l w q b. induction ops as [|o ops IH]; intros l w q b Hk Ho; cbn [log_run].
  { exists l, w, q, b. split_and!; [done|done|]. intros t. by rewrite app_nil_r. }
  apply Forall_cons in Ho as [Ho Hos].
  assert (∃ l1 w1 q1 b1, log_step o l = Ok l1 ∧ keeps l1 w1 q1 b1 ∧ ∀ t, of_thread t (w1 ++ mjoin q1 ++ line_messages b1) =
      of_thread t (w ++ mjoin q ++ line_messages b) ++ of_thread t (logged o)) as (l1 & w1 & q1 & b1 & -> & Hk1 & E1).
  { destruct o as [tid msg| |first second e fd]; cbn [log_step logged].
    - destruct (log_line_ok tid msg l w q b Hk) as (l1 & q1 & b1 & -> & Hk1 & E1). exists l1, w, q1, b1. split_and!; [done|done|].
      intros t. by rewrite !(of_thread_app t w), E1, app_assoc.
    - exists (timeoutNotify l), w, q, b. split_and!; [done|by apply keeps_timeout|]. intros t. by rewrite app_nil_r.
    - destruct (work_ok first second e fd l w q b Hk Ho) as (l1 & w1 & q1 & b1 & -> & Hk1 & _ & E1 & _). exists l1, w1, q1, b1.
      split_and!; [done|done|]. intros t. by rewrite E1, app_nil_r. }
  cbn [mbind res_bind]. destruct (IH l1 w1 q1 b1 Hk1 Hos) as (l2 & w2 & q2 & b2 & Hr & Hk2 & E2). exists l2, w2, q2, b2.
  split_and!; [done|done|]. intros t. by rewrite E2, E1, fmap_cons, mjoin_cons, !(of_thread_app t (logged o)), <- app_assoc.
Qed.

(** Passes take what is queued off the queue, one buffer each. *)
Lemma passes_ok passes l w q b : keeps l w q b → mTimeout l = false → Forall benign passes →
  Forall (λ o, ∃ first second e fd, o = Pass first second e fd) passes →
  ∃ l' w' q', log_run passes l = Ok l' ∧ keeps l' w' q' b ∧ length q' = (length q - length passes)%nat ∧
    ∀ t, of_thread t (w' ++ mjoin q' ++ line_messages b) = of_thread t (w ++ mjoin q ++ line_messages b).
Proof.
  revert l w q. induction passes as [|o passes IH]; intros l w q Hk Ht Ho Hp; cbn [log_run length].
  { exists l, w, q. split_and!; [done|done|lia|done]. }
  apply Forall_cons in Ho as [Ho Hos], Hp as [(first & second & e & fd & ->) Hps]. cbn [log_step].
  destruct (work_ok first second e fd l w q b Hk Ho) as (l1 & w1 & q1 & b1 & -> & Hk1 & T1 & E1 & L1). rewrite Ht in L1.
  destruct L1 as [L1 ->]. cbn [mbind res_bind]. destruct (IH l1 w1 q1 Hk1 T1 Hos Hps) as (l2 & w2 & q2 & Hr & Hk2 & L2 & E2).
  exists l2, w2, q2. split_and!; [done|done|lia|]. intros t. by rewrite E2, E1.
Qed.

Lemma keeps_memory l w q b : keeps l w q b → in_memory l = mjoin (mjoin q ++ line_messages b).*2.
Proof.
  intros [_ K2 K3 _ _ _ _ _ _]. unfold in_memory. rewrite fmap_app, join_app. f_equal.
  - induction K2 as [|p ms filled q (bf & -> & _ & Hs) _ IH]; [done|].
    rewrite fmap_cons, !mjoin_cons, fmap_app, join_app. f_equal; [exact Hs|exact IH].
  - induction K3 as [|line [t ms] ls b [_ (bf & Ha & _ & Hs) _] _ IH]; [done|].
    rewrite fmap_cons, mjoin_cons, line_messages_cons, fmap_app, join_app, owned_snd, Ha. f_equal; [exact Hs|exact IH].
Qed.

Lemma default_path created existed current : ∃ p, createDefaultLogPath created existed current newLoggerFile = Ok (set_path p newLoggerFile).
Proof.
  unfold createDefaultLogPath, createCustomLogPath. cbn [mPath newLoggerFile].
  destruct (last (current ++ lit "/log/")) as [c|] eqn:E.
  - cbn [of_option mbind res_bind]. destruct (created || existed); by eexists.
  - apply last_None, app_eq_nil in E as [_ E]. discriminate E.
Qed.

Lemma init_ok t secs id size sync created existed current e fd : size < 2 ^ 63 → 0 <= fd →
  ∃ l t', init t secs id size sync created existed current e fd newLogger = Ok (l, t', true) ∧ keeps l [] [] [].
Proof.
  intros Hs Hfd. unfold init. destruct (setTimer _ _ _) as [l t'] eqn:Hset. injection Hset as <- _.
  destruct (default_path created existed current) as (p & Hp).
  cbn [set_limits newLogger set_timer_id mCurrentLoggerFile mSizeLimite]. rewrite Hp. cbn [mbind res_bind].
  destruct (createFile_ok e fd (set_file (set_path p newLoggerFile) (disk newLogger)
    (set_limits secs (if size <? 1024 * 1024 then 1024 * 1024 else size) sync (set_timer_id id (set_limits secs (1024 * 1024) false newLogger)))))
    as (f & Hf & F1 & F2 & F3); [lia|].
  cbn [set_limits newLogger set_timer_id set_file disk] in Hf |- *. rewrite Hf, (proj2 (Z.ltb_ge fd 0)) by lia. eexists _, t'. split; [reflexivity|].
  cbn in F1, F3. pose proof (capacity_bounds NType) as Hc.
  assert (mCapacity NType <= mFileSizeLimite f < 2 ^ 63) as Hl by (rewrite F3; destruct (size <? _) eqn:E; to_prop; lia).
  split; cbn; try done.
  - by apply Forall_nil.
  - exists ∅. split; [by apply new_denotes|]. intros tid llp. by rewrite lookup_empty.
  - split; [done|lia|done].
  - by rewrite <- F3.
Qed.

(** Once the timer has fired, enough passes empty the lines and the queue. *)
Lemma drain_ok passes l w q b : keeps l w q b → Forall benign passes →
  Forall (λ o, ∃ first second e fd, o = Pass first second e fd) passes →
  (length (mFilled l) + length (lines l) < length passes)%nat →
  ∃ l' w' b', log_run (Fire :: passes) l = Ok l' ∧ keeps l' w' [] b' ∧ line_messages b' = [] ∧
    ∀ t, of_thread t w' = of_thread t (w ++ mjoin q ++ line_messages b).
Proof.
  intros Hk Ho Hp Hlen. rewrite (Forall2_length _ _ _ (k_filled _ _ _ _ Hk)), (Forall2_length _ _ _ (k_lines _ _ _ _ Hk)) in Hlen.
  destruct passes as [|o passes]; [cbn in Hlen; lia|]. apply Forall_cons in Ho as [Ho Hos], Hp as [(first & second & e & fd & ->) Hps].
  cbn [log_run log_step]. cbn [mbind res_bind].
  destruct (work_ok first second e fd (timeoutNotify l) w q b (keeps_timeout true _ _ _ _ Hk) Ho) as (l1 & w1 & q1 & b1 & -> & Hk1 & T1 & E1 & L1 & B1).
  cbn [mbind res_bind]. destruct (passes_ok passes l1 w1 q1 b1 Hk1 T1 Hos Hps) as (l2 & w2 & q2 & Hr & Hk2 & L2 & E2).
  cbn [length] in Hlen. destruct q2 as [|ms q2]; [|cbn [length] in L2; lia].
  assert (line_messages b1 = []) as Hb1.
  { clear -B1. induction B1 as [|[t ms] b1 Hx _ IH]; [done|]. rewrite line_messages_cons, IH. cbn [snd] in Hx. by rewrite Hx. }
  exists l2, w2, b1. split_and!; [done|done|done|]. intros t. rewrite <- E1, <- E2, Hb1. cbn. by rewrite app_nil_r.
Qed.


End Order.

(** ** A small run *)

Definition demo_names : names := mkNames (lit "game") (lit "77") (lit "20240101").
Definition demo_ops : list log_op :=
  [Log 1 (lit "one "); Log 2 (lit "two "); Fire; Pass whole whole demo_names 5; Log 1 (lit "three "); Pass whole whole demo_names 5].
Definition demo_passes : list log_op := replicate 4 (Pass whole whole demo_names 5).

Lemma demo_benign : Forall benign demo_ops.
Proof. repeat constructor; done. Qed.

Lemma demo_passes_ok : Forall benign demo_passes ∧ Forall (λ o, ∃ first second e fd, o = Pass first second e fd) demo_passes.
Proof. split; repeat constructor; try done; by do 4 eexists. Qed.



(** What the run leaves: both threads' lines reach the file. *)
Definition demo_log : res (str * str * nat) :=
  '(l, _, _) ← init None 5 (lit "log") 0 false true true (lit "/tmp") demo_names 4 newLogger;
  l ← log_run (λ k, k) demo_ops l;
  Ok (output l, in_memory l, length (mFilled l)).

Example demo_log_ok : demo_log = Ok (lit "one two ", lit "three ", 0%nat).
Proof. vm_compute. reflexivity. Qed.

(** A write that takes a part of the buffer only is followed by one of the buffer's
    beginning again: what is left is not written. *)
Theorem partial_write k p f d : mFileRunning f = true → 0 < k < getSize p → 0 <= mCurrDataSize f →
  mCurrDataSize f + getSize p <= mFileSizeLimite f < 2 ^ 63 →
  archive (λ n, [k; n - k; 0]) (get p) (getSize p) f d =
  Ok (set_size (mCurrDataSize f + getSize p) f,
      d ++ [(mFd f, take (Z.to_nat k) (get p)); (mFd f, take (Z.to_nat (getSize p - k)) (get p))], true).
Proof.
  intros Hr Hk H0 Hl. unfold archive. rewrite u64_small by (unfold size_max; lia). rewrite (proj2 (Z.ltb_ge _ _)) by lia.
  set (n := getSize p) in *. cbn [write_loop]. rewrite Hr. cbn [negb set_size mFileRunning mFd mCurrDataSize].
  rewrite (proj2 (Z.eqb_neq k (-1))), (proj2 (Z.eqb_neq k 0)), (proj2 (Z.eqb_neq (n - k) (-1))), (proj2 (Z.eqb_neq (n - k) 0)) by lia.
  cbn [orb]. rewrite Hr. cbn [negb]. change ((0 =? -1) || (0 =? 0)) with true. cbv iota. cbn [mbind res_bind].
  rewrite (u64_small (mCurrDataSize f + k)), u64_small by (unfold size_max; lia). do 3 f_equal; [|by rewrite <- app_assoc].
  unfold set_size. cbn. f_equal. lia.
Qed.

Definition demo_buffer : LoggerBuffer := (push NType (lit "abcdef") (newLoggerBuffer NType)).1.

Lemma partial_write_witness : archive (λ n, [2; n - 2; 0]) (get demo_buffer) (getSize demo_buffer) (setFileSizeLimite 100 newLoggerFile) [] =
  Ok (set_size (mCurrDataSize (setFileSizeLimite 100 newLoggerFile) + getSize demo_buffer) (setFileSizeLimite 100 newLoggerFile),
      [] ++ [(-1, take (Z.to_nat 2) (get demo_buffer)); (-1, take (Z.to_nat (getSize demo_buffer - 2)) (get demo_buffer))], true).
Proof.
  refine (partial_write 2 demo_buffer (setFileSizeLimite 100 newLoggerFile) [] eq_refl _ _ _); vm_compute; try split; congruence || done.
Defined.

(** ** A statement of the log *)

(** What an argument adds, and whether the message is shown. *)
Definition shown_argument (level_head : Level → str → str) (a : argument) : str :=
  match a with
  | AChar c => [c]
  | AInteger n => to_string n
  | ADouble s | AString s | AThread s => s
  | ATag _ => []
  | ALevel level now => level_head level now
  end.

Definition shows (a : argument) : bool :=
  match a with ATag CONSOLE => true | ALevel level _ => enum2uint level <=? 2 | _ => false end.

Definition head_of (file func : str) (line : Z) (shown : str) (level : Level) (now : str) : str :=
  default (lit "[UNDEF]") (LEVELNAME !! Z.to_nat (enum2uint level)) ++ lit "[" ++ shown ++ lit "]" ++ lit "[" ++ now ++ lit "]"
    ++ lit "[" ++ file ++ lit ":" ++ func ++ lit ":" ++ to_string line ++ lit "]".

Lemma head_added level now m : preoccuipedStr level now m =
  mkMessage (mOss m ++ head_of (mFileName m) (mFuncName m) (mLine m) (shownTID m) level now) (mTID m) (shownTID m)
    (mCout m || (enum2uint level <=? 2)) (mFileName m) (mFuncName m) (mLine m).
Proof.
  unfold preoccuipedStr. destruct (enum2uint level <=? 2) eqn:E; destruct m as [o t s c f g n]; rewrite ?orb_true_r, ?orb_false_r; reflexivity.
Qed.

Lemma stream_args args m : fold_left stream args m =
  mkMessage (mOss m ++ mjoin (shown_argument (head_of (mFileName m) (mFuncName m) (mLine m) (shownTID m)) <$> args))
    (mTID m) (shownTID m) (mCout m || existsb shows args) (mFileName m) (mFuncName m) (mLine m).
Proof.
  revert m. induction args as [|a args IH]; intros m; cbn [fold_left existsb].
  { rewrite fmap_nil, orb_false_r. cbn. rewrite app_nil_r. by destruct m. }
  rewrite IH, fmap_cons, mjoin_cons.
  destruct a as [c|n|s|s|s|[]|level now]; cbn [stream shown_argument shows]; rewrite ?head_added;
    cbn [write set_cout mOss mTID shownTID mCout mFileName mFuncName mLine];
    rewrite <- ?app_assoc, <- ?orb_assoc, ?orb_false_l, ?orb_true_l, ?orb_true_r; done.
Qed.

(** A statement makes one message of the head, its arguments and the end of the line,
    logs it, and shows it when its level or an argument says so. *)
Lemma LOG_message mHashFunc level file func line tid shown now args l :
  let head := head_of file func line shown in
  let msg := head level now ++ mjoin (shown_argument head <$> args) ++ [byte_of 10] in
  LOG mHashFunc level file func line tid shown now args (Some l) =
  (l' ← log_line mHashFunc tid msg l; Ok (Some l', if (enum2uint level <=? 2) || existsb shows args then msg else [])).
Proof.
  cbv zeta. unfold LOG, push_message. rewrite stream_args. unfold newLoggerLineMessage. rewrite head_added.
  cbn [write set_cout mOss mTID shownTID mCout mFileName mFuncName mLine]. rewrite app_nil_l, orb_false_l, <- app_assoc.
  destruct (log_line _ _ _ l) as [l'|]; [|done]. cbn [mbind res_bind write mCout mOss]. by rewrite <- app_assoc.
Qed.
