(* ===== verification/Registry.v ===== *)
(** * The registry and its services

    [CenterServer/] and the servers that register with it meet in Redis only: a
    server adds its key to a set and keeps a hash under that key from expiring, the
    registry looks for the keys of the set and asks for a heartbeat over a channel.
    Here its passes and the answers of a server follow one another.  What a server
    promises to the registry is a class, of which the game server and the gateway
    are instances. *)

From S2P Require Import Prelude.
From S2P Require Import TcpServer.
From S2P Require Import Broker.
From S2P Require GameServer GatewayServer.
From S2P Require Import CenterServer.

Local Open Scope Z_scope.

(** ** Redis, across the kinds of its values

    A command on one kind of value leaves the others alone, and a hash that holds
    something exists. *)
Class ServiceLaws (D : Type) {R : Redis D} {S : SortedLaws D} {RL : RegistryLaws D} {HL : HashLaws D} := {
  sadd_law key x (d : D) : ∃ d' n, sadd key x d = (d', inl n) ∧ rset d' key = {[x]} ∪ rset d key ∧
    (∀ k, k ≠ key → rset d' k = rset d k) ∧ (∀ k, hash d' k = hash d k) ∧ (∀ k, zset d' k = zset d k);
  hset_frame key fs (d d' : D) r : hset key fs d = (d', r) → (∀ k, rset d' k = rset d k) ∧ (∀ k, zset d' k = zset d k);
  expire_frame key secs (d d' : D) r : expire key secs d = (d', r) → (∀ k, rset d' k = rset d k) ∧ (∀ k, zset d' k = zset d k);
  zadd_frame key x n (d d' : D) r : zadd key x n d = (d', r) → (∀ k, rset d' k = rset d k) ∧ (∀ k, hash d' k = hash d k);
  publish_hash channel msg (d d' : D) r : publish channel msg d = (d', r) → ∀ k, hash d' k = hash d k;
  srem_hash key x (d d' : D) r : srem key x d = (d', r) → ∀ k, hash d' k = hash d k;
  zrem_hash key x (d d' : D) r : zrem key x d = (d', r) → ∀ k, hash d' k = hash d k;
  hash_present (d : D) k : hash d k ≠ ∅ → present d k = true }.

(** ** What a server promises *)

(** A program [S] with a connection to Redis: [sv_answer] is what it does with a
    message of the channel. *)
Class Service (D S : Type) := {
  sv_store : S → D;
  sv_on : D → S → S;
  sv_key : S → str;
  sv_register : str → Z → S → res S;
  sv_answer : str → S → res S }.

Section Promise.
Context {D : Type} `{ServiceLaws D} (conf : CenterServConf).

(** A new key in the set, with its hash. *)
Record joins (k : str) (d d' : D) : Prop := {
  jo_set : rset d' (SERVICE_KEYS conf) = {[k]} ∪ rset d (SERVICE_KEYS conf);
  jo_hash : hash d' k ≠ ∅;
  jo_lists : ∀ l, zset d' l = zset d l }.

(** A heartbeat: a load in the list [listed]. *)
Record renews (listed k : str) (load : Z) (d d' : D) : Prop := {
  rn_set : ∀ l, rset d' l = rset d l;
  rn_hash : ∀ x, hash d' x = hash d x;
  rn_list : zset d' listed = <[k := load]> (zset d listed);
  rn_lists : ∀ l, l ≠ listed → zset d' l = zset d l }.

(** [ready]: the server can count its connections. *)
Class KeepsAlive (S : Type) {SV : Service D S} (listed : str) (ready : S → Prop) : Prop := {
  on_store d s : sv_store (sv_on d s) = d;
  on_key d s : sv_key (sv_on d s) = sv_key s;
  on_ready d s : ready s → ready (sv_on d s);
  register_joins ip port s : ready s → ∃ s', sv_register ip port s = Ok s' ∧ ready s' ∧
    joins (sv_key s') (sv_store s) (sv_store s');
  answer_renews s : ready s → ∃ s' load, sv_answer (KEY_HEARTBEAT_MESSAGE conf) s = Ok s' ∧ ready s' ∧
    sv_key s' = sv_key s ∧ renews listed (sv_key s) load (sv_store s) (sv_store s') }.
End Promise.

(** ** The servers keep it *)

Section Servers.
Context {D : Type} `{ServiceLaws D}.

Lemma fields_kept (f v : str) (fs : fields) (h : gmap str str) : set_fields ((f, v) :: fs) h ≠ ∅.
Proof.
  unfold set_fields. cbn [foldl fst snd]. generalize (insert_non_empty h f v). generalize (<[f := v]> h). clear.
  induction fs as [|[f' v'] fs IH]; intros h Hh; [done|]. cbn [foldl]. apply IH, insert_non_empty.
Qed.

(** [sadd], [hset] and [expire], one after the other, as [registerService] does. *)
Lemma join_steps set key f v (fs : fields) secs (d : D) : 0 < secs → ∃ d1 d2 d3 n1 n2 b,
  sadd set key d = (d1, inl n1) ∧ hset key ((f, v) :: fs) d1 = (d2, inl n2) ∧ expire key secs d2 = (d3, inl b) ∧
  rset d3 set = {[key]} ∪ rset d set ∧ hash d3 key ≠ ∅ ∧ ∀ l, zset d3 l = zset d l.
Proof.
  intros Hs. destruct (sadd_law set key d) as (d1 & n1 & E1 & S1 & _ & _ & Z1).
  destruct (hset_law key ((f, v) :: fs) d1) as (d2 & n2 & E2 & H2 & _). destruct (hset_frame _ _ _ _ _ E2) as [S2 Z2].
  destruct (expire_law key secs d2 Hs) as (d3 & E3 & H3). destruct (expire_frame _ _ _ _ _ E3) as [S3 Z3].
  exists d1, d2, d3, n1, n2. eexists. split_and!; [done|done|done|by rewrite S3, S2, S1| |by intros; rewrite Z3, Z2, Z1].
  rewrite H3, H2. apply fields_kept.
Qed.

(** [expire] and [zadd], as the answers to a heartbeat do. *)
Lemma renew_steps listed key secs n (d : D) : 0 < secs → ∃ d1 d2 b m,
  expire key secs d = (d1, inl b) ∧ zadd listed key n d1 = (d2, inl m) ∧ renews listed key n d d2.
Proof.
  intros Hs. destruct (expire_law key secs d Hs) as (d1 & E1 & H1). destruct (expire_frame _ _ _ _ _ E1) as [S1 Z1].
  destruct (zadd_law listed key n d1) as (d2 & E2 & L2 & O2). destruct (zadd_frame _ _ _ _ _ _ E2) as [S2 H2].
  exists d1, d2. do 2 eexists. split_and!; [done|done|]. split; intros.
  - by rewrite S2, S1.
  - by rewrite H2, H1.
  - by rewrite L2, Z1.
  - by rewrite O2, Z1.
Qed.
End Servers.

Section Game.
Context {T D : Type} `{ServiceLaws D} (conf : CenterServConf) (gconf : GameServer.GameServConf).

Definition game_service : Service D (GameServer.GameServer (R := T) (D := D)) := {|
  sv_store := GameServer.mRedis;
  sv_on d s := GameServer.mkGame (GameServer.mTcpServer s) (GameServer.mMessageTypes s) (GameServer.mSceneAddresses s) d
                 (GameServer.keyWithAddress s);
  sv_key := GameServer.keyWithAddress;
  sv_register ip port s := GameServer.registerService gconf ip port s;
  sv_answer msg s := GameServer.onMessageFunc gconf msg s |}.

Record game_agrees : Prop := {
  ga_keys : GameServer.SERVICE_KEYS gconf = SERVICE_KEYS conf;
  ga_message : GameServer.BROKER_GAME_KEY_HEARTBEAT_MESSAGE gconf = KEY_HEARTBEAT_MESSAGE conf;
  ga_list : GameServer.GAME_KEYS gconf = GAME_KEYS conf;
  ga_ttl : 0 < GameServer.ttl gconf }.

Definition game_ready (s : GameServer.GameServer (R := T) (D := D)) : Prop :=
  ∃ n, getActiveConnectionNum (GameServer.mTcpServer s) = Ok n.

Lemma game_keeps_alive : game_agrees → KeepsAlive (SV := game_service) conf (GameServer.GameServer (R := T) (D := D)) (GAME_KEYS conf) game_ready.
Proof.
  intros [Ek Em El Ht]. split; [done|done|done| |].
  - intros ip port s Hr. cbn [sv_register sv_key sv_store game_service]. unfold GameServer.registerService, uncaught. cbv zeta.
    match goal with |- context [sadd _ ?key] => edestruct (join_steps (GameServer.SERVICE_KEYS gconf) key)
      as (d1 & d2 & d3 & n1 & n2 & b & E1 & E2 & E3 & S3 & H3 & Z3); [exact Ht|] end.
    rewrite E1. cbn [mbind res_bind]. rewrite E2. cbn [mbind res_bind]. rewrite E3. cbn [mbind res_bind].
    eexists. split; [reflexivity|]. split; [done|]. split; cbn; [by rewrite <- Ek|done|done].
  - intros s [n Hn]. cbn [sv_answer sv_key sv_store game_service]. unfold GameServer.onMessageFunc, uncaught.
    rewrite decide_True by done. rewrite Hn. cbn [mbind res_bind].
    destruct (renew_steps (GameServer.GAME_KEYS gconf) (GameServer.keyWithAddress s) _ n (GameServer.mRedis s) Ht)
      as (d1 & d2 & b & m & E1 & E2 & Hr).
    rewrite E1. cbn [mbind res_bind]. rewrite E2. cbn [mbind res_bind]. do 2 eexists. split; [reflexivity|].
    split; [by exists n|]. split; [done|]. rewrite <- El. exact Hr.
Qed.
End Game.

Section Gateway.
Context {T D : Type} `{ServiceLaws D} (conf : CenterServConf) (gconf : GatewayServer.GatewayServConf).

Definition gateway_service : Service D (GatewayServer.GatewayServer (R := T) (D := D)) := {|
  sv_store := GatewayServer.mRedis;
  sv_on d s := GatewayServer.mkGateway (GatewayServer.mTcpServer s) (GatewayServer.mMessageTypes s) d (GatewayServer.keyWithAddress s);
  sv_key := GatewayServer.keyWithAddress;
  sv_register ip port s := GatewayServer.registerService gconf ip port s;
  sv_answer msg s := GatewayServer.onMessageFunc gconf msg s |}.

Record gateway_agrees : Prop := {
  wa_keys : GatewayServer.SERVICE_KEYS gconf = SERVICE_KEYS conf;
  wa_message : GatewayServer.BROKER_GATEWAY_KEY_HEARTBEAT_MESSAGE gconf = KEY_HEARTBEAT_MESSAGE conf;
  wa_list : GatewayServer.GATEWAY_KEYS gconf = GATEWAY_KEYS conf;
  wa_ttl : 0 < GatewayServer.ttl gconf }.

Definition gateway_ready (s : GatewayServer.GatewayServer (R := T) (D := D)) : Prop :=
  ∃ n, getActiveConnectionNum (GatewayServer.mTcpServer s) = Ok n.

Lemma gateway_keeps_alive :
  gateway_agrees → KeepsAlive (SV := gateway_service) conf (GatewayServer.GatewayServer (R := T) (D := D)) (GATEWAY_KEYS conf) gateway_ready.
Proof.
  intros [Ek Em El Ht]. split; [done|done|done| |].
  - intros ip port s Hr. cbn [sv_register sv_key sv_store gateway_service]. unfold GatewayServer.registerService, uncaught. cbv zeta.
    match goal with |- context [sadd _ ?key] => edestruct (join_steps (GatewayServer.SERVICE_KEYS gconf) key)
      as (d1 & d2 & d3 & n1 & n2 & b & E1 & E2 & E3 & S3 & H3 & Z3); [exact Ht|] end.
    rewrite E1. cbn [mbind res_bind]. rewrite E2. cbn [mbind res_bind]. rewrite E3. cbn [mbind res_bind].
    eexists. split; [reflexivity|]. split; [done|]. split; cbn; [by rewrite <- Ek|done|done].
  - intros s [n Hn]. cbn [sv_answer sv_key sv_store gateway_service]. unfold GatewayServer.onMessageFunc, uncaught.
    rewrite decide_True by done. rewrite Hn. cbn [mbind res_bind].
    destruct (renew_steps (GatewayServer.GATEWAY_KEYS gconf) (GatewayServer.keyWithAddress s) _ n (GatewayServer.mRedis s) Ht)
      as (d1 & d2 & b & m & E1 & E2 & Hr).
    rewrite E1. cbn [mbind res_bind]. rewrite E2. cbn [mbind res_bind]. do 2 eexists. split; [reflexivity|].
    split; [by exists n|]. split; [done|]. rewrite <- El. exact Hr.
Qed.
End Gateway.

(** ** Rounds *)

Section Rounds.
Context {D : Type} `{ServiceLaws D} (conf : CenterServConf).
Context {S : Type} {SV : Service D S} (listed : str) (ready : S → Prop) `{!KeepsAlive conf S listed ready}.

(** A pass leaves the hashes of the services alone. *)
Lemma check_service_hash k d m d' m' : check_service conf k (d, m) = Ok (d', m') → ∀ x, hash d' x = hash d x.
Proof.
  unfold check_service, uncaught. rewrite exists_law. cbn [mbind res_bind]. destruct (present d k); cbn [Z.eqb Pos.eqb].
  - destruct (m !! k); [by intros [= <- <-]|].
    destruct (publish _ _ d) as [d1 [n1|]] eqn:E1; cbn [mbind res_bind]; [|done]. intros [= <- <-]. by eapply publish_hash.
  - case_if; [|by intros [= <- <-]].
    destruct (srem _ _ d) as [d1 [n1|]] eqn:E1; cbn [mbind res_bind]; [|done].
    destruct (zrem _ _ d1) as [d2 [n2|]] eqn:E2; cbn [mbind res_bind]; [|done].
    destruct (zrem _ _ d2) as [d3 [n3|]] eqn:E3; cbn [mbind res_bind]; [|done].
    destruct (publish _ _ d3) as [d4 [n4|]] eqn:E4; cbn [mbind res_bind]; [|done]. intros [= <- <-] x.
    rewrite (publish_hash _ _ _ _ _ E4), (zrem_hash _ _ _ _ _ E3), (zrem_hash _ _ _ _ _ E2). by rewrite (srem_hash _ _ _ _ _ E1).
Qed.

Lemma check_services_hash l d m d' m' : check_services conf l (d, m) = Ok (d', m') → ∀ x, hash d' x = hash d x.
Proof.
  revert d m. induction l as [|k l IH]; intros d m; cbn [check_services]; [by intros [= <- <-]|].
  destruct (check_service conf k (d, m)) as [[d1 m1]|] eqn:E; cbn [mbind res_bind]; [|done]. intros Hr x.
  by rewrite (IH _ _ Hr), (check_service_hash _ _ _ _ _ E).
Qed.

Lemma run_pass_hash d m d' m' : run_pass conf (d, m) = Ok (d', m') → ∀ x, hash d' x = hash d x.
Proof.
  unfold run_pass, uncaught. cbn [fst snd]. destruct (smembers_law (SERVICE_KEYS conf) d) as (l & -> & _). cbn [mbind res_bind].
  destruct (check_services conf l (d, m)) as [[d1 m1]|] eqn:E; cbn [mbind res_bind]; [|done].
  destruct (publish _ _ d1) as [d2 [n2|]] eqn:E2; cbn [mbind res_bind]; [|done]. intros [= <- <-] x.
  by rewrite (publish_hash _ _ _ _ _ E2), (check_services_hash _ _ _ _ _ E).
Qed.

(** What others do between rounds, and time: the key stays in the set, its hash does
    not expire, the key of no service is the registry's own. *)
Record undisturbed (k : str) (d d' : D) : Prop := {
  un_set : k ∈ rset d (SERVICE_KEYS conf) → k ∈ rset d' (SERVICE_KEYS conf);
  un_hash : hash d k ≠ ∅ → hash d' k ≠ ∅;
  un_listed : ∀ x, x ∈ rset d' (SERVICE_KEYS conf) → service_key conf x }.

(** Rounds of a pass and an answer, from the state after the registration. *)
Inductive rounds (s0 : S) : nat → gmap str Z → S → Prop :=
  | rounds_start m : counts_ok m → rounds s0 0 m s0
  | rounds_next n m s d1 d2 m2 s2 :
      rounds s0 n m s → undisturbed (sv_key s0) (sv_store s) d1 → run_pass conf (d1, m) = Ok (d2, m2) →
      sv_answer (KEY_HEARTBEAT_MESSAGE conf) (sv_on d2 s) = Ok s2 → rounds s0 (Datatypes.S n) m2 s2.

(** What holds of a server that answers. *)
Record alive (s0 : S) (n : nat) (m : gmap str Z) (s : S) : Prop := {
  al_key : sv_key s = sv_key s0;
  al_ready : ready s;
  al_counts : counts_ok m;
  al_set : sv_key s0 ∈ rset (sv_store s) (SERVICE_KEYS conf);
  al_hash : hash (sv_store s) (sv_key s0) ≠ ∅;
  al_count : n ≠ 0%nat → m !! sv_key s0 = Some 0;
  al_load : n ≠ 0%nat → is_Some (zset (sv_store s) listed !! sv_key s0) }.

(** One more round goes through. *)
Lemma alive_round s0 n m s d1 : keys_distinct conf → alive s0 n m s → undisturbed (sv_key s0) (sv_store s) d1 →
  ∃ d2 m2 s2, run_pass conf (d1, m) = Ok (d2, m2) ∧ sv_answer (KEY_HEARTBEAT_MESSAGE conf) (sv_on d2 s) = Ok s2 ∧
    alive s0 (Datatypes.S n) m2 s2.
Proof.
  intros Hkd [A1 A2 A3 A4 A5 _ _] [U1 U2 U3].
  destruct (run_pass_ok conf d1 m Hkd U3 A3) as (d2 & m2 & l & Hr & _ & _ & Hc & Hp & _).
  pose proof (run_pass_hash _ _ _ _ Hr) as Hh. pose proof (hash_present d1 _ (U2 A5)) as Hpr.
  destruct (answer_renews conf (sv_on d2 s) (on_ready conf d2 s A2)) as (s2 & load & Ha & Hrd & Hk2 & [R1 R2 R3 R4]).
  rewrite (on_key conf) in Hk2, R3. rewrite (on_store conf) in R1, R2, R3, R4.
  exists d2, m2, s2. split; [done|]. split; [done|]. split.
  - congruence.
  - done.
  - intros x j. rewrite Hc. case_decide; [|by apply A3]. apply count_after_ok, A3.
  - rewrite R1. apply (pr_set _ _ _ _ Hp). split; [by apply U1|]. by rewrite Hpr, andb_false_r.
  - rewrite R2, Hh. by apply U2.
  - intros _. rewrite Hc, decide_True, Hpr by (by apply U1). done.
  - intros _. rewrite R3, A1, lookup_insert_eq. by eexists.
Qed.

Lemma rounds_alive s0 n m s : keys_distinct conf → ready s0 → sv_key s0 ∈ rset (sv_store s0) (SERVICE_KEYS conf) →
  hash (sv_store s0) (sv_key s0) ≠ ∅ → rounds s0 n m s → alive s0 n m s.
Proof.
  intros Hkd Hr Hs Hh. induction 1 as [m Hm|n m s d1 d2 m2 s2 _ IH Hu Hp Ha]; [by split|].
  destruct (alive_round s0 n m s d1 Hkd IH Hu) as (d2' & m2' & s2' & Hp' & Ha' & Hal). rewrite Hp in Hp'. injection Hp' as <- <-.
  rewrite Ha in Ha'. by injection Ha' as <-.
Qed.
End Rounds.

(** ** Properties *)

Section Properties.
Context {T D : Type} `{ServiceLaws D} (conf : CenterServConf) (gconf : GameServer.GameServConf).

Abbreviation Game := (GameServer.GameServer (R := T) (D := D)).
Abbreviation game_rounds := (rounds (SV := game_service gconf) conf).

(** The game server on the store [d]. *)
Definition on_redis (d : D) (s : Game) : Game := sv_on (Service := game_service gconf) d s.


(** C40: A server that was dropped is listed again, for ever: when its key is no
    longer in the set and it answers a heartbeat, its load is back in the list of
    the games, and no pass takes it out, for the passes look at the set only. *)
Theorem dropped_server_listed (s : Game) m : keys_distinct conf → game_agrees conf gconf → game_ready s → counts_ok m →
  (∀ x, x ∈ rset (GameServer.mRedis s) (SERVICE_KEYS conf) → service_key conf x) →
  let k := GameServer.keyWithAddress s in k ∉ rset (GameServer.mRedis s) (SERVICE_KEYS conf) →
  ∃ s' load, GameServer.onMessageFunc gconf (KEY_HEARTBEAT_MESSAGE conf) s = Ok s' ∧
    zset (GameServer.mRedis s') (GAME_KEYS conf) !! k = Some load ∧
    ∀ n, ∃ d' m', Nat.iter n (λ r, r ≫= run_pass conf) (Ok (GameServer.mRedis s', m)) = Ok (d', m') ∧
      k ∉ rset d' (SERVICE_KEYS conf) ∧ zset d' (GAME_KEYS conf) !! k = Some load.
Proof.
  intros Hkd Hag Hr Hm Hl k Hk. pose proof (game_keeps_alive (T := T) conf gconf Hag) as HK.
  destruct (answer_renews conf (D := D) (SV := game_service gconf) s Hr) as (s' & load & Ha & _ & _ & [R1 R2 R3 R4]). exists s', load. split; [exact Ha|].
  cbn [sv_store sv_key game_service] in R1, R3. split; [by rewrite R3, lookup_insert_eq|]. intros n.
  cut (∃ d' m', Nat.iter n (λ r, r ≫= run_pass conf) (Ok (GameServer.mRedis s', m)) = Ok (d', m') ∧
    k ∉ rset d' (SERVICE_KEYS conf) ∧ zset d' (GAME_KEYS conf) !! k = Some load ∧ counts_ok m' ∧
    ∀ x, x ∈ rset d' (SERVICE_KEYS conf) → service_key conf x); [naive_solver|].
  induction n as [|n (d & m1 & IH & I1 & I2 & I3 & I4)]; cbn [Nat.iter nat_rect].
  - exists (GameServer.mRedis s'), m. rewrite R1, R3, lookup_insert_eq. by split_and!.
  - destruct (run_pass_ok conf d m1 Hkd I4 I3) as (d2 & m2 & l & Hp & _ & _ & Hc & Hpr & _). exists d2, m2.
    split; [|split; [|split; [|split]]].
    + setoid_rewrite IH. exact Hp.
    + intros Hx. apply (pr_set _ _ _ _ Hpr) in Hx as [Hx _]. done.
    + rewrite (pr_game _ _ _ _ Hpr), bool_decide_eq_false_2 by done. exact I2.
    + intros x j. rewrite Hc. case_decide; [|by apply I3]. apply count_after_ok, I3.
    + intros x Hx. apply (pr_set _ _ _ _ Hpr) in Hx as [Hx _]. by apply I4.
Qed.
End Properties.

(** ** Witnesses *)

#[export, refine] Instance store_service : ServiceLaws store := {}.
Proof.
  - intros key x s. eexists _, _. split; [done|]. cbn. unfold set_of. cbn.
    split_and!; [by rewrite lookup_insert_eq|intros; by rewrite lookup_insert_ne|done|done].
  - intros key fs s s' r [= <- <-]. by split.
  - intros key secs s s' r. cbn. case_decide; intros [= <- <-]; by split.
  - intros key x n s s' r [= <- <-]. by split.
  - by intros channel msg s s' r [= <- <-].
  - by intros key x s s' r [= <- <-].
  - by intros key x s s' r [= <- <-].
  - intros s k Hk. cbn in *. by rewrite bool_decide_eq_false_2.
Defined.

Definition demo_empty : store := mkStoreWith ∅ ∅ ∅ ∅ ∅ ∅ ∅ [].
Definition demo_game : GameServer.GameServer (R := Z) (D := store) :=
  GameServer.mkGame GameServer.demo_tcp ∅ ∅ demo_empty [].
Definition demo_joined : GameServer.GameServer (R := Z) (D := store) :=
  match GameServer.registerService GameServer.defaultConf (lit "127.0.0.1") 9000 demo_game with Ok s => s | Err _ => demo_game end.

Lemma demo_agrees : game_agrees defaultConf GameServer.defaultConf.
Proof. by split. Qed.

Lemma demo_ready : game_ready demo_game.
Proof. exists 2. vm_compute. reflexivity. Qed.

Definition demo_key : str := lit "Warring:GameServ_:127.0.0.1:9000".

Lemma demo_registered : GameServer.registerService GameServer.defaultConf (lit "127.0.0.1") 9000 demo_game = Ok demo_joined.
Proof. vm_compute. reflexivity. Qed.

Lemma demo_listed x : x ∈ rset (GameServer.mRedis demo_joined) (SERVICE_KEYS defaultConf) → service_key defaultConf x.
Proof.
  assert (rset (GameServer.mRedis demo_joined) (SERVICE_KEYS defaultConf) = {[ demo_key ]}) as -> by (vm_compute; reflexivity).
  intros ->%elem_of_singleton. by split_and!.
Qed.


(** A game server whose key is gone. *)
Definition demo_dropped : GameServer.GameServer (R := Z) (D := store) :=
  GameServer.mkGame GameServer.demo_tcp ∅ ∅ demo_empty demo_key.

Lemma dropped_server_listed_witness :
  ∃ s' load, GameServer.onMessageFunc GameServer.defaultConf (KEY_HEARTBEAT_MESSAGE defaultConf) demo_dropped = Ok s' ∧
    zset (GameServer.mRedis s') (GAME_KEYS defaultConf) !! demo_key = Some load ∧
    ∀ n, ∃ d' m', Nat.iter n (λ r, r ≫= run_pass defaultConf) (Ok (GameServer.mRedis s', ∅)) = Ok (d', m') ∧
      demo_key ∉ rset d' (SERVICE_KEYS defaultConf) ∧ zset d' (GAME_KEYS defaultConf) !! demo_key = Some load.
Proof.
  refine (dropped_server_listed defaultConf GameServer.defaultConf demo_dropped ∅ default_distinct demo_agrees _ _ _ _).
  - exists 2. vm_compute. reflexivity.
  - done.
  - intros x Hx. by apply elem_of_empty in Hx.
  - intros Hx. by apply elem_of_empty in Hx.
Defined.
