(* ===== verification/Subscriber.v ===== *)
(** * The subscription: [PSConsumerFunc] of [GameServer/] and [GatewayServer/]

    A server hears the registry through a subscriber of the Redis client.  A thread
    calls [consume] for ever: it waits for something on the channel and runs the
    function for it, and every exception of the client is caught, those of the
    commands the function sends included.  The registry and the servers between
    their messages are in [Registry]. *)

From S2P Require Import Prelude.
From S2P Require Import TcpServer.
From S2P Require Import Broker.
From S2P Require GameServer GatewayServer.
From S2P Require Import CenterServer.
From S2P Require Import Registry.

Local Open Scope Z_scope.

(** The exceptions that are caught. *)
Inductive error := TimeoutError | Error.

(** ** The loop *)

Section Consumer.
(** [MsgType] is the client's; a function may throw in the middle of its work. *)
Context {S MsgType : Type}.
Context (onMessageFunc : str → str → S → res (S * option error)).
Context (onPMessageFunc : str → str → str → S → res (S * option error)).
Context (onMetaFunc : MsgType → option str → Z → S → res (S * option error)).

(** What [consume] finds. *)
Inductive found :=
  | Message (channel msg : str)
  | PMessage (pattern channel msg : str)
  | Meta (type : MsgType) (channel : option str) (num : Z)
  | Silence          (* the time is over *)
  | Broken.          (* the connection is gone *)

Definition consume (f : found) (s : S) : res (S * option error) :=
  match f with
  | Message channel msg => onMessageFunc channel msg s
  | PMessage pattern channel msg => onPMessageFunc pattern channel msg s
  | Meta type channel num => onMetaFunc type channel num s
  | Silence => Ok (s, Some TimeoutError)
  | Broken => Ok (s, Some Error)
  end.

(** One turn of the [while]. *)
Definition PSConsumer_pass (f : found) (s : S) : res S :=
  '(s, thrown) ← consume f s;
  match thrown with
  | Some TimeoutError => Ok s
  | Some Error => Ok s
  | None => Ok s
  end.

Fixpoint PSConsumerFunc (fs : list found) (s : S) : res S :=
  match fs with [] => Ok s | f :: fs => s ← PSConsumer_pass f s; PSConsumerFunc fs s end.
End Consumer.
Arguments found : clear implicits.

(** ** The functions of the two servers *)

Definition of_redis (r : redis_error) : error := Error.

(** [expire] and [zadd], of which either may throw. *)
Definition renew {D} `{Redis D} (listed key : str) (secs num : Z) (d : D) : D * option error :=
  let '(d, r) := expire key secs d in
  match r with
  | inr e => (d, Some (of_redis e))
  | inl _ => let '(d, r) := zadd listed key num d in (d, match r with inr e => Some (of_redis e) | inl _ => None end)
  end.

Section Functions.
Context {T D : Type} `{Redis D} {MsgType : Type}.

Section Game.
Context (conf : GameServer.GameServConf).
Abbreviation Game := (GameServer.GameServer (R := T) (D := D)).

Definition game_onMessageFunc (channel msg : str) (s : Game) : res (Game * option error) :=
  if decide (msg = GameServer.BROKER_GAME_KEY_HEARTBEAT_MESSAGE conf) then
    activeNum ← getActiveConnectionNum (GameServer.mTcpServer s);
    let '(d, thrown) := renew (GameServer.GAME_KEYS conf) (GameServer.keyWithAddress s) (GameServer.ttl conf) activeNum (GameServer.mRedis s) in
    Ok (GameServer.mkGame (GameServer.mTcpServer s) (GameServer.mMessageTypes s) (GameServer.mSceneAddresses s) d
          (GameServer.keyWithAddress s), thrown)
  else match msg with [] => Err OutOfBounds | _ => Ok (s, None) end.
Definition game_onPMessageFunc (pattern channel msg : str) (s : Game) : res (Game * option error) := Ok (s, None).
Definition game_onMetaFunc (type : MsgType) (channel : option str) (num : Z) (s : Game) : res (Game * option error) := Ok (s, None).

Definition game_PSConsumerFunc : list (found MsgType) → Game → res Game :=
  PSConsumerFunc game_onMessageFunc game_onPMessageFunc game_onMetaFunc.
End Game.

Section Gateway.
Context (conf : GatewayServer.GatewayServConf).
Abbreviation Gateway := (GatewayServer.GatewayServer (R := T) (D := D)).

Definition gateway_onMessageFunc (channel msg : str) (s : Gateway) : res (Gateway * option error) :=
  if decide (msg = GatewayServer.BROKER_GATEWAY_KEY_HEARTBEAT_MESSAGE conf) then
    activeNum ← getActiveConnectionNum (GatewayServer.mTcpServer s);
    let '(d, thrown) := renew (GatewayServer.GATEWAY_KEYS conf) (GatewayServer.keyWithAddress s) (GatewayServer.ttl conf) activeNum
                          (GatewayServer.mRedis s) in
    Ok (GatewayServer.mkGateway (GatewayServer.mTcpServer s) (GatewayServer.mMessageTypes s) d (GatewayServer.keyWithAddress s), thrown)
  else match msg with [] => Err OutOfBounds | _ => Ok (s, None) end.
Definition gateway_onPMessageFunc (pattern channel msg : str) (s : Gateway) : res (Gateway * option error) := Ok (s, None).
Definition gateway_onMetaFunc (type : MsgType) (channel : option str) (num : Z) (s : Gateway) : res (Gateway * option error) := Ok (s, None).

Definition gateway_PSConsumerFunc : list (found MsgType) → Gateway → res Gateway :=
  PSConsumerFunc gateway_onMessageFunc gateway_onPMessageFunc gateway_onMetaFunc.
End Gateway.
End Functions.

(** ** What a subscription promises

    The answers of [Registry] are those of the functions, when nothing throws. *)
Class Listens {D S MsgType : Type} {SV : Service D S}
    (onM : str → str → S → res (S * option error)) (onP : str → str → str → S → res (S * option error))
    (onI : MsgType → option str → Z → S → res (S * option error)) (heartbeat : str) : Prop := {
  on_message channel msg s s' : sv_answer msg s = Ok s' → onM channel msg s = Ok (s', None);
  on_other msg s : msg ≠ heartbeat → msg ≠ [] → sv_answer msg s = Ok s;
  on_pmessage pattern channel msg s : onP pattern channel msg s = Ok (s, None);
  on_meta type channel num s : onI type channel num s = Ok (s, None) }.

Lemma renew_ok {D} `{Redis D} listed key secs n (d d1 d2 : D) b m :
  expire key secs d = (d1, inl b) → zadd listed key n d1 = (d2, inl m) → renew listed key secs n d = (d2, None).
Proof. unfold renew. by intros -> ->. Qed.

Section Instances.
Context {T D : Type} `{ServiceLaws D} {MsgType : Type} (conf : CenterServConf).

Lemma game_listens gconf : game_agrees conf gconf →
  Listens (SV := game_service gconf) (game_onMessageFunc (T := T) (D := D) gconf) game_onPMessageFunc
    (game_onMetaFunc (MsgType := MsgType)) (KEY_HEARTBEAT_MESSAGE conf).
Proof.
  intros [_ Em _ _]. split; try done.
  - intros channel msg s s'. cbn [sv_answer game_service]. unfold GameServer.onMessageFunc, game_onMessageFunc, uncaught, renew.
    case_decide; [|destruct msg; [done|congruence]]. destruct (getActiveConnectionNum _); [|done]. cbn [mbind res_bind].
    destruct (expire _ _ _) as [d1 [b|]]; [|done]. cbn [mbind res_bind].
    destruct (zadd _ _ _ d1) as [d2 [m|]]; [|done]. cbn [mbind res_bind]. by intros [= <-].
  - intros msg s Hne Hn. cbn [sv_answer game_service]. unfold GameServer.onMessageFunc. rewrite decide_False by congruence.
    by destruct msg.
Qed.

Lemma gateway_listens gconf : gateway_agrees conf gconf →
  Listens (SV := gateway_service gconf) (gateway_onMessageFunc (T := T) (D := D) gconf) gateway_onPMessageFunc
    (gateway_onMetaFunc (MsgType := MsgType)) (KEY_HEARTBEAT_MESSAGE conf).
Proof.
  intros [_ Em _ _]. split; try done.
  - intros channel msg s s'. cbn [sv_answer gateway_service]. unfold GatewayServer.onMessageFunc, gateway_onMessageFunc, uncaught, renew.
    case_decide; [|destruct msg; [done|congruence]]. destruct (getActiveConnectionNum _); [|done]. cbn [mbind res_bind].
    destruct (expire _ _ _) as [d1 [b|]]; [|done]. cbn [mbind res_bind].
    destruct (zadd _ _ _ d1) as [d2 [m|]]; [|done]. cbn [mbind res_bind]. by intros [= <-].
  - intros msg s Hne Hn. cbn [sv_answer gateway_service]. unfold GatewayServer.onMessageFunc. rewrite decide_False by congruence.
    by destruct msg.
Qed.
End Instances.

(** ** A server that listens *)

(** The messages that come before the connection breaks: a subscriber that has
    thrown another error than a time-out must not be used any more. *)
Fixpoint heard {MsgType} (fs : list (found MsgType)) : list str :=
  match fs with
  | [] => []
  | Message _ msg :: fs => msg :: heard fs
  | Broken :: _ => []
  | _ :: fs => heard fs
  end.

(** Nothing is found on a connection that is gone. *)
Fixpoint lasting {MsgType} (fs : list (found MsgType)) : Prop :=
  match fs with
  | [] => True
  | Broken :: fs => Forall (λ f, f = Broken) fs
  | _ :: fs => lasting fs
  end.

Section Listening.
Context {D S MsgType : Type} `{ServiceLaws D} {SV : Service D S} (conf : CenterServConf) (listed : str) (ready : S → Prop).
Context `{!KeepsAlive conf S listed ready}.
Context (onM : str → str → S → res (S * option error)) (onP : str → str → str → S → res (S * option error)).
Context (onI : MsgType → option str → Z → S → res (S * option error)) `{!Listens onM onP onI (KEY_HEARTBEAT_MESSAGE conf)}.

(** What the answers to some messages do to a server. *)
Record attends (ms : list str) (s s' : S) : Prop := {
  at_key : sv_key s' = sv_key s;
  at_ready : ready s';
  at_sets k : rset (sv_store s') k = rset (sv_store s) k;
  at_hashes k : hash (sv_store s') k = hash (sv_store s) k;
  at_lists l : l ≠ listed → zset (sv_store s') l = zset (sv_store s) l;
  at_others x : x ≠ sv_key s → zset (sv_store s') listed !! x = zset (sv_store s) listed !! x;
  at_heard : KEY_HEARTBEAT_MESSAGE conf ∈ ms → is_Some (zset (sv_store s') listed !! sv_key s);
  at_silent : KEY_HEARTBEAT_MESSAGE conf ∉ ms → s' = s }.

Lemma attends_nothing s : ready s → attends [] s s.
Proof. intros Hr. split; try done. intros Hm. by apply not_elem_of_nil in Hm. Qed.

Lemma attends_next m ms s s1 s2 : attends [m] s s1 → attends ms s1 s2 → attends (m :: ms) s s2.
Proof.
  intros [K1 R1 S1 H1 L1 O1 A1 N1] [K2 R2 S2 H2 L2 O2 A2 N2]. split; [congruence|done| | | | | |].
  - intros k. by rewrite S2.
  - intros k. by rewrite H2.
  - intros l Hl. rewrite L2 by done. by apply L1.
  - intros x Hx. rewrite O2 by congruence. by apply O1.
  - intros Hh. destruct (decide (KEY_HEARTBEAT_MESSAGE conf ∈ ms)) as [Hi|Hi]; [rewrite <- K1; by apply A2|].
    rewrite (N2 Hi). apply A1. rewrite elem_of_cons in *. naive_solver.
  - intros Hh. rewrite N2 by set_solver. apply N1. set_solver.
Qed.

Lemma pass_message channel msg s : ready s → msg ≠ [] →
  ∃ s', PSConsumer_pass onM onP onI (Message channel msg) s = Ok s' ∧ attends [msg] s s'.
Proof.
  intros Hr Hn. unfold PSConsumer_pass. cbn [consume].
  destruct (decide (msg = KEY_HEARTBEAT_MESSAGE conf)) as [->|Hne].
  - destruct (answer_renews conf s Hr) as (s' & load & Ha & Hr' & Hk & [R1 R2 R3 R4]).
    rewrite (on_message channel _ _ _ Ha). exists s'. split; [done|]. split; try done.
    + intros x Hx. by rewrite R3, lookup_insert_ne.
    + intros _. rewrite R3, lookup_insert_eq. by eexists.
    + intros Hx. set_solver.
  - rewrite (on_message channel _ _ _ (on_other msg s Hne Hn)). exists s. split; [done|]. split; try done. set_solver.
Qed.

Lemma broken_silent fs s : Forall (λ f, f = Broken) fs → PSConsumerFunc onM onP onI fs s = Ok s.
Proof. induction 1 as [|f fs -> _ IH]; [done|]. cbn. exact IH. Qed.

End Listening.

(** ** Witness: a game server that hears two heartbeats and loses its connection *)

Definition demo_found : list (found Z) :=
  let channel := lit "channel" in
  [Meta 0 (Some channel) 1; Message channel (KEY_HEARTBEAT_MESSAGE defaultConf); Silence; Message channel (lit "+Warring:GameServ_2");
   Message channel (KEY_HEARTBEAT_MESSAGE defaultConf); Broken; Broken].

