(* ===== verification/Conf.v ===== *)
(** * The configurations: [*/{Login,Game,Gateway,DB,Center}ServConf.{h,cpp}]

    The connection settings of the five programs and what they hand to the Redis
    client; the other members of the configurations are in the files of their
    programs.  At the end, what the programs take for granted of each other. *)

From S2P Require Import Prelude LoginServer GameServer GatewayServer DBServer CenterServer.

Local Open Scope Z_scope.

(** [sw::redis::ConnectionOptions] and [ConnectionPoolOptions], the members set. *)
Record ConnectionOptions := mkConnOpts { host : str; port : Z; password : str; db : Z }.
Record ConnectionPoolOptions := mkPoolOpts { size : Z }.

(** The client, which may throw [sw::redis::Error]; [readConf] makes one and
    reads nothing with it. *)
Abbreviation client := (ConnectionOptions → option fault).

Definition try_client (make : client) (connOpts : ConnectionOptions) : bool :=
  match make connOpts with Some _ => false | None => true end.

Module LoginConn.
Record t := mk {
  BROKER_CONN_HOST : str; BROKER_CONN_PORT : Z; BROKER_CONN_PASSWORD : str; BROKER_CONN_DB : Z;
  BROKER_CONN_POOL_SIZE : Z }.
(** One connection for each thread of the server and one for the consumer. *)
Definition default (c : LoginServConf) : t := mk (lit "127.0.0.1") 6379 [] 0 (LoginServer.SERVER_IO_THREAD_NUM c + 1).
Definition getBrokerConnOpts (c : t) : ConnectionOptions :=
  mkConnOpts (BROKER_CONN_HOST c) (BROKER_CONN_PORT c) (BROKER_CONN_PASSWORD c) (BROKER_CONN_DB c).
Definition getBrokerConnPoolOpts (c : t) : ConnectionPoolOptions := mkPoolOpts (BROKER_CONN_POOL_SIZE c).
Definition readConf (make : client) (connOpts : ConnectionOptions) (confKey : str) : bool := try_client make connOpts.
End LoginConn.

Module GameConn.
Record t := mk {
  BROKER_CONN_HOST : str; BROKER_CONN_PORT : Z; BROKER_CONN_PASSWORD : str; BROKER_CONN_DB : Z;
  BROKER_CONN_POOL_SIZE : Z;
  REGISTRY_CONN_HOST : str; REGISTRY_CONN_PORT : Z; REGISTRY_CONN_PASSWORD : str; REGISTRY_CONN_DB : Z;
  REGISTRY_CONN_POOL_SIZE : Z }.
Definition default (SERVER_IO_THREAD_NUM : Z) : t :=
  mk (lit "127.0.0.1") 6379 [] 0 (SERVER_IO_THREAD_NUM + 1) (lit "127.0.0.1") 6379 [] 0 1.
Definition getBrokerConnOpts (c : t) : ConnectionOptions :=
  mkConnOpts (BROKER_CONN_HOST c) (BROKER_CONN_PORT c) (BROKER_CONN_PASSWORD c) (BROKER_CONN_DB c).
Definition getBrokerConnPoolOpts (c : t) : ConnectionPoolOptions := mkPoolOpts (BROKER_CONN_POOL_SIZE c).
Definition getRegistryConnOpts (c : t) : ConnectionOptions :=
  mkConnOpts (REGISTRY_CONN_HOST c) (REGISTRY_CONN_PORT c) (REGISTRY_CONN_PASSWORD c) (REGISTRY_CONN_DB c).
Definition getRegistryConnPoolOpts (c : t) : ConnectionPoolOptions := mkPoolOpts (REGISTRY_CONN_POOL_SIZE c).
Definition readConf (make : client) (connOpts : ConnectionOptions) (confKey : str) : bool := try_client make connOpts.
End GameConn.

Module GatewayConn.
Record t := mk {
  BROKER_CONN_HOST : str; BROKER_CONN_PORT : Z; BROKER_CONN_PASSWORD : str; BROKER_CONN_DB : Z;
  BROKER_CONN_POOL_SIZE : Z;
  REGISTRY_CONN_HOST : str; REGISTRY_CONN_PORT : Z; REGISTRY_CONN_PASSWORD : str; REGISTRY_CONN_DB : Z;
  REGISTRY_CONN_POOL_SIZE : Z }.
Definition default (SERVER_IO_THREAD_NUM : Z) : t :=
  mk (lit "127.0.0.1") 6379 [] 0 (SERVER_IO_THREAD_NUM + 1) (lit "127.0.0.1") 6379 [] 0 1.
Definition getBrokerConnOpts (c : t) : ConnectionOptions :=
  mkConnOpts (BROKER_CONN_HOST c) (BROKER_CONN_PORT c) (BROKER_CONN_PASSWORD c) (BROKER_CONN_DB c).
Definition getBrokerConnPoolOpts (c : t) : ConnectionPoolOptions := mkPoolOpts (BROKER_CONN_POOL_SIZE c).
Definition getRegistryConnOpts (c : t) : ConnectionOptions :=
  mkConnOpts (REGISTRY_CONN_HOST c) (REGISTRY_CONN_PORT c) (REGISTRY_CONN_PASSWORD c) (REGISTRY_CONN_DB c).
Definition getRegistryConnPoolOpts (c : t) : ConnectionPoolOptions := mkPoolOpts (REGISTRY_CONN_POOL_SIZE c).
Definition readConf (make : client) (connOpts : ConnectionOptions) (confKey : str) : bool := try_client make connOpts.
End GatewayConn.

Module DBConn.
Record t := mk {
  BROKER_CONN_HOST : str; BROKER_CONN_PORT : Z; BROKER_CONN_PASSWORD : str; BROKER_CONN_DB : Z;
  BROKER_CONN_POOL_SIZE : Z;
  CACHE_CONN_HOST : str; CACHE_CONN_PORT : Z; CACHE_CONN_PASSWORD : str; CACHE_CONN_DB : Z;
  CACHE_CONN_POOL_SIZE : Z;
  SERVICE_REGISTRY_CONN_HOST : str; SERVICE_REGISTRY_CONN_PORT : Z; SERVICE_REGISTRY_CONN_PASSWORD : str;
  SERVICE_REGISTRY_CONN_DB : Z; SERVICE_REGISTRY_CONN_POOL_SIZE : Z;
  MONGODB_URI : str; MONGODB_DB_NAME : str;
  MONGODB_COLLECTION_ACCOUNT_NAME : str; MONGODB_COLLECTION_CHARACTER_NAME : str;
  MONGODB_COLLECTION_XXX_NAME : str; MONGODB_COLLECTION_XXXX_NAME : str }.
Definition default : t :=
  mk (lit "127.0.0.1") 6379 [] 0 16 (lit "127.0.0.1") 6379 [] 0 16 (lit "127.0.0.1") 6379 [] 0 1
    (lit "mongodb://192.168.119.128:27017/?minPoolSize=8&maxPoolSize=8") (lit "warring")
    (lit "accounts") (lit "characters") (lit "XXX") (lit "XXXX").
Definition getBrokerConnOpts (c : t) : ConnectionOptions :=
  mkConnOpts (BROKER_CONN_HOST c) (BROKER_CONN_PORT c) (BROKER_CONN_PASSWORD c) (BROKER_CONN_DB c).
Definition getBrokerConnPoolOpts (c : t) : ConnectionPoolOptions := mkPoolOpts (BROKER_CONN_POOL_SIZE c).
Definition getCacheConnOpts (c : t) : ConnectionOptions :=
  mkConnOpts (CACHE_CONN_HOST c) (CACHE_CONN_PORT c) (CACHE_CONN_PASSWORD c) (CACHE_CONN_DB c).
Definition getCacheConnPoolOpts (c : t) : ConnectionPoolOptions := mkPoolOpts (CACHE_CONN_POOL_SIZE c).
Definition getServRegConnOpts (c : t) : ConnectionOptions :=
  mkConnOpts (SERVICE_REGISTRY_CONN_HOST c) (SERVICE_REGISTRY_CONN_PORT c) (SERVICE_REGISTRY_CONN_PASSWORD c)
    (SERVICE_REGISTRY_CONN_DB c).
Definition getServRegConnPoolOpts (c : t) : ConnectionPoolOptions := mkPoolOpts (SERVICE_REGISTRY_CONN_POOL_SIZE c).
Definition readConf (make : client) (connOpts : ConnectionOptions) (confKey : str) : bool := try_client make connOpts.
End DBConn.

Module CenterConn.
Record t := mk {
  REGISTRY_CONN_HOST : str; REGISTRY_CONN_PORT : Z; REGISTRY_CONN_PASSWORD : str; REGISTRY_CONN_DB : Z;
  REGISTRY_CONN_POOL_SIZE : Z }.
Definition default : t := mk (lit "127.0.0.1") 6379 [] 0 1.
Definition getServRegConnOpts (c : t) : ConnectionOptions :=
  mkConnOpts (REGISTRY_CONN_HOST c) (REGISTRY_CONN_PORT c) (REGISTRY_CONN_PASSWORD c) (REGISTRY_CONN_DB c).
Definition getServRegConnPoolOpts (c : t) : ConnectionPoolOptions := mkPoolOpts (REGISTRY_CONN_POOL_SIZE c).
Definition readConf (make : client) (connOpts : ConnectionOptions) (confKey : str) : bool := try_client make connOpts.
End CenterConn.

(** What one program writes is where the other looks for it: the streams of the
    database server, the types of the messages it handles, the sets of the
    registry, the message of its heartbeat, and one Redis for all. *)
Lemma programs_agree :
  let login := LoginServer.defaultConf in let game := GameServer.defaultConf in
  let gateway := GatewayServer.defaultConf in let database := DBServer.defaultConf in
  let center := CenterServer.defaultConf in
  LoginServer.BROKER_DB_KEY login = DBServer.BROKER_DB_4_LOGIN_KEY database ∧
  LoginServer.BROKER_DB_GROUP login = DBServer.BROKER_DB_GROUP database ∧
  LoginServer.MESSAGE_LOGIN_LOGIN_MSG login = DBServer.MESSAGE_LOGIN_LOGIN_MSG database ∧
  LoginServer.MESSAGE_LOGIN_LOGIN_CHARACTER_MSG login = DBServer.MESSAGE_LOGIN_LOGIN_CHARACTER_MSG database ∧
  GameServer.BROKER_DB_KEY game = DBServer.BROKER_DB_4_GAME_KEY database ∧
  GameServer.MESSAGE_GAME_CHARACTER_MSG game = DBServer.MESSAGE_GAME_CHARACTER_MSG database ∧
  GameServer.SERVICE_DS_PREFIX game = DBServer.SERVICE_DS_PREFIX database ∧
  (GameServer.SERVICE_KEYS game = CenterServer.SERVICE_KEYS center ∧ GameServer.GAME_KEYS game = CenterServer.GAME_KEYS center ∧
   GameServer.BROKER_GAME_KEY_HEARTBEAT_MESSAGE game = CenterServer.KEY_HEARTBEAT_MESSAGE center) ∧
  (GatewayServer.SERVICE_KEYS gateway = CenterServer.SERVICE_KEYS center ∧
   GatewayServer.GATEWAY_KEYS gateway = CenterServer.GATEWAY_KEYS center ∧
   GatewayServer.GATEWAY_KEYS gateway = DBServer.GATEWAY_KEYS database ∧
   GatewayServer.BROKER_GATEWAY_KEY_HEARTBEAT_MESSAGE gateway = CenterServer.KEY_HEARTBEAT_MESSAGE center) ∧
  (LoginConn.getBrokerConnOpts (LoginConn.default login) = DBConn.getBrokerConnOpts DBConn.default ∧
   GameConn.getBrokerConnOpts (GameConn.default 4) = DBConn.getBrokerConnOpts DBConn.default ∧
   GameConn.getRegistryConnOpts (GameConn.default 4) = CenterConn.getServRegConnOpts CenterConn.default ∧
   GatewayConn.getRegistryConnOpts (GatewayConn.default 4) = CenterConn.getServRegConnOpts CenterConn.default ∧
   DBConn.getServRegConnOpts DBConn.default = CenterConn.getServRegConnOpts CenterConn.default).
Proof. by vm_compute. Qed.
